(** * truenas_pyos: ACL codecs, ACL xattr access, file handles and the
    filesystem iterator, embedded from the C sources.

    The development follows the layout of the extension module:

    - [CInt], [Wire]: C integer conversions and the byte-order helpers;
    - [Py]: the slice of the CPython runtime the sources lean on
      (exceptions, [PyLong_AsLong], enum construction, UTF-8 decoding,
      [list.sort]);
    - [NFS4]: nfs4acl.c;  [POSIX]: posixacl.c;
    - [Kernel]: the system-call boundary, as a script of kernel replies
      consumed in order together with the trace of calls made;
    - [AclXattr]: acl.c;  [Fhandle]: fhandle.c;  [FsIter]: fsiter.c.

    Definitions come first; the facts proved about them follow. *)

From Stdlib Require Import ZArith List String Bool Lia Permutation Sorted.
From Stdlib Require Import Strings.Byte.
Import ListNotations.
Open Scope Z_scope.

(* ================================================================== *)
(** * C integers *)
(* ================================================================== *)

Module CInt.

(** [(uint32_t)v], [(uint16_t)v]: conversion to an unsigned type wraps
    modulo 2^w. *)
Definition u32 (v : Z) : Z := v mod 4294967296.
Definition u16 (v : Z) : Z := v mod 65536.
Definition u64 (v : Z) : Z := v mod 18446744073709551616.

(** Arithmetic on an [int].  Overflow of a signed type is undefined in C;
    it is rendered as the two's-complement wrap of the compiled code, and
    the statements about [int] counters assume it does not occur. *)
Definition INT_MAX : Z := 2147483647.
Definition s32 (v : Z) : Z := (v + 2147483648) mod 4294967296 - 2147483648.

Definition UINT32_MAX : Z := 4294967295.
Definition UINT64_MAX : Z := 18446744073709551615.
Definition LONG_MIN : Z := -9223372036854775808.
Definition LONG_MAX : Z := 9223372036854775807.

Definition is_u32 (v : Z) : bool := (0 <=? v) && (v <=? UINT32_MAX).
Definition is_u16 (v : Z) : bool := (0 <=? v) && (v <? 65536).
Definition is_long (v : Z) : bool := (LONG_MIN <=? v) && (v <=? LONG_MAX).

(** [x & m] tested as a C truth value. *)
Definition has_bits (x m : Z) : bool := negb (Z.land x m =? 0).

(** [~m] where [m] is an [int] constant that is then combined with a
    [uint32_t]: the complement is taken on 32 bits. *)
Definition not32 (m : Z) : Z := u32 (Z.lnot m).

End CInt.

(* ================================================================== *)
(** * Bytes on the wire *)
(* ================================================================== *)

Module Wire.
Import CInt.

Definition bytes := list byte.

Definition Z_of_byte (b : byte) : Z := Z.of_N (Byte.to_N b).

Definition byte_of_Z (z : Z) : byte :=
  match Byte.of_N (Z.to_N (z mod 256)) with
  | Some b => b
  | None => x00
  end.

Definition blen (d : bytes) : Z := Z.of_nat (List.length d).

(** The [n] bytes found at byte offset [off]; fewer when the buffer ends
    before.  Callers bound-check first, as the C code does. *)
Definition slice (d : bytes) (off : Z) (n : nat) : bytes :=
  firstn n (skipn (Z.to_nat off) d).

(** [htobe32] then store / load then [be32toh]. *)
Definition write_be32 (v : Z) : bytes :=
  [ byte_of_Z (Z.shiftr v 24); byte_of_Z (Z.shiftr v 16);
    byte_of_Z (Z.shiftr v 8); byte_of_Z v ].

Definition read_be32 (d : bytes) (off : Z) : Z :=
  match slice d off 4 with
  | [b3; b2; b1; b0] =>
      Z.lor (Z.shiftl (Z_of_byte b3) 24)
        (Z.lor (Z.shiftl (Z_of_byte b2) 16)
           (Z.lor (Z.shiftl (Z_of_byte b1) 8) (Z_of_byte b0)))
  | _ => 0
  end.

(** [write_le32], [read_le32], [write_le16], [read_le16] of posixacl.c. *)
Definition write_le32 (v : Z) : bytes :=
  [ byte_of_Z v; byte_of_Z (Z.shiftr v 8);
    byte_of_Z (Z.shiftr v 16); byte_of_Z (Z.shiftr v 24) ].

Definition read_le32 (d : bytes) (off : Z) : Z :=
  match slice d off 4 with
  | [b0; b1; b2; b3] =>
      Z.lor (Z.shiftl (Z_of_byte b3) 24)
        (Z.lor (Z.shiftl (Z_of_byte b2) 16)
           (Z.lor (Z.shiftl (Z_of_byte b1) 8) (Z_of_byte b0)))
  | _ => 0
  end.

Definition write_le16 (v : Z) : bytes :=
  [ byte_of_Z v; byte_of_Z (Z.shiftr v 8) ].

Definition read_le16 (d : bytes) (off : Z) : Z :=
  match slice d off 2 with
  | [b0; b1] => Z.lor (Z.shiftl (Z_of_byte b1) 8) (Z_of_byte b0)
  | _ => 0
  end.

(** The value of four bytes, most significant first, and of two. *)
Definition join32 (b3 b2 b1 b0 : byte) : Z :=
  Z.lor (Z.shiftl (Z_of_byte b3) 24)
    (Z.lor (Z.shiftl (Z_of_byte b2) 16)
       (Z.lor (Z.shiftl (Z_of_byte b1) 8) (Z_of_byte b0))).

Definition join16 (b1 b0 : byte) : Z :=
  Z.lor (Z.shiftl (Z_of_byte b1) 8) (Z_of_byte b0).

End Wire.

(* ================================================================== *)
(** * The CPython runtime, as far as the sources use it *)
(* ================================================================== *)

Module Py.
Import CInt.

(** Exceptions the extension raises; the payload is the message, or the
    [errno] for [OSError] raised with [PyErr_SetFromErrno]. *)
Inductive exc : Type :=
| ValueError (msg : string)
| TypeError (msg : string)
| OverflowError
| RuntimeError (msg : string)
| OSErrorErrno (errno : Z)
| OSErrorMsg (msg : string)
| IteratorRestoreError (depth : Z) (path : string)
| StopIteration
| Interrupted
| UnicodeDecodeError
| SystemError.

Inductive result (A : Type) : Type :=
| Ok (a : A)
| Raise (e : exc).
Arguments Ok {A} a.
Arguments Raise {A} e.

Definition bind {A B} (r : result A) (k : A -> result B) : result B :=
  match r with
  | Ok a => k a
  | Raise e => Raise e
  end.

Definition is_ValueError {A} (r : result A) : bool :=
  match r with
  | Raise (ValueError _) => true
  | _ => false
  end.

(** [PyLong_AsLong] on a Python [int]: the value when it fits a C
    [long], [OverflowError] otherwise. *)
Definition PyLong_AsLong (v : Z) : result Z :=
  if is_long v then Ok v else Raise OverflowError.

(** Calling an [IntEnum] class on a value returns the member with that
    value, and raises [ValueError] when there is none. *)
Definition IntEnum_call (members : list Z) (v : Z) : result Z :=
  if existsb (Z.eqb v) members then Ok v
  else Raise (ValueError "not a valid enum member"%string).

(** Calling an [IntFlag] class on a value keeps unknown bits. *)
Definition IntFlag_call (v : Z) : result Z := Ok v.

(** A call into Python made while an exception is already set.  The
    sources make such calls: they call one enum class after another and
    test the results only afterwards.  A release build of CPython runs
    the call all the same, and the check of its result finds the
    exception still set and reports SystemError in place of a result.
    [after earlier this] is the outcome of the call [this] made after
    the call [earlier] of the same function. *)
Definition after {A B} (earlier : result A) (this : result B) : result B :=
  match earlier with
  | Ok _ => this
  | Raise _ => Raise SystemError
  end.

(** Well-formed UTF-8 (RFC 3629): a run of encodings of the shapes
    00..7F;  C2..DF 80..BF;  E0 A0..BF 80..BF;  E1..EC 80..BF 80..BF;
    ED 80..9F 80..BF;  EE..EF 80..BF 80..BF;  F0 90..BF 80..BF 80..BF;
    F1..F3 80..BF 80..BF 80..BF;  F4 80..8F 80..BF 80..BF.
    [utf8_scan more lo hi s] reads [s] when [more] bytes of the current
    encoding are still to come, the next of them within [lo..hi]. *)
Fixpoint utf8_scan (more : nat) (lo hi : Z) (s : string) : bool :=
  match s with
  | EmptyString => match more with O => true | S _ => false end
  | String c rest =>
      let b := Z.of_N (Ascii.N_of_ascii c) in
      match more with
      | S more' => (lo <=? b) && (b <=? hi) && utf8_scan more' 0x80 0xBF rest
      | O =>
          if b <=? 0x7F then utf8_scan 0 0x80 0xBF rest
          else if (0xC2 <=? b) && (b <=? 0xDF) then utf8_scan 1 0x80 0xBF rest
          else if b =? 0xE0 then utf8_scan 2 0xA0 0xBF rest
          else if b =? 0xED then utf8_scan 2 0x80 0x9F rest
          else if (0xE1 <=? b) && (b <=? 0xEF) then utf8_scan 2 0x80 0xBF rest
          else if b =? 0xF0 then utf8_scan 3 0x90 0xBF rest
          else if (0xF1 <=? b) && (b <=? 0xF3) then utf8_scan 3 0x80 0xBF rest
          else if b =? 0xF4 then utf8_scan 3 0x80 0x8F rest
          else false
      end
  end.

Definition utf8_valid (s : string) : bool := utf8_scan 0 0x80 0xBF s.

(** [PyUnicode_FromString]: the bytes of a C string decoded as UTF-8,
    strictly.  A [str] is identified with its UTF-8 bytes. *)
Definition PyUnicode_FromString (s : string) : result string :=
  if utf8_valid s then Ok s else Raise UnicodeDecodeError.

(** [PyErr_SetString(type, message)] builds the message with
    [PyUnicode_FromString]; when that fails, the decoding error is the
    exception left set. *)
Definition PyErr_SetString (type : string -> exc) (message : string) : exc :=
  if utf8_valid message then type message else UnicodeDecodeError.

(** Rich-comparison operators. *)
Inductive cmpop : Type := Py_LT | Py_LE | Py_EQ | Py_NE | Py_GT | Py_GE.

Definition cmp_to_bool (op : cmpop) (cmp : Z) : bool :=
  match op with
  | Py_LT => cmp <? 0
  | Py_LE => cmp <=? 0
  | Py_EQ => cmp =? 0
  | Py_NE => negb (cmp =? 0)
  | Py_GT => cmp >? 0
  | Py_GE => cmp >=? 0
  end.

(** [PyList_Sort]: CPython's [list.sort] is stable and decides the order
    with [<] alone; a comparison that raises aborts the sort.  It is
    rendered as an insertion sort that places each element after the
    elements it is not smaller than. *)
Section Sort.
Context {A : Type}.
Variable lt : A -> A -> result bool.

Fixpoint insert (x : A) (l : list A) : result (list A) :=
  match l with
  | [] => Ok [x]
  | y :: l' =>
      bind (lt x y) (fun b =>
        if b then Ok (x :: y :: l')
        else bind (insert x l') (fun r => Ok (y :: r)))
  end.

(** The list is consumed left to right; [acc] is the sorted prefix. *)
Fixpoint sort_from (acc : list A) (l : list A) : result (list A) :=
  match l with
  | [] => Ok acc
  | x :: l' => bind (insert x acc) (fun acc' => sort_from acc' l')
  end.

Definition PyList_Sort (l : list A) : result (list A) := sort_from [] l.
End Sort.

End Py.

(* ================================================================== *)
(** * File status *)
(* ================================================================== *)

Module Stat.

(** What [fstat] reports for a descriptor: the [st_mode], or [errno]. *)
Inductive fstat_result : Type :=
| StatOk (st_mode : Z)
| StatErr (errno : Z).

(** [S_ISDIR]: [(mode & S_IFMT) == S_IFDIR], octal 0170000 and 0040000. *)
Definition S_IFMT : Z := 61440.
Definition S_IFDIR : Z := 16384.
Definition S_IFREG : Z := 32768.
Definition S_ISDIR (st_mode : Z) : bool := Z.land st_mode S_IFMT =? S_IFDIR.

End Stat.

(* ================================================================== *)
(** * nfs4acl.c: the NFSv4 ACL codec *)
(* ================================================================== *)

Module NFS4.
Import CInt Wire Py Stat.

Definition NFS4_HDR_SZ : Z := 8.
Definition NFS4_ACE_SZ : Z := 20.
Definition NFS4_HDR_WORDS : Z := 2.
Definition NFS4_ACE_WORDS : Z := 5.

Definition NFS4_ACL_WHO_NAMED : Z := 0.
Definition NFS4_ACL_WHO_OWNER : Z := 1.
Definition NFS4_ACL_WHO_GROUP : Z := 2.
Definition NFS4_ACL_WHO_EVERYONE : Z := 3.

Definition NFS4_ACE_ACCESS_ALLOWED_ACE_TYPE : Z := 0.
Definition NFS4_ACE_ACCESS_DENIED_ACE_TYPE : Z := 1.
Definition NFS4_ACE_SYSTEM_AUDIT_ACE_TYPE : Z := 2.
Definition NFS4_ACE_SYSTEM_ALARM_ACE_TYPE : Z := 3.

Definition NFS4_ACE_READ_DATA : Z := 0x1.

Definition NFS4_ACE_FILE_INHERIT_ACE : Z := 0x1.
Definition NFS4_ACE_DIRECTORY_INHERIT_ACE : Z := 0x2.
Definition NFS4_ACE_NO_PROPAGATE_INHERIT_ACE : Z := 0x4.
Definition NFS4_ACE_INHERIT_ONLY_ACE : Z := 0x8.
Definition NFS4_ACE_SUCCESSFUL_ACCESS_ACE_FLAG : Z := 0x10.
Definition NFS4_ACE_FAILED_ACCESS_ACE_FLAG : Z := 0x20.
Definition NFS4_ACE_IDENTIFIER_GROUP : Z := 0x40.
Definition NFS4_ACE_INHERITED_ACE : Z := 0x80.

Definition NFS4_ACE_INHERIT_MASK : Z :=
  Z.lor (Z.lor NFS4_ACE_FILE_INHERIT_ACE NFS4_ACE_DIRECTORY_INHERIT_ACE)
        (Z.lor NFS4_ACE_NO_PROPAGATE_INHERIT_ACE NFS4_ACE_INHERIT_ONLY_ACE).

Definition NFS4_PROPAGATE_MASK : Z :=
  Z.lor (Z.lor NFS4_ACE_FILE_INHERIT_ACE NFS4_ACE_DIRECTORY_INHERIT_ACE)
        (Z.lor NFS4_ACE_NO_PROPAGATE_INHERIT_ACE NFS4_ACE_INHERIT_ONLY_ACE).

Definition NFS4_IFLAG_SPECIAL : Z := 1.

Definition NFS4_ACL_IS_TRIVIAL : Z := 0x10000.
Definition NFS4_ACL_IS_DIR : Z := 0x20000.

(** Members of the [NFS4AceType] and [NFS4Who] enums ([nfs4_ace_type_table],
    [nfs4_who_table]). *)
Definition nfs4_ace_type_table : list Z := [0; 1; 2; 3].
Definition nfs4_who_table : list Z := [0; 1; 2; 3].

(** [NFS4Ace_t]: the five fields are Python integers. *)
Record NFS4Ace_t : Type := mkAce {
  ace_type : Z;
  ace_flags : Z;
  access_mask : Z;
  who_type : Z;
  who_id : Z
}.

(** [NFS4ACL_t]: the raw big-endian XDR blob. *)
Record NFS4ACL_t : Type := mkACL { data : bytes }.

(** Sort key of [NFS4Ace_richcompare]: [is_inherited * 2 + is_allow]. *)
Definition sort_key (type flags : Z) : Z :=
  (if has_bits flags NFS4_ACE_INHERITED_ACE then 1 else 0) * 2
  + (if type =? NFS4_ACE_ACCESS_ALLOWED_ACE_TYPE then 1 else 0).

Definition NFS4Ace_richcompare (a b : NFS4Ace_t) (op : cmpop) : result bool :=
  match PyLong_AsLong (ace_type a), PyLong_AsLong (ace_flags a),
        PyLong_AsLong (ace_type b), PyLong_AsLong (ace_flags b) with
  | Ok type_a, Ok flags_a, Ok type_b, Ok flags_b =>
      let key_a := sort_key type_a flags_a in
      let key_b := sort_key type_b flags_b in
      let cmp := if key_a <? key_b then -1
                 else if key_a >? key_b then 1 else 0 in
      Ok (cmp_to_bool op cmp)
  | _, _, _, _ => Raise OverflowError
  end.

(** [nfs4acl_alloc_ace_buf]: copy the argument into a list, sort it, and
    size the buffer ([nwords] 32-bit words). *)
Definition nfs4acl_alloc_ace_buf (aces_arg : list NFS4Ace_t)
  : result (list NFS4Ace_t * Z * Z) :=
  bind (PyList_Sort (fun a b => NFS4Ace_richcompare a b Py_LT) aces_arg)
    (fun aces_seq =>
       let naces := Z.of_nat (List.length aces_seq) in
       let nwords := NFS4_HDR_WORDS + naces * NFS4_ACE_WORDS in
       Ok (aces_seq, nwords, naces)).

(** [nfs4ace_write_raw]: one 20-byte slot. *)
Definition nfs4ace_write_raw (ace_type ace_flags ace_iflag access_mask who : Z)
  : bytes :=
  write_be32 ace_type ++ write_be32 ace_flags ++ write_be32 ace_iflag
  ++ write_be32 access_mask ++ write_be32 who.

(** [nfs4ace_encode]: [p] and [endp] are word offsets into the buffer. *)
Definition nfs4ace_encode (a : NFS4Ace_t) (p endp : Z) : result bytes :=
  if endp - p <? NFS4_ACE_WORDS then
    Raise (RuntimeError "nfs4ace_encode: write would overrun ACE buffer"%string)
  else
    match PyLong_AsLong (ace_type a), PyLong_AsLong (ace_flags a),
          PyLong_AsLong (access_mask a), PyLong_AsLong (who_type a),
          PyLong_AsLong (who_id a) with
    | Ok ace_type_v, Ok ace_flags_v, Ok access_mask_v, Ok who_type_v,
      Ok who_id_v =>
        let '(iflag, who) :=
          if who_type_v =? NFS4_ACL_WHO_NAMED then (0, u32 who_id_v)
          else (1, u32 who_type_v) in
        Ok (nfs4ace_write_raw (u32 ace_type_v) (u32 ace_flags_v) iflag
              (u32 access_mask_v) who)
    | _, _, _, _, _ => Raise OverflowError
    end.

(** The encoding loop of [NFS4ACL_from_aces]: slot [i] is written at word
    [NFS4_HDR_WORDS + i * NFS4_ACE_WORDS]; slots are consecutive. *)
Fixpoint encode_slots (aces : list NFS4Ace_t) (i endp : Z) : result bytes :=
  match aces with
  | [] => Ok []
  | ace :: rest =>
      let p := NFS4_HDR_WORDS + i * NFS4_ACE_WORDS in
      bind (nfs4ace_encode ace p endp) (fun slot =>
      bind (encode_slots rest (i + 1) endp) (fun tl =>
      Ok (slot ++ tl)))
  end.

(** [NFS4ACL.from_aces(aces, acl_flags)]; [None] stands for an omitted or
    [None] [acl_flags]. *)
Definition NFS4ACL_from_aces (aces_arg : list NFS4Ace_t)
  (acl_flags_obj : option Z) : result NFS4ACL_t :=
  bind (nfs4acl_alloc_ace_buf aces_arg) (fun '(aces_seq, nwords, naces) =>
  bind (match acl_flags_obj with
        | None => Ok 0
        | Some o => bind (PyLong_AsLong o) (fun v => Ok (u32 v))
        end) (fun acl_flags_val =>
  bind (encode_slots aces_seq 0 nwords) (fun slots =>
  Ok (mkACL (write_be32 acl_flags_val ++ write_be32 (u32 naces) ++ slots))))).

(** [be32toh(buf[w])] for a word index [w]. *)
Definition word (d : bytes) (w : Z) : Z := read_be32 d (4 * w).

Definition NFS4ACL_get_acl_flags (self : NFS4ACL_t) : result Z :=
  if blen (data self) <? NFS4_HDR_SZ then
    Raise (ValueError "NFS4ACL data too short"%string)
  else IntFlag_call (word (data self) 0).

(** [nfs4ace_decode]: the slot at word offset [p].  The four enum
    classes are called one after the other and the results tested
    afterwards; the exception the function leaves is that of the last
    call that failed. *)
Definition nfs4ace_decode (d : bytes) (p : Z) : result NFS4Ace_t :=
  let ace_type_v := word d p in
  let ace_flags_v := word d (p + 1) in
  let iflag := word d (p + 2) in
  let access_mask_v := word d (p + 3) in
  let who_raw := word d (p + 4) in
  let who_type_v := if iflag =? 0 then NFS4_ACL_WHO_NAMED else who_raw in
  let who_id_v := if iflag =? 0 then who_raw else -1 in
  let ace_type_o := IntEnum_call nfs4_ace_type_table ace_type_v in
  let ace_flags_o := after ace_type_o (IntFlag_call ace_flags_v) in
  let access_mask_o := after ace_flags_o (IntFlag_call access_mask_v) in
  let who_type_o :=
    after access_mask_o (IntEnum_call nfs4_who_table who_type_v) in
  match ace_type_o, ace_flags_o, access_mask_o, who_type_o with
  | Ok ace_type_o, Ok ace_flags_o, Ok access_mask_o, Ok who_type_o =>
      Ok (mkAce ace_type_o ace_flags_o access_mask_o who_type_o who_id_v)
  | _, _, _, Raise e => Raise e
  | _, _, Raise e, _ => Raise e
  | _, Raise e, _, _ => Raise e
  | Raise e, _, _, _ => Raise e
  end.

(** The decoding loop of [NFS4ACL_get_aces], [i] running up to [naces]. *)
Fixpoint decode_slots (d : bytes) (n : nat) (i : Z) : result (list NFS4Ace_t) :=
  match n with
  | O => Ok []
  | S n' =>
      bind (nfs4ace_decode d (NFS4_HDR_WORDS + i * NFS4_ACE_WORDS)) (fun ace =>
      bind (decode_slots d n' (i + 1)) (fun tl => Ok (ace :: tl)))
  end.

(** [NFS4ACL.aces]. *)
Definition NFS4ACL_get_aces (self : NFS4ACL_t) : result (list NFS4Ace_t) :=
  let datasz := blen (data self) in
  if datasz <? NFS4_HDR_SZ then
    Raise (ValueError "NFS4ACL data too short"%string)
  else
    let naces := word (data self) 1 in
    if NFS4_HDR_SZ + naces * NFS4_ACE_SZ >? datasz then
      Raise (ValueError "NFS4ACL data truncated"%string)
    else decode_slots (data self) (Z.to_nat naces) 0.

(** [NFS4ACL.__len__] and [NFS4ACL.trivial]. *)
Definition NFS4ACL_len (self : NFS4ACL_t) : Z :=
  if blen (data self) <? NFS4_HDR_SZ then 0 else word (data self) 1.

Definition NFS4ACL_get_trivial (self : NFS4ACL_t) : bool :=
  if blen (data self) <? NFS4_HDR_SZ then true
  else has_bits (word (data self) 0) NFS4_ACL_IS_TRIVIAL.

(** [ace_is_inheritable]. *)
Definition ace_is_inheritable (ace_flags : Z) (is_dir : bool) : bool :=
  if is_dir then
    has_bits ace_flags
      (Z.lor NFS4_ACE_FILE_INHERIT_ACE NFS4_ACE_DIRECTORY_INHERIT_ACE)
  else has_bits ace_flags NFS4_ACE_FILE_INHERIT_ACE.

(** First pass of [NFS4ACL_generate_inherited_acl]: count the output
    ACEs.  The loop stops at [naces_in] or at the first slot that does not
    fit in the data; [fuel] bounds the iterations by the data length. *)
Fixpoint count_inheritable (fuel : nat) (d : bytes) (datasz naces_in : Z)
  (is_dir : bool) (i naces_out : Z) : Z :=
  match fuel with
  | O => naces_out
  | S fuel' =>
      if i <? naces_in then
        if NFS4_HDR_SZ + (i + 1) * NFS4_ACE_SZ >? datasz then naces_out
        else
          let ace_p := NFS4_HDR_WORDS + i * NFS4_ACE_WORDS in
          let ace_flags := word d (ace_p + 1) in
          count_inheritable fuel' d datasz naces_in is_dir (i + 1)
            (if ace_is_inheritable ace_flags is_dir
             then naces_out + 1 else naces_out)
      else naces_out
  end.

(** The flags an inherited ACE carries. *)
Definition inherited_flags (ace_flags : Z) (is_dir : bool) : Z :=
  if is_dir && negb (has_bits ace_flags NFS4_ACE_NO_PROPAGATE_INHERIT_ACE)
  then Z.lor (Z.land ace_flags (not32 NFS4_ACE_INHERIT_ONLY_ACE))
             NFS4_ACE_INHERITED_ACE
  else Z.lor (Z.land ace_flags (not32 NFS4_ACE_INHERIT_MASK))
             NFS4_ACE_INHERITED_ACE.

(** Second pass: write the inherited ACEs one after the other. *)
Fixpoint write_inherited (fuel : nat) (d : bytes) (datasz naces_in : Z)
  (is_dir : bool) (i : Z) : bytes :=
  match fuel with
  | O => []
  | S fuel' =>
      if i <? naces_in then
        if NFS4_HDR_SZ + (i + 1) * NFS4_ACE_SZ >? datasz then []
        else
          let ace_p := NFS4_HDR_WORDS + i * NFS4_ACE_WORDS in
          let ace_type := word d ace_p in
          let ace_flags := word d (ace_p + 1) in
          let ace_iflag := word d (ace_p + 2) in
          let access_mask := word d (ace_p + 3) in
          let who := word d (ace_p + 4) in
          if negb (ace_is_inheritable ace_flags is_dir) then
            write_inherited fuel' d datasz naces_in is_dir (i + 1)
          else
            nfs4ace_write_raw ace_type (inherited_flags ace_flags is_dir)
              ace_iflag access_mask who
            ++ write_inherited fuel' d datasz naces_in is_dir (i + 1)
      else []
  end.

(** [NFS4ACL.generate_inherited_acl(is_dir)]. *)
Definition NFS4ACL_generate_inherited_acl (self : NFS4ACL_t) (is_dir : bool)
  : result NFS4ACL_t :=
  let d := data self in
  let datasz := blen d in
  if datasz <? NFS4_HDR_SZ then
    Raise (ValueError
             "cannot generate inherited ACL: source ACL is empty"%string)
  else
    let naces_in := word d 1 in
    let fuel := List.length d in
    let naces_out := count_inheritable fuel d datasz naces_in is_dir 0 0 in
    if naces_out =? 0 then
      Raise (ValueError
               "parent ACL has no inheritable ACEs for this object type"%string)
    else
      let out_acl_flags := if is_dir then NFS4_ACL_IS_DIR else 0 in
      Ok (mkACL (write_be32 out_acl_flags ++ write_be32 naces_out
                 ++ write_inherited fuel d datasz naces_in is_dir 0)).

(** State of the per-ACE loop of [nfs4acl_valid]. *)
Record valid_scan : Type := mkScan {
  has_propagate : bool;
  has_inheritable : bool
}.

(** The per-ACE loop of [nfs4acl_valid]; it returns early with the
    exception of the first offending ACE. *)
Fixpoint scan_aces (fuel : nat) (d : bytes) (len naces : Z) (i : Z)
  (st : valid_scan) : result valid_scan :=
  match fuel with
  | O => Ok st
  | S fuel' =>
      if i <? naces then
        if NFS4_HDR_SZ + (i + 1) * NFS4_ACE_SZ >? len then Ok st
        else
          let ace_p := NFS4_HDR_WORDS + i * NFS4_ACE_WORDS in
          let ace_type := word d ace_p in
          let ace_flags := word d (ace_p + 1) in
          let ace_iflag := word d (ace_p + 2) in
          if (ace_type =? NFS4_ACE_ACCESS_DENIED_ACE_TYPE)
             && (ace_iflag =? NFS4_IFLAG_SPECIAL) then
            Raise (ValueError
              "DENY entries are not permitted for special principals (OWNER@, GROUP@, EVERYONE@)"%string)
          else if has_bits ace_flags NFS4_ACE_INHERIT_ONLY_ACE
               && negb (has_bits ace_flags
                          (Z.lor NFS4_ACE_FILE_INHERIT_ACE
                                 NFS4_ACE_DIRECTORY_INHERIT_ACE)) then
            Raise (ValueError
              "INHERIT_ONLY requires FILE_INHERIT or DIRECTORY_INHERIT to also be set"%string)
          else
            scan_aces fuel' d len naces (i + 1)
              (mkScan
                 (if has_bits ace_flags NFS4_PROPAGATE_MASK
                  then true else has_propagate st)
                 (if has_bits ace_flags
                       (Z.lor NFS4_ACE_FILE_INHERIT_ACE
                              NFS4_ACE_DIRECTORY_INHERIT_ACE)
                  then true else has_inheritable st))
      else Ok st
  end.

(** [nfs4acl_valid(fd, data, len)]: [Ok tt] is the C return value 0, an
    exception is -1.  [fstat] is the kernel's answer for the descriptor. *)
Definition nfs4acl_valid (fstat : Z -> fstat_result) (fd : Z) (d : bytes)
  : result unit :=
  let len := blen d in
  if len <? NFS4_HDR_SZ then Ok tt
  else
    let naces := word d 1 in
    bind (scan_aces (List.length d) d len naces 0 (mkScan false false))
      (fun st =>
    bind (if fd =? -1 then Ok true
          else match fstat fd with
               | StatErr e => Raise (OSErrorErrno e)
               | StatOk st_mode => Ok (S_ISDIR st_mode)
               end) (fun is_dir =>
    if has_propagate st && negb is_dir then
      Raise (ValueError
        "FILE_INHERIT/DIRECTORY_INHERIT/NO_PROPAGATE_INHERIT/INHERIT_ONLY flags are only valid on directories"%string)
    else if is_dir && negb (has_inheritable st) then
      Raise (ValueError
        "directory ACL must contain at least one ACE with FILE_INHERIT or DIRECTORY_INHERIT"%string)
    else Ok tt)).

End NFS4.

(* ================================================================== *)
(** * posixacl.c: the POSIX.1e ACL codec *)
(* ================================================================== *)

Module POSIX.
Import CInt Wire Py Stat.

Definition POSIX_HDR_SZ : Z := 4.
Definition POSIX_ACE_SZ : Z := 8.
Definition POSIX_ACL_VERSION : Z := 2.
Definition POSIX_SPECIAL_ID : Z := 0xFFFFFFFF.

Definition POSIX_TAG_USER_OBJ : Z := 0x0001.
Definition POSIX_TAG_USER : Z := 0x0002.
Definition POSIX_TAG_GROUP_OBJ : Z := 0x0004.
Definition POSIX_TAG_GROUP : Z := 0x0008.
Definition POSIX_TAG_MASK : Z := 0x0010.
Definition POSIX_TAG_OTHER : Z := 0x0020.

Definition POSIX_PERM_EXECUTE : Z := 0x01.
Definition POSIX_PERM_WRITE : Z := 0x02.
Definition POSIX_PERM_READ : Z := 0x04.

(** Members of the [POSIXTag] enum ([posix_tag_table]). *)
Definition posix_tag_table : list Z := [0x0001; 0x0002; 0x0004; 0x0008; 0x0010; 0x0020].

Definition is_special_tag (tag : Z) : bool :=
  (tag =? POSIX_TAG_USER_OBJ) || (tag =? POSIX_TAG_GROUP_OBJ)
  || (tag =? POSIX_TAG_MASK) || (tag =? POSIX_TAG_OTHER).

(** [POSIXAce_t]: [tag], [perms] and [id] are Python integers. *)
Record POSIXAce_t : Type := mkAce {
  tag : Z;
  perms : Z;
  id : Z;
  default_ : bool
}.

(** [POSIXACL_t]: the access blob and the default blob or [None]. *)
Record POSIXACL_t : Type := mkACL {
  access_data : bytes;
  default_data : option bytes
}.

Definition POSIXAce_richcompare (a b : POSIXAce_t) (op : cmpop) : result bool :=
  match PyLong_AsLong (tag a), PyLong_AsLong (tag b),
        PyLong_AsLong (id a), PyLong_AsLong (id b) with
  | Ok tag_a, Ok tag_b, Ok id_a, Ok id_b =>
      let cmp :=
        if negb (tag_a =? tag_b) then (if tag_a <? tag_b then -1 else 1)
        else if negb (id_a =? id_b) then (if id_a <? id_b then -1 else 1)
        else 0 in
      Ok (cmp_to_bool op cmp)
  | _, _, _, _ => Raise OverflowError
  end.

(** One 8-byte record of [encode_posix_aces]. *)
Definition encode_posix_ace (a : POSIXAce_t) : result bytes :=
  match PyLong_AsLong (tag a), PyLong_AsLong (perms a),
        PyLong_AsLong (id a) with
  | Ok tag_v, Ok perm_v, Ok id_v =>
      let xid := if is_special_tag tag_v then POSIX_SPECIAL_ID else u32 id_v in
      Ok (write_le16 (u16 tag_v) ++ write_le16 (u16 perm_v) ++ write_le32 xid)
  | _, _, _ => Raise OverflowError
  end.

Fixpoint encode_posix_records (ace_seq : list POSIXAce_t) : result bytes :=
  match ace_seq with
  | [] => Ok []
  | a :: rest =>
      bind (encode_posix_ace a) (fun rec =>
      bind (encode_posix_records rest) (fun tl => Ok (rec ++ tl)))
  end.

(** [encode_posix_aces]: the version word, then one record per entry. *)
Definition encode_posix_aces (ace_seq : list POSIXAce_t) : result bytes :=
  bind (encode_posix_records ace_seq) (fun recs =>
  Ok (write_le32 POSIX_ACL_VERSION ++ recs)).

(** The partition loop of [POSIXACL_from_aces]: each entry is appended to
    the default list or to the access list. *)
Fixpoint split_aces (seq : list POSIXAce_t)
  (access_list default_list : list POSIXAce_t)
  : list POSIXAce_t * list POSIXAce_t :=
  match seq with
  | [] => (access_list, default_list)
  | ace :: rest =>
      if default_ ace then split_aces rest access_list (default_list ++ [ace])
      else split_aces rest (access_list ++ [ace]) default_list
  end.

(** [POSIXACL.from_aces(aces)]. *)
Definition POSIXACL_from_aces (aces_arg : list POSIXAce_t) : result POSIXACL_t :=
  let '(access_list, default_list) := split_aces aces_arg [] [] in
  let lt := fun a b => POSIXAce_richcompare a b Py_LT in
  bind (PyList_Sort lt access_list) (fun access_seq =>
  bind (PyList_Sort lt default_list) (fun default_seq =>
  bind (encode_posix_aces access_seq) (fun access_bytes =>
  bind (if Z.of_nat (List.length default_seq) >? 0
        then bind (encode_posix_aces default_seq) (fun b => Ok (Some b))
        else Ok None) (fun default_bytes_or_none =>
  Ok (mkACL access_bytes default_bytes_or_none))))).

(** One record of [parse_posix_aces], at byte offset [p].  Both enum
    classes are called before the results are tested; the exception left
    is that of the last call that failed. *)
Definition parse_posix_ace (buf : bytes) (p : Z) (is_default : bool)
  : result POSIXAce_t :=
  let tag_raw := read_le16 buf (p + 0) in
  let perm_raw := read_le16 buf (p + 2) in
  let xid := read_le32 buf (p + 4) in
  let id_v := if xid =? POSIX_SPECIAL_ID then -1 else xid in
  let tag_o := IntEnum_call posix_tag_table tag_raw in
  let perm_o := after tag_o (IntFlag_call perm_raw) in
  match tag_o, perm_o with
  | Ok tag_o, Ok perm_o => Ok (mkAce tag_o perm_o id_v is_default)
  | _, Raise e => Raise e
  | Raise e, _ => Raise e
  end.

Fixpoint parse_posix_records (buf : bytes) (n : nat) (i : Z)
  (is_default : bool) : result (list POSIXAce_t) :=
  match n with
  | O => Ok []
  | S n' =>
      bind (parse_posix_ace buf (POSIX_HDR_SZ + i * POSIX_ACE_SZ) is_default)
        (fun ace =>
      bind (parse_posix_records buf n' (i + 1) is_default) (fun tl =>
      Ok (ace :: tl)))
  end.

(** [parse_posix_aces]. *)
Definition parse_posix_aces (buf : bytes) (is_default : bool)
  : result (list POSIXAce_t) :=
  let bufsz := blen buf in
  if bufsz =? 0 then Ok []
  else if bufsz <? POSIX_HDR_SZ then
    Raise (ValueError "POSIXACL data too short"%string)
  else
    let naces := (bufsz - POSIX_HDR_SZ) / POSIX_ACE_SZ in
    parse_posix_records buf (Z.to_nat naces) 0 is_default.

(** [POSIXACL.aces], [POSIXACL.default_aces], [access_bytes()],
    [default_bytes()], [POSIXACL.trivial]. *)
Definition POSIXACL_get_aces (self : POSIXACL_t) : result (list POSIXAce_t) :=
  parse_posix_aces (access_data self) false.

Definition POSIXACL_get_default_aces (self : POSIXACL_t)
  : result (list POSIXAce_t) :=
  match default_data self with
  | None => Ok []
  | Some d => parse_posix_aces d true
  end.

Definition POSIXACL_access_bytes (self : POSIXACL_t) : bytes := access_data self.

Definition POSIXACL_default_bytes (self : POSIXACL_t) : option bytes :=
  default_data self.

Definition POSIXACL_get_trivial (self : POSIXACL_t) : bool :=
  (blen (access_data self) =? 0)
  && match default_data self with None => true | Some _ => false end.

(** [POSIXACL.generate_inherited_acl(is_dir)]. *)
Definition POSIXACL_generate_inherited_acl (self : POSIXACL_t) (is_dir : bool)
  : result POSIXACL_t :=
  match default_data self with
  | None =>
      if blen (access_data self) =? 0 then
        Raise (ValueError
                 "cannot generate inherited ACL from trivial ACL"%string)
      else
        Raise (ValueError
                 "cannot generate inherited ACL: no default ACL"%string)
  | Some dd => Ok (mkACL dd (if is_dir then Some dd else None))
  end.

(** Counters of [validate_posix_blob]. *)
Record tag_counts : Type := mkCounts {
  n_user_obj : Z;
  n_group_obj : Z;
  n_other : Z;
  n_mask : Z;
  n_named : Z
}.

(** The entry loop of [validate_posix_blob]; [label] is "access" or
    "default". *)
Fixpoint count_tags (p : bytes) (n : nat) (i : Z) (label : string)
  (c : tag_counts) : result tag_counts :=
  match n with
  | O => Ok c
  | S n' =>
      let ace_p := POSIX_HDR_SZ + i * POSIX_ACE_SZ in
      let tag := read_le16 p (ace_p + 0) in
      let xid := read_le32 p (ace_p + 4) in
      let next := count_tags p n' (i + 1) label in
      if tag =? POSIX_TAG_USER_OBJ then
        next (mkCounts (s32 (n_user_obj c + 1)) (n_group_obj c) (n_other c)
                (n_mask c) (n_named c))
      else if tag =? POSIX_TAG_USER then
        if xid =? POSIX_SPECIAL_ID then
          Raise (ValueError (label ++ " ACL: named USER entry has no uid")%string)
        else next (mkCounts (n_user_obj c) (n_group_obj c) (n_other c)
                     (n_mask c) (s32 (n_named c + 1)))
      else if tag =? POSIX_TAG_GROUP_OBJ then
        next (mkCounts (n_user_obj c) (s32 (n_group_obj c + 1)) (n_other c)
                (n_mask c) (n_named c))
      else if tag =? POSIX_TAG_GROUP then
        if xid =? POSIX_SPECIAL_ID then
          Raise (ValueError (label ++ " ACL: named GROUP entry has no gid")%string)
        else next (mkCounts (n_user_obj c) (n_group_obj c) (n_other c)
                     (n_mask c) (s32 (n_named c + 1)))
      else if tag =? POSIX_TAG_MASK then
        next (mkCounts (n_user_obj c) (n_group_obj c) (n_other c)
                (s32 (n_mask c + 1)) (n_named c))
      else if tag =? POSIX_TAG_OTHER then
        next (mkCounts (n_user_obj c) (n_group_obj c) (s32 (n_other c + 1))
                (n_mask c) (n_named c))
      else Raise (ValueError (label ++ " ACL: unknown tag")%string)
  end.

(** [validate_posix_blob(data, len, label)]. *)
Definition validate_posix_blob (d : bytes) (label : string) : result unit :=
  let len := blen d in
  if len <? POSIX_HDR_SZ then
    Raise (ValueError (label ++ " ACL too short")%string)
  else
    let version := read_le32 d 0 in
    if negb (version =? POSIX_ACL_VERSION) then
      Raise (ValueError (label ++ " ACL has unexpected version")%string)
    else
      let naces := (len - POSIX_HDR_SZ) / POSIX_ACE_SZ in
      bind (count_tags d (Z.to_nat naces) 0 label (mkCounts 0 0 0 0 0))
        (fun c =>
      if negb (n_user_obj c =? 1) then
        Raise (ValueError
          (label ++ " ACL must have exactly one USER_OBJ entry")%string)
      else if negb (n_group_obj c =? 1) then
        Raise (ValueError
          (label ++ " ACL must have exactly one GROUP_OBJ entry")%string)
      else if negb (n_other c =? 1) then
        Raise (ValueError
          (label ++ " ACL must have exactly one OTHER entry")%string)
      else if (n_named c >? 0) && negb (n_mask c =? 1) then
        Raise (ValueError
          (label ++ " ACL must have exactly one MASK entry when named USER or GROUP entries are present")%string)
      else if n_mask c >? 1 then
        Raise (ValueError (label ++ " ACL has more than one MASK entry")%string)
      else Ok tt).

(** [posixacl_valid(fd, access_data, access_len, default_data,
    default_len)]; a [NULL] [default_data] is [None]. *)
Definition posixacl_valid (fstat : Z -> fstat_result) (fd : Z)
  (access : bytes) (default : option bytes) : result unit :=
  bind (validate_posix_blob access "access") (fun _ =>
  match default with
  | None => Ok tt
  | Some dd =>
      match fstat fd with
      | StatErr e => Raise (OSErrorErrno e)
      | StatOk st_mode =>
          if negb (S_ISDIR st_mode) then
            Raise (ValueError
                     "default ACL is only valid on directories"%string)
          else validate_posix_blob dd "default"
      end
  end).

End POSIX.
(* ================================================================== *)
(** * The system-call boundary *)
(* ================================================================== *)

Module Kernel.
Import Wire Py.

Definition EINTR : Z := 4.
Definition EXDEV : Z := 18.
Definition ELOOP : Z := 40.
Definition ENODATA : Z := 61.
Definition EOPNOTSUPP : Z := 95.

(** The [struct statx] fields the sources read. *)
Record statx_t : Type := mkStatx {
  stx_mode : Z;
  stx_ino : Z;
  stx_size : Z;
  stx_btime_sec : Z;
  stx_mnt_id : Z
}.

(** The [struct dirent] fields the sources read. *)
Record dirent_t : Type := mkDirent {
  d_name : string;
  d_ino : Z;
  d_type : Z
}.

(** Calls that leave the extension: system calls, libc directory-stream
    calls, and the host runtime's signal check. *)
Inductive call : Type :=
| c_fgetxattr (fd : Z) (name : string) (size : Z)
| c_statx (dirfd : Z) (path : string) (flags mask : Z)
| c_open_by_handle_at (mount_fd : Z) (handle : bytes) (flags : Z)
| c_openat2 (dirfd : Z) (name : string) (flags resolve : Z)
| c_readdir (dirp : Z)
| c_dup (fd : Z)
| c_fdopendir (fd : Z)
| c_close (fd : Z)
| c_closedir (dirp : Z)
| c_statmount (mnt_id mask : Z)
| c_PyErr_CheckSignals.

(** What comes back from a call: the return value, [errno] when the call
    failed, and whatever the call stored through its pointer arguments. *)
Record reply : Type := mkReply {
  ret : Z;
  errno : Z;
  buf : bytes;
  stx : statx_t;
  dirent : option dirent_t;
  text : string
}.

Definition statx0 : statx_t := mkStatx 0 0 0 0 0.
Definition r_ok (v : Z) : reply := mkReply v 0 [] statx0 None "".
Definition r_err (e : Z) : reply := mkReply (-1) e [] statx0 None "".
Definition r_data (b : bytes) : reply := mkReply (blen b) 0 b statx0 None "".
Definition r_statx (s : statx_t) : reply := mkReply 0 0 [] s None "".
Definition r_dirent (d : dirent_t) : reply := mkReply 0 0 [] statx0 (Some d) "".
Definition r_eof : reply := mkReply 0 0 [] statx0 None "".
Definition r_text (t : string) : reply := mkReply 0 0 [] statx0 None t.

(** The world outside: the replies the kernel will give, in order, and
    the calls made so far. *)
Record world : Type := mkWorld {
  script : list reply;
  trace : list call
}.

(** How a run of extension code ends: with a value, with a Python
    exception, with the process aborted on a failed assertion, or with
    the script of replies used up. *)
Inductive outcome (A : Type) : Type :=
| Done (a : A)
| Exc (e : exc)
| Fatal (msg : string)
| Starved.
Arguments Done {A} a.
Arguments Exc {A} e.
Arguments Fatal {A} msg.
Arguments Starved {A}.

Definition M (A : Type) : Type := world -> outcome A * world.

Definition mret {A} (a : A) : M A := fun w => (Done a, w).

Definition mbind {A B} (m : M A) (k : A -> M B) : M B :=
  fun w =>
    match m w with
    | (Done a, w') => k a w'
    | (Exc e, w') => (Exc e, w')
    | (Fatal s, w') => (Fatal s, w')
    | (Starved, w') => (Starved, w')
    end.

Definition raise {A} (e : exc) : M A := fun w => (Exc e, w).
Definition fatal {A} (msg : string) : M A := fun w => (Fatal msg, w).

(** Make a call: it is appended to the trace and answered by the next
    reply of the script. *)
Definition sys (c : call) : M reply :=
  fun w =>
    match script w with
    | [] => (Starved, mkWorld [] (trace w ++ [c]))
    | r :: s => (Done r, mkWorld s (trace w ++ [c]))
    end.

(** The signal-safe loop around a call:
    [do r = call; while (failed(r) && errno == EINTR &&
                         !(async_err = PyErr_CheckSignals()))].
    It yields the last reply and [async_err]. *)
Fixpoint retry_loop (fuel : nat) (c : call) (failed : reply -> bool)
  : M (reply * Z) :=
  match fuel with
  | O => fun w => (Starved, w)
  | S fuel' =>
      mbind (sys c) (fun r =>
      if failed r && (errno r =? EINTR) then
        mbind (sys c_PyErr_CheckSignals) (fun s =>
        if ret s =? 0 then retry_loop fuel' c failed
        else mret (r, ret s))
      else mret (r, 0))
  end.

(** Every turn of the loop consumes a reply, so the length of the script
    bounds the turns. *)
Definition retry (c : call) (failed : reply -> bool) : M (reply * Z) :=
  fun w => retry_loop (S (List.length (script w))) c failed w.

(** A call whose result the code ignores ([close], [closedir]): it is
    traced and takes no reply. *)
Definition emit (c : call) : M unit :=
  fun w => (Done tt, mkWorld (script w) (trace w ++ [c])).

Definition run {A} (m : M A) (s : list reply) : outcome A * world :=
  m (mkWorld s []).

End Kernel.

Declare Scope kernel_scope.
Delimit Scope kernel_scope with kernel.
Notation "x <- m ;; k" := (Kernel.mbind m (fun x => k))
  (at level 61, m at next level, right associativity) : kernel_scope.
Notation "' p <- m ;; k" := (Kernel.mbind m (fun x => let p := x in k))
  (at level 61, p pattern, m at next level, right associativity) : kernel_scope.

(* ================================================================== *)
(** * acl.c: reading the ACL xattrs *)
(* ================================================================== *)

Module AclXattr.
Import Wire Py Kernel.
Local Open Scope kernel_scope.

Definition NFS4_ACL_XATTR : string := "system.nfs4_acl_xdr".
Definition POSIX_ACCESS_XATTR : string := "system.posix_acl_access".
Definition POSIX_DEFAULT_XATTR : string := "system.posix_acl_default".

(** [acl_xattr_t]: the tagged union filled by [do_fgetacl]; a [NULL]
    buffer is [None]. *)
Inductive acl_xattr_t : Type :=
| ACLTYPE_NFS4 (data : option bytes) (len : Z)
| ACLTYPE_POSIX (access_data : option bytes) (access_len : Z)
                (default_data : option bytes) (default_len : Z).

Definition failed_m1 (r : reply) : bool := ret r =? -1.

(** [read_xattr_raw(fd, name, sz, &out_len)]. *)
Definition read_xattr_raw (fd : Z) (name : string) (sz : Z) : M (bytes * Z) :=
  '(r, async_err) <- retry (c_fgetxattr fd name sz) failed_m1 ;;
  if ret r =? -1 then
    if async_err =? 0 then raise (OSErrorErrno (errno r))
    else raise Interrupted
  else mret (buf r, ret r).

(** [do_fgetacl(fd, out)]. *)
Definition do_fgetacl (fd : Z) : M acl_xattr_t :=
  '(r, async_err) <- retry (c_fgetxattr fd NFS4_ACL_XATTR 0) failed_m1 ;;
  if negb (async_err =? 0) then raise Interrupted
  else
    let sz := ret r in
    if (sz >=? 0) || (errno r =? ENODATA) then
      if sz >? 0 then
        '(d, len) <- read_xattr_raw fd NFS4_ACL_XATTR sz ;;
        mret (ACLTYPE_NFS4 (Some d) len)
      else mret (ACLTYPE_NFS4 None 0)
    else if negb (errno r =? EOPNOTSUPP) then raise (OSErrorErrno (errno r))
    else
      '(r, async_err) <- retry (c_fgetxattr fd POSIX_ACCESS_XATTR 0) failed_m1 ;;
      if negb (async_err =? 0) then raise Interrupted
      else
        let sz := ret r in
        if (sz =? -1) && (errno r =? EOPNOTSUPP) then
          raise (OSErrorErrno (errno r))
        else
          '(access_data, access_len) <-
            (if sz >? 0 then
               '(d, len) <- read_xattr_raw fd POSIX_ACCESS_XATTR sz ;;
               mret (Some d, len)
             else mret (None, 0)) ;;
          '(r, async_err) <-
            retry (c_fgetxattr fd POSIX_DEFAULT_XATTR 0) failed_m1 ;;
          if negb (async_err =? 0) then raise Interrupted
          else
            let dsz := ret r in
            if (dsz =? -1) && (errno r =? ENODATA) then
              mret (ACLTYPE_POSIX access_data access_len None 0)
            else if dsz =? -1 then raise (OSErrorErrno (errno r))
            else if dsz >? 0 then
              '(d, len) <- read_xattr_raw fd POSIX_DEFAULT_XATTR dsz ;;
              mret (ACLTYPE_POSIX access_data access_len (Some d) len)
            else mret (ACLTYPE_POSIX access_data access_len None 0).

End AclXattr.

(* ================================================================== *)
(** * fhandle.c: opening a file handle *)
(* ================================================================== *)

Module Fhandle.
Import CInt Wire Py Kernel.
Local Open Scope kernel_scope.

Definition AT_EMPTY_PATH : Z := 0x1000.
Definition STATX_MNT_ID : Z := 0x1000.
Definition STATX_MNT_ID_UNIQUE : Z := 0x4000.

(** [py_fhandle_t]; [mount_id] holds [UINT64_MAX] until the handle is
    initialised. *)
Record py_fhandle_t : Type := mkFhandle {
  mount_id : Z;
  is_handle_fd : bool;
  unique_mount_id : bool;
  fhandle : bytes
}.

(** [py_fhandle_new]: the object before [__init__] has run. *)
Definition py_fhandle_new : py_fhandle_t := mkFhandle UINT64_MAX false false [].

Definition failed_nz (r : reply) : bool := negb (ret r =? 0).
Definition failed_m1 (r : reply) : bool := ret r =? -1.

(** [Fhandle.open(mount_fd, flags)]. *)
Definition py_fhandle_open (self : py_fhandle_t) (mount_fd flags : Z) : M Z :=
  if mount_id self =? UINT64_MAX then
    raise (ValueError "Invalid File Handle")
  else
    let statx_mask :=
      if unique_mount_id self then STATX_MNT_ID_UNIQUE else STATX_MNT_ID in
    '(r, async_err) <-
      retry (c_statx mount_fd "" AT_EMPTY_PATH statx_mask) failed_nz ;;
    if failed_nz r then
      if async_err =? 0 then raise (OSErrorErrno (errno r))
      else raise Interrupted
    else if negb (stx_mnt_id (stx r) =? mount_id self) then
      raise (ValueError
        "Filesystem underlying `mount_fd` parameter does not match the filesystem under which the handle was opened.")
    else
      '(r, async_err) <-
        retry (c_open_by_handle_at mount_fd (fhandle self) flags) failed_m1 ;;
      if ret r =? -1 then
        if async_err =? 0 then raise (OSErrorErrno (errno r))
        else raise Interrupted
      else mret (ret r).

End Fhandle.
(* ================================================================== *)
(** * fsiter.c: the filesystem iterator *)
(* ================================================================== *)

Module FsIter.
Import CInt Wire Py Stat Kernel.
Local Open Scope kernel_scope.
Local Open Scope string_scope.
Local Open Scope Z_scope.

Definition MAX_DEPTH : Z := 2048.
Definition PATH_MAX : Z := 4096.
Definition DT_DIR : Z := 4.
Definition AT_FDCWD : Z := -100.

(** [STATX_BASIC_STATS | STATX_BTIME | STATX_MNT_ID_UNIQUE],
    [AT_EMPTY_PATH | AT_SYMLINK_NOFOLLOW],
    [RESOLVE_NO_XDEV | RESOLVE_NO_SYMLINKS], [O_NOFOLLOW | O_DIRECTORY]. *)
Definition STATX_MASK_ITER : Z := Z.lor (Z.lor 0x7ff 0x800) 0x4000.
Definition STATX_FLAGS_ITER : Z := Z.lor 0x1000 0x100.
Definition RESOLVE_NO_XDEV : Z := 0x01.
Definition RESOLVE_NO_SYMLINKS : Z := 0x04.
Definition RESOLVE_FLAGS_ITER : Z := Z.lor RESOLVE_NO_XDEV RESOLVE_NO_SYMLINKS.
Definition OFLAGS_DIR_ITER : Z := Z.lor 0x20000 0x10000.
Definition STATMOUNT_SB_BASIC : Z := 0x1.
Definition STATMOUNT_SB_SOURCE : Z := 0x200.

Definition ISDOT (name : string) : bool := String.eqb name ".".
Definition ISDOTDOT (name : string) : bool := String.eqb name "..".

(** [fsiter_error_t]: the message buffer.  The [file:line] prefix and the
    [strerror] text of the C macros are not part of the modelled text;
    both are ASCII, and with them the longest message, a path of
    [PATH_MAX - 1] bytes and its wording, stays within the 8192 bytes of
    the buffer. *)
Definition fsiter_error_t : Type := string.

(** [snprintf(buf, size, ...)]: what lands in a buffer of [size] bytes,
    the terminator apart, is the first [size - 1] bytes of the text. *)
Fixpoint string_take (n : nat) (s : string) : string :=
  match n, s with
  | S n', String c rest => String c (string_take n' rest)
  | _, _ => EmptyString
  end.

Definition snprintf (size : Z) (text : string) : string :=
  string_take (Z.to_nat (size - 1)) text.

(** [iter_entry_t]. *)
Record iter_entry_t : Type := mkEntry {
  name : string;
  st : statx_t;
  fd : Z;
  is_dir : bool
}.

(** [iter_dir_t]; [dirp] is identified with the descriptor the stream
    owns, so that [dirfd(dirp)] is [dirp]. *)
Record iter_dir_t : Type := mkDir {
  path : string;
  dirp : Z;
  ino : Z
}.

(** [iter_state_t]. *)
Record iter_state_t : Type := mkState {
  btime_cutoff : Z;
  cnt : Z;
  cnt_bytes : Z;
  file_open_flags : Z
}.

(** A [dir_stack()] snapshot and a [FilesystemIterState]. *)
Definition dir_stack_tuple : Type := list (string * Z).

Record FilesystemIterState : Type := mkIterState {
  s_cnt : Z;
  s_cnt_bytes : Z;
  s_current_directory : string
}.

(** The reporting callback: a Python callable that returns or raises. *)
Definition reporting_cb_t : Type :=
  dir_stack_tuple -> FilesystemIterState -> result unit.

(** [FilesystemIteratorObject].  [dir_stack] holds the live frames
    [dir_stack[0 .. cur_depth-1]], root first; the slots above
    [cur_depth] of the C array carry no information. *)
Record FilesystemIteratorObject : Type := mkIter {
  dir_stack : list iter_dir_t;
  state : iter_state_t;
  last : iter_entry_t;
  cerr : fsiter_error_t;
  cookies : option (list Z);
  cookie_sz : Z;
  restoring_from_cookie : bool;
  reporting_cb_increment : Z;
  reporting_cb : option reporting_cb_t;
  skip_next_recursion : bool
}.

Definition cur_depth (self : FilesystemIteratorObject) : Z :=
  Z.of_nat (List.length (dir_stack self)).

(** [IterInstance]. *)
Record IterInstance : Type := mkInst {
  i_parent : string;
  i_name : string;
  i_fd : Z;
  i_statxinfo : statx_t;
  i_isdir : bool
}.

Definition set_dir_stack (self : FilesystemIteratorObject) (v : list iter_dir_t) :=
  mkIter v (state self) (last self) (cerr self) (cookies self)
    (cookie_sz self) (restoring_from_cookie self)
    (reporting_cb_increment self) (reporting_cb self)
    (skip_next_recursion self).

Definition set_state (self : FilesystemIteratorObject) (v : iter_state_t) :=
  mkIter (dir_stack self) v (last self) (cerr self) (cookies self)
    (cookie_sz self) (restoring_from_cookie self)
    (reporting_cb_increment self) (reporting_cb self)
    (skip_next_recursion self).

Definition set_last (self : FilesystemIteratorObject) (v : iter_entry_t) :=
  mkIter (dir_stack self) (state self) v (cerr self) (cookies self)
    (cookie_sz self) (restoring_from_cookie self)
    (reporting_cb_increment self) (reporting_cb self)
    (skip_next_recursion self).

Definition set_cerr (self : FilesystemIteratorObject) (v : fsiter_error_t) :=
  mkIter (dir_stack self) (state self) (last self) v (cookies self)
    (cookie_sz self) (restoring_from_cookie self)
    (reporting_cb_increment self) (reporting_cb self)
    (skip_next_recursion self).

Definition set_cookies (self : FilesystemIteratorObject)
  (c : option (list Z)) (sz : Z) (restoring : bool) :=
  mkIter (dir_stack self) (state self) (last self) (cerr self) c sz restoring
    (reporting_cb_increment self) (reporting_cb self)
    (skip_next_recursion self).

Definition set_skip (self : FilesystemIteratorObject) (v : bool) :=
  mkIter (dir_stack self) (state self) (last self) (cerr self) (cookies self)
    (cookie_sz self) (restoring_from_cookie self)
    (reporting_cb_increment self) (reporting_cb self) v.

(** [a[i]] and [a[i] = v] on the cookie array. *)
Definition cookie_at (c : list Z) (i : Z) : Z := nth (Z.to_nat i) c 0.

Fixpoint list_set (c : list Z) (i : nat) (v : Z) : list Z :=
  match c, i with
  | [], _ => []
  | _ :: t, O => v :: t
  | h :: t, S i' => h :: list_set t i' v
  end.

(** [create_iter_instance]. *)
Definition create_iter_instance (fd : Z) (st : statx_t) (parent name : string)
  : result IterInstance :=
  let parent_obj := PyUnicode_FromString parent in
  let name_obj := PyUnicode_FromString name in
  match parent_obj, name_obj with
  | Ok parent_obj, Ok name_obj =>
      Ok (mkInst parent_obj name_obj fd st (S_ISDIR (stx_mode st)))
  | _, Raise e => Raise e
  | Raise e, _ => Raise e
  end.

Inductive fsiter_action : Type :=
| FSITER_YIELD_FILE
| FSITER_CONTINUE
| FSITER_YIELD_DIR
| FSITER_POP_DIR
| FSITER_ERROR.

(** [process_next_entry]; the second component is [errno] as the call
    leaves it. *)
Definition process_next_entry (self : FilesystemIteratorObject)
  (cur_dir : iter_dir_t) (entry : dirent_t)
  : M (fsiter_action * Z * FilesystemIteratorObject) :=
  let self := set_last self
    (mkEntry (d_name entry) (st (last self)) (fd (last self))
       (is_dir (last self))) in
  let is_dir := d_type entry =? DT_DIR in
  let open_flags :=
    if is_dir then OFLAGS_DIR_ITER else file_open_flags (state self) in
  r <- sys (c_openat2 (dirp cur_dir) (d_name entry) open_flags
              RESOLVE_FLAGS_ITER) ;;
  let fd := ret r in
  if fd <? 0 then
    if (errno r =? ELOOP) || (errno r =? EXDEV) then
      mret (FSITER_CONTINUE, errno r, self)
    else
      mret (FSITER_ERROR, errno r,
            set_cerr self ("openat2(" ++ d_name entry ++ ")"))
  else
    r <- sys (c_statx fd "" STATX_FLAGS_ITER STATX_MASK_ITER) ;;
    if ret r <? 0 then
      _ <- emit (c_close fd) ;;
      mret (FSITER_ERROR, errno r,
            set_cerr self ("statx(" ++ d_name entry ++ ")"))
    else
      let st := stx r in
      if negb (S_ISDIR (stx_mode st))
         && negb (btime_cutoff (state self) =? 0)
         && (stx_btime_sec st >? btime_cutoff (state self)) then
        _ <- emit (c_close fd) ;;
        mret (FSITER_CONTINUE, 0, self)
      else
        let self := set_last self
          (mkEntry (d_name entry) st fd (S_ISDIR (stx_mode st))) in
        mret (if S_ISDIR (stx_mode st) then FSITER_YIELD_DIR
              else FSITER_YIELD_FILE, 0, self).

(** The retry loop around [process_next_entry] in [__next__]. *)
Fixpoint process_retry_loop (fuel : nat) (self : FilesystemIteratorObject)
  (cur_dir : iter_dir_t) (entry : dirent_t)
  : M (fsiter_action * FilesystemIteratorObject) :=
  match fuel with
  | O => fun w => (Starved, w)
  | S fuel' =>
      '(action, err, self) <- process_next_entry self cur_dir entry ;;
      match action with
      | FSITER_ERROR =>
          if err =? EINTR then
            s <- sys c_PyErr_CheckSignals ;;
            if ret s =? 0 then process_retry_loop fuel' self cur_dir entry
            else mret (action, self)
          else mret (action, self)
      | _ => mret (action, self)
      end
  end.

Definition process_retry (self : FilesystemIteratorObject)
  (cur_dir : iter_dir_t) (entry : dirent_t)
  : M (fsiter_action * FilesystemIteratorObject) :=
  fun w => process_retry_loop (S (List.length (script w))) self cur_dir entry w.

(** [push_dir_stack]: [false] comes with the message left in [cerr]. *)
Definition push_dir_stack (self : FilesystemIteratorObject)
  (cur_dir : iter_dir_t) : M (bool * FilesystemIteratorObject) :=
  let full_path :=
    snprintf PATH_MAX (path cur_dir ++ "/" ++ name (last self)) in
  if cur_depth self >=? MAX_DEPTH then
    mret (false, set_cerr self ("max depth 2048 exceeded at " ++ full_path))
  else
    r <- sys (c_dup (fd (last self))) ;;
    let dup_fd := ret r in
    if dup_fd <? 0 then
      mret (false, set_cerr self ("dup(" ++ full_path ++ ")"))
    else
      r <- sys (c_fdopendir dup_fd) ;;
      if ret r =? 0 then
        _ <- emit (c_close dup_fd) ;;
        mret (false, set_cerr self ("fdopendir(" ++ full_path ++ ")"))
      else
        let new_dir := mkDir full_path dup_fd (stx_ino (st (last self))) in
        mret (true, set_dir_stack self (dir_stack self ++ [new_dir])%list).

(** [pop_dir_stack], with [cleanup_iter_dir] on the top frame. *)
Definition pop_dir_stack (self : FilesystemIteratorObject)
  : M FilesystemIteratorObject :=
  match List.last (map Some (dir_stack self)) None with
  | None => mret self
  | Some dir =>
      _ <- emit (c_closedir (dirp dir)) ;;
      mret (set_dir_stack self (removelast (dir_stack self)))
  end.

(** [py_fsiter_state_from_struct]. *)
Definition py_fsiter_state_from_struct (c_state : iter_state_t)
  (current_dir : string) : result FilesystemIterState :=
  bind (PyUnicode_FromString current_dir) (fun current_dir_obj =>
  Ok (mkIterState (cnt c_state) (cnt_bytes c_state) current_dir_obj)).

(** [build_dir_stack_tuple]: the loop over the frames, root first. *)
Fixpoint dir_stack_entries (frames : list iter_dir_t)
  : result dir_stack_tuple :=
  match frames with
  | [] => Ok []
  | d :: rest =>
      bind (PyUnicode_FromString (path d)) (fun path_obj =>
      bind (dir_stack_entries rest) (fun tl => Ok ((path_obj, ino d) :: tl)))
  end.

Definition build_dir_stack_tuple (self : FilesystemIteratorObject)
  : result dir_stack_tuple :=
  dir_stack_entries (dir_stack self).

(** [dir_stack_to_cookies]: [None] is an absent or [None] argument.  The
    result is the array, [NULL] as [None], and its size. *)
Fixpoint cookies_of (entries : dir_stack_tuple) : result (list Z) :=
  match entries with
  | [] => Ok []
  | (_, inode) :: rest =>
      if (0 <=? inode) && (inode <=? UINT64_MAX) then
        bind (cookies_of rest) (fun tl => Ok (inode :: tl))
      else Raise OverflowError
  end.

Definition dir_stack_to_cookies (dir_stack : option dir_stack_tuple)
  : result (option (list Z) * Z) :=
  match dir_stack with
  | None => Ok (None, 0)
  | Some entries =>
      let cookie_sz := Z.of_nat (List.length entries) in
      if cookie_sz =? 0 then Ok (None, 0)
      else bind (cookies_of entries) (fun c => Ok (Some c, cookie_sz))
  end.

(** [check_and_invoke_reporting_callback]. *)
Definition check_and_invoke_reporting_callback
  (self : FilesystemIteratorObject) (current_dir : string) : result unit :=
  match reporting_cb self with
  | Some cb =>
      if negb (reporting_cb_increment self =? 0)
         && (cnt (state self) mod reporting_cb_increment self =? 0) then
        bind (build_dir_stack_tuple self) (fun dir_stack_obj =>
        bind (py_fsiter_state_from_struct (state self) current_dir)
          (fun state_obj => cb dir_stack_obj state_obj))
      else Ok tt
  | None => Ok tt
  end.

(** [set_iterator_restore_error]: the exception left set.  The message is
    formatted with replacement of undecodable bytes; the [path]
    attribute is built with [PyUnicode_FromString], and when that fails
    the restore error is dropped and the decoding error stays. *)
Definition set_iterator_restore_error (depth : Z) (path : string) : exc :=
  match PyUnicode_FromString path with
  | Ok path_obj => IteratorRestoreError depth path_obj
  | Raise e => e
  end.

Definition add_cnt (s : iter_state_t) (bytes : Z) : iter_state_t :=
  mkState (btime_cutoff s) (u64 (cnt s + 1)) (u64 (cnt_bytes s + bytes))
    (file_open_flags s).

(** [FSITER_ASSERT(test, message)].  The macro's definition is not among
    the sources, so the iterator takes it as a parameter.  [assert_abort]
    is the reading under which a failed test ends the process with the
    message; [assert_off] the one under which the macro expands to
    nothing. *)
Definition assert_t : Type := bool -> string -> M unit.

Definition assert_abort : assert_t :=
  fun test message => if test then mret tt else fatal message.

Definition assert_off : assert_t := fun _ _ => mret tt.

Section Next.
Variable FSITER_ASSERT : assert_t.

(** The main loop of [FilesystemIterator_next].  A Python exception is
    returned together with the object as the call leaves it.  For a
    directory the instance is [None] in restore mode, as [result] is
    [NULL] in C; the last branch returns it only out of restore mode,
    and a [NULL] returned with no exception set would end the
    iteration. *)
Fixpoint next_loop (fuel : nat) (self : FilesystemIteratorObject)
  : M (result IterInstance * FilesystemIteratorObject) :=
  match fuel with
  | O => fun w => (Starved, w)
  | S fuel' =>
    match List.last (map Some (dir_stack self)) None with
    | None => mret (Raise StopIteration, self)
    | Some cur_dir =>
        _ <- FSITER_ASSERT (cur_depth self <? MAX_DEPTH)
               "Iterator depth exceeded MAX_DEPTH" ;;
        r <- sys (c_readdir (dirp cur_dir)) ;;
        match dirent r with
        | None =>
            if negb (errno r =? 0) then
              mret (Raise (OSErrorMsg ("readdir(" ++ path cur_dir ++ ") failed")),
                    self)
            else
              match cookies self with
              | Some c =>
                  if (cur_depth self <? cookie_sz self)
                     && negb (cookie_at c (cur_depth self) =? 0) then
                    mret (Raise (set_iterator_restore_error (cur_depth self)
                                   (path cur_dir)), self)
                  else
                    self <- pop_dir_stack self ;; next_loop fuel' self
              | None =>
                  self <- pop_dir_stack self ;; next_loop fuel' self
              end
        | Some direntp =>
            if ISDOT (d_name direntp) || ISDOTDOT (d_name direntp) then
              next_loop fuel' self
            else
              let mycookie :=
                match cookies self with
                | Some c =>
                    if cur_depth self <? cookie_sz self
                    then cookie_at c (cur_depth self) else 0
                | None => 0
                end in
              if negb (mycookie =? 0) && negb (d_ino direntp =? mycookie) then
                next_loop fuel' self
              else
                let self :=
                  if negb (mycookie =? 0) then
                    set_cookies self
                      (option_map
                         (fun c => list_set c (Z.to_nat (cur_depth self)) 0)
                         (cookies self))
                      (cookie_sz self) (restoring_from_cookie self)
                  else self in
                '(action, self) <- process_retry self cur_dir direntp ;;
                match action with
                | FSITER_ERROR =>
                    mret (Raise (PyErr_SetString OSErrorMsg (cerr self)), self)
                | FSITER_CONTINUE => next_loop fuel' self
                | FSITER_YIELD_FILE =>
                    match create_iter_instance (fd (last self))
                            (st (last self)) (path cur_dir)
                            (name (last self)) with
                    | Raise e => mret (Raise e, self)
                    | Ok result =>
                        let self := set_state self
                          (add_cnt (state self) (stx_size (st (last self)))) in
                        match check_and_invoke_reporting_callback self
                                (path cur_dir) with
                        | Raise e => mret (Raise e, self)
                        | Ok _ => mret (Ok result, self)
                        end
                    end
                | FSITER_YIELD_DIR =>
                    match (if restoring_from_cookie self then Ok None
                           else bind (create_iter_instance (fd (last self))
                                        (st (last self)) (path cur_dir)
                                        (name (last self)))
                                  (fun inst => Ok (Some inst))) with
                    | Raise e => mret (Raise e, self)
                    | Ok result =>
                        '(push_ok, self) <- push_dir_stack self cur_dir ;;
                        if negb push_ok then
                          mret (Raise (PyErr_SetString OSErrorMsg (cerr self)),
                                self)
                        else if restoring_from_cookie self then
                          let self :=
                            if cur_depth self >=? cookie_sz self
                            then set_cookies self None 0 false else self in
                          next_loop fuel' self
                        else
                          let self :=
                            set_state self (add_cnt (state self) 0) in
                          match check_and_invoke_reporting_callback self
                                  (path cur_dir) with
                          | Raise e => mret (Raise e, self)
                          | Ok _ =>
                              match result with
                              | Some inst => mret (Ok inst, self)
                              | None => mret (Raise StopIteration, self)
                              end
                          end
                    end
                | FSITER_POP_DIR =>
                    self <- pop_dir_stack self ;; next_loop fuel' self
                end
        end
    end
  end.

(** [FilesystemIterator.__next__]. *)
Definition FilesystemIterator_next (self : FilesystemIteratorObject)
  : M (result IterInstance * FilesystemIteratorObject) :=
  self <- (if fd (last self) >=? 0 then
             _ <- emit (c_close (fd (last self))) ;;
             mret (set_last self
                     (mkEntry (name (last self)) (st (last self)) (-1)
                        (is_dir (last self))))
           else mret self) ;;
  self <- (if skip_next_recursion self then
             let self := set_skip self false in
             if cur_depth self >? 0 then pop_dir_stack self else mret self
           else mret self) ;;
  fun w => next_loop (S (List.length (script w))) self w.

End Next.

(** [FilesystemIterator.skip()], [dir_stack()], [get_stats()]. *)
Definition FilesystemIterator_skip (self : FilesystemIteratorObject)
  : result FilesystemIteratorObject :=
  if negb (is_dir (last self)) then
    Raise (ValueError
      "skip() can only be called when the last yielded item was a directory")
  else Ok (set_skip self true).

Definition FilesystemIterator_dir_stack (self : FilesystemIteratorObject)
  : result dir_stack_tuple := build_dir_stack_tuple self.

Definition FilesystemIterator_get_stats (self : FilesystemIteratorObject)
  : result FilesystemIterState :=
  let current_dir :=
    match List.last (map Some (dir_stack self)) None with
    | Some d => path d
    | None => ""
    end in
  py_fsiter_state_from_struct (state self) current_dir.

(** [create_filesystem_iterator]. *)
Definition create_filesystem_iterator (mountpoint : string)
  (relative_path : option string) (filesystem_name : string)
  (state : iter_state_t) (reporting_cb_increment : Z)
  (reporting_cb : option reporting_cb_t) (dir_stack : option dir_stack_tuple)
  : M (result FilesystemIteratorObject) :=
  match dir_stack_to_cookies dir_stack with
  | Raise e => mret (Raise e)
  | Ok (cookies, cookie_sz) =>
      let root_path :=
        match relative_path with
        | Some rp => if String.eqb rp "" then mountpoint
                     else mountpoint ++ "/" ++ rp
        | None => mountpoint
        end in
      if Z.of_nat (String.length root_path) >=? PATH_MAX then
        mret (Raise (ValueError "path too long"))
      else
        r <- sys (c_openat2 AT_FDCWD root_path OFLAGS_DIR_ITER
                    RESOLVE_NO_SYMLINKS) ;;
        let root_fd := ret r in
        if root_fd <? 0 then mret (Raise (OSErrorErrno (errno r)))
        else
          r <- sys (c_statx root_fd "" STATX_FLAGS_ITER STATX_MASK_ITER) ;;
          if ret r <? 0 then
            _ <- emit (c_close root_fd) ;;
            mret (Raise (OSErrorErrno (errno r)))
          else
            let root_st := stx r in
            if negb (S_ISDIR (stx_mode root_st)) then
              _ <- emit (c_close root_fd) ;;
              mret (Raise (OSErrorMsg ("Not a directory: " ++ root_path)))
            else
              r <- sys (c_statmount (stx_mnt_id root_st)
                          (Z.lor STATMOUNT_SB_BASIC STATMOUNT_SB_SOURCE)) ;;
              if ret r <? 0 then
                _ <- emit (c_close root_fd) ;;
                mret (Raise (OSErrorErrno (errno r)))
              else if negb (String.eqb (text r) filesystem_name) then
                _ <- emit (c_close root_fd) ;;
                mret (Raise (RuntimeError
                               (root_path ++ ": filesystem source mismatch")))
              else
                r <- sys (c_fdopendir root_fd) ;;
                if ret r =? 0 then
                  _ <- emit (c_close root_fd) ;;
                  mret (Raise (OSErrorErrno (errno r)))
                else
                  mret (Ok (mkIter
                    [mkDir root_path root_fd (stx_ino root_st)]
                    state
                    (mkEntry "" statx0 (-1) false)
                    ""
                    cookies cookie_sz
                    (match cookies with Some _ => true | None => false end)
                    reporting_cb_increment reporting_cb false))
  end.

End FsIter.
(* ================================================================== *)
(** * Order notions used to state what a sort achieves *)
(* ================================================================== *)

Module SortSpec.
Section Order.
Context {A : Type}.
Variable ltb : A -> A -> bool.

(** No element is smaller than one that precedes it. *)
Definition ascending (l : list A) : Prop :=
  StronglySorted (fun a b => ltb b a = false) l.

(** Neither element is smaller than the other. *)
Definition tied (a b : A) : bool := negb (ltb a b) && negb (ltb b a).

(** [s] is the stable sort of [l]: a permutation, ascending, in which
    tied elements keep their input order. *)
Definition stable_sort_of (l s : list A) : Prop :=
  Permutation l s /\ ascending s /\
  forall z, filter (tied z) s = filter (tied z) l.

End Order.
End SortSpec.

(* ================================================================== *)
(** * Observations used to state the properties of the NFSv4 codec *)
(* ================================================================== *)

Module NFS4Spec.
Import CInt Wire Py NFS4.

(** An ACE as it sits on the wire: five 32-bit words. *)
Record xdr_ace : Type := mkXdr {
  x_type : Z;
  x_flags : Z;
  x_iflag : Z;
  x_mask : Z;
  x_who : Z
}.

(** The ACE in slot [i] of a blob. *)
Definition xdr_ace_at (d : bytes) (i : Z) : xdr_ace :=
  let p := NFS4_HDR_WORDS + i * NFS4_ACE_WORDS in
  mkXdr (word d p) (word d (p + 1)) (word d (p + 2)) (word d (p + 3))
        (word d (p + 4)).

(** The twenty bytes of an ACE. *)
Definition encode_xdr (x : xdr_ace) : bytes :=
  nfs4ace_write_raw (x_type x) (x_flags x) (x_iflag x) (x_mask x) (x_who x).

(** A blob: two header words, then ACE slots. *)
Definition encode_blob (acl_flags naces : Z) (xs : list xdr_ace) : bytes :=
  write_be32 acl_flags ++ write_be32 naces ++ flat_map encode_xdr xs.

Definition xdr_in_range (x : xdr_ace) : Prop :=
  is_u32 (x_type x) = true /\ is_u32 (x_flags x) = true /\
  is_u32 (x_iflag x) = true /\ is_u32 (x_mask x) = true /\
  is_u32 (x_who x) = true.

(** The number of ACEs a blob holds: the count its header declares, cut
    where the data ends. *)
Definition n_present (d : bytes) : Z :=
  if blen d <? NFS4_HDR_SZ then 0
  else Z.min (word d 1) ((blen d - NFS4_HDR_SZ) / NFS4_ACE_SZ).

(** The [n] ACEs from slot [i] on. *)
Definition present_from (d : bytes) (i : Z) (n : nat) : list xdr_ace :=
  map (fun j => xdr_ace_at d (i + Z.of_nat j)) (seq 0 n).

Definition aces_present (d : bytes) : list xdr_ace :=
  present_from d 0 (Z.to_nat (n_present d)).

(** The wire form of an [NFS4Ace]. *)
Definition xdr_of_ace (a : NFS4Ace_t) : xdr_ace :=
  if who_type a =? NFS4_ACL_WHO_NAMED then
    mkXdr (u32 (ace_type a)) (u32 (ace_flags a)) 0 (u32 (access_mask a))
          (u32 (who_id a))
  else
    mkXdr (u32 (ace_type a)) (u32 (ace_flags a)) 1 (u32 (access_mask a))
          (u32 (who_type a)).

(** The ordering key in the words of the specification. *)
Definition is_inherited (a : NFS4Ace_t) : bool := Z.testbit (ace_flags a) 7.
Definition is_allow (a : NFS4Ace_t) : bool := ace_type a =? 0.
Definition ace_key (a : NFS4Ace_t) : Z :=
  2 * Z.b2z (is_inherited a) + Z.b2z (is_allow a).

Definition key_ltb (a b : NFS4Ace_t) : bool := ace_key a <? ace_key b.

Definition bucket (k : Z) (l : list NFS4Ace_t) : list NFS4Ace_t :=
  filter (fun a => ace_key a =? k) l.

Definition explicit_deny := bucket 0.
Definition explicit_allow := bucket 1.
Definition inherited_deny := bucket 2.
Definition inherited_allow := bucket 3.

(** The four buckets one after the other, each in input order. *)
Definition canonical (l : list NFS4Ace_t) : list NFS4Ace_t :=
  explicit_deny l ++ explicit_allow l ++ inherited_deny l ++ inherited_allow l.

(** Every field converts to a C [long]. *)
Definition ace_in_range (a : NFS4Ace_t) : Prop :=
  is_long (ace_type a) = true /\ is_long (ace_flags a) = true /\
  is_long (access_mask a) = true /\ is_long (who_type a) = true /\
  is_long (who_id a) = true.

Definition flags_in_range (o : option Z) : Prop :=
  match o with
  | None => True
  | Some v => is_long v = true
  end.

(** The data-model invariant of an ACE: enum members for the type and the
    principal kind, 32-bit flag words, and an id that is a uid/gid for a
    named principal and -1 otherwise. *)
Definition ace_wellformed (a : NFS4Ace_t) : Prop :=
  0 <= ace_type a <= 3 /\ is_u32 (ace_flags a) = true /\
  is_u32 (access_mask a) = true /\ 0 <= who_type a <= 3 /\
  (if who_type a =? NFS4_ACL_WHO_NAMED then is_u32 (who_id a) = true
   else who_id a = -1).

(** Scenario 1 of the specification. *)
Definition scenario_input : list NFS4Ace_t :=
  [ mkAce 0 0 1 1 (-1); mkAce 1 0x80 1 0 1000;
    mkAce 1 0 1 0 1001; mkAce 0 0x80 1 3 (-1) ].

Definition scenario_output : list NFS4Ace_t :=
  [ mkAce 1 0 1 0 1001; mkAce 0 0 1 1 (-1);
    mkAce 1 0x80 1 0 1000; mkAce 0 0x80 1 3 (-1) ].

(** Inheritance, in the words of the specification.  [bit f n] is flag
    bit [n]: 0 FILE_INHERIT, 1 DIRECTORY_INHERIT, 2 NO_PROPAGATE_INHERIT,
    3 INHERIT_ONLY, 7 INHERITED. *)
Definition flag_file_inherit (f : Z) : bool := Z.testbit f 0.
Definition flag_dir_inherit (f : Z) : bool := Z.testbit f 1.
Definition flag_no_propagate (f : Z) : bool := Z.testbit f 2.
Definition flag_inherit_only (f : Z) : bool := Z.testbit f 3.
Definition flag_inherited (f : Z) : bool := Z.testbit f 7.

(** The ACE is passed on to a child of the given kind. *)
Definition passed_on (is_dir : bool) (a : xdr_ace) : bool :=
  if is_dir then flag_file_inherit (x_flags a) || flag_dir_inherit (x_flags a)
  else flag_file_inherit (x_flags a).

(** [f'] is [f] with the four inherit bits stripped and INHERITED set. *)
Definition stripped_and_inherited (f f' : Z) : Prop :=
  forall n, 0 <= n ->
    Z.testbit f' n =
    if (n =? 0) || (n =? 1) || (n =? 2) || (n =? 3) then false
    else if n =? 7 then true else Z.testbit f n.

(** [f'] is [f] with INHERIT_ONLY cleared and INHERITED set, FILE_INHERIT
    and DIRECTORY_INHERIT (and every other bit) kept. *)
Definition propagating_and_inherited (f f' : Z) : Prop :=
  forall n, 0 <= n ->
    Z.testbit f' n =
    if n =? 3 then false else if n =? 7 then true else Z.testbit f n.

(** [o] is what a child of the given kind receives for the parent ACE
    [a]. *)
Definition inherits_from (is_dir : bool) (a o : xdr_ace) : Prop :=
  x_type o = x_type a /\ x_iflag o = x_iflag a /\ x_mask o = x_mask a /\
  x_who o = x_who a /\
  (if is_dir && negb (flag_no_propagate (x_flags a))
   then propagating_and_inherited (x_flags a) (x_flags o)
   else stripped_and_inherited (x_flags a) (x_flags o)).

(** The ACE the code writes for the parent ACE [a]. *)
Definition inherit_xdr (is_dir : bool) (a : xdr_ace) : xdr_ace :=
  mkXdr (x_type a) (inherited_flags (x_flags a) is_dir) (x_iflag a)
        (x_mask a) (x_who a).

(** Validation, in the words of the specification: the reasons for which
    an ACL is to be rejected for a target that is a directory or not. *)
Definition deny_on_special (a : xdr_ace) : bool :=
  (x_type a =? 1) && (x_iflag a =? 1).

Definition inherit_only_alone (a : xdr_ace) : bool :=
  flag_inherit_only (x_flags a)
  && negb (flag_file_inherit (x_flags a) || flag_dir_inherit (x_flags a)).

Definition has_propagation_bit (a : xdr_ace) : bool :=
  flag_file_inherit (x_flags a) || flag_dir_inherit (x_flags a)
  || flag_no_propagate (x_flags a) || flag_inherit_only (x_flags a).

Definition is_inheritable (a : xdr_ace) : bool :=
  flag_file_inherit (x_flags a) || flag_dir_inherit (x_flags a).

Definition offending (a : xdr_ace) : bool :=
  deny_on_special a || inherit_only_alone a.

Definition must_reject (target_is_dir : bool) (aces : list xdr_ace) : bool :=
  existsb deny_on_special aces
  || existsb inherit_only_alone aces
  || (existsb has_propagation_bit aces && negb target_is_dir)
  || (target_is_dir && negb (existsb is_inheritable aces)).

(** The target of a validation: an absent [fd] counts as a directory. *)
Definition target_is_dir (fstat : Z -> Stat.fstat_result) (fd : Z) : option bool :=
  if fd =? -1 then Some true
  else match fstat fd with
       | Stat.StatOk m => Some (Stat.S_ISDIR m)
       | Stat.StatErr _ => None
       end.

(** A directory ACL with one ACE: ALLOW, FILE_INHERIT | DIRECTORY_INHERIT,
    READ_DATA, EVERYONE@. *)
Definition valid_example : bytes :=
  encode_blob 0 1 [mkXdr 0 3 1 1 3].

End NFS4Spec.

(* ================================================================== *)
(** * Observations used to state the properties of the POSIX codec *)
(* ================================================================== *)

Module POSIXSpec.
Import CInt Wire Py POSIX.

(** An entry as it sits on the wire. *)
Record wire_entry : Type := mkEntry {
  e_tag : Z;
  e_perm : Z;
  e_id : Z
}.

(** The eight bytes of an entry. *)
Definition encode_entry (e : wire_entry) : bytes :=
  write_le16 (e_tag e) ++ write_le16 (e_perm e) ++ write_le32 (e_id e).

(** A blob: the version word, then the entries. *)
Definition encode_entries (version : Z) (es : list wire_entry) : bytes :=
  write_le32 version ++ flat_map encode_entry es.

Definition entry_in_range (e : wire_entry) : Prop :=
  is_u16 (e_tag e) = true /\ is_u16 (e_perm e) = true /\
  is_u32 (e_id e) = true.

(** The entry in record [i] of a blob, and the entries a blob holds. *)
Definition entry_at (d : bytes) (i : Z) : wire_entry :=
  let p := POSIX_HDR_SZ + i * POSIX_ACE_SZ in
  mkEntry (read_le16 d (p + 0)) (read_le16 d (p + 2)) (read_le32 d (p + 4)).

Definition entries_from (d : bytes) (i : Z) (n : nat) : list wire_entry :=
  map (fun j => entry_at d (i + Z.of_nat j)) (seq 0 n).

Definition n_entries (d : bytes) : Z := (blen d - POSIX_HDR_SZ) / POSIX_ACE_SZ.

Definition entries (d : bytes) : list wire_entry :=
  entries_from d 0 (Z.to_nat (n_entries d)).

(** The wire form of a [POSIXAce], and the [POSIXAce] read from an
    entry. *)
Definition wire_of_ace (a : POSIXAce_t) : wire_entry :=
  mkEntry (u16 (tag a)) (u16 (perms a))
    (if is_special_tag (tag a) then POSIX_SPECIAL_ID else u32 (id a)).

Definition ace_of_wire (is_default : bool) (e : wire_entry) : POSIXAce_t :=
  mkAce (e_tag e) (e_perm e)
    (if e_id e =? POSIX_SPECIAL_ID then -1 else e_id e) is_default.

(** Every tag is a member of the [POSIXTag] enum. *)
Definition tag_known (e : wire_entry) : bool :=
  existsb (Z.eqb (e_tag e)) posix_tag_table.

Definition tags_known (es : list wire_entry) : bool := forallb tag_known es.

(** The order [(tag, id)], ascending. *)
Definition key_ltb (a b : POSIXAce_t) : bool :=
  (tag a <? tag b) || ((tag a =? tag b) && (id a <? id b)).

Definition access_part (l : list POSIXAce_t) : list POSIXAce_t :=
  filter (fun a => negb (default_ a)) l.

Definition default_part (l : list POSIXAce_t) : list POSIXAce_t :=
  filter default_ l.

(** Every field converts to a C [long]. *)
Definition ace_in_range (a : POSIXAce_t) : Prop :=
  is_long (tag a) = true /\ is_long (perms a) = true /\ is_long (id a) = true.

(** The data-model invariant of an entry: a tag of the enum, 16-bit
    permissions, id -1 on the special tags, and on [USER] and [GROUP] a
    uid/gid below the special id, or -1. *)
Definition ace_normal (a : POSIXAce_t) : Prop :=
  In (tag a) posix_tag_table /\ is_u16 (perms a) = true /\
  (if is_special_tag (tag a) then id a = -1
   else -1 <= id a < POSIX_SPECIAL_ID).

(** Scenario 4 of the specification. *)
Definition scenario_input : list POSIXAce_t :=
  [ mkAce POSIX_TAG_OTHER 0 (-1) false;
    mkAce POSIX_TAG_USER_OBJ (Z.lor POSIX_PERM_READ POSIX_PERM_WRITE) (-1) false;
    mkAce POSIX_TAG_GROUP_OBJ POSIX_PERM_READ (-1) false ].

Definition scenario_output : list POSIXAce_t :=
  [ mkAce POSIX_TAG_USER_OBJ (Z.lor POSIX_PERM_READ POSIX_PERM_WRITE) (-1) false;
    mkAce POSIX_TAG_GROUP_OBJ POSIX_PERM_READ (-1) false;
    mkAce POSIX_TAG_OTHER 0 (-1) false ].

(** Conformance of a blob, in the words of the specification. *)
Definition count_tag (t : Z) (es : list wire_entry) : Z :=
  Z.of_nat (List.length (filter (fun e => e_tag e =? t) es)).

Definition is_named (e : wire_entry) : bool :=
  (e_tag e =? POSIX_TAG_USER) || (e_tag e =? POSIX_TAG_GROUP).

Definition blob_conforms (d : bytes) : Prop :=
  let es := entries d in
  count_tag POSIX_TAG_USER_OBJ es = 1 /\
  count_tag POSIX_TAG_GROUP_OBJ es = 1 /\
  count_tag POSIX_TAG_OTHER es = 1 /\
  Forall (fun e => is_named e = true -> e_id e <> POSIX_SPECIAL_ID) es /\
  (existsb is_named es = true -> count_tag POSIX_TAG_MASK es = 1) /\
  count_tag POSIX_TAG_MASK es <= 1.

(** A minimal conforming access ACL and a default ACL with a named user. *)
Definition access_example : bytes :=
  encode_entries 2
    [mkEntry 1 6 0xFFFFFFFF; mkEntry 4 4 0xFFFFFFFF; mkEntry 32 0 0xFFFFFFFF].

Definition default_example : bytes :=
  encode_entries 2
    [mkEntry 1 7 0xFFFFFFFF; mkEntry 2 5 1000; mkEntry 4 5 0xFFFFFFFF;
     mkEntry 16 5 0xFFFFFFFF; mkEntry 32 0 0xFFFFFFFF].

(** The number of [USER] and [GROUP] entries. *)
Definition count_named (es : list wire_entry) : Z :=
  Z.of_nat (List.length (filter is_named es)).

(** The counters stay within [int] as long as the entries left to read
    fit. *)
Definition fits (c : tag_counts) (n : nat) : Prop :=
  0 <= n_user_obj c /\ n_user_obj c + Z.of_nat n <= INT_MAX /\
  0 <= n_group_obj c /\ n_group_obj c + Z.of_nat n <= INT_MAX /\
  0 <= n_other c /\ n_other c + Z.of_nat n <= INT_MAX /\
  0 <= n_mask c /\ n_mask c + Z.of_nat n <= INT_MAX /\
  0 <= n_named c /\ n_named c + Z.of_nat n <= INT_MAX.

(** The xattr [from_aces] builds from a sorted list. *)
Definition blob_of (s : list POSIXAce_t) : bytes :=
  encode_entries POSIX_ACL_VERSION (map wire_of_ace s).

(** A [MASK] entry on which the caller has set an id. *)
Definition mask_with_id : list POSIXAce_t :=
  [mkAce POSIX_TAG_MASK POSIX_PERM_READ 1000 false].

(** The tags the specification lists as carrying no id of their own:
    USER_OBJ, GROUP_OBJ, MASK and OTHER.  This is the specification's
    list, to be compared with the test [is_special_tag] of the code. *)
Definition listed_special_tags : list Z :=
  [POSIX_TAG_USER_OBJ; POSIX_TAG_GROUP_OBJ; POSIX_TAG_MASK; POSIX_TAG_OTHER].

(** One entry of each listed tag, each with an id set by the caller, and
    the same entries as they are read back. *)
Definition specials_with_ids : list POSIXAce_t :=
  [mkAce POSIX_TAG_OTHER 0 8 false;
   mkAce POSIX_TAG_MASK POSIX_PERM_READ 7 false;
   mkAce POSIX_TAG_GROUP_OBJ POSIX_PERM_READ 6 false;
   mkAce POSIX_TAG_USER_OBJ POSIX_PERM_READ 5 false].

Definition specials_read_back : list POSIXAce_t :=
  [mkAce POSIX_TAG_USER_OBJ POSIX_PERM_READ (-1) false;
   mkAce POSIX_TAG_GROUP_OBJ POSIX_PERM_READ (-1) false;
   mkAce POSIX_TAG_MASK POSIX_PERM_READ (-1) false;
   mkAce POSIX_TAG_OTHER 0 (-1) false].

(** What the wire holds for an entry: its tag, the special id when the
    tag is one of the four listed, and the entry's own id otherwise. *)
Definition on_wire (a : POSIXAce_t) (e : wire_entry) : Prop :=
  e_tag e = u16 (tag a) /\
  (In (tag a) listed_special_tags -> e_id e = POSIX_SPECIAL_ID) /\
  (~ In (tag a) listed_special_tags -> e_id e = u32 (id a)).

End POSIXSpec.

(* ================================================================== *)
(** * Scripts of kernel replies *)
(* ================================================================== *)

Module KernelSpec.
Import Wire Py Kernel.

(** A run of interrupted attempts: each attempt fails with [EINTR] and the
    signal check that follows reports nothing pending. *)
Fixpoint restarts (failed : reply -> bool) (l : list reply) : bool :=
  match l with
  | [] => true
  | r :: s :: l' =>
      failed r && (errno r =? EINTR) && (ret s =? 0) && restarts failed l'
  | _ => false
  end.

(** A reply on which the signal-safe loop stops. *)
Definition settles (failed : reply -> bool) (r : reply) : bool :=
  negb (failed r && (errno r =? EINTR)).

(** What the kernel says to one call site: interrupted attempts, then the
    reply that settles it. *)
Definition answer : Type := list reply * reply.

Definition answered (failed : reply -> bool) (a : answer) : bool :=
  restarts failed (fst a) && settles failed (snd a).

Definition replies (l : list answer) : list reply :=
  flat_map (fun a => fst a ++ [snd a]) l.

(** The calls the loop makes on the way: the call and a signal check per
    interrupted attempt, then the call once more. *)
Fixpoint retry_calls (c : call) (pre : list reply) : list call :=
  match pre with
  | _ :: _ :: l' => c :: c_PyErr_CheckSignals :: retry_calls c l'
  | _ => [c]
  end.

Definition is_open_by_handle_at (c : call) : bool :=
  match c with
  | c_open_by_handle_at _ _ _ => true
  | _ => false
  end.

(** A computation only ever adds calls to the trace. *)
Definition extends {A} (m : M A) : Prop :=
  forall w, exists more, trace (snd (m w)) = trace w ++ more.

(** The first thing a computation does is the call [c]. *)
Definition begins_with {A} (c : call) (m : M A) : Prop :=
  forall w, exists more, trace (snd (m w)) = trace w ++ c :: more.

(** One attempt interrupted by a signal whose handler raises nothing. *)
Definition interrupted_once : list reply := [r_err EINTR; r_ok 0].

End KernelSpec.

(* ================================================================== *)
(** * Iterator scenarios *)
(* ================================================================== *)

Module FsIterSpec.
Import CInt Wire Py Stat Kernel FsIter.
Local Open Scope string_scope.
Local Open Scope Z_scope.

(** A directory and a regular file as [statx] reports them. *)
Definition dir_statx (inode : Z) : statx_t := mkStatx 16877 inode 4096 0 7.
Definition file_statx (inode size : Z) : statx_t := mkStatx 33188 inode size 0 7.

(** What [dir_stack()] returns while the iterator is in its root
    directory [/mnt/t] (inode 10): one entry. *)
Definition root_snapshot : dir_stack_tuple := [("/mnt/t", 10)].

(** The kernel's replies while the iterator on [/mnt/t] is created:
    [openat2], [statx], [statmount], [fdopendir]. *)
Definition open_script : list reply :=
  [r_ok 3; r_statx (dir_statx 10); r_text "tank/t"; r_ok 1].

(** The root holds one directory [a] (inode 11), which holds one file [x]
    (inode 12, 3 bytes).  The replies are those of [readdir], [openat2],
    [statx], [dup], [fdopendir] for [a], then [readdir], [openat2],
    [statx] for [x]. *)
Definition walk_script : list reply :=
  [r_dirent (mkDirent "a" 11 4); r_ok 5; r_statx (dir_statx 11);
   r_ok 6; r_ok 1;
   r_dirent (mkDirent "x" 12 8); r_ok 7; r_statx (file_statx 12 3)].

Definition fresh_state : iter_state_t := mkState 0 0 0 0.

(** The iterator object on [/mnt/t], as created without and with the
    snapshot. *)
Definition root_iterator : FilesystemIteratorObject :=
  mkIter [mkDir "/mnt/t" 3 10] fresh_state (mkEntry "" statx0 (-1) false) ""
    None 0 false 0 None false.

Definition resumed_iterator : FilesystemIteratorObject :=
  mkIter [mkDir "/mnt/t" 3 10] fresh_state (mkEntry "" statx0 (-1) false) ""
    (Some [10]) 1 true 0 None false.

(** An iterator whose stack holds [n] frames. *)
Definition deep_iterator (n : nat) : FilesystemIteratorObject :=
  mkIter (repeat (mkDir "/d" 3 1) n) fresh_state
    (mkEntry "e" (dir_statx 2) 4 true) "" None 0 false 0 None false.

(** A snapshot taken inside [/mnt/t/a], the iterator created with it, and
    a root that lists a directory [b] (inode 13) before [a]. *)
Definition nested_snapshot : dir_stack_tuple :=
  [("/mnt/t", 10); ("/mnt/t/a", 11)].

Definition nested_iterator : FilesystemIteratorObject :=
  mkIter [mkDir "/mnt/t" 3 10] fresh_state (mkEntry "" statx0 (-1) false) ""
    (Some [10; 11]) 2 true 0 None false.

Definition nested_script : list reply :=
  r_dirent (mkDirent "b" 13 4) :: walk_script.

End FsIterSpec.

(* ================================================================== *)
(** * What a step of the iterator hands out *)
(* ================================================================== *)

Module FsIterInv.
Import CInt Wire Py Stat Kernel FsIter.
Local Open Scope string_scope.
Local Open Scope Z_scope.

(** [b] differs from [a] at most in [last] and [cerr]. *)
Definition same_walk (a b : FilesystemIteratorObject) : Prop :=
  dir_stack b = dir_stack a /\ state b = state a /\
  cookies b = cookies a /\ cookie_sz b = cookie_sz a /\
  restoring_from_cookie b = restoring_from_cookie a /\
  reporting_cb_increment b = reporting_cb_increment a /\
  reporting_cb b = reporting_cb a /\
  skip_next_recursion b = skip_next_recursion a.

(** The counters after one more item of [bytes] bytes. *)
Definition counted (s0 s1 : iter_state_t) (bytes : Z) : Prop :=
  cnt s1 = u64 (cnt s0 + 1) /\ cnt_bytes s1 = u64 (cnt_bytes s0 + bytes) /\
  btime_cutoff s1 = btime_cutoff s0 /\ file_open_flags s1 = file_open_flags s0.

(** The settings of a walk, which no step changes. *)
Definition same_settings (s0 s1 : iter_state_t) : Prop :=
  btime_cutoff s1 = btime_cutoff s0 /\ file_open_flags s1 = file_open_flags s0.

(** [inst] is what [__next__] returned, [self'] the object it left, and
    [s0] the counters it started from. *)
Definition yielded (s0 : iter_state_t) (inst : IterInstance)
  (self' : FilesystemIteratorObject) : Prop :=
  i_name inst <> "." /\ i_name inst <> ".." /\
  0 <= i_fd inst /\
  last self' =
    mkEntry (i_name inst) (i_statxinfo inst) (i_fd inst) (i_isdir inst) /\
  i_isdir inst = S_ISDIR (stx_mode (i_statxinfo inst)) /\
  (i_isdir inst = false -> btime_cutoff s0 <> 0 ->
   stx_btime_sec (i_statxinfo inst) <= btime_cutoff s0) /\
  counted s0 (state self')
    (if i_isdir inst then 0 else stx_size (i_statxinfo inst)) /\
  (if i_isdir inst then
     exists below parent dup_fd,
       dir_stack self' =
       (below ++ [parent;
                  mkDir (snprintf PATH_MAX
                           (i_parent inst ++ "/" ++ i_name inst)) dup_fd
                    (stx_ino (i_statxinfo inst))])%list /\
       path parent = i_parent inst /\ 0 <= dup_fd
   else
     exists below parent,
       dir_stack self' = (below ++ [parent])%list /\
       path parent = i_parent inst) /\
  utf8_valid (i_parent inst) = true /\ utf8_valid (i_name inst) = true.

(** What [process_next_entry] leaves behind, by the action it returns. *)
Definition entry_filled (self : FilesystemIteratorObject) (entry : dirent_t)
  (action : fsiter_action) (self' : FilesystemIteratorObject) : Prop :=
  same_walk self self' /\
  name (last self') = d_name entry /\
  action <> FSITER_POP_DIR /\
  (action = FSITER_YIELD_FILE \/ action = FSITER_YIELD_DIR ->
   0 <= fd (last self') /\
   is_dir (last self') = S_ISDIR (stx_mode (st (last self'))) /\
   is_dir (last self') =
     match action with FSITER_YIELD_DIR => true | _ => false end /\
   (is_dir (last self') = false -> btime_cutoff (state self) <> 0 ->
    stx_btime_sec (st (last self')) <= btime_cutoff (state self))).

(** What holds of every result of [__next__]. *)
Definition stepped (self : FilesystemIteratorObject)
  (res : result IterInstance) (self' : FilesystemIteratorObject) : Prop :=
  (cur_depth self <= MAX_DEPTH -> cur_depth self' <= MAX_DEPTH) /\
  same_settings (state self) (state self') /\
  match res with
  | Ok inst => yielded (state self) inst self'
  | Raise _ => True
  end.

(** An assertion macro passes when its test holds, and otherwise passes
    or ends the process; it makes no call and takes no reply. *)
Definition assert_sound (A : assert_t) : Prop :=
  (forall message w, A true message w = (Done tt, w)) /\
  forall test message w,
    A test message w = (Done tt, w) \/
    exists m, A test message w = (Fatal m, w).

(** The object [__next__] works on once the descriptor handed out by the
    previous call is closed. *)
Definition fd_closed (self : FilesystemIteratorObject)
  : FilesystemIteratorObject :=
  set_last self
    (mkEntry (name (last self)) (st (last self)) (-1) (is_dir (last self))).

(** An iterator in [/mnt/t] with a birth-time cutoff of 100 that has
    yielded 4 items of 10 bytes, a directory holding the file [x] (3
    bytes, born at 50), and what the step on it returns. *)
Definition cutoff_iterator : FilesystemIteratorObject :=
  mkIter [mkDir "/mnt/t" 3 10] (mkState 100 4 10 0)
    (mkEntry "" statx0 (-1) false) "" None 0 false 0 None false.

Definition old_file_statx : statx_t := mkStatx 33188 12 3 50 7.

Definition old_file_script : list reply :=
  [r_dirent (mkDirent "x" 12 8); r_ok 7; r_statx old_file_statx].

Definition old_file : IterInstance :=
  mkInst "/mnt/t" "x" 7 old_file_statx false.

Definition after_old_file : FilesystemIteratorObject :=
  mkIter [mkDir "/mnt/t" 3 10] (mkState 100 5 13 0)
    (mkEntry "x" old_file_statx 7 false) "" None 0 false 0 None false.

Definition after_old_file_world : world :=
  mkWorld []
    [c_readdir 3; c_openat2 3 "x" 0 RESOLVE_FLAGS_ITER;
     c_statx 7 "" STATX_FLAGS_ITER STATX_MASK_ITER].

(** The first step on the root of [FsIterSpec.walk_script]: the
    directory [a] is yielded and entered. *)
Definition dir_a_script : list reply := firstn 5 FsIterSpec.walk_script.

Definition dir_a : IterInstance :=
  mkInst "/mnt/t" "a" 5 (FsIterSpec.dir_statx 11) true.

Definition after_dir_a : FilesystemIteratorObject :=
  mkIter [mkDir "/mnt/t" 3 10; mkDir "/mnt/t/a" 6 11] (mkState 0 1 0 0)
    (mkEntry "a" (FsIterSpec.dir_statx 11) 5 true) "" None 0 false 0 None
    false.

Definition after_dir_a_world : world :=
  mkWorld []
    [c_readdir 3; c_openat2 3 "a" OFLAGS_DIR_ITER RESOLVE_FLAGS_ITER;
     c_statx 5 "" STATX_FLAGS_ITER STATX_MASK_ITER; c_dup 5; c_fdopendir 6].

(** The object [__next__] works on after [skip()]: the descriptor handed
    out is closed, the flag is down and the top frame is gone. *)
Definition skipped (self : FilesystemIteratorObject)
  : FilesystemIteratorObject :=
  set_dir_stack (set_skip (fd_closed self) false)
    (removelast (dir_stack self)).

(** The top frame is gone. *)
Definition popped (self : FilesystemIteratorObject)
  : FilesystemIteratorObject :=
  set_dir_stack self (removelast (dir_stack self)).


Definition is_close (c : call) : bool :=
  match c with
  | c_close _ => true
  | _ => false
  end.

(** The cookie the loop looks for at the current depth, 0 when there is
    none: no cookie array, a depth beyond it, or an entry already
    cleared. *)
Definition pending_cookie (self : FilesystemIteratorObject) : Z :=
  match cookies self with
  | Some c =>
      if cur_depth self <? cookie_sz self
      then cookie_at c (cur_depth self) else 0
  | None => 0
  end.


(** The path of every frame decodes as UTF-8. *)
Definition paths_decodable (self : FilesystemIteratorObject) : bool :=
  forallb (fun d => utf8_valid (path d)) (dir_stack self).






(** The inode of every frame fits the [uint64_t] it is stored in. *)
Definition inodes_fit (self : FilesystemIteratorObject) : Prop :=
  Forall (fun d => 0 <= ino d <= UINT64_MAX) (dir_stack self).

(** A root that holds a symlink [l] (inode 14) before the file [x]: the
    [openat2] of [l] fails with [ELOOP]. *)
Definition symlink_script : list reply :=
  [r_dirent (mkDirent "l" 14 10); r_err ELOOP] ++ old_file_script.

End FsIterInv.

(* ================================================================== *)
(** * Well-formed POSIX blobs and entry lists *)
(* ================================================================== *)

Module POSIXForm.
Import CInt Wire Py Stat POSIX POSIXSpec.

(** Every [USER] and [GROUP] record carries an id other than the special
    id. *)
Definition ids_concrete (es : list wire_entry) : Prop :=
  Forall (fun e => is_named e = true -> e_id e <> POSIX_SPECIAL_ID) es.

(** What [validate_posix_blob] accepts: a header with version 2, records
    with tags of the enum only, and the entry counts of the
    specification. *)
Definition blob_wellformed (d : bytes) : Prop :=
  POSIX_HDR_SZ <= blen d /\ read_le32 d 0 = POSIX_ACL_VERSION /\
  tags_known (entries d) = true /\ blob_conforms d.

(** The same conditions on a list of entries as the caller holds them. *)
Definition count_aces (t : Z) (l : list POSIXAce_t) : Z :=
  Z.of_nat (List.length (filter (fun a => tag a =? t) l)).

Definition ace_named (a : POSIXAce_t) : bool :=
  (tag a =? POSIX_TAG_USER) || (tag a =? POSIX_TAG_GROUP).

Definition aces_conform (l : list POSIXAce_t) : Prop :=
  count_aces POSIX_TAG_USER_OBJ l = 1 /\
  count_aces POSIX_TAG_GROUP_OBJ l = 1 /\
  count_aces POSIX_TAG_OTHER l = 1 /\
  Forall (fun a => ace_named a = true -> id a <> -1) l /\
  (existsb ace_named l = true -> count_aces POSIX_TAG_MASK l = 1) /\
  count_aces POSIX_TAG_MASK l <= 1.

(** A conforming list: owner, a named user, owning group, mask, other. *)
Definition conforming_aces : list POSIXAce_t :=
  [ mkAce POSIX_TAG_OTHER 0 (-1) false;
    mkAce POSIX_TAG_USER 6 1000 false;
    mkAce POSIX_TAG_USER_OBJ 7 (-1) false;
    mkAce POSIX_TAG_MASK 6 (-1) false;
    mkAce POSIX_TAG_GROUP_OBJ 5 (-1) false ].

End POSIXForm.

(* ================================================================== *)
(** * Observations on NFSv4 blobs used by the composition properties *)
(* ================================================================== *)

Module NFS4Form.
Import CInt Wire Py Stat NFS4 NFS4Spec.

(** The ACE is passed on to a directory child and goes on being passed on
    from there: FILE_INHERIT or DIRECTORY_INHERIT without
    NO_PROPAGATE_INHERIT. *)
Definition propagates (a : xdr_ace) : bool :=
  is_inheritable a && negb (flag_no_propagate (x_flags a)).

(** The slot [x] decodes into the ACE [a]. *)
Definition decodes (x : xdr_ace) (a : NFS4Ace_t) : Prop :=
  ace_type a = x_type x /\ ace_flags a = x_flags x /\
  access_mask a = x_mask x /\
  (if x_iflag x =? 0
   then who_type a = NFS4_ACL_WHO_NAMED /\ who_id a = x_who x
   else who_type a = x_who x /\ who_id a = -1).

(** The slot holds members of the two enums: [nfs4ace_decode] accepts
    it. *)
Definition decodable (x : xdr_ace) : bool :=
  existsb (Z.eqb (x_type x)) nfs4_ace_type_table
  && ((x_iflag x =? 0) || existsb (Z.eqb (x_who x)) nfs4_who_table).

(** The exception [nfs4ace_decode] leaves on a slot it does not accept:
    the ValueError of the principal enum when the ACE type is a member of
    its enum, and SystemError when it is not, the later enum calls having
    been made with the first ValueError set. *)
Definition slot_error (x : xdr_ace) : exc :=
  if existsb (Z.eqb (x_type x)) nfs4_ace_type_table
  then ValueError "not a valid enum member" else SystemError.

(** The first slot that [nfs4ace_decode] does not accept. *)
Definition first_undecodable (l : list xdr_ace) : option xdr_ace :=
  find (fun x => negb (decodable x)) l.

(** A directory ACL: EVERYONE@ with FILE_INHERIT | DIRECTORY_INHERIT, and
    a named user with FILE_INHERIT | NO_PROPAGATE_INHERIT. *)
Definition parent_example : NFS4ACL_t :=
  NFS4.mkACL (encode_blob 0 2 [mkXdr 0 3 1 1 3; mkXdr 0 5 0 1 1000]).

(** A directory ACL whose only inheritable ACE carries
    NO_PROPAGATE_INHERIT. *)
Definition no_propagate_example : NFS4ACL_t :=
  NFS4.mkACL (encode_blob 0 1 [mkXdr 0 7 1 1 3]).

(** A blob whose header declares two ACEs and that holds one. *)
Definition truncated_example : NFS4ACL_t :=
  NFS4.mkACL (encode_blob 0 2 [mkXdr 0 3 1 1 3]).

End NFS4Form.

(* ================================================================== *)
(** * Observations on the calls a computation makes *)
(* ================================================================== *)

Module KernelForm.
Import CInt Wire Py Kernel AclXattr Fhandle.

(** Every call a computation adds to the trace satisfies [P]. *)
Definition confined {A} (P : call -> Prop) (m : M A) : Prop :=
  forall w, exists more,
    trace (snd (m w)) = trace w ++ more /\ Forall P more.

(** The calls [do_fgetacl] may make on [fd]: [fgetxattr] on [fd] for one
    of the three ACL xattrs, and the signal check. *)
Definition acl_probe (fd : Z) (c : call) : Prop :=
  c = c_PyErr_CheckSignals \/
  exists name sz,
    c = c_fgetxattr fd name sz /\
    In name [NFS4_ACL_XATTR; POSIX_ACCESS_XATTR; POSIX_DEFAULT_XATTR].

(** The calls [Fhandle.open] may make. *)
Definition handle_call (self : py_fhandle_t) (mount_fd flags : Z) (c : call)
  : Prop :=
  c = c_PyErr_CheckSignals \/
  c = c_statx mount_fd "" AT_EMPTY_PATH
        (if unique_mount_id self then STATX_MNT_ID_UNIQUE else STATX_MNT_ID) \/
  c = c_open_by_handle_at mount_fd (fhandle self) flags.

(** The last call made is the signal check. *)
Definition ends_checked (tr : list call) : Prop :=
  exists before, tr = before ++ [c_PyErr_CheckSignals].

(** A computation that makes calls satisfying [P] only, and that, started
    after a call other than the signal check, raises [Interrupted] exactly
    when the last call it made is the signal check; it never aborts the
    process. *)
Definition orderly {A} (P : call -> Prop) (m : M A) : Prop :=
  forall w, ~ ends_checked (trace w) ->
    (exists more, trace (snd (m w)) = trace w ++ more /\ Forall P more) /\
    match fst (m w) with
    | Done _ => ~ ends_checked (trace (snd (m w)))
    | Exc e => e = Interrupted <-> ends_checked (trace (snd (m w)))
    | Fatal _ => False
    | Starved => True
    end.

(** A handle as [name_to_handle_at] left it, and the reply of a [statx]
    on its mount. *)
Definition handle_example : py_fhandle_t :=
  mkFhandle 42 false true [Byte.x04; Byte.x00; Byte.x00; Byte.x00;
                           Byte.x01; Byte.x00; Byte.x00; Byte.x00;
                           Byte.x0a; Byte.x0b; Byte.x0c; Byte.x0d].

Definition mount_statx : reply := r_statx (mkStatx 16877 2 0 0 42).

End KernelForm.

(* ================================================================== *)
(** * acl.c: writing and removing the ACL xattrs *)
(* ================================================================== *)

(** The calls of this part of [acl.c] are kept in a type of their own,
    with the same script-and-trace reading of the kernel as above. *)
Module AclWrite.
Import CInt Wire Py Kernel AclXattr.

Inductive xcall : Type :=
| x_fgetxattr (fd : Z) (name : string) (size : Z)
| x_fsetxattr (fd : Z) (name : string) (value : bytes) (size flags : Z)
| x_fremovexattr (fd : Z) (name : string)
| x_PyErr_CheckSignals.

Record xworld : Type := mkXWorld {
  xscript : list reply;
  xtrace : list xcall
}.

Definition X (A : Type) : Type := xworld -> outcome A * xworld.

Definition xret {A} (a : A) : X A := fun w => (Done a, w).

Definition xbind {A B} (m : X A) (k : A -> X B) : X B :=
  fun w =>
    match m w with
    | (Done a, w') => k a w'
    | (Exc e, w') => (Exc e, w')
    | (Fatal s, w') => (Fatal s, w')
    | (Starved, w') => (Starved, w')
    end.

Definition xraise {A} (e : exc) : X A := fun w => (Exc e, w).

Definition xsys (c : xcall) : X reply :=
  fun w =>
    match xscript w with
    | [] => (Starved, mkXWorld [] (xtrace w ++ [c]))
    | r :: s => (Done r, mkXWorld s (xtrace w ++ [c]))
    end.

(** The signal-safe loop, as in [Kernel.retry_loop]. *)
Fixpoint xretry_loop (fuel : nat) (c : xcall) (failed : reply -> bool)
  : X (reply * Z) :=
  match fuel with
  | O => fun w => (Starved, w)
  | S fuel' =>
      xbind (xsys c) (fun r =>
      if failed r && (errno r =? EINTR) then
        xbind (xsys x_PyErr_CheckSignals) (fun s =>
        if ret s =? 0 then xretry_loop fuel' c failed
        else xret (r, ret s))
      else xret (r, 0))
  end.

Definition xretry (c : xcall) (failed : reply -> bool) : X (reply * Z) :=
  fun w => xretry_loop (S (List.length (xscript w))) c failed w.

Definition xrun {A} (m : X A) (s : list reply) : outcome A * xworld :=
  m (mkXWorld s []).

(** The common tail of the loops: [if (ret == -1) { if (!async_err)
    PyErr_SetFromErrno(PyExc_OSError); return -1; }], with the errnos the
    site lets pass. *)
Definition fail_unless (ignored : Z -> bool) (r : reply) (async_err : Z)
  (k : X unit) : X unit :=
  if (ret r =? -1) && negb (ignored (errno r)) then
    if async_err =? 0 then xraise (OSErrorErrno (errno r))
    else xraise Interrupted
  else k.

Definition no_errno (e : Z) : bool := false.
Definition is_ENODATA (e : Z) : bool := e =? ENODATA.

(** [do_fsetacl_nfs4(fd, data, len)]. *)
Definition do_fsetacl_nfs4 (fd : Z) (data : bytes) : X unit :=
  xbind (xretry (x_fsetxattr fd NFS4_ACL_XATTR data (blen data) 0) failed_m1)
    (fun x => let '(r, async_err) := x in
  fail_unless no_errno r async_err (xret tt)).

(** [do_fremoveacl(fd)]. *)
Definition do_fremoveacl (fd : Z) : X unit :=
  xbind (xretry (x_fgetxattr fd NFS4_ACL_XATTR 0) failed_m1)
    (fun x => let '(r, async_err) := x in
  if negb (async_err =? 0) then xraise Interrupted
  else
    let sz := ret r in
    if sz >=? 0 then
      xbind (xretry (x_fremovexattr fd NFS4_ACL_XATTR) failed_m1)
        (fun x => let '(r, async_err) := x in
      fail_unless is_ENODATA r async_err (xret tt))
    else if errno r =? ENODATA then xret tt
    else if negb (errno r =? EOPNOTSUPP) then
      xraise (OSErrorErrno (errno r))
    else
      xbind (xretry (x_fremovexattr fd POSIX_ACCESS_XATTR) failed_m1)
        (fun x => let '(r, async_err) := x in
      fail_unless is_ENODATA r async_err
        (xbind (xretry (x_fremovexattr fd POSIX_DEFAULT_XATTR) failed_m1)
           (fun x => let '(r, async_err) := x in
         fail_unless is_ENODATA r async_err (xret tt))))).

(** [do_fsetacl_posix(fd, access_data, access_len, default_data,
    default_len)]; a [NULL] [default_data] is [None]. *)
Definition do_fsetacl_posix (fd : Z) (access_data : bytes)
  (default_data : option bytes) : X unit :=
  xbind (xretry (x_fsetxattr fd POSIX_ACCESS_XATTR access_data
                   (blen access_data) 0) failed_m1)
    (fun x => let '(r, async_err) := x in
  fail_unless no_errno r async_err
    match default_data with
    | Some d =>
        xbind (xretry (x_fsetxattr fd POSIX_DEFAULT_XATTR d (blen d) 0)
                 failed_m1)
          (fun x => let '(r, async_err) := x in
        fail_unless no_errno r async_err (xret tt))
    | None =>
        xbind (xretry (x_fremovexattr fd POSIX_DEFAULT_XATTR) failed_m1)
          (fun x => let '(r, async_err) := x in
        fail_unless is_ENODATA r async_err (xret tt))
    end).

(** The calls the loop makes on the way, as in [KernelSpec.retry_calls]. *)
Fixpoint xretry_calls (c : xcall) (pre : list reply) : list xcall :=
  match pre with
  | _ :: _ :: l' => c :: x_PyErr_CheckSignals :: xretry_calls c l'
  | _ => [c]
  end.

(** How a site ends on the reply that settles it. *)
Definition site_result (ignored : Z -> bool) (r : reply) : outcome unit :=
  if (ret r =? -1) && negb (ignored (errno r))
  then Exc (OSErrorErrno (errno r)) else Done tt.

(** A call that removes or replaces the xattr [name]. *)
Definition touches (name : string) (c : xcall) : bool :=
  match c with
  | x_fsetxattr _ n _ _ _ => String.eqb n name
  | x_fremovexattr _ n => String.eqb n name
  | _ => false
  end.

End AclWrite.

(* ================================================================== *)
(** * fhandle.c: building a handle and serialising it *)
(* ================================================================== *)

Module FhandleBytes.
Import CInt Wire Py Fhandle.

(** [offsetof(struct file_handle, f_handle)] and [MAX_HANDLE_SZ]. *)
Definition FH_HEADER_SZ : Z := 8.
Definition MAX_HANDLE_SZ : Z := 128.

Definition AT_FDCWD : Z := -100.
Definition AT_SYMLINK_FOLLOW : Z := 0x400.
Definition AT_HANDLE_FID : Z := 0x200.
Definition AT_HANDLE_CONNECTABLE : Z := 0x002.
Definition AT_HANDLE_MNT_ID_UNIQUE : Z := 0x001.

Definition SUPPORTED_FLAGS : Z :=
  Z.lor (Z.lor (Z.lor (Z.lor AT_SYMLINK_FOLLOW AT_HANDLE_FID) AT_EMPTY_PATH)
           AT_HANDLE_CONNECTABLE) AT_HANDLE_MNT_ID_UNIQUE.

(** [fhandle->handle_bytes]: the [unsigned int] at the start of the
    buffer, in host byte order; the Linux targets of the module are
    little-endian. *)
Definition handle_bytes (b : bytes) : Z := read_le32 b 0.

(** [memcpy(dst, src, len)] into the buffer [dst]: its first [len] bytes
    are replaced. *)
Definition memcpy (dst src : bytes) : bytes :=
  src ++ skipn (List.length src) dst.

(** [do_fhandle_from_bytes]; the messages of the source also carry the
    sizes. *)
Definition do_fhandle_from_bytes (self : py_fhandle_t) (handle_buffer : bytes)
  (mount_id : Z) (unique_mount_id : bool) : result py_fhandle_t :=
  let header_size := FH_HEADER_SZ in
  let min_size := header_size in
  if blen handle_buffer <? min_size then
    Raise (ValueError "handle_bytes too small")
  else if blen handle_buffer >? MAX_HANDLE_SZ then
    Raise (ValueError "handle_bytes too large")
  else
    let data_bytes := handle_bytes handle_buffer in
    if data_bytes >? blen handle_buffer - header_size then
      Raise (ValueError "Incorrect encoded handle length")
    else
      Ok (mkFhandle mount_id (is_handle_fd self) unique_mount_id
            (memcpy (fhandle self) handle_buffer)).

(** [py_fhandle_bytes]: [Fhandle.__bytes__]. *)
Definition py_fhandle_bytes (self : py_fhandle_t) : result bytes :=
  if mount_id self =? UINT64_MAX then
    Raise (ValueError "Cannot get bytes from uninitialized file handle")
  else
    let total_size := FH_HEADER_SZ + handle_bytes (fhandle self) in
    Ok (firstn (Z.to_nat total_size) (fhandle self)).

(** [py_fhandle_mount_id]: the [mount_id] attribute, [None] before the
    handle is initialised. *)
Definition py_fhandle_mount_id (self : py_fhandle_t) : option Z :=
  if mount_id self =? UINT64_MAX then None else Some (mount_id self).

Definition starts_with_slash (s : string) : bool := String.prefix "/" s.

Definition is_empty (s : string) : bool :=
  match s with
  | EmptyString => true
  | String _ _ => false
  end.

Section Init.

(** [do_name_to_handle_at(self, path, dir_fd, flags)]: the system call and
    what it leaves in the object, or the exception it raises. *)
Variable do_name_to_handle_at :
  py_fhandle_t -> string -> Z -> Z -> result py_fhandle_t.

(** [py_fhandle_init]: [Fhandle(path, dir_fd, flags, handle_bytes=...,
    mount_id=..., unique_mount_id=...)].  An argument that was not given is
    [None]; [dir_fd] and [flags] default to [AT_FDCWD] and 0, and
    [mount_id] is converted with the format [K], which wraps modulo
    2^64. *)
Definition py_fhandle_init (self : py_fhandle_t) (cpath : option string)
  (dir_fd flags : Z) (handle_buffer : option bytes) (mount_id : option Z)
  (unique_mount_id_arg : Z) : result py_fhandle_t :=
  let mount_id_arg :=
    match mount_id with Some v => u64 v | None => UINT64_MAX end in
  match handle_buffer with
  | Some b =>
      match cpath with
      | Some _ =>
          Raise (ValueError "Cannot specify both 'path' and 'handle_bytes'")
      | None =>
          if mount_id_arg =? UINT64_MAX then
            Raise (ValueError
              "'mount_id' is required when creating from 'handle_bytes'")
          else
            do_fhandle_from_bytes self b mount_id_arg
              (negb (unique_mount_id_arg =? 0))
      end
  | None =>
      match cpath with
      | None =>
          Raise (ValueError
            "Either 'path' or 'handle_bytes' must be specified")
      | Some p =>
          if starts_with_slash p && negb (dir_fd =? AT_FDCWD) then
            Raise (ValueError
              "dir_fd may not be combined with absolute path")
          else if is_empty p
                  && (negb (has_bits flags AT_EMPTY_PATH)
                      || (dir_fd =? AT_FDCWD)) then
            Raise (ValueError
              "Retrieving struct file_handle from open file descriptor requires the AT_EMPTY_FLAG in `flags` and `dir_fd` to be set to a valid file descriptor.")
          else if negb (Z.land flags (Z.lnot SUPPORTED_FLAGS) =? 0) then
            Raise (ValueError "Unsupported flags combination. Supported flags are: AT_SYMLINK_FOLLOW, AT_HANDLE_FID, AT_EMPTY_PATH.")
          else do_name_to_handle_at self p dir_fd flags
      end
  end.

End Init.

(** A serialised handle with four bytes of payload, and an object whose
    buffer holds a payload of 124 bytes. *)
Definition small_handle : bytes :=
  [Byte.x04; Byte.x00; Byte.x00; Byte.x00;
   Byte.x01; Byte.x00; Byte.x00; Byte.x00;
   Byte.x0a; Byte.x0b; Byte.x0c; Byte.x0d].

Definition large_handle : py_fhandle_t :=
  mkFhandle 42 false false
    ([Byte.x7c; Byte.x00; Byte.x00; Byte.x00;
      Byte.x01; Byte.x00; Byte.x00; Byte.x00] ++ repeat Byte.x2a 128).

(** The object as [tp_alloc] and [py_fhandle_new] leave the buffer:
    [handle_bytes = MAX_HANDLE_SZ], the rest zero. *)
Definition fresh_handle : py_fhandle_t :=
  mkFhandle UINT64_MAX false false
    ([Byte.x80; Byte.x00; Byte.x00; Byte.x00] ++ repeat Byte.x00 132).

End FhandleBytes.

(* ================================================================== *)
(** * Observations on the order of entries *)
(* ================================================================== *)

Module OrderForm.
Import CInt Wire Py POSIX POSIXSpec.

(** No two entries of the list share tag and id, unless they are the same
    entry. *)
Definition keyed (l : list POSIXAce_t) : Prop :=
  forall a b, In a l -> In b l -> tag a = tag b -> id a = id b -> a = b.

(** The conforming list of [POSIXForm], with a default part, in another
    order. *)
Definition with_default : list POSIXAce_t :=
  [ mkAce POSIX_TAG_OTHER 0 (-1) false;
    mkAce POSIX_TAG_USER_OBJ 7 (-1) true;
    mkAce POSIX_TAG_USER 6 1000 false;
    mkAce POSIX_TAG_GROUP_OBJ 5 (-1) true;
    mkAce POSIX_TAG_USER_OBJ 7 (-1) false;
    mkAce POSIX_TAG_OTHER 0 (-1) true;
    mkAce POSIX_TAG_MASK 6 (-1) false;
    mkAce POSIX_TAG_GROUP_OBJ 5 (-1) false ].

Definition with_default_reordered : list POSIXAce_t := rev with_default.

(** Exactly one of three answers is [true]. *)
Definition one_of (x y z : bool) : Prop :=
  (x = true /\ y = false /\ z = false) \/
  (x = false /\ y = true /\ z = false) \/
  (x = false /\ y = false /\ z = true).

End OrderForm.

Module WireFacts.
Import CInt Wire.

Lemma Z_of_byte_range (b : byte) : 0 <= Z_of_byte b < 256.
Proof.
  unfold Z_of_byte. pose proof (Byte.to_N_bounded b). lia.
Qed.

Lemma Z_of_byte_of_Z (z : Z) : Z_of_byte (byte_of_Z z) = z mod 256.
Proof.
  unfold Z_of_byte, byte_of_Z.
  assert (H : 0 <= z mod 256 < 256) by (apply Z.mod_pos_bound; lia).
  destruct (Byte.of_N (Z.to_N (z mod 256))) as [b|] eqn:E.
  - apply Byte.to_of_N in E. rewrite E. lia.
  - apply Byte.of_N_None_iff in E. lia.
Qed.

Lemma byte_of_Z_of_byte (b : byte) : byte_of_Z (Z_of_byte b) = b.
Proof.
  unfold byte_of_Z. pose proof (Z_of_byte_range b) as H.
  rewrite Z.mod_small by lia. unfold Z_of_byte. rewrite N2Z.id.
  now rewrite Byte.of_to_N.
Qed.

Lemma Z_of_byte_inj (a b : byte) : Z_of_byte a = Z_of_byte b -> a = b.
Proof.
  intros H. rewrite <- (byte_of_Z_of_byte a), <- (byte_of_Z_of_byte b).
  now rewrite H.
Qed.

(** Bit [n] of a byte value. *)
Lemma byte_bits_high (b : byte) (n : Z) : 8 <= n -> Z.testbit (Z_of_byte b) n = false.
Proof.
  intros Hn. pose proof (Z_of_byte_range b) as H.
  rewrite <- (Z.mod_small (Z_of_byte b) (2 ^ 8)) by (change (2 ^ 8) with 256; lia).
  apply Z.mod_pow2_bits_high. lia.
Qed.

Lemma byte_of_Z_bits (z n : Z) :
  Z.testbit (Z_of_byte (byte_of_Z z)) n = (n <? 8) && Z.testbit z n.
Proof.
  rewrite Z_of_byte_of_Z. change 256 with (2 ^ 8).
  destruct (Z.ltb_spec n 8).
  - destruct (Z.ltb_spec n 0).
    + now rewrite !Z.testbit_neg_r by lia.
    + rewrite Z.mod_pow2_bits_low by lia. reflexivity.
  - rewrite Z.mod_pow2_bits_high by lia. reflexivity.
Qed.

Lemma join32_bits b3 b2 b1 b0 n : 0 <= n ->
  Z.testbit (join32 b3 b2 b1 b0) n =
  if n <? 8 then Z.testbit (Z_of_byte b0) n
  else if n <? 16 then Z.testbit (Z_of_byte b1) (n - 8)
  else if n <? 24 then Z.testbit (Z_of_byte b2) (n - 16)
  else Z.testbit (Z_of_byte b3) (n - 24).
Proof.
  intros Hn. unfold join32. rewrite !Z.lor_spec, !Z.shiftl_spec by lia.
  destruct (Z.ltb_spec n 8); [|destruct (Z.ltb_spec n 16); [|destruct (Z.ltb_spec n 24)]].
  - rewrite !(Z.testbit_neg_r _ (n - _)) by lia. reflexivity.
  - rewrite !(Z.testbit_neg_r _ (n - 16)), !(Z.testbit_neg_r _ (n - 24)) by lia.
    rewrite (byte_bits_high b0 n) by lia. now rewrite orb_false_r.
  - rewrite !(Z.testbit_neg_r _ (n - 24)) by lia.
    rewrite (byte_bits_high b0 n), (byte_bits_high b1 (n - 8)) by lia.
    now rewrite !orb_false_r.
  - rewrite (byte_bits_high b0 n), (byte_bits_high b1 (n - 8)),
      (byte_bits_high b2 (n - 16)) by lia.
    now rewrite !orb_false_r.
Qed.

Lemma join32_mod b3 b2 b1 b0 :
  join32 b3 b2 b1 b0 mod 4294967296 = join32 b3 b2 b1 b0.
Proof.
  apply Z.bits_inj'. intros n Hn. change 4294967296 with (2 ^ 32).
  destruct (Z.ltb_spec n 32).
  - now rewrite Z.mod_pow2_bits_low by lia.
  - rewrite Z.mod_pow2_bits_high by lia. rewrite join32_bits by lia.
    destruct (Z.ltb_spec n 8); [lia|]. destruct (Z.ltb_spec n 16); [lia|].
    destruct (Z.ltb_spec n 24); [lia|].
    symmetry. apply byte_bits_high. lia.
Qed.

Lemma join32_range b3 b2 b1 b0 : 0 <= join32 b3 b2 b1 b0 < 4294967296.
Proof.
  rewrite <- join32_mod. apply Z.mod_pos_bound. lia.
Qed.

Lemma join32_split (v : Z) :
  join32 (byte_of_Z (Z.shiftr v 24)) (byte_of_Z (Z.shiftr v 16))
         (byte_of_Z (Z.shiftr v 8)) (byte_of_Z v) = u32 v.
Proof.
  apply Z.bits_inj'. intros n Hn. rewrite join32_bits by lia.
  unfold u32. change 4294967296 with (2 ^ 32).
  rewrite !byte_of_Z_bits.
  destruct (Z.ltb_spec n 8); [|destruct (Z.ltb_spec n 16); [|destruct (Z.ltb_spec n 24)]].
  - rewrite Z.mod_pow2_bits_low by lia. reflexivity.
  - rewrite Z.mod_pow2_bits_low, Z.shiftr_spec by lia.
    replace (n - 8 <? 8) with true by (symmetry; apply Z.ltb_lt; lia).
    simpl. f_equal. lia.
  - rewrite Z.mod_pow2_bits_low, Z.shiftr_spec by lia.
    replace (n - 16 <? 8) with true by (symmetry; apply Z.ltb_lt; lia).
    simpl. f_equal. lia.
  - rewrite Z.shiftr_spec by lia. destruct (Z.ltb_spec n 32).
    + rewrite Z.mod_pow2_bits_low by lia.
      replace (n - 24 <? 8) with true by (symmetry; apply Z.ltb_lt; lia).
      simpl. f_equal. lia.
    + rewrite Z.mod_pow2_bits_high by lia.
      replace (n - 24 <? 8) with false by (symmetry; apply Z.ltb_ge; lia).
      reflexivity.
Qed.

Lemma byte_of_join32 b3 b2 b1 b0 :
  byte_of_Z (Z.shiftr (join32 b3 b2 b1 b0) 24) = b3 /\
  byte_of_Z (Z.shiftr (join32 b3 b2 b1 b0) 16) = b2 /\
  byte_of_Z (Z.shiftr (join32 b3 b2 b1 b0) 8) = b1 /\
  byte_of_Z (join32 b3 b2 b1 b0) = b0.
Proof.
  repeat split; apply Z_of_byte_inj; apply Z.bits_inj'; intros n Hn;
    rewrite byte_of_Z_bits; rewrite ?Z.shiftr_spec by lia;
    (destruct (Z.ltb_spec n 8) as [H8|H8];
     [ rewrite join32_bits by lia; simpl;
       repeat match goal with
              | |- context [?a <? ?b] =>
                  destruct (Z.ltb_spec a b); try lia
              end; f_equal; lia
     | simpl; symmetry; apply byte_bits_high; lia ]).
Qed.

Lemma write_be32_length v : List.length (write_be32 v) = 4%nat.
Proof. reflexivity. Qed.

Lemma write_le32_length v : List.length (write_le32 v) = 4%nat.
Proof. reflexivity. Qed.

Lemma write_le16_length v : List.length (write_le16 v) = 2%nat.
Proof. reflexivity. Qed.

Lemma slice_app_r (pre d : bytes) (off : Z) (n : nat) :
  0 <= off ->
  slice (pre ++ d) (blen pre + off) n = slice d off n.
Proof.
  intros H. unfold slice, blen.
  rewrite Z2Nat.inj_add, Nat2Z.id by lia.
  rewrite skipn_app.
  rewrite (skipn_all2 pre) by lia. simpl.
  f_equal. f_equal. lia.
Qed.

Lemma slice_app_l (d post : bytes) (off : Z) (n : nat) :
  0 <= off -> off + Z.of_nat n <= blen d ->
  slice (d ++ post) off n = slice d off n.
Proof.
  intros H0 H. unfold slice, blen in *.
  rewrite skipn_app, firstn_app, length_skipn.
  replace (n - (List.length d - Z.to_nat off))%nat with 0%nat by lia.
  simpl. now rewrite app_nil_r.
Qed.

Lemma slice_full (d : bytes) : slice d 0 (List.length d) = d.
Proof. unfold slice. simpl. apply firstn_all. Qed.

(** Reading inside the [i]-th of a run of equally long chunks. *)
Lemma slice_chunk (sz : nat) (chunks : list bytes) (post : bytes) :
  Forall (fun c => List.length c = sz) chunks ->
  forall (i : nat) (c : bytes) (o : Z) (n : nat),
    nth_error chunks i = Some c ->
    0 <= o -> o + Z.of_nat n <= Z.of_nat sz ->
    slice (List.concat chunks ++ post) (Z.of_nat sz * Z.of_nat i + o) n = slice c o n.
Proof.
  induction 1 as [|c0 chunks Hc0 Hall IH]; intros i c o n Hi Ho Hn.
  - destruct i; discriminate.
  - change (List.concat (c0 :: chunks)) with (c0 ++ List.concat chunks).
    rewrite <- app_assoc.
    destruct i as [|i]; simpl in Hi.
    + injection Hi as <-.
      replace (Z.of_nat sz * Z.of_nat 0 + o) with o by lia.
      apply slice_app_l; unfold blen; lia.
    + replace (Z.of_nat sz * Z.of_nat (S i) + o)
        with (blen c0 + (Z.of_nat sz * Z.of_nat i + o)) by (unfold blen; lia).
      rewrite slice_app_r by lia. now apply IH.
Qed.

Lemma read_be32_slice (d d' : bytes) (off off' : Z) :
  slice d off 4 = slice d' off' 4 -> read_be32 d off = read_be32 d' off'.
Proof. unfold read_be32. now intros ->. Qed.

Lemma read_le32_slice (d d' : bytes) (off off' : Z) :
  slice d off 4 = slice d' off' 4 -> read_le32 d off = read_le32 d' off'.
Proof. unfold read_le32. now intros ->. Qed.

Lemma read_le16_slice (d d' : bytes) (off off' : Z) :
  slice d off 2 = slice d' off' 2 -> read_le16 d off = read_le16 d' off'.
Proof. unfold read_le16. now intros ->. Qed.

Lemma read_be32_4 b3 b2 b1 b0 : read_be32 [b3; b2; b1; b0] 0 = join32 b3 b2 b1 b0.
Proof. reflexivity. Qed.

Lemma read_le32_4 b0 b1 b2 b3 : read_le32 [b0; b1; b2; b3] 0 = join32 b3 b2 b1 b0.
Proof. reflexivity. Qed.

Lemma read_write_be32 (v : Z) : read_be32 (write_be32 v) 0 = u32 v.
Proof. unfold write_be32. rewrite read_be32_4. apply join32_split. Qed.

Lemma read_write_le32 (v : Z) : read_le32 (write_le32 v) 0 = u32 v.
Proof. unfold write_le32. rewrite read_le32_4. apply join32_split. Qed.

Lemma read_be32_range (d : bytes) (off : Z) : 0 <= read_be32 d off < 4294967296.
Proof.
  unfold read_be32.
  destruct (slice d off 4) as [|b3 [|b2 [|b1 [|b0 [|]]]]]; try lia.
  apply join32_range.
Qed.

Lemma read_le32_range (d : bytes) (off : Z) : 0 <= read_le32 d off < 4294967296.
Proof.
  unfold read_le32.
  destruct (slice d off 4) as [|b3 [|b2 [|b1 [|b0 [|]]]]]; try lia.
  apply join32_range.
Qed.

(** Writing back a word that was read restores the four bytes. *)
Lemma write_read_be32 (d : bytes) (off : Z) :
  List.length (slice d off 4) = 4%nat ->
  write_be32 (read_be32 d off) = slice d off 4.
Proof.
  unfold read_be32, write_be32. intros H.
  destruct (slice d off 4) as [|b3 [|b2 [|b1 [|b0 [|]]]]]; try discriminate.
  fold (join32 b3 b2 b1 b0).
  destruct (byte_of_join32 b3 b2 b1 b0) as (-> & -> & -> & ->). reflexivity.
Qed.

Lemma join16_bits b1 b0 n : 0 <= n ->
  Z.testbit (join16 b1 b0) n =
  if n <? 8 then Z.testbit (Z_of_byte b0) n
  else Z.testbit (Z_of_byte b1) (n - 8).
Proof.
  intros Hn. unfold join16. rewrite Z.lor_spec, Z.shiftl_spec by lia.
  destruct (Z.ltb_spec n 8).
  - rewrite (Z.testbit_neg_r _ (n - 8)) by lia. reflexivity.
  - rewrite (byte_bits_high b0 n) by lia. now rewrite orb_false_r.
Qed.

Lemma join16_split (v : Z) :
  join16 (byte_of_Z (Z.shiftr v 8)) (byte_of_Z v) = u16 v.
Proof.
  apply Z.bits_inj'. intros n Hn. rewrite join16_bits by lia.
  unfold u16. change 65536 with (2 ^ 16).
  rewrite !byte_of_Z_bits.
  destruct (Z.ltb_spec n 8).
  - rewrite Z.mod_pow2_bits_low by lia. reflexivity.
  - rewrite Z.shiftr_spec by lia. destruct (Z.ltb_spec n 16).
    + rewrite Z.mod_pow2_bits_low by lia.
      replace (n - 8 <? 8) with true by (symmetry; apply Z.ltb_lt; lia).
      simpl. f_equal. lia.
    + rewrite Z.mod_pow2_bits_high by lia.
      replace (n - 8 <? 8) with false by (symmetry; apply Z.ltb_ge; lia).
      reflexivity.
Qed.

Lemma read_le16_2 b0 b1 : read_le16 [b0; b1] 0 = join16 b1 b0.
Proof. reflexivity. Qed.

Lemma read_write_le16 (v : Z) : read_le16 (write_le16 v) 0 = u16 v.
Proof. unfold write_le16. rewrite read_le16_2. apply join16_split. Qed.

Lemma read_le16_range (d : bytes) (off : Z) : 0 <= read_le16 d off < 65536.
Proof.
  unfold read_le16.
  destruct (slice d off 2) as [|b1 [|b0 [|]]]; try lia.
  fold (join16 b0 b1).
  assert (H : join16 b0 b1 mod 65536 = join16 b0 b1).
  { apply Z.bits_inj'. intros n Hn. change 65536 with (2 ^ 16).
    destruct (Z.ltb_spec n 16).
    - now rewrite Z.mod_pow2_bits_low by lia.
    - rewrite Z.mod_pow2_bits_high by lia. rewrite join16_bits by lia.
      destruct (Z.ltb_spec n 8); [lia|]. symmetry. apply byte_bits_high. lia. }
  rewrite <- H. apply Z.mod_pos_bound. lia.
Qed.

Lemma u32_small (v : Z) : 0 <= v < 4294967296 -> u32 v = v.
Proof. intros H. unfold u32. now apply Z.mod_small. Qed.

Lemma u16_small (v : Z) : 0 <= v < 65536 -> u16 v = v.
Proof. intros H. unfold u16. now apply Z.mod_small. Qed.

Lemma u32_range (v : Z) : 0 <= u32 v < 4294967296.
Proof. unfold u32. apply Z.mod_pos_bound. lia. Qed.

Lemma u16_range (v : Z) : 0 <= u16 v < 65536.
Proof. unfold u16. apply Z.mod_pos_bound. lia. Qed.

End WireFacts.

Module SortFacts.
Import Py.

Lemma StronglySorted_app_iff {A} (R : A -> A -> Prop) (l1 l2 : list A) :
  StronglySorted R (l1 ++ l2) <->
  StronglySorted R l1 /\ StronglySorted R l2 /\
  (forall a b, In a l1 -> In b l2 -> R a b).
Proof.
  induction l1 as [|x l1 IH]; simpl.
  - split.
    + intros H. repeat split; [constructor | exact H | intros a b []].
    + now intros (_ & H & _).
  - split.
    + intros H. inversion H as [|? ? Hs Hf]; subst.
      apply IH in Hs as (H1 & H2 & H3).
      rewrite Forall_app in Hf. destruct Hf as [Hf1 Hf2].
      repeat split; [constructor; assumption | assumption |].
      intros a b [<-|Ha] Hb.
      * rewrite Forall_forall in Hf2. now apply Hf2.
      * now apply H3.
    + intros (H1 & H2 & H3). inversion H1 as [|? ? Hs Hf]; subst.
      constructor.
      * apply IH. repeat split; try assumption.
        intros a b Ha Hb. apply H3; [now right | assumption].
      * rewrite Forall_app. split; [assumption|].
        rewrite Forall_forall. intros b Hb. apply H3; [now left | assumption].
Qed.

Section StableSort.
Context {A : Type}.
Variable lt : A -> A -> result bool.
Variable ltb : A -> A -> bool.
Variable dom : A -> Prop.
Hypothesis lt_pure : forall a b, dom a -> dom b -> lt a b = Ok (ltb a b).
Hypothesis ltb_irrefl : forall a, ltb a a = false.
Hypothesis ltb_trans :
  forall a b c, ltb a b = true -> ltb b c = true -> ltb a c = true.
Hypothesis ltb_negtrans :
  forall a b c, ltb a b = false -> ltb b c = false -> ltb a c = false.

Local Abbreviation ascending := (SortSpec.ascending ltb).
Local Abbreviation tied := (SortSpec.tied ltb).

Lemma ltb_asym a b : ltb a b = true -> ltb b a = false.
Proof.
  intros H. destruct (ltb b a) eqn:E; [|reflexivity].
  rewrite <- (ltb_irrefl a). symmetry. eapply ltb_trans; eassumption.
Qed.

Lemma ltb_after x y z : ltb x y = true -> ltb z y = false -> ltb x z = true.
Proof.
  intros Hxy Hzy. destruct (ltb x z) eqn:E; [reflexivity|].
  rewrite <- Hxy. symmetry. eapply ltb_negtrans; eassumption.
Qed.

Lemma insert_spec (x : A) (acc : list A) :
  dom x -> Forall dom acc -> ascending acc ->
  exists l1 l2,
    acc = l1 ++ l2 /\ insert lt x acc = Ok (l1 ++ x :: l2) /\
    Forall (fun y => ltb x y = false) l1 /\
    Forall (fun y => ltb x y = true) l2.
Proof.
  intros Hx. induction acc as [|y acc IH]; intros Hd Hs.
  - exists [], []. repeat split; constructor.
  - inversion Hd as [|? ? Hy Hd']; subst.
    inversion Hs as [|? ? Hs' Hf]; subst.
    simpl. rewrite (lt_pure x y Hx Hy). simpl.
    destruct (ltb x y) eqn:E.
    + exists [], (y :: acc). repeat split; [constructor|].
      constructor; [assumption|].
      rewrite Forall_forall in Hf |- *. intros z Hz.
      eapply ltb_after; [exact E | now apply Hf].
    + destruct (IH Hd' Hs') as (l1 & l2 & -> & Hi & H1 & H2).
      exists (y :: l1), l2. rewrite Hi. simpl.
      repeat split; [constructor; assumption | assumption].
Qed.

Lemma insert_ascending (x : A) (l1 l2 : list A) :
  ascending (l1 ++ l2) ->
  Forall (fun y => ltb x y = false) l1 ->
  Forall (fun y => ltb x y = true) l2 ->
  ascending (l1 ++ x :: l2).
Proof.
  unfold SortSpec.ascending. intros Hs H1 H2.
  apply StronglySorted_app_iff in Hs as (Hs1 & Hs2 & Hc).
  apply StronglySorted_app_iff. repeat split.
  - assumption.
  - constructor; [assumption|].
    rewrite Forall_forall in H2 |- *. intros z Hz. apply ltb_asym. now apply H2.
  - intros a b Ha [<-|Hb].
    + rewrite Forall_forall in H1. now apply H1.
    + now apply Hc.
Qed.

Lemma insert_tied (z x : A) (l1 l2 : list A) :
  Forall (fun y => ltb x y = false) l1 ->
  Forall (fun y => ltb x y = true) l2 ->
  filter (tied z) (l1 ++ x :: l2) = filter (tied z) ((l1 ++ l2) ++ [x]).
Proof.
  intros H1 H2. rewrite !filter_app. simpl.
  rewrite <- app_assoc. f_equal.
  destruct (tied z x) eqn:E; [|now rewrite app_nil_r].
  assert (Hn : filter (tied z) l2 = []).
  { clear H1. induction l2 as [|y l2 IH]; [reflexivity|].
    inversion H2 as [|? ? Hy H2']; subst. simpl.
    unfold SortSpec.tied in E |- *. apply andb_prop in E as [E1 E2].
    apply negb_true_iff in E1, E2.
    assert (ltb z y = true) as ->.
    { destruct (ltb z y) eqn:F; [reflexivity|].
      rewrite <- Hy. symmetry. eapply ltb_negtrans; eassumption. }
    simpl. now apply IH. }
  now rewrite Hn.
Qed.

Lemma sort_from_spec (l acc : list A) :
  Forall dom acc -> Forall dom l -> ascending acc ->
  exists s,
    sort_from lt acc l = Ok s /\ Permutation (acc ++ l) s /\ ascending s /\
    forall z, filter (tied z) s = filter (tied z) (acc ++ l).
Proof.
  revert acc. induction l as [|x l IH]; intros acc Hda Hdl Hs.
  - exists acc. rewrite app_nil_r. repeat split; auto.
  - inversion Hdl as [|? ? Hx Hdl']; subst.
    destruct (insert_spec x acc Hx Hda Hs) as (l1 & l2 & -> & Hi & H1 & H2).
    simpl. rewrite Hi. simpl.
    destruct (IH (l1 ++ x :: l2)) as (s & Hso & Hp & Ha & Ht).
    + rewrite Forall_app in Hda |- *. destruct Hda; split;
        [assumption | constructor; assumption].
    + assumption.
    + now apply insert_ascending.
    + exists s. repeat split; [assumption | | assumption |].
      * rewrite <- Hp. rewrite <- !app_assoc.
        apply Permutation_app_head. simpl.
        rewrite (Permutation_middle l2 l x). reflexivity.
      * intros z. rewrite Ht.
        rewrite (filter_app _ (l1 ++ x :: l2) l).
        rewrite (insert_tied z x l1 l2 H1 H2).
        rewrite !filter_app. simpl.
        destruct (tied z x); rewrite <- !app_assoc; reflexivity.
Qed.

(** [list.sort] on comparable elements: it succeeds, permutes, leaves the
    list ascending and keeps tied elements in their input order. *)
Lemma PyList_Sort_spec (l : list A) :
  Forall dom l ->
  exists s,
    PyList_Sort lt l = Ok s /\ Permutation l s /\ ascending s /\
    forall z, filter (tied z) s = filter (tied z) l.
Proof.
  intros Hd. unfold PyList_Sort.
  destruct (sort_from_spec l [] (Forall_nil _) Hd (SSorted_nil _))
    as (s & H1 & H2 & H3 & H4).
  exists s. auto.
Qed.

End StableSort.
End SortFacts.

Module BitFacts.
Import CInt.

Lemma testbit_small (m n : Z) (k : Z) :
  0 <= m < 2 ^ k -> k <= n -> Z.testbit m n = false.
Proof.
  intros Hm Hn. destruct (Z.eq_dec m 0) as [->|Hz]; [apply Z.bits_0|].
  apply Z.bits_above_log2; [lia|].
  assert (Z.log2 m < k); [|lia].
  apply Z.log2_lt_pow2; lia.
Qed.

(** [x & m] as a truth value, for a mask on the low eight bits. *)
Lemma has_bits_low (f m : Z) :
  0 <= m < 256 ->
  has_bits f m =
  existsb (fun n => Z.testbit f n && Z.testbit m n) [0; 1; 2; 3; 4; 5; 6; 7].
Proof.
  intros Hm. unfold has_bits.
  destruct (existsb _ _) eqn:E.
  - apply existsb_exists in E as (n & Hin & Hn).
    apply negb_true_iff, Z.eqb_neq. intros H0.
    assert (Z.testbit (Z.land f m) n = false) by (rewrite H0; apply Z.bits_0).
    rewrite Z.land_spec in H. congruence.
  - apply negb_false_iff, Z.eqb_eq. apply Z.bits_inj'. intros n Hn.
    rewrite Z.bits_0, Z.land_spec.
    destruct (Z.ltb_spec n 8) as [H8|H8].
    + assert (Hin : In n [0; 1; 2; 3; 4; 5; 6; 7]) by (simpl; lia).
      destruct (Z.testbit f n && Z.testbit m n) eqn:F; [|reflexivity].
      assert (existsb (fun n => Z.testbit f n && Z.testbit m n)
                [0; 1; 2; 3; 4; 5; 6; 7] = true)
        by (apply existsb_exists; eauto).
      congruence.
    + rewrite (testbit_small m n 8) by (change (2 ^ 8) with 256; lia).
      apply andb_false_r.
Qed.

Lemma not32_bits (m n : Z) :
  0 <= n -> Z.testbit (not32 m) n = (n <? 32) && negb (Z.testbit m n).
Proof.
  intros Hn. unfold not32, u32. change 4294967296 with (2 ^ 32).
  destruct (Z.ltb_spec n 32).
  - rewrite Z.mod_pow2_bits_low by lia. now rewrite Z.lnot_spec by lia.
  - now rewrite Z.mod_pow2_bits_high by lia.
Qed.

Lemma testbit_15 (n : Z) : 0 <= n -> Z.testbit 15 n = (n <? 4).
Proof.
  intros Hn. destruct (Z.ltb_spec n 4).
  - assert (n = 0 \/ n = 1 \/ n = 2 \/ n = 3) as [->|[->|[->| ->]]] by lia;
      reflexivity.
  - apply (testbit_small 15 n 4); [change (2 ^ 4) with 16|]; lia.
Qed.

Lemma testbit_8 (n : Z) : 0 <= n -> Z.testbit 8 n = (n =? 3).
Proof.
  intros Hn. change 8 with (2 ^ 3). rewrite Z.pow2_bits_eqb by lia.
  apply Z.eqb_sym.
Qed.

Lemma testbit_128 (n : Z) : 0 <= n -> Z.testbit 128 n = (n =? 7).
Proof.
  intros Hn. change 128 with (2 ^ 7). rewrite Z.pow2_bits_eqb by lia.
  apply Z.eqb_sym.
Qed.

Lemma testbit_u32_high (f n : Z) :
  0 <= f < 4294967296 -> 32 <= n -> Z.testbit f n = false.
Proof. intros Hf Hn. apply (testbit_small f n 32); [exact Hf | exact Hn]. Qed.

End BitFacts.

Module NFS4Facts.
Import CInt Wire Py Stat NFS4 NFS4Spec WireFacts BitFacts.

(** ** Flag tests of the code against flag bits *)

Ltac mask_bits :=
  cbv [existsb];
  repeat match goal with
         | |- context [Z.testbit ?m ?n] =>
             let v := eval vm_compute in (Z.testbit m n) in
             match v with
             | true => change (Z.testbit m n) with true
             | false => change (Z.testbit m n) with false
             end
         end;
  rewrite ?andb_false_r, ?andb_true_r, ?orb_false_r, ?orb_false_l.

Lemma has_inherited_bit f : has_bits f NFS4_ACE_INHERITED_ACE = Z.testbit f 7.
Proof.
  rewrite has_bits_low by (cbv; split; congruence). mask_bits. reflexivity.
Qed.

Lemma has_file_bit f : has_bits f NFS4_ACE_FILE_INHERIT_ACE = Z.testbit f 0.
Proof.
  rewrite has_bits_low by (cbv; split; congruence). mask_bits. reflexivity.
Qed.

Lemma has_file_or_dir_bit f :
  has_bits f (Z.lor NFS4_ACE_FILE_INHERIT_ACE NFS4_ACE_DIRECTORY_INHERIT_ACE)
  = Z.testbit f 0 || Z.testbit f 1.
Proof.
  rewrite has_bits_low by (cbv; split; congruence). mask_bits. reflexivity.
Qed.

Lemma has_no_propagate_bit f :
  has_bits f NFS4_ACE_NO_PROPAGATE_INHERIT_ACE = Z.testbit f 2.
Proof.
  rewrite has_bits_low by (cbv; split; congruence). mask_bits. reflexivity.
Qed.

Lemma has_inherit_only_bit f :
  has_bits f NFS4_ACE_INHERIT_ONLY_ACE = Z.testbit f 3.
Proof.
  rewrite has_bits_low by (cbv; split; congruence). mask_bits. reflexivity.
Qed.

Lemma has_propagate_bits f :
  has_bits f NFS4_PROPAGATE_MASK
  = Z.testbit f 0 || Z.testbit f 1 || Z.testbit f 2 || Z.testbit f 3.
Proof.
  rewrite has_bits_low by (cbv; split; congruence). mask_bits.
  now rewrite !orb_assoc.
Qed.

(** ** Reading an encoded blob back *)

Lemma encode_xdr_length x : List.length (encode_xdr x) = 20%nat.
Proof. reflexivity. Qed.

Lemma flat_map_chunks {A} (f : A -> bytes) (sz : nat) (l : list A) :
  (forall x, List.length (f x) = sz) ->
  Forall (fun c => List.length c = sz) (map f l).
Proof. intros H. apply Forall_forall. intros c Hc. apply in_map_iff in Hc as (x & <- & _). apply H. Qed.

Lemma flat_map_length_const {A} (f : A -> bytes) (sz : nat) (l : list A) :
  (forall x, List.length (f x) = sz) ->
  List.length (flat_map f l) = (sz * List.length l)%nat.
Proof.
  intros H. induction l as [|x l IH]; simpl; [lia|].
  rewrite length_app, H, IH. lia.
Qed.

Lemma encode_blob_length f n xs :
  blen (encode_blob f n xs) = 8 + 20 * Z.of_nat (List.length xs).
Proof.
  unfold blen, encode_blob. rewrite !length_app, !write_be32_length.
  rewrite (flat_map_length_const encode_xdr 20) by apply encode_xdr_length.
  lia.
Qed.

Lemma encode_blob_header f n xs post :
  word (encode_blob f n xs ++ post) 0 = u32 f /\
  word (encode_blob f n xs ++ post) 1 = u32 n.
Proof.
  unfold word, encode_blob. split.
  - rewrite <- (read_write_be32 f). apply read_be32_slice.
    rewrite <- !app_assoc. apply slice_app_l; [lia|].
    unfold blen. rewrite write_be32_length. simpl. lia.
  - rewrite <- (read_write_be32 n). apply read_be32_slice.
    rewrite <- !app_assoc.
    change (4 * 1) with (blen (write_be32 f) + 0).
    rewrite slice_app_r by lia.
    apply slice_app_l; [lia|].
    unfold blen. rewrite write_be32_length. simpl. lia.
Qed.

Lemma slot_words t f i m w :
  let c := nfs4ace_write_raw t f i m w in
  read_be32 c 0 = u32 t /\ read_be32 c 4 = u32 f /\ read_be32 c 8 = u32 i /\
  read_be32 c 12 = u32 m /\ read_be32 c 16 = u32 w.
Proof.
  unfold nfs4ace_write_raw, write_be32. simpl.
  repeat split; unfold read_be32, slice; cbn [Z.to_nat Pos.to_nat Pos.iter_op Init.Nat.add skipn firstn app];
    apply join32_split.
Qed.

Lemma encode_blob_slot f n xs post (i : nat) (x : xdr_ace) :
  nth_error xs i = Some x ->
  xdr_ace_at (encode_blob f n xs ++ post) (Z.of_nat i) =
  mkXdr (u32 (x_type x)) (u32 (x_flags x)) (u32 (x_iflag x)) (u32 (x_mask x))
        (u32 (x_who x)).
Proof.
  intros Hi.
  assert (Hs : forall k, 0 <= k -> k + 4 <= 20 ->
            slice (encode_blob f n xs ++ post)
                  (4 * (NFS4_HDR_WORDS + Z.of_nat i * NFS4_ACE_WORDS) + k) 4
            = slice (encode_xdr x) k 4).
  { intros k Hk0 Hk. unfold encode_blob, NFS4_HDR_WORDS, NFS4_ACE_WORDS.
    rewrite <- !app_assoc. rewrite (app_assoc (write_be32 f)).
    replace (4 * (2 + Z.of_nat i * 5) + k)
      with (blen (write_be32 f ++ write_be32 n)
            + (Z.of_nat 20 * Z.of_nat i + k))
      by (unfold blen; rewrite length_app, !write_be32_length; lia).
    rewrite slice_app_r by lia.
    rewrite flat_map_concat_map.
    apply (slice_chunk 20).
    - apply flat_map_chunks. apply encode_xdr_length.
    - now rewrite nth_error_map, Hi.
    - exact Hk0.
    - simpl. lia. }
  destruct (slot_words (x_type x) (x_flags x) (x_iflag x) (x_mask x) (x_who x))
    as (H0 & H1 & H2 & H3 & H4).
  unfold xdr_ace_at, word.
  f_equal.
  - rewrite <- H0. apply read_be32_slice. fold (encode_xdr x).
    rewrite <- (Hs 0) by lia. f_equal. unfold NFS4_HDR_WORDS, NFS4_ACE_WORDS. lia.
  - rewrite <- H1. apply read_be32_slice. fold (encode_xdr x).
    rewrite <- (Hs 4) by lia. f_equal. unfold NFS4_HDR_WORDS, NFS4_ACE_WORDS. lia.
  - rewrite <- H2. apply read_be32_slice. fold (encode_xdr x).
    rewrite <- (Hs 8) by lia. f_equal. unfold NFS4_HDR_WORDS, NFS4_ACE_WORDS. lia.
  - rewrite <- H3. apply read_be32_slice. fold (encode_xdr x).
    rewrite <- (Hs 12) by lia. f_equal. unfold NFS4_HDR_WORDS, NFS4_ACE_WORDS. lia.
  - rewrite <- H4. apply read_be32_slice. fold (encode_xdr x).
    rewrite <- (Hs 16) by lia. f_equal. unfold NFS4_HDR_WORDS, NFS4_ACE_WORDS. lia.
Qed.

Lemma xdr_u32_id x :
  xdr_in_range x ->
  mkXdr (u32 (x_type x)) (u32 (x_flags x)) (u32 (x_iflag x)) (u32 (x_mask x))
        (u32 (x_who x)) = x.
Proof.
  unfold xdr_in_range, is_u32, UINT32_MAX. intros (H1 & H2 & H3 & H4 & H5).
  destruct x as [t f i m w]; simpl in *.
  rewrite !u32_small by lia. reflexivity.
Qed.

Lemma present_from_encoded f n xs post (k : nat) :
  Forall xdr_in_range xs ->
  (k <= List.length xs)%nat ->
  present_from (encode_blob f n xs ++ post) 0 k = firstn k xs.
Proof.
  intros Hr Hk. unfold present_from.
  apply nth_error_ext. intros i.
  rewrite nth_error_map.
  destruct (Nat.ltb_spec i k) as [Hik|Hik].
  - rewrite nth_error_seq, nth_error_firstn.
    replace (i <? k)%nat with true by (symmetry; apply Nat.ltb_lt; lia).
    cbv [option_map].
    destruct (nth_error xs i) as [x|] eqn:E.
    + f_equal. replace (0 + Z.of_nat (0 + i)) with (Z.of_nat i) by lia.
      rewrite (encode_blob_slot f n xs post i x E).
      apply xdr_u32_id. rewrite Forall_forall in Hr. apply Hr.
      eapply nth_error_In; eauto.
    + apply nth_error_None in E. lia.
  - rewrite nth_error_firstn.
    replace (i <? k)%nat with false by (symmetry; apply Nat.ltb_ge; lia).
    rewrite (proj2 (nth_error_None _ _)); [reflexivity|].
    rewrite length_seq. lia.
Qed.

Lemma aces_present_encoded f n xs :
  Forall xdr_in_range xs ->
  u32 n = Z.of_nat (List.length xs) ->
  aces_present (encode_blob f n xs) = xs.
Proof.
  intros Hr Hn. unfold aces_present, n_present.
  rewrite encode_blob_length.
  rewrite <- (app_nil_r (encode_blob f n xs)).
  destruct (encode_blob_header f n xs []) as [_ ->].
  unfold NFS4_HDR_SZ, NFS4_ACE_SZ.
  replace (8 + 20 * Z.of_nat (List.length xs) <? 8) with false
    by (symmetry; apply Z.ltb_ge; lia).
  replace ((8 + 20 * Z.of_nat (List.length xs) - 8) / 20)
    with (Z.of_nat (List.length xs))
    by (replace (8 + 20 * Z.of_nat (List.length xs) - 8)
          with (Z.of_nat (List.length xs) * 20) by lia;
        now rewrite Z.div_mul).
  rewrite Hn, Z.min_id, Nat2Z.id.
  rewrite present_from_encoded by (auto; lia).
  apply firstn_all.
Qed.

(** ** The canonical order *)

Lemma sort_key_ace_key a : sort_key (ace_type a) (ace_flags a) = ace_key a.
Proof.
  unfold sort_key, ace_key, is_inherited, is_allow.
  rewrite has_inherited_bit. unfold NFS4_ACE_ACCESS_ALLOWED_ACE_TYPE.
  destruct (Z.testbit (ace_flags a) 7), (ace_type a =? 0); reflexivity.
Qed.

Lemma ace_key_range a : 0 <= ace_key a <= 3.
Proof.
  unfold ace_key. destruct (is_inherited a), (is_allow a); simpl; lia.
Qed.

Lemma nfs4_richcompare_lt a b :
  ace_in_range a -> ace_in_range b ->
  NFS4Ace_richcompare a b Py_LT = Ok (key_ltb a b).
Proof.
  intros (Ha1 & Ha2 & _) (Hb1 & Hb2 & _).
  unfold NFS4Ace_richcompare, PyLong_AsLong. rewrite Ha1, Ha2, Hb1, Hb2.
  rewrite !sort_key_ace_key. unfold key_ltb, cmp_to_bool. f_equal.
  destruct (Z.ltb_spec (ace_key a) (ace_key b)); [reflexivity|].
  destruct (ace_key a >? ace_key b); reflexivity.
Qed.

Lemma tied_key a b :
  SortSpec.tied key_ltb a b = (ace_key b =? ace_key a).
Proof.
  unfold SortSpec.tied, key_ltb.
  destruct (Z.ltb_spec (ace_key a) (ace_key b)),
           (Z.ltb_spec (ace_key b) (ace_key a)),
           (Z.eqb_spec (ace_key b) (ace_key a)); simpl; try reflexivity; lia.
Qed.

Lemma bucket_empty_below (k : Z) (l : list NFS4Ace_t) :
  Forall (fun a => k < ace_key a) l -> bucket k l = [].
Proof.
  induction 1 as [|a l Ha _ IH]; [reflexivity|].
  unfold bucket in *. simpl.
  replace (ace_key a =? k) with false by (symmetry; apply Z.eqb_neq; lia).
  exact IH.
Qed.

(** An ascending list is the concatenation of its own buckets. *)
Lemma ascending_canonical (s : list NFS4Ace_t) :
  SortSpec.ascending key_ltb s -> s = canonical s.
Proof.
  unfold SortSpec.ascending, canonical, explicit_deny, explicit_allow,
    inherited_deny, inherited_allow.
  induction 1 as [|a s Hs IH Hf]; [reflexivity|].
  assert (Hge : Forall (fun b => ace_key a <= ace_key b) s).
  { eapply Forall_impl; [|exact Hf]. unfold key_ltb. intros b Hb.
    apply Z.ltb_ge in Hb. exact Hb. }
  pose proof (ace_key_range a) as Hr.
  assert (Hlow : forall k, k < ace_key a -> bucket k s = []).
  { intros k Hk. apply bucket_empty_below.
    eapply Forall_impl; [|exact Hge]. simpl. intros; lia. }
  unfold bucket at 1 2 3 4. simpl. fold (bucket 0 s) (bucket 1 s) (bucket 2 s) (bucket 3 s).
  assert (ace_key a = 0 \/ ace_key a = 1 \/ ace_key a = 2 \/ ace_key a = 3)
    as [E|[E|[E|E]]] by lia; rewrite E in *; simpl.
  - f_equal. exact IH.
  - rewrite (Hlow 0) in * by lia. simpl in *. f_equal. exact IH.
  - rewrite (Hlow 0), (Hlow 1) in * by lia. simpl in *. f_equal. exact IH.
  - rewrite (Hlow 0), (Hlow 1), (Hlow 2) in * by lia. simpl in *. f_equal.
    exact IH.
Qed.

(** Tied elements keep their order, bucket by bucket. *)
Lemma stable_bucket (l s : list NFS4Ace_t) (k : Z) :
  Permutation l s ->
  (forall z, filter (SortSpec.tied key_ltb z) s
             = filter (SortSpec.tied key_ltb z) l) ->
  bucket k s = bucket k l.
Proof.
  intros Hp Ht. unfold bucket.
  destruct (existsb (fun a => ace_key a =? k) l) eqn:E.
  - apply existsb_exists in E as (z & _ & Hz). apply Z.eqb_eq in Hz.
    rewrite <- Hz.
    rewrite (filter_ext _ (SortSpec.tied key_ltb z))
      by (intros a; now rewrite tied_key).
    rewrite (filter_ext (fun a => ace_key a =? ace_key z)
               (SortSpec.tied key_ltb z))
      by (intros a; now rewrite tied_key).
    apply Ht.
  - assert (Hn : forall l', (forall a, In a l' -> In a l) ->
               filter (fun a => ace_key a =? k) l' = []).
    { induction l' as [|a l' IH]; intros Hin; [reflexivity|]. simpl.
      destruct (ace_key a =? k) eqn:F.
      - assert (existsb (fun a => ace_key a =? k) l = true)
          by (apply existsb_exists; exists a; split;
              [apply Hin; now left | exact F]).
        congruence.
      - apply IH. intros b Hb. apply Hin. now right. }
    rewrite (Hn l) by auto.
    apply Hn. intros a Ha. eapply Permutation_in; [symmetry; exact Hp|exact Ha].
Qed.

(** The sort of [from_aces] yields the four buckets in order. *)
Lemma sort_canonical (aces : list NFS4Ace_t) :
  Forall ace_in_range aces ->
  PyList_Sort (fun a b => NFS4Ace_richcompare a b Py_LT) aces
  = Ok (canonical aces).
Proof.
  intros Hr.
  destruct (SortFacts.PyList_Sort_spec
              (fun a b => NFS4Ace_richcompare a b Py_LT) key_ltb ace_in_range)
    with (l := aces) as (s & Hs & Hp & Ha & Ht).
  - intros a b. apply nfs4_richcompare_lt.
  - intros a. apply Z.ltb_irrefl.
  - unfold key_ltb. intros a b c H1 H2. apply Z.ltb_lt in H1, H2.
    apply Z.ltb_lt. lia.
  - unfold key_ltb. intros a b c H1 H2. apply Z.ltb_ge in H1, H2.
    apply Z.ltb_ge. lia.
  - exact Hr.
  - rewrite Hs. f_equal. rewrite (ascending_canonical s Ha).
    unfold canonical, explicit_deny, explicit_allow, inherited_deny,
      inherited_allow.
    now rewrite !(stable_bucket aces s) by assumption.
Qed.

Lemma canonical_ascending (l : list NFS4Ace_t) :
  StronglySorted (fun a b => ace_key a <= ace_key b) (canonical l).
Proof.
  unfold canonical, explicit_deny, explicit_allow, inherited_deny,
    inherited_allow.
  assert (Hb : forall k, Forall (fun a => ace_key a = k) (bucket k l)).
  { intros k. apply Forall_forall. intros a Ha.
    apply filter_In in Ha as [_ Ha]. now apply Z.eqb_eq. }
  assert (Hs : forall k, StronglySorted (fun a b => ace_key a <= ace_key b)
                           (bucket k l)).
  { intros k. specialize (Hb k). induction Hb as [|a s Ha Hf IH]; constructor.
    - exact IH.
    - eapply Forall_impl; [|exact Hf]. simpl. intros; lia. }
  assert (Hin : forall k a, In a (bucket k l) -> ace_key a = k).
  { intros k a Ha. specialize (Hb k). rewrite Forall_forall in Hb. auto. }
  repeat (apply SortFacts.StronglySorted_app_iff; split; [apply Hs|]; split).
  - apply Hs.
  - intros a b Ha Hb'. apply Hin in Ha, Hb'. lia.
  - intros a b Ha Hb'. apply Hin in Ha.
    apply in_app_or in Hb' as [Hb'|Hb']; apply Hin in Hb'; lia.
  - intros a b Ha Hb'. apply Hin in Ha.
    apply in_app_or in Hb' as [Hb'|Hb'];
      [|apply in_app_or in Hb' as [Hb'|Hb']]; apply Hin in Hb'; lia.
Qed.

Lemma canonical_permutation (l : list NFS4Ace_t) : Permutation l (canonical l).
Proof.
  unfold canonical, explicit_deny, explicit_allow, inherited_deny,
    inherited_allow, bucket.
  induction l as [|a l IH]; [reflexivity|]. simpl.
  pose proof (ace_key_range a) as Hr.
  assert (ace_key a = 0 \/ ace_key a = 1 \/ ace_key a = 2 \/ ace_key a = 3)
    as [E|[E|[E|E]]] by lia; rewrite E; simpl.
  - now constructor.
  - rewrite <- Permutation_middle. now constructor.
  - rewrite app_assoc, <- Permutation_middle, <- app_assoc. now constructor.
  - rewrite !app_assoc, <- Permutation_middle, <- !app_assoc. now constructor.
Qed.

(** ** [from_aces] and [aces] *)

Lemma nfs4ace_encode_ok a p endp :
  ace_in_range a -> NFS4_ACE_WORDS <= endp - p ->
  nfs4ace_encode a p endp = Ok (encode_xdr (xdr_of_ace a)).
Proof.
  intros (H1 & H2 & H3 & H4 & H5) Hp. unfold nfs4ace_encode.
  replace (endp - p <? NFS4_ACE_WORDS) with false
    by (symmetry; apply Z.ltb_ge; lia).
  unfold PyLong_AsLong. rewrite H1, H2, H3, H4, H5.
  unfold xdr_of_ace, encode_xdr.
  destruct (who_type a =? NFS4_ACL_WHO_NAMED); reflexivity.
Qed.

Lemma encode_slots_ok (s : list NFS4Ace_t) (i endp : Z) :
  Forall ace_in_range s ->
  NFS4_HDR_WORDS + (i + Z.of_nat (List.length s)) * NFS4_ACE_WORDS <= endp ->
  encode_slots s i endp = Ok (flat_map encode_xdr (map xdr_of_ace s)).
Proof.
  intros Hr. revert i. induction Hr as [|a s Ha Hs IH]; intros i Hi.
  - reflexivity.
  - cbn [List.length] in Hi. rewrite Nat2Z.inj_succ in Hi.
    unfold NFS4_HDR_WORDS, NFS4_ACE_WORDS in *.
    cbn [encode_slots]. rewrite nfs4ace_encode_ok.
    + cbn [bind]. rewrite IH.
      * reflexivity.
      * lia.
    + exact Ha.
    + unfold NFS4_HDR_WORDS, NFS4_ACE_WORDS. lia.
Qed.

Lemma Forall_in_range_canonical l :
  Forall ace_in_range l -> Forall ace_in_range (canonical l).
Proof.
  intros H. apply Forall_forall. intros a Ha.
  rewrite Forall_forall in H. apply H.
  eapply Permutation_in; [symmetry; apply canonical_permutation | exact Ha].
Qed.

Lemma canonical_length l : List.length (canonical l) = List.length l.
Proof. symmetry. apply Permutation_length, canonical_permutation. Qed.

(** The blob [from_aces] builds. *)
Lemma from_aces_blob (aces : list NFS4Ace_t) (acl_flags : option Z) :
  Forall ace_in_range aces -> flags_in_range acl_flags ->
  NFS4ACL_from_aces aces acl_flags =
  Ok (mkACL (encode_blob
               (match acl_flags with Some v => u32 v | None => 0 end)
               (u32 (Z.of_nat (List.length aces)))
               (map xdr_of_ace (canonical aces)))).
Proof.
  intros Hr Hf. unfold NFS4ACL_from_aces, nfs4acl_alloc_ace_buf.
  rewrite (sort_canonical aces Hr). cbn [bind].
  assert (Hfl : match acl_flags with
                | None => Ok 0
                | Some o => bind (PyLong_AsLong o) (fun v => Ok (u32 v))
                end = Ok (match acl_flags with Some v => u32 v | None => 0 end)).
  { destruct acl_flags as [v|]; [|reflexivity].
    simpl in Hf. unfold PyLong_AsLong. now rewrite Hf. }
  rewrite Hfl. cbn [bind].
  rewrite encode_slots_ok.
  - cbn [bind]. rewrite canonical_length. reflexivity.
  - now apply Forall_in_range_canonical.
  - unfold NFS4_HDR_WORDS, NFS4_ACE_WORDS. lia.
Qed.

Lemma xdr_of_ace_in_range a : xdr_in_range (xdr_of_ace a).
Proof.
  assert (H : forall v, is_u32 (u32 v) = true).
  { intros v. pose proof (u32_range v). unfold is_u32, UINT32_MAX.
    apply andb_true_intro. split; [apply Z.leb_le | apply Z.leb_le]; lia. }
  unfold xdr_of_ace, xdr_in_range.
  destruct (who_type a =? NFS4_ACL_WHO_NAMED); simpl; repeat split;
    try apply H; reflexivity.
Qed.

(** The ACEs found on the wire after [from_aces]. *)
Lemma from_aces_wire (aces : list NFS4Ace_t) (acl_flags : option Z) acl :
  Forall ace_in_range aces -> flags_in_range acl_flags ->
  Z.of_nat (List.length aces) < 4294967296 ->
  NFS4ACL_from_aces aces acl_flags = Ok acl ->
  aces_present (data acl) = map xdr_of_ace (canonical aces).
Proof.
  intros Hr Hf Hl H. rewrite from_aces_blob in H by assumption.
  injection H as <-. simpl data.
  apply aces_present_encoded.
  - apply Forall_forall. intros x Hx. apply in_map_iff in Hx as (a & <- & _).
    apply xdr_of_ace_in_range.
  - rewrite length_map, canonical_length.
    rewrite (u32_small (Z.of_nat (List.length aces))) by lia.
    apply u32_small. lia.
Qed.

Lemma is_u32_range v : is_u32 v = true -> 0 <= v < 4294967296.
Proof.
  unfold is_u32, UINT32_MAX. intros H. apply andb_prop in H as [H1 H2].
  apply Z.leb_le in H1, H2. lia.
Qed.

(** Decoding the slot of a well-formed ACE gives the ACE back. *)
Lemma nfs4ace_decode_slot (d : bytes) (i : Z) (a : NFS4Ace_t) :
  ace_wellformed a ->
  xdr_ace_at d i = xdr_of_ace a ->
  nfs4ace_decode d (NFS4_HDR_WORDS + i * NFS4_ACE_WORDS) = Ok a.
Proof.
  intros (Ht & Hf & Hm & Hw & Hid) Hx.
  unfold xdr_ace_at in Hx. unfold nfs4ace_decode.
  apply is_u32_range in Hf, Hm.
  destruct a as [t f m w id]; simpl in *.
  unfold xdr_of_ace in Hx; simpl in Hx.
  unfold NFS4_ACL_WHO_NAMED in *.
  destruct (Z.eqb_spec w 0) as [->|Hw0].
  - apply is_u32_range in Hid.
    injection Hx as -> -> -> -> ->.
    rewrite !u32_small by lia. simpl.
    unfold IntEnum_call, IntFlag_call, nfs4_ace_type_table, nfs4_who_table.
    assert (t = 0 \/ t = 1 \/ t = 2 \/ t = 3) as [->|[->|[->| ->]]] by lia;
      reflexivity.
  - injection Hx as -> -> -> -> ->.
    rewrite !u32_small by lia. simpl. subst id.
    unfold IntEnum_call, IntFlag_call, nfs4_ace_type_table, nfs4_who_table.
    assert (t = 0 \/ t = 1 \/ t = 2 \/ t = 3) as [->|[->|[->| ->]]] by lia;
      (assert (w = 1 \/ w = 2 \/ w = 3) as [->|[->| ->]] by lia); reflexivity.
Qed.

Lemma decode_slots_ok (d : bytes) (l : list NFS4Ace_t) (i : Z) :
  Forall ace_wellformed l ->
  present_from d i (List.length l) = map xdr_of_ace l ->
  decode_slots d (List.length l) i = Ok l.
Proof.
  intros Hw. revert i. induction Hw as [|a l Ha Hl IH]; intros i Hp.
  - reflexivity.
  - simpl List.length in *. unfold present_from in Hp.
    rewrite <- cons_seq, <- seq_shift in Hp. simpl in Hp.
    injection Hp as H0 Hp.
    cbn [decode_slots].
    rewrite (nfs4ace_decode_slot d i a Ha)
      by (rewrite <- H0; f_equal; lia).
    cbn [bind]. rewrite IH; [reflexivity|].
    unfold present_from. rewrite <- Hp. rewrite map_map.
    apply map_ext. intros j. f_equal. lia.
Qed.

Lemma canonical_stable (l : list NFS4Ace_t) :
  SortSpec.stable_sort_of key_ltb l (canonical l).
Proof.
  destruct (SortFacts.PyList_Sort_spec
              (fun a b => Ok (key_ltb a b)) key_ltb (fun _ => True))
    with (l := l) as (s & Hs & Hp & Ha & Ht).
  - reflexivity.
  - intros a. apply Z.ltb_irrefl.
  - unfold key_ltb. intros a b c H1 H2. apply Z.ltb_lt in H1, H2.
    apply Z.ltb_lt. lia.
  - unfold key_ltb. intros a b c H1 H2. apply Z.ltb_ge in H1, H2.
    apply Z.ltb_ge. lia.
  - apply Forall_forall. auto.
  - assert (E : s = canonical l).
    { rewrite (ascending_canonical s Ha).
      unfold canonical, explicit_deny, explicit_allow, inherited_deny,
        inherited_allow.
      now rewrite !(stable_bucket l s) by assumption. }
    rewrite <- E. repeat split; assumption.
Qed.

Lemma wellformed_in_range a : ace_wellformed a -> ace_in_range a.
Proof.
  intros (Ht & Hf & Hm & Hw & Hid).
  apply is_u32_range in Hf, Hm.
  assert (Hi : -1 <= who_id a < 4294967296).
  { destruct (who_type a =? NFS4_ACL_WHO_NAMED).
    - apply is_u32_range in Hid. lia.
    - lia. }
  unfold ace_in_range, is_long, LONG_MIN, LONG_MAX.
  repeat split; apply andb_true_intro; split; apply Z.leb_le; lia.
Qed.

Lemma from_aces_get_aces (aces : list NFS4Ace_t) (acl_flags : option Z) acl :
  Forall ace_wellformed aces -> flags_in_range acl_flags ->
  Z.of_nat (List.length aces) < 4294967296 ->
  NFS4ACL_from_aces aces acl_flags = Ok acl ->
  NFS4ACL_get_aces acl = Ok (canonical aces).
Proof.
  intros Hw Hf Hl H.
  assert (Hr : Forall ace_in_range aces)
    by (eapply Forall_impl; [apply wellformed_in_range | exact Hw]).
  rewrite from_aces_blob in H by assumption. injection H as <-.
  unfold NFS4ACL_get_aces. cbn [data].
  rewrite encode_blob_length.
  rewrite <- (app_nil_r (encode_blob _ _ _)).
  destruct (encode_blob_header
              (match acl_flags with Some v => u32 v | None => 0 end)
              (u32 (Z.of_nat (List.length aces)))
              (map xdr_of_ace (canonical aces)) []) as [_ ->].
  rewrite length_map, canonical_length.
  rewrite (u32_small (Z.of_nat (List.length aces))) by lia.
  rewrite u32_small by lia.
  unfold NFS4_HDR_SZ, NFS4_ACE_SZ.
  replace (8 + 20 * Z.of_nat (List.length aces) <? 8) with false
    by (symmetry; apply Z.ltb_ge; lia).
  replace (8 + Z.of_nat (List.length aces) * 20
           >? 8 + 20 * Z.of_nat (List.length aces)) with false
    by (symmetry; rewrite Z.gtb_ltb; apply Z.ltb_ge; lia).
  rewrite Nat2Z.id, <- (canonical_length aces).
  apply decode_slots_ok.
  - apply Forall_forall. intros a Ha. rewrite Forall_forall in Hw. apply Hw.
    eapply Permutation_in; [symmetry; apply canonical_permutation | exact Ha].
  - rewrite present_from_encoded.
    + rewrite <- (length_map xdr_of_ace). apply firstn_all.
    + apply Forall_forall. intros x Hx. apply in_map_iff in Hx as (a & <- & _).
      apply xdr_of_ace_in_range.
    + rewrite length_map. lia.
Qed.

End NFS4Facts.

Module Claims1.
Import CInt Wire Py Stat NFS4 NFS4Spec WireFacts BitFacts NFS4Facts.

(** C1.  [NFS4ACL.from_aces] sorts the supplied ACEs stably by the key
    [2 * is_inherited + is_allow]: for ACEs whose fields fit the C
    conversions the call succeeds, and the ACL it returns holds, on the
    wire and as decoded by [aces], the four buckets explicit-deny,
    explicit-allow, inherited-deny, inherited-allow one after the other,
    each in input order.  That list is the stable sort of the input: a
    permutation with ascending keys in which ACEs of equal key keep their
    input order.  For the input
    [(ALLOW, no), (DENY, yes), (DENY, no), (ALLOW, yes)] the resulting
    order is [(DENY, no), (ALLOW, no), (DENY, yes), (ALLOW, yes)]. *)
Theorem from_aces_canonical_order
  (aces : list NFS4Ace_t) (acl_flags : option Z) :
  Forall ace_in_range aces ->
  flags_in_range acl_flags ->
  Z.of_nat (List.length aces) < 4294967296 ->
  (exists acl,
      NFS4ACL_from_aces aces acl_flags = Ok acl /\
      aces_present (data acl) = map xdr_of_ace (canonical aces) /\
      (Forall ace_wellformed aces ->
       NFS4ACL_get_aces acl = Ok (canonical aces))) /\
  SortSpec.stable_sort_of key_ltb aces (canonical aces) /\
  StronglySorted (fun a b => ace_key a <= ace_key b) (canonical aces) /\
  bind (NFS4ACL_from_aces scenario_input None) NFS4ACL_get_aces
  = Ok scenario_output.
Proof.
  intros Hr Hf Hl. split; [|split; [|split]].
  - exists (mkACL (encode_blob
               (match acl_flags with Some v => u32 v | None => 0 end)
               (u32 (Z.of_nat (List.length aces)))
               (map xdr_of_ace (canonical aces)))).
    pose proof (from_aces_blob aces acl_flags Hr Hf) as Hb.
    repeat split.
    + exact Hb.
    + now apply (from_aces_wire aces acl_flags).
    + intros Hw. now apply (from_aces_get_aces aces acl_flags).
  - apply canonical_stable.
  - apply canonical_ascending.
  - vm_compute. reflexivity.
Qed.

Lemma from_aces_canonical_order_witness :
  Forall ace_in_range scenario_input /\
  flags_in_range None /\
  Z.of_nat (List.length scenario_input) < 4294967296 /\
  ((exists acl,
      NFS4ACL_from_aces scenario_input None = Ok acl /\
      aces_present (data acl) = map xdr_of_ace (canonical scenario_input) /\
      (Forall ace_wellformed scenario_input ->
       NFS4ACL_get_aces acl = Ok (canonical scenario_input))) /\
   SortSpec.stable_sort_of key_ltb scenario_input (canonical scenario_input) /\
   StronglySorted (fun a b => ace_key a <= ace_key b)
     (canonical scenario_input) /\
   bind (NFS4ACL_from_aces scenario_input None) NFS4ACL_get_aces
   = Ok scenario_output).
Proof.
  assert (H1 : Forall ace_in_range scenario_input) by (repeat constructor).
  assert (H2 : flags_in_range None) by exact I.
  assert (H3 : Z.of_nat (List.length scenario_input) < 4294967296)
    by (vm_compute; reflexivity).
  split; [exact H1 | split; [exact H2 | split; [exact H3|]]].
  exact (from_aces_canonical_order scenario_input None H1 H2 H3).
Defined.

End Claims1.

Module NFS4Loops.
Import CInt Wire Py Stat NFS4 NFS4Spec WireFacts BitFacts NFS4Facts.

Lemma gtb_true a b : b < a -> (a >? b) = true.
Proof. intros H. rewrite Z.gtb_ltb. now apply Z.ltb_lt. Qed.

Lemma gtb_false a b : a <= b -> (a >? b) = false.
Proof. intros H. rewrite Z.gtb_ltb. now apply Z.ltb_ge. Qed.

Lemma n_present_below (d : bytes) (i : Z) :
  NFS4_HDR_SZ <= blen d -> 0 <= i -> i < n_present d ->
  (i <? word d 1) = true /\
  (NFS4_HDR_SZ + (i + 1) * NFS4_ACE_SZ >? blen d) = false.
Proof.
  unfold n_present, NFS4_HDR_SZ, NFS4_ACE_SZ. intros Hl Hi.
  replace (blen d <? 8) with false by (symmetry; apply Z.ltb_ge; lia).
  pose proof (Z.div_mod (blen d - 8) 20 ltac:(lia)) as Hq.
  pose proof (Z.mod_pos_bound (blen d - 8) 20 ltac:(lia)) as Hr.
  intros H. split.
  - apply Z.ltb_lt. lia.
  - apply gtb_false. lia.
Qed.

Lemma n_present_at (d : bytes) (i : Z) :
  NFS4_HDR_SZ <= blen d -> i = n_present d ->
  (i <? word d 1) = false \/
  (NFS4_HDR_SZ + (i + 1) * NFS4_ACE_SZ >? blen d) = true.
Proof.
  unfold n_present, NFS4_HDR_SZ, NFS4_ACE_SZ. intros Hl.
  replace (blen d <? 8) with false by (symmetry; apply Z.ltb_ge; lia).
  pose proof (Z.div_mod (blen d - 8) 20 ltac:(lia)) as Hq.
  pose proof (Z.mod_pos_bound (blen d - 8) 20 ltac:(lia)) as Hr.
  intros H.
  destruct (Z.le_ge_cases (word d 1) ((blen d - 8) / 20)).
  - left. apply Z.ltb_ge. lia.
  - right. apply gtb_true. lia.
Qed.

Lemma n_present_range (d : bytes) :
  0 <= n_present d /\ n_present d <= blen d /\ n_present d < 4294967296.
Proof.
  unfold n_present, NFS4_HDR_SZ, NFS4_ACE_SZ.
  pose proof (read_be32_range d (4 * 1)) as Hw. fold (word d 1) in Hw.
  destruct (Z.ltb_spec (blen d) 8).
  - unfold blen in *. lia.
  - pose proof (Z.div_mod (blen d - 8) 20 ltac:(lia)) as Hq.
    pose proof (Z.mod_pos_bound (blen d - 8) 20 ltac:(lia)) as Hr.
    lia.
Qed.

Lemma present_from_S d i n :
  present_from d i (S n) = xdr_ace_at d i :: present_from d (i + 1) n.
Proof.
  unfold present_from. rewrite <- cons_seq, <- seq_shift. cbn [map].
  rewrite map_map. f_equal.
  - f_equal. lia.
  - apply map_ext. intros j. f_equal. lia.
Qed.

Lemma ace_is_inheritable_passed_on d i is_dir :
  ace_is_inheritable
    (word d (NFS4_HDR_WORDS + i * NFS4_ACE_WORDS + 1)) is_dir
  = passed_on is_dir (xdr_ace_at d i).
Proof.
  unfold ace_is_inheritable, passed_on, xdr_ace_at. cbn [x_flags].
  destruct is_dir.
  - apply has_file_or_dir_bit.
  - apply has_file_bit.
Qed.

Lemma count_inheritable_spec (d : bytes) (is_dir : bool) :
  NFS4_HDR_SZ <= blen d ->
  forall (n fuel : nat) (i acc : Z),
    0 <= i -> i + Z.of_nat n = n_present d -> (n <= fuel)%nat ->
    count_inheritable fuel d (blen d) (word d 1) is_dir i acc
    = acc + Z.of_nat (List.length
                        (filter (passed_on is_dir) (present_from d i n))).
Proof.
  intros Hl. induction n as [|n IH]; intros fuel i acc Hi Hn Hf.
  - cbn [present_from seq map filter List.length]. rewrite Z.add_0_r.
    destruct fuel as [|fuel]; [reflexivity|]. cbn [count_inheritable].
    destruct (n_present_at d i Hl ltac:(lia)) as [-> | E]; [reflexivity|].
    rewrite E. destruct (i <? word d 1); reflexivity.
  - destruct fuel as [|fuel]; [lia|]. cbn [count_inheritable].
    destruct (n_present_below d i Hl Hi ltac:(lia)) as [-> ->].
    rewrite ace_is_inheritable_passed_on, present_from_S. cbn [filter].
    rewrite IH by lia.
    destruct (passed_on is_dir (xdr_ace_at d i)); cbn [List.length]; lia.
Qed.

Lemma write_inherited_spec (d : bytes) (is_dir : bool) :
  NFS4_HDR_SZ <= blen d ->
  forall (n fuel : nat) (i : Z),
    0 <= i -> i + Z.of_nat n = n_present d -> (n <= fuel)%nat ->
    write_inherited fuel d (blen d) (word d 1) is_dir i
    = flat_map encode_xdr
        (map (inherit_xdr is_dir)
           (filter (passed_on is_dir) (present_from d i n))).
Proof.
  intros Hl. induction n as [|n IH]; intros fuel i Hi Hn Hf.
  - cbn [present_from seq map filter flat_map].
    destruct fuel as [|fuel]; [reflexivity|]. cbn [write_inherited].
    destruct (n_present_at d i Hl ltac:(lia)) as [-> | E]; [reflexivity|].
    rewrite E. destruct (i <? word d 1); reflexivity.
  - destruct fuel as [|fuel]; [lia|]. cbn [write_inherited].
    destruct (n_present_below d i Hl Hi ltac:(lia)) as [-> ->].
    rewrite ace_is_inheritable_passed_on, present_from_S. cbn [filter].
    rewrite IH by lia.
    destruct (passed_on is_dir (xdr_ace_at d i)); reflexivity.
Qed.

(** ** Inherited flags, bit by bit *)

Lemma inherited_flags_bits (f : Z) (is_dir : bool) (n : Z) :
  0 <= f < 4294967296 -> 0 <= n ->
  Z.testbit (inherited_flags f is_dir) n =
  if is_dir && negb (Z.testbit f 2) then
    if n =? 3 then false else if n =? 7 then true else Z.testbit f n
  else
    if (n =? 0) || (n =? 1) || (n =? 2) || (n =? 3) then false
    else if n =? 7 then true else Z.testbit f n.
Proof.
  intros Hf Hn. unfold inherited_flags. rewrite has_no_propagate_bit.
  unfold NFS4_ACE_INHERIT_ONLY_ACE, NFS4_ACE_INHERITED_ACE.
  change NFS4_ACE_INHERIT_MASK with 15.
  destruct (is_dir && negb (Z.testbit f 2)).
  - rewrite Z.lor_spec, Z.land_spec. rewrite not32_bits by lia. rewrite testbit_8 by lia. rewrite testbit_128 by lia.
    destruct (Z.ltb_spec n 32).
    + destruct (Z.eqb_spec n 3), (Z.eqb_spec n 7); try lia;
        cbn [negb andb orb]; rewrite ?andb_true_r, ?andb_false_r, ?orb_false_r,
          ?orb_true_r; reflexivity.
    + rewrite (testbit_u32_high f n) by lia.
      destruct (Z.eqb_spec n 3), (Z.eqb_spec n 7); try lia; reflexivity.
  - rewrite Z.lor_spec, Z.land_spec, not32_bits, testbit_15, testbit_128 by lia.
    destruct (Z.ltb_spec n 32).
    + destruct (Z.eqb_spec n 0), (Z.eqb_spec n 1), (Z.eqb_spec n 2),
        (Z.eqb_spec n 3), (Z.eqb_spec n 7), (Z.ltb_spec n 4); try lia;
        cbn [negb andb orb]; rewrite ?andb_true_r, ?andb_false_r, ?orb_false_r,
          ?orb_true_r; reflexivity.
    + rewrite (testbit_u32_high f n) by lia.
      destruct (Z.eqb_spec n 0), (Z.eqb_spec n 1), (Z.eqb_spec n 2),
        (Z.eqb_spec n 3), (Z.eqb_spec n 7), (Z.ltb_spec n 4); try lia;
        reflexivity.
Qed.

Lemma inherited_flags_range (f : Z) (is_dir : bool) :
  0 <= f < 4294967296 -> 0 <= inherited_flags f is_dir < 4294967296.
Proof.
  intros Hf.
  assert (H0 : 0 <= inherited_flags f is_dir).
  { unfold inherited_flags.
    destruct (is_dir && _); apply Z.lor_nonneg; split;
      try (apply Z.land_nonneg; left; lia); cbv; congruence. }
  split; [exact H0|].
  assert (E : inherited_flags f is_dir mod 2 ^ 32 = inherited_flags f is_dir).
  { apply Z.bits_inj'. intros n Hn. destruct (Z.ltb_spec n 32).
    - now rewrite Z.mod_pow2_bits_low by lia.
    - rewrite Z.mod_pow2_bits_high by lia.
      rewrite inherited_flags_bits by lia.
      rewrite (testbit_u32_high f n) by lia.
      destruct (is_dir && _);
        destruct (Z.eqb_spec n 0), (Z.eqb_spec n 1), (Z.eqb_spec n 2),
          (Z.eqb_spec n 3), (Z.eqb_spec n 7); try lia; reflexivity. }
  rewrite <- E. change 4294967296 with (2 ^ 32).
  apply Z.mod_pos_bound. lia.
Qed.

Lemma xdr_ace_at_in_range d i : xdr_in_range (xdr_ace_at d i).
Proof.
  assert (H : forall w, is_u32 (word d w) = true).
  { intros w. pose proof (read_be32_range d (4 * w)) as Hw. fold (word d w) in Hw.
    unfold is_u32, UINT32_MAX. apply andb_true_intro.
    split; apply Z.leb_le; lia. }
  unfold xdr_ace_at, xdr_in_range. cbn [x_type x_flags x_iflag x_mask x_who]. repeat split; apply H.
Qed.

Lemma inherit_xdr_in_range is_dir a :
  xdr_in_range a -> xdr_in_range (inherit_xdr is_dir a).
Proof.
  intros (H1 & H2 & H3 & H4 & H5). unfold inherit_xdr, xdr_in_range. cbn [x_type x_flags x_iflag x_mask x_who].
  repeat split; try assumption.
  apply is_u32_range in H2.
  pose proof (inherited_flags_range (x_flags a) is_dir H2).
  unfold is_u32, UINT32_MAX. apply andb_true_intro.
  split; apply Z.leb_le; lia.
Qed.

Lemma inherit_xdr_inherits is_dir a :
  xdr_in_range a -> inherits_from is_dir a (inherit_xdr is_dir a).
Proof.
  intros (_ & H2 & _). apply is_u32_range in H2.
  unfold inherits_from, inherit_xdr. cbn [x_type x_flags x_iflag x_mask x_who]. repeat split.
  unfold flag_no_propagate.
  destruct (is_dir && negb (Z.testbit (x_flags a) 2)) eqn:E;
    unfold propagating_and_inherited, stripped_and_inherited;
    intros n Hn; rewrite inherited_flags_bits by assumption; now rewrite E.
Qed.

Lemma present_from_in_range d i n : Forall xdr_in_range (present_from d i n).
Proof.
  apply Forall_forall. intros x Hx. unfold present_from in Hx.
  apply in_map_iff in Hx as (j & <- & _). apply xdr_ace_at_in_range.
Qed.

End NFS4Loops.

Module Claims2.
Import CInt Wire Py Stat NFS4 NFS4Spec WireFacts BitFacts NFS4Facts NFS4Loops.

Lemma aces_present_short d : blen d < NFS4_HDR_SZ -> aces_present d = [].
Proof.
  intros H. unfold aces_present, n_present.
  replace (blen d <? NFS4_HDR_SZ) with true by (symmetry; now apply Z.ltb_lt).
  reflexivity.
Qed.

Lemma Forall2_inherit_xdr is_dir l :
  Forall xdr_in_range l ->
  Forall2 (inherits_from is_dir) l (map (inherit_xdr is_dir) l).
Proof.
  induction 1 as [|a l Ha _ IH]; constructor.
  - now apply inherit_xdr_inherits.
  - exact IH.
Qed.

(** C2.  [generate_inherited_acl(is_dir)] keeps exactly the ACEs of the
    ACL that are passed on to a child of the given kind (FILE_INHERIT set
    for a file child; FILE_INHERIT or DIRECTORY_INHERIT set for a
    directory child), in their order; each output ACE has the type,
    principal and access mask of its source and flags that are, for a
    file child or when NO_PROPAGATE_INHERIT is set, the source flags with
    the four inherit bits stripped and INHERITED set, and otherwise the
    source flags with INHERIT_ONLY cleared and INHERITED set (FILE_INHERIT
    and DIRECTORY_INHERIT kept); the output [acl_flags] has ACL_IS_DIR set
    exactly when [is_dir]; when no ACE is kept the call raises
    [ValueError] and returns no ACL. *)
Theorem generate_inherited_acl_rules (self : NFS4ACL_t) (is_dir : bool) :
  let kept := filter (passed_on is_dir) (aces_present (data self)) in
  match NFS4ACL_generate_inherited_acl self is_dir with
  | Raise e => kept = [] /\ exists msg, e = ValueError msg
  | Ok out =>
      kept <> [] /\
      Forall2 (inherits_from is_dir) kept (aces_present (data out)) /\
      NFS4ACL_len out = Z.of_nat (List.length kept) /\
      exists f, NFS4ACL_get_acl_flags out = Ok f /\
                has_bits f NFS4_ACL_IS_DIR = is_dir
  end.
Proof.
  intros kept. unfold NFS4ACL_generate_inherited_acl.
  destruct (Z.ltb_spec (blen (data self)) NFS4_HDR_SZ) as [Hs|Hl].
  - split; [|eauto]. unfold kept. now rewrite aces_present_short.
  - pose proof (n_present_range (data self)) as (Hn0 & Hn1 & Hn2).
    assert (Hfuel : (Z.to_nat (n_present (data self))
                     <= List.length (data self))%nat)
      by (unfold blen in Hn1; lia).
    rewrite (count_inheritable_spec (data self) is_dir Hl
               (Z.to_nat (n_present (data self)))) by lia.
    rewrite (write_inherited_spec (data self) is_dir Hl
               (Z.to_nat (n_present (data self)))) by lia.
    fold (aces_present (data self)). fold kept.
    assert (Hk : Z.of_nat (List.length kept) < 4294967296).
    { assert (List.length kept <= List.length (aces_present (data self)))%nat
        by apply filter_length_le.
      unfold aces_present, present_from in H.
      rewrite length_map, length_seq in H. lia. }
    assert (Hkr : Forall xdr_in_range kept).
    { apply Forall_forall. intros x Hx. unfold kept in Hx.
      apply filter_In in Hx as [Hx _].
      pose proof (present_from_in_range (data self) 0
                    (Z.to_nat (n_present (data self)))) as Hp.
      rewrite Forall_forall in Hp. now apply Hp. }
    rewrite Z.add_0_l.
    destruct (Z.eqb_spec (Z.of_nat (List.length kept)) 0) as [E|E].
    + split; [|eauto]. destruct kept; [reflexivity|discriminate].
    + fold (encode_blob (if is_dir then NFS4_ACL_IS_DIR else 0)
              (Z.of_nat (List.length kept)) (map (inherit_xdr is_dir) kept)).
      assert (Hap : aces_present
                (encode_blob (if is_dir then NFS4_ACL_IS_DIR else 0)
                   (Z.of_nat (List.length kept))
                   (map (inherit_xdr is_dir) kept))
              = map (inherit_xdr is_dir) kept).
      { apply aces_present_encoded.
        - apply Forall_forall. intros x Hx.
          apply in_map_iff in Hx as (a & <- & Ha).
          apply inherit_xdr_in_range. rewrite Forall_forall in Hkr. auto.
        - rewrite length_map. apply u32_small. lia. }
      pose proof (encode_blob_length (if is_dir then NFS4_ACL_IS_DIR else 0)
                    (Z.of_nat (List.length kept))
                    (map (inherit_xdr is_dir) kept)) as Hlen.
      destruct (encode_blob_header (if is_dir then NFS4_ACL_IS_DIR else 0)
                  (Z.of_nat (List.length kept))
                  (map (inherit_xdr is_dir) kept) []) as [Hw0 Hw1].
      rewrite app_nil_r in Hw0, Hw1.
      repeat split.
      * intros ->. now apply E.
      * cbn [data]. rewrite Hap. now apply Forall2_inherit_xdr.
      * unfold NFS4ACL_len. cbn [data]. rewrite Hlen, Hw1.
        unfold NFS4_HDR_SZ.
        replace (8 + 20 * Z.of_nat (List.length (map (inherit_xdr is_dir) kept))
                 <? 8) with false by (symmetry; apply Z.ltb_ge; lia).
        apply u32_small. lia.
      * exists (if is_dir then NFS4_ACL_IS_DIR else 0). split.
        -- unfold NFS4ACL_get_acl_flags, IntFlag_call. cbn [data].
           rewrite Hlen, Hw0. unfold NFS4_HDR_SZ.
           replace (8 + 20 * Z.of_nat
                               (List.length (map (inherit_xdr is_dir) kept))
                    <? 8) with false by (symmetry; apply Z.ltb_ge; lia).
           f_equal. destruct is_dir; reflexivity.
        -- destruct is_dir; reflexivity.
Qed.

End Claims2.

Module NFS4Valid.
Import CInt Wire Py Stat NFS4 NFS4Spec WireFacts BitFacts NFS4Facts NFS4Loops.

Lemma scan_aces_spec (d : bytes) :
  NFS4_HDR_SZ <= blen d ->
  forall (n fuel : nat) (i : Z) (st : valid_scan),
    0 <= i -> i + Z.of_nat n = n_present d -> (n <= fuel)%nat ->
    match scan_aces fuel d (blen d) (word d 1) i st with
    | Raise e =>
        (exists msg, e = ValueError msg) /\
        existsb offending (present_from d i n) = true
    | Ok st' =>
        existsb offending (present_from d i n) = false /\
        has_propagate st' =
          has_propagate st || existsb has_propagation_bit (present_from d i n) /\
        has_inheritable st' =
          has_inheritable st || existsb is_inheritable (present_from d i n)
    end.
Proof.
  intros Hl. induction n as [|n IH]; intros fuel i st Hi Hn Hf.
  - cbn [present_from seq map existsb]. rewrite !orb_false_r.
    destruct fuel as [|fuel]; [cbn; auto|]. cbn [scan_aces].
    destruct (n_present_at d i Hl ltac:(lia)) as [-> | E]; [auto|].
    rewrite E. destruct (i <? word d 1); auto.
  - destruct fuel as [|fuel]; [lia|]. cbn [scan_aces].
    destruct (n_present_below d i Hl Hi ltac:(lia)) as [-> ->].
    rewrite present_from_S. cbn [existsb].
    rewrite has_inherit_only_bit, has_file_or_dir_bit, has_propagate_bits.
    unfold offending at 1 3, deny_on_special, inherit_only_alone,
      has_propagation_bit, is_inheritable, flag_inherit_only,
      flag_file_inherit, flag_dir_inherit, flag_no_propagate, xdr_ace_at.
    cbn [x_type x_flags x_iflag x_mask x_who].
    unfold NFS4_ACE_ACCESS_DENIED_ACE_TYPE, NFS4_IFLAG_SPECIAL.
    set (p := NFS4_HDR_WORDS + i * NFS4_ACE_WORDS).
    destruct ((word d p =? 1) && (word d (p + 2) =? 1)).
    + split; eauto.
    + cbn [orb].
      destruct (Z.testbit (word d (p + 1)) 3
                && negb (Z.testbit (word d (p + 1)) 0
                         || Z.testbit (word d (p + 1)) 1)).
      * split; eauto.
      * cbn [orb].
        specialize (IH fuel (i + 1)
          (mkScan
             (if Z.testbit (word d (p + 1)) 0 || Z.testbit (word d (p + 1)) 1
                 || Z.testbit (word d (p + 1)) 2
                 || Z.testbit (word d (p + 1)) 3
              then true else has_propagate st)
             (if Z.testbit (word d (p + 1)) 0 || Z.testbit (word d (p + 1)) 1
              then true else has_inheritable st))
          ltac:(lia) ltac:(lia) ltac:(lia)).
        destruct (scan_aces fuel d (blen d) (word d 1) (i + 1) _) as [st'|e].
        -- destruct IH as (H1 & H2 & H3). cbn [has_propagate has_inheritable] in *.
           split; [exact H1|]. rewrite H2, H3. split.
           ++ destruct (_ || _ || _ || _), (has_propagate st); reflexivity.
           ++ destruct (Z.testbit (word d (p + 1)) 0
                        || Z.testbit (word d (p + 1)) 1),
                (has_inheritable st); reflexivity.
        -- exact IH.
Qed.

End NFS4Valid.

Module Claims7.
Import CInt Wire Py Stat NFS4 NFS4Spec WireFacts BitFacts NFS4Facts NFS4Loops
  NFS4Valid.

Lemma existsb_offending l :
  existsb offending l = existsb deny_on_special l || existsb inherit_only_alone l.
Proof.
  induction l as [|a l IH]; [reflexivity|]. cbn [existsb]. rewrite IH.
  unfold offending.
  destruct (deny_on_special a), (inherit_only_alone a),
    (existsb deny_on_special l); reflexivity.
Qed.

(** C7 (as amended).  For a blob of at least the 8 header bytes and a
    target that is absent (counted as a directory) or whose [fstat]
    succeeds, [nfs4acl_valid] either accepts or raises [ValueError], and
    it raises [ValueError] exactly when, among the ACEs present in the
    blob, some ACE is a DENY with [iflag = 1], or some ACE has
    INHERIT_ONLY without FILE_INHERIT or DIRECTORY_INHERIT, or some ACE
    carries a propagation bit while the target is not a directory, or the
    target is a directory and no ACE has FILE_INHERIT or
    DIRECTORY_INHERIT. *)
Theorem nfs4acl_valid_rules
  (fstat : Z -> fstat_result) (fd : Z) (d : bytes) (is_dir : bool) :
  NFS4_HDR_SZ <= blen d ->
  target_is_dir fstat fd = Some is_dir ->
  (nfs4acl_valid fstat fd d = Ok tt \/
   exists msg, nfs4acl_valid fstat fd d = Raise (ValueError msg)) /\
  (is_ValueError (nfs4acl_valid fstat fd d) = true <->
   must_reject is_dir (aces_present d) = true).
Proof.
  intros Hl Ht. unfold nfs4acl_valid.
  replace (blen d <? NFS4_HDR_SZ) with false by (symmetry; now apply Z.ltb_ge).
  pose proof (n_present_range d) as (Hn0 & Hn1 & Hn2).
  pose proof (scan_aces_spec d Hl (Z.to_nat (n_present d)) (List.length d) 0
                (mkScan false false) ltac:(lia) ltac:(lia)
                ltac:(unfold blen in Hn1; lia)) as Hs.
  fold (aces_present d) in Hs. unfold must_reject.
  rewrite <- existsb_offending.
  destruct (scan_aces _ d (blen d) (word d 1) 0 _) as [st|e].
  - destruct Hs as (-> & Hp & Hi). cbn [has_propagate has_inheritable orb] in *.
    cbn [bind].
    assert (Hd : (if fd =? -1 then Ok true
                  else match fstat fd with
                       | StatErr e => Raise (OSErrorErrno e)
                       | StatOk st_mode => Ok (S_ISDIR st_mode)
                       end) = Ok is_dir).
    { unfold target_is_dir in Ht. destruct (fd =? -1).
      - now injection Ht as <-.
      - destruct (fstat fd); [now injection Ht as <- | discriminate]. }
    rewrite Hd. cbn [bind]. rewrite Hp, Hi.
    destruct (existsb has_propagation_bit (aces_present d)),
      (existsb is_inheritable (aces_present d)), is_dir; cbn;
      (split; [eauto | split; congruence]).
  - destruct Hs as ((msg & ->) & ->). cbn. split; [eauto | tauto].
Qed.

Lemma nfs4acl_valid_rules_witness :
  NFS4_HDR_SZ <= blen valid_example /\
  target_is_dir (fun _ => StatOk 16877) 5 = Some true /\
  ((nfs4acl_valid (fun _ => StatOk 16877) 5 valid_example = Ok tt \/
    exists msg, nfs4acl_valid (fun _ => StatOk 16877) 5 valid_example
                = Raise (ValueError msg)) /\
   (is_ValueError (nfs4acl_valid (fun _ => StatOk 16877) 5 valid_example) = true
    <-> must_reject true (aces_present valid_example) = true)).
Proof.
  assert (H1 : NFS4_HDR_SZ <= blen valid_example) by (vm_compute; discriminate).
  assert (H2 : target_is_dir (fun _ => StatOk 16877) 5 = Some true)
    by reflexivity.
  split; [exact H1 | split; [exact H2 |]].
  exact (nfs4acl_valid_rules (fun _ => StatOk 16877) 5 valid_example true H1 H2).
Defined.

(** C7, as stated, fails on the empty blob with an absent [fd]: the
    target counts as a directory and no ACE has FILE_INHERIT or
    DIRECTORY_INHERIT, yet the blob is accepted. *)
Lemma nfs4acl_valid_accepts_short_blob :
  ~ (is_ValueError (nfs4acl_valid (fun _ => StatErr 9) (-1) []) = true <->
     must_reject true (aces_present []) = true).
Proof.
  intros [_ H]. specialize (H eq_refl). discriminate H.
Qed.

End Claims7.

Module POSIXFacts.
Import CInt Wire Py Stat POSIX POSIXSpec WireFacts BitFacts.

(** ** The order *)

Ltac order_cases :=
  repeat match goal with
         | H : context [?a <? ?b] |- _ => destruct (Z.ltb_spec a b)
         | H : context [?a =? ?b] |- _ => destruct (Z.eqb_spec a b)
         | |- context [?a <? ?b] => destruct (Z.ltb_spec a b)
         | |- context [?a =? ?b] => destruct (Z.eqb_spec a b)
         end; cbn [andb orb negb] in *; try discriminate; try reflexivity;
  try lia.

Lemma key_ltb_irrefl a : key_ltb a a = false.
Proof. unfold key_ltb. order_cases. Qed.

Lemma key_ltb_trans a b c :
  key_ltb a b = true -> key_ltb b c = true -> key_ltb a c = true.
Proof. unfold key_ltb. intros H1 H2. order_cases. Qed.

Lemma key_ltb_negtrans a b c :
  key_ltb a b = false -> key_ltb b c = false -> key_ltb a c = false.
Proof. unfold key_ltb. intros H1 H2. order_cases. Qed.

Lemma posix_richcompare_lt a b :
  ace_in_range a -> ace_in_range b ->
  POSIXAce_richcompare a b Py_LT = Ok (key_ltb a b).
Proof.
  intros (Ha1 & _ & Ha3) (Hb1 & _ & Hb3).
  unfold POSIXAce_richcompare, PyLong_AsLong. rewrite Ha1, Ha3, Hb1, Hb3.
  unfold key_ltb, cmp_to_bool. f_equal. order_cases.
Qed.

Lemma sort_stable (l : list POSIXAce_t) :
  Forall ace_in_range l ->
  exists s,
    PyList_Sort (fun a b => POSIXAce_richcompare a b Py_LT) l = Ok s /\
    SortSpec.stable_sort_of key_ltb l s.
Proof.
  intros Hr.
  destruct (SortFacts.PyList_Sort_spec
              (fun a b => POSIXAce_richcompare a b Py_LT) key_ltb ace_in_range
              posix_richcompare_lt key_ltb_irrefl key_ltb_trans key_ltb_negtrans
              l Hr) as (s & Hs & Hp & Ha & Ht).
  exists s. split; [exact Hs|]. repeat split; assumption.
Qed.

(** ** The partition *)

Lemma split_aces_spec (l acc_a acc_d : list POSIXAce_t) :
  split_aces l acc_a acc_d = (acc_a ++ access_part l, acc_d ++ default_part l).
Proof.
  revert acc_a acc_d. induction l as [|a l IH]; intros acc_a acc_d.
  - cbn. now rewrite !app_nil_r.
  - cbn [split_aces access_part default_part filter].
    destruct (default_ a); cbn [negb]; rewrite IH;
      unfold access_part, default_part; now rewrite <- app_assoc.
Qed.

(** ** Encoding *)

Lemma encode_entry_length e : List.length (encode_entry e) = 8%nat.
Proof. reflexivity. Qed.

Lemma encode_posix_ace_ok a :
  ace_in_range a -> encode_posix_ace a = Ok (encode_entry (wire_of_ace a)).
Proof.
  intros (H1 & H2 & H3). unfold encode_posix_ace, PyLong_AsLong.
  now rewrite H1, H2, H3.
Qed.

Lemma encode_posix_aces_ok (s : list POSIXAce_t) :
  Forall ace_in_range s ->
  encode_posix_aces s
  = Ok (encode_entries POSIX_ACL_VERSION (map wire_of_ace s)).
Proof.
  intros Hr. unfold encode_posix_aces, encode_entries.
  assert (E : encode_posix_records s
              = Ok (flat_map encode_entry (map wire_of_ace s))).
  { induction Hr as [|a s Ha _ IH]; [reflexivity|].
    cbn [encode_posix_records]. rewrite (encode_posix_ace_ok a Ha).
    cbn [bind]. rewrite IH. reflexivity. }
  now rewrite E.
Qed.

(** ** Reading an encoded blob back *)

Lemma encode_entries_length v es :
  blen (encode_entries v es) = 4 + 8 * Z.of_nat (List.length es).
Proof.
  unfold blen, encode_entries. rewrite length_app, write_le32_length.
  rewrite (NFS4Facts.flat_map_length_const encode_entry 8)
    by apply encode_entry_length.
  lia.
Qed.

Lemma encode_entries_version v es post :
  read_le32 (encode_entries v es ++ post) 0 = u32 v.
Proof.
  unfold encode_entries. rewrite <- (read_write_le32 v).
  apply read_le32_slice. rewrite <- app_assoc.
  apply slice_app_l; [lia|]. unfold blen. rewrite write_le32_length. simpl. lia.
Qed.

Lemma entry_fields t p i :
  let c := write_le16 t ++ write_le16 p ++ write_le32 i in
  read_le16 c 0 = u16 t /\ read_le16 c 2 = u16 p /\ read_le32 c 4 = u32 i.
Proof.
  unfold write_le16, write_le32. cbn [app].
  repeat split; unfold read_le16, read_le32, slice;
    cbn [Z.to_nat Pos.to_nat Pos.iter_op Init.Nat.add skipn firstn];
    first [apply join16_split | apply join32_split].
Qed.

Lemma encode_entries_entry v es post (i : nat) (e : wire_entry) :
  nth_error es i = Some e ->
  entry_at (encode_entries v es ++ post) (Z.of_nat i) =
  mkEntry (u16 (e_tag e)) (u16 (e_perm e)) (u32 (e_id e)).
Proof.
  intros Hi.
  assert (Hs : forall k n, 0 <= k -> k + Z.of_nat n <= 8 ->
            slice (encode_entries v es ++ post)
                  (POSIX_HDR_SZ + Z.of_nat i * POSIX_ACE_SZ + k) n
            = slice (encode_entry e) k n).
  { intros k n Hk0 Hk. unfold encode_entries, POSIX_HDR_SZ, POSIX_ACE_SZ.
    rewrite <- app_assoc.
    replace (4 + Z.of_nat i * 8 + k)
      with (blen (write_le32 v) + (Z.of_nat 8 * Z.of_nat i + k))
      by (unfold blen; rewrite write_le32_length; lia).
    rewrite slice_app_r by lia.
    rewrite flat_map_concat_map.
    apply (slice_chunk 8).
    - apply NFS4Facts.flat_map_chunks. apply encode_entry_length.
    - now rewrite nth_error_map, Hi.
    - exact Hk0.
    - simpl. lia. }
  destruct (entry_fields (e_tag e) (e_perm e) (e_id e)) as (H0 & H1 & H2).
  unfold entry_at. f_equal.
  - rewrite <- H0. apply read_le16_slice. fold (encode_entry e).
    apply (Hs 0 2%nat); simpl; lia.
  - rewrite <- H1. apply read_le16_slice. fold (encode_entry e).
    apply (Hs 2 2%nat); simpl; lia.
  - rewrite <- H2. apply read_le32_slice. fold (encode_entry e).
    apply (Hs 4 4%nat); simpl; lia.
Qed.

Lemma is_u16_range v : is_u16 v = true -> 0 <= v < 65536.
Proof.
  unfold is_u16. intros H. apply andb_prop in H as [H1 H2].
  apply Z.leb_le in H1. apply Z.ltb_lt in H2. lia.
Qed.

Lemma entry_norm_id e :
  entry_in_range e ->
  mkEntry (u16 (e_tag e)) (u16 (e_perm e)) (u32 (e_id e)) = e.
Proof.
  intros (H1 & H2 & H3). apply is_u16_range in H1, H2.
  apply NFS4Facts.is_u32_range in H3.
  destruct e as [t p i]; cbn in *.
  now rewrite !u16_small, u32_small by lia.
Qed.

Lemma entries_encoded v es :
  Forall entry_in_range es -> entries (encode_entries v es) = es.
Proof.
  intros Hr. unfold entries, n_entries. rewrite encode_entries_length.
  unfold POSIX_HDR_SZ, POSIX_ACE_SZ.
  replace ((4 + 8 * Z.of_nat (List.length es) - 4) / 8)
    with (Z.of_nat (List.length es))
    by (replace (4 + 8 * Z.of_nat (List.length es) - 4)
          with (Z.of_nat (List.length es) * 8) by lia;
        now rewrite Z.div_mul).
  rewrite Nat2Z.id. unfold entries_from.
  apply nth_error_ext. intros i. rewrite nth_error_map.
  destruct (nth_error es i) as [e|] eqn:E.
  - assert (i < List.length es)%nat by (apply nth_error_Some; congruence).
    rewrite nth_error_seq.
    replace (i <? List.length es)%nat with true
      by (symmetry; now apply Nat.ltb_lt).
    cbv [option_map]. f_equal.
    replace (0 + Z.of_nat (0 + i)) with (Z.of_nat i) by lia.
    rewrite <- (app_nil_r (encode_entries v es)).
    rewrite (encode_entries_entry v es [] i e E).
    apply entry_norm_id. rewrite Forall_forall in Hr. apply Hr.
    eapply nth_error_In; eauto.
  - apply nth_error_None in E.
    rewrite (proj2 (nth_error_None _ _)); [reflexivity|].
    rewrite length_seq. lia.
Qed.

Lemma wire_of_ace_in_range a : entry_in_range (wire_of_ace a).
Proof.
  unfold wire_of_ace, entry_in_range. cbn [e_tag e_perm e_id].
  pose proof (u16_range (tag a)). pose proof (u16_range (perms a)).
  pose proof (u32_range (id a)).
  repeat split.
  - unfold is_u16. apply andb_true_intro. split;
      [apply Z.leb_le | apply Z.ltb_lt]; lia.
  - unfold is_u16. apply andb_true_intro. split;
      [apply Z.leb_le | apply Z.ltb_lt]; lia.
  - destruct (is_special_tag (tag a)); [reflexivity|].
    unfold is_u32, UINT32_MAX. apply andb_true_intro. split;
      apply Z.leb_le; lia.
Qed.

(** ** Decoding *)

Lemma entries_from_S d i n :
  entries_from d i (S n) = entry_at d i :: entries_from d (i + 1) n.
Proof.
  unfold entries_from. rewrite <- cons_seq, <- seq_shift. cbn [map].
  rewrite map_map. f_equal.
  - f_equal. lia.
  - apply map_ext. intros j. f_equal. lia.
Qed.

Lemma parse_posix_ace_entry d i is_default :
  parse_posix_ace d (POSIX_HDR_SZ + i * POSIX_ACE_SZ) is_default =
  if tag_known (entry_at d i)
  then Ok (ace_of_wire is_default (entry_at d i))
  else Raise SystemError.
Proof.
  unfold parse_posix_ace, entry_at, ace_of_wire, IntEnum_call, IntFlag_call,
    after, tag_known.
  cbn [e_tag e_perm e_id].
  destruct (existsb _ posix_tag_table); reflexivity.
Qed.

(** Decoding succeeds exactly on blobs whose tags are all enum members,
    and then maps each entry to its ACE. *)
Lemma parse_posix_records_spec d (n : nat) (i : Z) is_default :
  parse_posix_records d n i is_default =
  if tags_known (entries_from d i n)
  then Ok (map (ace_of_wire is_default) (entries_from d i n))
  else Raise SystemError.
Proof.
  revert i. induction n as [|n IH]; intros i.
  - reflexivity.
  - cbn [parse_posix_records]. rewrite parse_posix_ace_entry, entries_from_S.
    unfold tags_known. cbn [forallb map].
    destruct (tag_known (entry_at d i)); [|reflexivity].
    cbn [bind andb]. rewrite IH. unfold tags_known.
    destruct (forallb tag_known (entries_from d (i + 1) n)); reflexivity.
Qed.

Lemma parse_posix_aces_spec d is_default :
  POSIX_HDR_SZ <= blen d ->
  parse_posix_aces d is_default =
  if tags_known (entries d)
  then Ok (map (ace_of_wire is_default) (entries d))
  else Raise SystemError.
Proof.
  intros Hl. unfold parse_posix_aces, POSIX_HDR_SZ in *.
  replace (blen d =? 0) with false by (symmetry; apply Z.eqb_neq; lia).
  replace (blen d <? 4) with false by (symmetry; apply Z.ltb_ge; lia).
  apply parse_posix_records_spec.
Qed.

Lemma parse_posix_aces_encoded v es is_default :
  Forall entry_in_range es ->
  tags_known es = true ->
  parse_posix_aces (encode_entries v es) is_default
  = Ok (map (ace_of_wire is_default) es).
Proof.
  intros Hr Ht. rewrite parse_posix_aces_spec.
  - now rewrite (entries_encoded v es Hr), Ht.
  - rewrite encode_entries_length. unfold POSIX_HDR_SZ. lia.
Qed.

End POSIXFacts.

Module POSIXFromAces.
Import CInt Wire Py Stat POSIX POSIXSpec WireFacts BitFacts POSIXFacts.

Lemma Forall_perm {A} (P : A -> Prop) (l s : list A) :
  Permutation l s -> Forall P l -> Forall P s.
Proof.
  intros Hp Hf. apply Forall_forall. intros x Hx.
  rewrite Forall_forall in Hf. apply Hf.
  eapply Permutation_in; [symmetry; exact Hp | exact Hx].
Qed.

Lemma Forall_filter {A} (P : A -> Prop) (f : A -> bool) (l : list A) :
  Forall P l -> Forall P (filter f l).
Proof.
  intros Hf. apply Forall_forall. intros x Hx.
  apply filter_In in Hx as [Hx _]. rewrite Forall_forall in Hf. auto.
Qed.

Lemma from_aces_spec (l : list POSIXAce_t) :
  Forall ace_in_range l ->
  exists sa sd,
    SortSpec.stable_sort_of key_ltb (access_part l) sa /\
    SortSpec.stable_sort_of key_ltb (default_part l) sd /\
    POSIXACL_from_aces l =
    Ok (mkACL (blob_of sa)
              (match sd with [] => None | _ :: _ => Some (blob_of sd) end)).
Proof.
  intros Hr. unfold POSIXACL_from_aces.
  rewrite split_aces_spec. cbn [app].
  destruct (sort_stable (access_part l)) as (sa & Hsa & Hpa);
    [now apply Forall_filter|].
  destruct (sort_stable (default_part l)) as (sd & Hsd & Hpd);
    [now apply Forall_filter|].
  exists sa, sd. split; [exact Hpa|]. split; [exact Hpd|].
  rewrite Hsa, Hsd. cbn [bind].
  assert (Hra : Forall ace_in_range sa).
  { eapply Forall_perm; [apply Hpa | now apply Forall_filter]. }
  assert (Hrd : Forall ace_in_range sd).
  { eapply Forall_perm; [apply Hpd | now apply Forall_filter]. }
  rewrite (encode_posix_aces_ok sa Hra). cbn [bind].
  destruct sd as [|a sd]; [reflexivity|].
  assert (Hpos : (Z.of_nat (List.length (a :: sd)) >? 0) = true).
  { apply NFS4Loops.gtb_true. cbn [List.length]. lia. }
  rewrite Hpos.
  rewrite (encode_posix_aces_ok (a :: sd) Hrd). reflexivity.
Qed.

Lemma normal_in_range a : ace_normal a -> ace_in_range a.
Proof.
  intros (Ht & Hp & Hi). apply is_u16_range in Hp.
  assert (0 <= tag a <= 32)
    by (unfold posix_tag_table in Ht; cbn in Ht; lia).
  assert (-1 <= id a < POSIX_SPECIAL_ID)
    by (destruct (is_special_tag (tag a)); unfold POSIX_SPECIAL_ID in *; lia).
  unfold POSIX_SPECIAL_ID in *.
  unfold ace_in_range, is_long, LONG_MIN, LONG_MAX.
  repeat split; apply andb_true_intro; split; apply Z.leb_le; lia.
Qed.

Lemma normal_tag_known a : ace_normal a -> tag_known (wire_of_ace a) = true.
Proof.
  intros (Ht & _). unfold tag_known, wire_of_ace. cbn [e_tag].
  apply existsb_exists. exists (tag a). split; [exact Ht|].
  apply Z.eqb_eq. apply u16_small.
  unfold posix_tag_table in Ht. cbn in Ht. lia.
Qed.

(** A normal entry survives the trip over the wire. *)
Lemma normal_roundtrip a :
  ace_normal a -> ace_of_wire (default_ a) (wire_of_ace a) = a.
Proof.
  intros (Ht & Hp & Hi). apply is_u16_range in Hp.
  assert (Htr : 0 <= tag a < 65536)
    by (unfold posix_tag_table in Ht; cbn in Ht; lia).
  unfold ace_of_wire, wire_of_ace. cbn [e_tag e_perm e_id].
  rewrite !u16_small by lia.
  destruct a as [t p i df]; cbn [tag perms id default_] in *. f_equal.
  unfold POSIX_SPECIAL_ID in *.
  destruct (is_special_tag t).
  - now subst i.
  - destruct (Z.eq_dec i (-1)) as [->|Hn]; [reflexivity|].
    rewrite u32_small by lia.
    replace (i =? 4294967295) with false by (symmetry; apply Z.eqb_neq; lia).
    reflexivity.
Qed.

Lemma decode_blob_of (s : list POSIXAce_t) (df : bool) :
  Forall ace_normal s -> Forall (fun a => default_ a = df) s ->
  parse_posix_aces (blob_of s) df = Ok s.
Proof.
  intros Hn Hd. unfold blob_of. rewrite parse_posix_aces_encoded.
  - f_equal. rewrite map_map.
    rewrite <- (map_id s) at 2. apply map_ext_in. intros a Ha.
    rewrite Forall_forall in Hn, Hd.
    rewrite <- (Hd a Ha). apply normal_roundtrip. auto.
  - apply Forall_forall. intros e He.
    apply in_map_iff in He as (a & <- & _). apply wire_of_ace_in_range.
  - unfold tags_known. apply forallb_forall. intros e He.
    apply in_map_iff in He as (a & <- & Ha).
    rewrite Forall_forall in Hn. apply normal_tag_known. auto.
Qed.

(** The sort returns a rearrangement of its input, whatever the
    comparison does. *)
Lemma insert_perm {A} (lt : A -> A -> result bool) (x : A) :
  forall l r, insert lt x l = Ok r -> Permutation (x :: l) r.
Proof.
  induction l as [|y l IH]; intros r H; cbn [insert] in H.
  - injection H as <-. apply Permutation_refl.
  - destruct (lt x y) as [[|]|e]; cbn [bind] in H; try discriminate H.
    + injection H as <-. apply Permutation_refl.
    + destruct (insert lt x l) as [r'|e] eqn:E; cbn [bind] in H;
        [|discriminate H].
      injection H as <-. rewrite perm_swap. apply perm_skip. now apply IH.
Qed.

Lemma sort_from_perm {A} (lt : A -> A -> result bool) :
  forall l acc r, sort_from lt acc l = Ok r -> Permutation (acc ++ l) r.
Proof.
  induction l as [|x l IH]; intros acc r H; cbn [sort_from] in H.
  - injection H as <-. now rewrite app_nil_r.
  - destruct (insert lt x acc) as [acc'|e] eqn:E; cbn [bind] in H;
      [|discriminate H].
    apply insert_perm in E. apply IH in H.
    rewrite <- H. rewrite <- E.
    apply Permutation_sym, Permutation_middle.
Qed.

Lemma PyList_Sort_perm {A} (lt : A -> A -> result bool) (l r : list A) :
  PyList_Sort lt l = Ok r -> Permutation l r.
Proof. intros H. now apply (sort_from_perm lt l []). Qed.

(** Only entries whose fields fit a C [long] are encoded. *)
Lemma encode_posix_ace_in_range (a : POSIXAce_t) (b : bytes) :
  encode_posix_ace a = Ok b -> ace_in_range a.
Proof.
  unfold encode_posix_ace, PyLong_AsLong, ace_in_range.
  destruct (is_long (tag a)), (is_long (perms a)), (is_long (id a));
    intros H; try discriminate H; auto.
Qed.

Lemma encode_posix_aces_in_range (s : list POSIXAce_t) (b : bytes) :
  encode_posix_aces s = Ok b -> Forall ace_in_range s.
Proof.
  unfold encode_posix_aces.
  destruct (encode_posix_records s) as [recs|e] eqn:E; cbn [bind];
    [intros _|discriminate].
  revert recs E. induction s as [|a s IH]; intros recs E; [constructor|].
  cbn [encode_posix_records] in E.
  destruct (encode_posix_ace a) as [rec|e] eqn:Ea; cbn [bind] in E;
    [|discriminate E].
  destruct (encode_posix_records s) as [tl|e] eqn:Es; cbn [bind] in E;
    [|discriminate E].
  constructor; [now apply (encode_posix_ace_in_range a rec)|].
  now apply (IH tl).
Qed.

Lemma parts_in_range (l : list POSIXAce_t) :
  Forall ace_in_range (access_part l) ->
  Forall ace_in_range (default_part l) ->
  Forall ace_in_range l.
Proof.
  unfold access_part, default_part. rewrite !Forall_forall.
  intros Ha Hd a Hin. destruct (default_ a) eqn:E.
  - apply Hd. apply filter_In. auto.
  - apply Ha. apply filter_In. rewrite E. auto.
Qed.

(** [from_aces] returns an ACL only for entries whose fields fit. *)
Lemma from_aces_in_range (l : list POSIXAce_t) (acl : POSIXACL_t) :
  POSIXACL_from_aces l = Ok acl -> Forall ace_in_range l.
Proof.
  unfold POSIXACL_from_aces. rewrite split_aces_spec. cbn [app].
  destruct (PyList_Sort _ (access_part l)) as [sa|e] eqn:Ea; cbn [bind];
    [|discriminate].
  destruct (PyList_Sort _ (default_part l)) as [sd|e] eqn:Ed; cbn [bind];
    [|discriminate].
  destruct (encode_posix_aces sa) as [ba|e] eqn:Eb; cbn [bind];
    [|discriminate].
  apply PyList_Sort_perm in Ea. apply PyList_Sort_perm in Ed.
  apply encode_posix_aces_in_range in Eb.
  intros H. apply parts_in_range.
  - eapply Forall_perm; [apply Permutation_sym; exact Ea|exact Eb].
  - destruct sd as [|a sd].
    + apply Permutation_sym, Permutation_nil in Ed. rewrite Ed. constructor.
    + assert (Hpos : (Z.of_nat (List.length (a :: sd)) >? 0) = true).
      { apply NFS4Loops.gtb_true. cbn [List.length]. lia. }
      rewrite Hpos in H.
      destruct (encode_posix_aces (a :: sd)) as [bd|e] eqn:Ebd;
        cbn [bind] in H; [|discriminate H].
      apply encode_posix_aces_in_range in Ebd.
      eapply Forall_perm; [apply Permutation_sym; exact Ed|exact Ebd].
Qed.

End POSIXFromAces.

Module Claims3.
Import CInt Wire Py Stat POSIX POSIXSpec WireFacts BitFacts POSIXFacts
  POSIXFromAces.

(** C3 (as amended).  [POSIXACL.from_aces] returns an ACL exactly when
    the tag, permissions and id of every entry fit a C long.  The ACL it
    returns is this: the entries are partitioned by their default flag,
    the access list and the default list are sorted separately and stably
    by (tag, id) ascending, and each list is encoded as a little-endian
    blob: the 4-byte version word 2 followed by one 8-byte
    (tag:u16, perm:u16, id:u32) record per entry, the default blob being
    absent when there is no default entry; the blobs are a function of
    the input.  When the entries satisfy the data-model invariant (an
    enum tag, 16-bit permissions, id -1 on USER_OBJ, GROUP_OBJ, MASK and
    OTHER, and a uid/gid or -1 on USER and GROUP) decoding the blobs
    yields the same entries back in that order.  For the input
    [(OTHER, 0, -1, false), (USER_OBJ, R|W, -1, false),
     (GROUP_OBJ, R, -1, false)] the access bytes decode to
    [USER_OBJ(R|W), GROUP_OBJ(R), OTHER(0)] and the default bytes are
    absent. *)
Theorem posix_from_aces_canonical (l : list POSIXAce_t) :
  ((exists acl, POSIXACL_from_aces l = Ok acl) <-> Forall ace_in_range l) /\
  (forall acl,
      POSIXACL_from_aces l = Ok acl ->
      exists sa sd,
        SortSpec.stable_sort_of key_ltb (access_part l) sa /\
        SortSpec.stable_sort_of key_ltb (default_part l) sd /\
        read_le32 (access_data acl) 0 = POSIX_ACL_VERSION /\
        blen (access_data acl) = 4 + 8 * Z.of_nat (List.length sa) /\
        entries (access_data acl) = map wire_of_ace sa /\
        match default_data acl with
        | None => sd = []
        | Some dd =>
            sd <> [] /\
            read_le32 dd 0 = POSIX_ACL_VERSION /\
            blen dd = 4 + 8 * Z.of_nat (List.length sd) /\
            entries dd = map wire_of_ace sd
        end /\
        (Forall ace_normal l ->
         POSIXACL_get_aces acl = Ok sa /\
         POSIXACL_get_default_aces acl = Ok sd)) /\
  (bind (POSIXACL_from_aces scenario_input) POSIXACL_get_aces
   = Ok scenario_output /\
   bind (POSIXACL_from_aces scenario_input)
        (fun acl => Ok (POSIXACL_default_bytes acl)) = Ok None).
Proof.
  split; [|split; [|split; vm_compute; reflexivity]].
  { split.
    - intros [acl H]. exact (from_aces_in_range l acl H).
    - intros Hr. destruct (from_aces_spec l Hr) as (sa & sd & _ & _ & Hf).
      eauto. }
  intros acl Hacl.
  pose proof (from_aces_in_range l acl Hacl) as Hr.
  destruct (from_aces_spec l Hr) as (sa & sd & Hsa & Hsd & Hf).
  rewrite Hf in Hacl. injection Hacl as <-.
  assert (Hblob : forall s,
             read_le32 (blob_of s) 0 = POSIX_ACL_VERSION /\
             blen (blob_of s) = 4 + 8 * Z.of_nat (List.length s) /\
             entries (blob_of s) = map wire_of_ace s).
  { intros s. unfold blob_of. split; [|split].
    - pose proof (encode_entries_version POSIX_ACL_VERSION
                    (map wire_of_ace s) []) as Hv.
      rewrite app_nil_r in Hv. exact Hv.
    - rewrite encode_entries_length, length_map. reflexivity.
    - apply entries_encoded. apply Forall_forall. intros e He.
      apply in_map_iff in He as (a & <- & _). apply wire_of_ace_in_range. }
  assert (Hda : Forall (fun a => default_ a = false) sa).
  { eapply Forall_perm; [apply Hsa|]. apply Forall_forall. intros a Ha.
    apply filter_In in Ha as [_ Ha]. now apply negb_true_iff in Ha. }
  assert (Hdd : Forall (fun a => default_ a = true) sd).
  { eapply Forall_perm; [apply Hsd|]. apply Forall_forall. intros a Ha.
    now apply filter_In in Ha as [_ Ha]. }
  exists sa, sd. cbn [access_data default_data].
  destruct (Hblob sa) as (Ha1 & Ha2 & Ha3).
  repeat (split; [assumption|]).
  split.
  - destruct sd as [|a sd]; [reflexivity|].
    destruct (Hblob (a :: sd)) as (Hd1 & Hd2 & Hd3).
    repeat split; try assumption. discriminate.
  - intros Hn.
    assert (Hna : Forall ace_normal sa).
    { eapply Forall_perm; [apply Hsa | now apply Forall_filter]. }
    assert (Hnd : Forall ace_normal sd).
    { eapply Forall_perm; [apply Hsd | now apply Forall_filter]. }
    split.
    + unfold POSIXACL_get_aces. cbn [access_data]. now apply decode_blob_of.
    + unfold POSIXACL_get_default_aces. cbn [default_data].
      destruct sd as [|a sd]; [reflexivity|]. now apply decode_blob_of.
Qed.

Lemma posix_from_aces_canonical_witness :
  Forall ace_in_range scenario_input /\
  Forall ace_normal scenario_input /\
  exists acl sa,
    POSIXACL_from_aces scenario_input = Ok acl /\
    SortSpec.stable_sort_of key_ltb (access_part scenario_input) sa /\
    entries (access_data acl) = map wire_of_ace sa /\
    default_data acl = None /\
    POSIXACL_get_aces acl = Ok sa.
Proof.
  assert (H : Forall ace_normal scenario_input).
  { repeat constructor; cbn; auto 10; lia. }
  assert (Hr : Forall ace_in_range scenario_input)
    by (repeat constructor).
  split; [exact Hr | split; [exact H|]].
  destruct (posix_from_aces_canonical scenario_input) as (Hex & Hall & _).
  destruct (proj2 Hex Hr) as [acl Hf].
  destruct (Hall acl Hf)
    as (sa & sd & Hsa & Hsd & _ & _ & He & Hd & Hround).
  exists acl, sa. split; [exact Hf|]. split; [exact Hsa|].
  split; [exact He|]. split; [|exact (proj1 (Hround H))].
  destruct (default_data acl) as [dd|]; [|reflexivity].
  destruct Hd as [Hne _]. exfalso. apply Hne.
  destruct Hsd as [Hp _]. cbn in Hp. apply Permutation_nil in Hp. exact Hp.
Defined.

(** C3, as stated, fails on a USER_OBJ entry that carries an id: the
    entry decoded from the access bytes is not the entry supplied. *)
Lemma posix_roundtrip_loses_special_id :
  bind (POSIXACL_from_aces [mkAce POSIX_TAG_USER_OBJ POSIX_PERM_READ 5 false])
       POSIXACL_get_aces
  <> Ok [mkAce POSIX_TAG_USER_OBJ POSIX_PERM_READ 5 false].
Proof. vm_compute. discriminate. Qed.

End Claims3.

Module Claims10.
Import CInt Wire Py Stat POSIX POSIXSpec WireFacts BitFacts POSIXFacts
  POSIXFromAces.

Lemma Forall2_map_r {A B} (R : A -> B -> Prop) (f : A -> B) (l : list A) :
  (forall a, In a l -> R a (f a)) -> Forall2 R l (map f l).
Proof.
  induction l as [|a l IH]; intros H; constructor.
  - apply H. now left.
  - apply IH. intros b Hb. apply H. now right.
Qed.

Lemma parse_entries_special d is_default aces' :
  parse_posix_aces d is_default = Ok aces' ->
  Forall2 (fun e a' => e_id e = POSIX_SPECIAL_ID -> id a' = -1)
    (entries d) aces'.
Proof.
  intros H. destruct (Z.ltb_spec (blen d) POSIX_HDR_SZ) as [Hs|Hl].
  - unfold parse_posix_aces in H.
    replace (blen d <? POSIX_HDR_SZ) with true in H
      by (symmetry; now apply Z.ltb_lt).
    destruct (blen d =? 0) eqn:E; [|discriminate].
    injection H as <-. apply Z.eqb_eq in E.
    unfold entries, n_entries. rewrite E. constructor.
  - rewrite (parse_posix_aces_spec d is_default Hl) in H.
    destruct (tags_known (entries d)); [|discriminate].
    injection H as <-. apply Forall2_map_r. intros e _ He.
    unfold ace_of_wire. cbn [id]. rewrite He.
    now rewrite Z.eqb_refl.
Qed.

Lemma listed_is_special (t : Z) :
  In t listed_special_tags <-> is_special_tag t = true.
Proof.
  unfold listed_special_tags, is_special_tag. cbn [In]. split.
  - intros [<-|[<-|[<-|[<-|[]]]]]; reflexivity.
  - intros H. apply orb_prop in H as [H|H]; [|apply Z.eqb_eq in H; auto].
    apply orb_prop in H as [H|H]; [|apply Z.eqb_eq in H; auto].
    apply orb_prop in H as [H|H]; apply Z.eqb_eq in H; auto.
Qed.

Lemma blob_special_ids (s : list POSIXAce_t) :
  Forall2 on_wire s (entries (blob_of s)).
Proof.
  unfold blob_of. rewrite entries_encoded.
  - apply Forall2_map_r. intros a _. unfold on_wire, wire_of_ace.
    cbn [e_tag e_id].
    split; [reflexivity|]. split.
    + intros H. apply listed_is_special in H. now rewrite H.
    + intros H. destruct (is_special_tag (tag a)) eqn:E; [|reflexivity].
      exfalso. apply H. now apply listed_is_special.
  - apply Forall_forall. intros e He.
    apply in_map_iff in He as (a & <- & _). apply wire_of_ace_in_range.
Qed.

Lemma blob_decoded_ids (s : list POSIXAce_t) (df : bool) aces' :
  parse_posix_aces (blob_of s) df = Ok aces' ->
  Forall2 (fun a a' => In (tag a) listed_special_tags -> id a' = -1) s aces'.
Proof.
  intros H. apply parse_entries_special in H.
  pose proof (blob_special_ids s) as Hw.
  revert aces' H. induction Hw as [|a e s es (_ & Hae & _) _ IH];
    intros aces' H.
  - inversion H. constructor.
  - inversion H as [|? a' ? rest Hea Hrest]; subst. constructor; auto.
Qed.

(** C10.  For entries whose fields fit the C conversions, [from_aces]
    succeeds, and for every entry whose tag is USER_OBJ, GROUP_OBJ, MASK
    or OTHER the id written to the wire is 0xFFFFFFFF whatever id the
    entry carries (an entry of another tag keeps its own id, modulo
    2^32); decoding maps a wire id of 0xFFFFFFFF to -1; hence the entry
    read back for such an entry has id -1, and an id supplied on it does
    not survive the round trip.  So it is for one entry of each of the
    four tags with the ids 5, 6, 7 and 8: all four wire ids are
    0xFFFFFFFF and all four entries read back have id -1. *)
Theorem special_tag_id_discarded (l : list POSIXAce_t) :
  Forall ace_in_range l ->
  (exists acl sa sd,
      POSIXACL_from_aces l = Ok acl /\
      Permutation (access_part l) sa /\
      Permutation (default_part l) sd /\
      Forall2
        (fun a e =>
           e_tag e = u16 (tag a) /\
           (In (tag a) listed_special_tags -> e_id e = POSIX_SPECIAL_ID) /\
           (~ In (tag a) listed_special_tags -> e_id e = u32 (id a)))
        sa (entries (access_data acl)) /\
      (forall dd, default_data acl = Some dd ->
         Forall2
           (fun a e =>
              e_tag e = u16 (tag a) /\
              (In (tag a) listed_special_tags -> e_id e = POSIX_SPECIAL_ID) /\
              (~ In (tag a) listed_special_tags -> e_id e = u32 (id a)))
           sd (entries dd)) /\
      (forall aces', POSIXACL_get_aces acl = Ok aces' ->
         Forall2 (fun a a' => In (tag a) listed_special_tags -> id a' = -1)
           sa aces') /\
      (forall dd aces', default_data acl = Some dd ->
         POSIXACL_get_default_aces acl = Ok aces' ->
         Forall2 (fun a a' => In (tag a) listed_special_tags -> id a' = -1)
           sd aces')) /\
  (forall d is_default aces',
      parse_posix_aces d is_default = Ok aces' ->
      Forall2 (fun e a' => e_id e = POSIX_SPECIAL_ID -> id a' = -1)
        (entries d) aces') /\
  bind (POSIXACL_from_aces specials_with_ids)
       (fun acl => Ok (map e_id (entries (access_data acl))))
  = Ok [POSIX_SPECIAL_ID; POSIX_SPECIAL_ID; POSIX_SPECIAL_ID;
        POSIX_SPECIAL_ID] /\
  bind (POSIXACL_from_aces specials_with_ids) POSIXACL_get_aces
  = Ok specials_read_back /\
  bind (POSIXACL_from_aces mask_with_id)
       POSIXACL_get_aces
  = Ok [mkAce POSIX_TAG_MASK POSIX_PERM_READ (-1) false].
Proof.
  intros Hr. split; [|split; [apply parse_entries_special |
                               repeat split; vm_compute; reflexivity]].
  destruct (from_aces_spec l Hr) as (sa & sd & Hsa & Hsd & Hf).
  eexists _, sa, sd. split; [exact Hf|]. cbn [access_data default_data].
  split; [apply Hsa|]. split; [apply Hsd|].
  split; [apply blob_special_ids|]. split; [|split].
  - intros dd Hdd. destruct sd as [|a sd]; [discriminate|].
    injection Hdd as <-. apply blob_special_ids.
  - unfold POSIXACL_get_aces. cbn [access_data]. intros aces'.
    apply blob_decoded_ids.
  - unfold POSIXACL_get_default_aces. cbn [default_data]. intros dd aces' Hdd.
    destruct sd as [|a sd]; [discriminate|]. apply blob_decoded_ids.
Qed.

Lemma special_tag_id_discarded_witness :
  Forall ace_in_range specials_with_ids /\
  bind (POSIXACL_from_aces specials_with_ids)
       (fun acl => Ok (map e_id (entries (access_data acl))))
  = Ok [POSIX_SPECIAL_ID; POSIX_SPECIAL_ID; POSIX_SPECIAL_ID;
        POSIX_SPECIAL_ID] /\
  bind (POSIXACL_from_aces specials_with_ids) POSIXACL_get_aces
  = Ok specials_read_back.
Proof.
  assert (H : Forall ace_in_range specials_with_ids)
    by (repeat constructor).
  split; [exact H|].
  pose proof (special_tag_id_discarded specials_with_ids H) as T.
  exact (conj (proj1 (proj2 (proj2 T)))
              (proj1 (proj2 (proj2 (proj2 T))))).
Defined.

End Claims10.

Module POSIXValid.
Import CInt Wire Py Stat POSIX POSIXSpec WireFacts BitFacts POSIXFacts.

Lemma count_tag_cons t e es :
  count_tag t (e :: es) = (if e_tag e =? t then 1 else 0) + count_tag t es.
Proof.
  unfold count_tag. cbn [filter].
  destruct (e_tag e =? t); cbn [List.length]; lia.
Qed.

Lemma count_named_cons e es :
  count_named (e :: es) = (if is_named e then 1 else 0) + count_named es.
Proof.
  unfold count_named. cbn [filter].
  destruct (is_named e); cbn [List.length]; lia.
Qed.

Lemma s32_small (v : Z) : 0 <= v <= INT_MAX -> s32 v = v.
Proof.
  unfold s32, INT_MAX. intros H.
  rewrite Z.mod_small by lia. lia.
Qed.

Lemma count_tags_spec (d : bytes) (label : string) :
  forall (n : nat) (i : Z) (c : tag_counts),
    fits c n ->
    match count_tags d n i label c with
    | Ok c' =>
        let es := entries_from d i n in
        n_user_obj c' = n_user_obj c + count_tag POSIX_TAG_USER_OBJ es /\
        n_group_obj c' = n_group_obj c + count_tag POSIX_TAG_GROUP_OBJ es /\
        n_other c' = n_other c + count_tag POSIX_TAG_OTHER es /\
        n_mask c' = n_mask c + count_tag POSIX_TAG_MASK es /\
        n_named c' = n_named c + count_named es /\
        Forall (fun e => is_named e = true -> e_id e <> POSIX_SPECIAL_ID) es
    | Raise e => exists msg, e = ValueError msg
    end.
Proof.
  induction n as [|n IH]; intros i c Hc.
  - cbn. repeat split; try lia. constructor.
  - cbn [count_tags]. rewrite entries_from_S.
    set (e := entry_at d i).
    change (read_le16 d (POSIX_HDR_SZ + i * POSIX_ACE_SZ + 0)) with (e_tag e).
    change (read_le32 d (POSIX_HDR_SZ + i * POSIX_ACE_SZ + 4)) with (e_id e).
    set (es := entries_from d (i + 1) n).
    cbv zeta.
    rewrite !count_tag_cons, count_named_cons. unfold is_named at 1.
    unfold fits in Hc. rewrite Nat2Z.inj_succ in Hc.
    destruct Hc as (U0 & U1 & G0 & G1 & O0 & O1 & M0 & M1 & N0 & N1).
    rewrite (s32_small (n_user_obj c + 1)) by lia.
    rewrite (s32_small (n_group_obj c + 1)) by lia.
    rewrite (s32_small (n_other c + 1)) by lia.
    rewrite (s32_small (n_mask c + 1)) by lia.
    rewrite (s32_small (n_named c + 1)) by lia.
    unfold POSIX_TAG_USER_OBJ, POSIX_TAG_USER, POSIX_TAG_GROUP_OBJ,
      POSIX_TAG_GROUP, POSIX_TAG_MASK, POSIX_TAG_OTHER in *.
    destruct (Z.eqb_spec (e_tag e) 1) as [E1|E1];
      [|destruct (Z.eqb_spec (e_tag e) 2) as [E2|E2];
        [|destruct (Z.eqb_spec (e_tag e) 4) as [E4|E4];
          [|destruct (Z.eqb_spec (e_tag e) 8) as [E8|E8];
            [|destruct (Z.eqb_spec (e_tag e) 16) as [E16|E16];
              [|destruct (Z.eqb_spec (e_tag e) 32) as [E32|E32]]]]]];
      try (destruct (Z.eqb_spec (e_tag e) 2); try lia);
      try (destruct (Z.eqb_spec (e_tag e) 4); try lia);
      try (destruct (Z.eqb_spec (e_tag e) 8); try lia);
      try (destruct (Z.eqb_spec (e_tag e) 16); try lia);
      try (destruct (Z.eqb_spec (e_tag e) 32); try lia);
      cbn [orb];
      try (destruct (Z.eqb_spec (e_id e) POSIX_SPECIAL_ID) as [Ei|Ei];
           [eauto|]);
      try solve [eauto];
      match goal with
      | |- context [count_tags d n (i + 1) label ?c'] =>
          specialize (IH (i + 1) c');
          destruct (count_tags d n (i + 1) label c') as [c2|x];
          [|apply IH; unfold fits; cbn [n_user_obj n_group_obj n_other
                                          n_mask n_named]; lia];
          destruct IH as (H1 & H2 & H3 & H4 & H5 & H6);
          [unfold fits; cbn [n_user_obj n_group_obj n_other n_mask n_named];
           lia|];
          cbn [n_user_obj n_group_obj n_other n_mask n_named] in *;
          fold es in H1, H2, H3, H4, H5, H6;
          repeat split; try lia;
          constructor; [|exact H6];
          unfold is_named, POSIX_TAG_USER, POSIX_TAG_GROUP; intros Hn;
          try exact Ei;
          (destruct (Z.eqb_spec (e_tag e) 2);
           destruct (Z.eqb_spec (e_tag e) 8); try lia; discriminate Hn)
      end.
Qed.

Lemma existsb_named_count es :
  existsb is_named es = true -> count_named es > 0.
Proof.
  induction es as [|e es IH]; [discriminate|].
  rewrite count_named_cons. cbn [existsb]. unfold count_named in *.
  destruct (is_named e); cbn [orb]; intros H; [lia|].
  specialize (IH H). lia.
Qed.

(** An accepted blob conforms. *)
Lemma validate_posix_blob_conforms (d : bytes) (label : string) :
  n_entries d <= INT_MAX ->
  validate_posix_blob d label = Ok tt ->
  blob_conforms d /\ POSIX_HDR_SZ <= blen d /\
  read_le32 d 0 = POSIX_ACL_VERSION.
Proof.
  unfold validate_posix_blob. intros Hfit H.
  destruct (Z.ltb_spec (blen d) POSIX_HDR_SZ) as [|Hl]; [discriminate|].
  destruct (Z.eqb_spec (read_le32 d 0) POSIX_ACL_VERSION) as [Hv|];
    [|discriminate].
  cbn [negb] in H. split; [|split; assumption].
  pose proof (count_tags_spec d label
                (Z.to_nat ((blen d - POSIX_HDR_SZ) / POSIX_ACE_SZ)) 0
                (mkCounts 0 0 0 0 0)) as Hs.
  assert (Hf : fits (mkCounts 0 0 0 0 0)
                 (Z.to_nat ((blen d - POSIX_HDR_SZ) / POSIX_ACE_SZ))).
  { unfold fits, n_entries in *. cbn [n_user_obj n_group_obj n_other n_mask
                                        n_named].
    assert (0 <= (blen d - POSIX_HDR_SZ) / POSIX_ACE_SZ).
    { apply Z.div_pos; unfold POSIX_HDR_SZ, POSIX_ACE_SZ in *; lia. }
    rewrite Z2Nat.id by assumption. unfold INT_MAX in *. lia. }
  specialize (Hs Hf). clear Hf.
  destruct (count_tags d _ 0 label _) as [c|e]; [|discriminate].
  cbn [bind] in H. cbv zeta in Hs.
  fold (n_entries d) in Hs. fold (entries d) in Hs.
  destruct Hs as (H1 & H2 & H3 & H4 & H5 & H6).
  cbn [n_user_obj n_group_obj n_other n_mask n_named] in *.
  destruct (Z.eqb_spec (n_user_obj c) 1) as [U|]; [|discriminate].
  destruct (Z.eqb_spec (n_group_obj c) 1) as [G|]; [|discriminate].
  destruct (Z.eqb_spec (n_other c) 1) as [O|]; [|discriminate].
  cbn [negb] in H.
  destruct ((n_named c >? 0) && negb (n_mask c =? 1)) eqn:EM; [discriminate|].
  destruct (n_mask c >? 1) eqn:EM1; [discriminate|].
  rewrite Z.gtb_ltb in EM1. apply Z.ltb_ge in EM1.
  unfold blob_conforms. cbv zeta.
  repeat split; try lia; try assumption.
  intros Hn. apply existsb_named_count in Hn.
  apply andb_false_iff in EM as [EM|EM].
  - rewrite Z.gtb_ltb in EM. apply Z.ltb_ge in EM. lia.
  - apply negb_false_iff, Z.eqb_eq in EM. lia.
Qed.

End POSIXValid.

Module Claims8.
Import CInt Wire Py Stat POSIX POSIXSpec WireFacts BitFacts POSIXFacts
  POSIXValid.

(** C8.  For blobs whose number of records fits an [int], when
    [posixacl_valid] accepts, the access blob holds exactly one
    USER_OBJ, exactly one GROUP_OBJ and exactly one OTHER entry, every
    USER or GROUP entry has an id other than the special id, exactly one
    MASK entry is present when a USER or GROUP entry is, and there is at
    most one MASK entry; and when a default blob was supplied, the target
    [fd] is a directory and the default blob satisfies the same
    conditions. *)
Theorem posixacl_valid_conforms
  (fstat : Z -> fstat_result) (fd : Z) (access : bytes)
  (default : option bytes) :
  n_entries access <= INT_MAX ->
  (forall dd, default = Some dd -> n_entries dd <= INT_MAX) ->
  posixacl_valid fstat fd access default = Ok tt ->
  blob_conforms access /\
  match default with
  | None => True
  | Some dd =>
      (exists st_mode, fstat fd = StatOk st_mode /\ S_ISDIR st_mode = true) /\
      blob_conforms dd
  end.
Proof.
  unfold posixacl_valid. intros Ha Hd H.
  destruct (validate_posix_blob access "access") as [[]|e] eqn:Ea;
    [|discriminate].
  cbn [bind] in H. split.
  - now apply (validate_posix_blob_conforms access "access" Ha).
  - destruct default as [dd|]; [|exact I].
    destruct (fstat fd) as [m|e]; [|discriminate].
    destruct (S_ISDIR m) eqn:Em; [|discriminate]. cbn [negb] in H. split.
    + exists m. auto.
    + now apply (validate_posix_blob_conforms dd "default" (Hd dd eq_refl)).
Qed.

Lemma posixacl_valid_conforms_witness :
  n_entries access_example <= INT_MAX /\
  (forall dd, Some default_example = Some dd -> n_entries dd <= INT_MAX) /\
  posixacl_valid (fun _ => StatOk 16877) 3 access_example
    (Some default_example) = Ok tt /\
  (blob_conforms access_example /\
   ((exists st_mode, (fun _ : Z => StatOk 16877) 3 = StatOk st_mode /\
                     S_ISDIR st_mode = true) /\
    blob_conforms default_example)).
Proof.
  assert (H1 : n_entries access_example <= INT_MAX)
    by (vm_compute; discriminate).
  assert (H2 : forall dd, Some default_example = Some dd ->
                          n_entries dd <= INT_MAX).
  { intros dd E. injection E as <-. vm_compute. discriminate. }
  assert (H3 : posixacl_valid (fun _ => StatOk 16877) 3 access_example
                 (Some default_example) = Ok tt)
    by (vm_compute; reflexivity).
  split; [exact H1 | split; [exact H2 | split; [exact H3|]]].
  exact (posixacl_valid_conforms (fun _ => StatOk 16877) 3 access_example
           (Some default_example) H1 H2 H3).
Defined.

End Claims8.

Module KernelFacts.
Import CInt Wire Py Kernel KernelSpec.

Lemma pair_ind {A} (P : list A -> Prop) :
  P [] -> (forall a, P [a]) ->
  (forall a b l, P l -> P (a :: b :: l)) ->
  forall l, P l.
Proof.
  intros H0 H1 H2 l.
  enough (P l /\ forall a, P (a :: l)) by tauto.
  induction l as [|x l [IH1 IH2]]; split; auto.
Qed.

(** The loop on a script that starts with interrupted attempts and then
    the settling reply: it returns that reply with no pending signal. *)
Lemma retry_loop_settles (c : call) (failed : reply -> bool) (r : reply)
  (rest : list reply) :
  settles failed r = true ->
  forall (pre : list reply) (fuel : nat) (tr : list call),
    restarts failed pre = true ->
    (List.length pre < fuel)%nat ->
    retry_loop fuel c failed (mkWorld (pre ++ r :: rest) tr) =
    (Done (r, 0), mkWorld rest (tr ++ retry_calls c pre)).
Proof.
  intros Hr pre. induction pre as [| a | a b l IH] using pair_ind;
    intros fuel tr Hpre Hfuel.
  - destruct fuel as [|fuel]; [cbn in Hfuel; lia|].
    cbn [retry_loop app]. unfold mbind, sys. cbn [script trace].
    unfold settles in Hr. apply negb_true_iff in Hr. rewrite Hr.
    reflexivity.
  - discriminate Hpre.
  - cbn [restarts] in Hpre.
    apply andb_prop in Hpre as [Hpre Hl].
    apply andb_prop in Hpre as [Hpre Hb].
    destruct fuel as [|fuel]; [cbn in Hfuel; lia|].
    cbn [List.length] in Hfuel.
    cbn [retry_loop app]. unfold mbind at 1, sys at 1. cbn [script trace].
    rewrite Hpre. unfold mbind at 1, sys at 1. cbn [script trace].
    rewrite Hb. rewrite IH by (assumption || lia).
    cbn [retry_calls]. rewrite <- !app_assoc. reflexivity.
Qed.

Lemma retry_settles (c : call) (failed : reply -> bool) (pre : list reply)
  (r : reply) (rest : list reply) (tr : list call) :
  restarts failed pre = true ->
  settles failed r = true ->
  retry c failed (mkWorld (pre ++ r :: rest) tr) =
  (Done (r, 0), mkWorld rest (tr ++ retry_calls c pre)).
Proof.
  intros Hpre Hr. unfold retry. cbn [script].
  apply retry_loop_settles; try assumption.
  rewrite length_app. cbn [List.length]. lia.
Qed.

Lemma retry_calls_head (c : call) (pre : list reply) :
  exists more, retry_calls c pre = c :: more.
Proof.
  destruct pre as [|a [|b l]]; cbn [retry_calls]; eauto.
Qed.

(** The loop makes its call before anything else, whatever the script. *)
Lemma retry_first_call (c : call) (failed : reply -> bool) (w : world) :
  exists more, trace (snd (retry c failed w)) = trace w ++ c :: more.
Proof.
  unfold retry.
  enough (forall fuel w, exists more,
             trace (snd (retry_loop (S fuel) c failed w)) =
             trace w ++ c :: more) by auto.
  clear w. induction fuel as [|fuel IH]; intros w.
  - cbn [retry_loop]. unfold mbind at 1, sys at 1.
    destruct (script w) as [|r s]; cbn [snd trace]; [eauto|].
    destruct (failed r && (errno r =? EINTR)); [|cbn; eauto].
    unfold mbind, sys. cbn [script trace].
    destruct s as [|x s]; [cbn; rewrite <- app_assoc; cbn; eauto|].
    destruct (ret x =? 0); cbn; rewrite <- app_assoc; cbn; eauto.
  - remember (S fuel) as f. cbn [retry_loop].
    unfold mbind at 1, sys at 1.
    destruct (script w) as [|r s]; cbn [snd trace]; [eauto|].
    destruct (failed r && (errno r =? EINTR)); [|cbn; eauto].
    unfold mbind at 1, sys at 1. cbn [script trace].
    destruct s as [|x s]; [cbn; rewrite <- app_assoc; cbn; eauto|].
    destruct (ret x =? 0); [|cbn; rewrite <- app_assoc; cbn; eauto].
    subst f. destruct (IH (mkWorld s ((trace w ++ [c]) ++ [c_PyErr_CheckSignals])))
      as [more Hm].
    rewrite Hm. cbn [trace]. rewrite <- !app_assoc. cbn. eauto.
Qed.

Lemma retry_begins (c : call) (failed : reply -> bool) :
  begins_with c (retry c failed).
Proof. intros w. apply retry_first_call. Qed.

Lemma extends_ret {A} (a : A) : extends (mret a).
Proof. intros w. exists []. now rewrite app_nil_r. Qed.

Lemma extends_raise {A} (e : exc) : extends (@raise A e).
Proof. intros w. exists []. now rewrite app_nil_r. Qed.

Lemma extends_bind {A B} (m : M A) (k : A -> M B) :
  extends m -> (forall a, extends (k a)) -> extends (mbind m k).
Proof.
  intros Hm Hk w. unfold mbind. destruct (Hm w) as [m1 H1].
  destruct (m w) as [[a| | |] w1]; cbn [snd] in *; eauto.
  destruct (Hk a w1) as [m2 H2]. rewrite H2, H1, <- app_assoc. eauto.
Qed.

Lemma begins_extends {A} (c : call) (m : M A) :
  begins_with c m -> extends m.
Proof. intros H w. destruct (H w) as [more Hm]. eauto. Qed.

Lemma begins_bind {A B} (c : call) (m : M A) (k : A -> M B) :
  begins_with c m -> (forall a, extends (k a)) -> begins_with c (mbind m k).
Proof.
  intros Hm Hk w. unfold mbind. destruct (Hm w) as [m1 H1].
  destruct (m w) as [[a| | |] w1]; cbn [snd] in *; eauto.
  destruct (Hk a w1) as [m2 H2]. rewrite H2, H1, <- app_assoc. cbn. eauto.
Qed.

(** Calls made by the loop are the call itself and signal checks. *)
Lemma retry_calls_shape (c : call) (pre : list reply) :
  Forall (fun x => x = c \/ x = c_PyErr_CheckSignals) (retry_calls c pre).
Proof.
  induction pre as [| a | a b l IH] using pair_ind; cbn [retry_calls].
  - constructor; [now left | constructor].
  - constructor; [now left | constructor].
  - constructor; [now left|]. constructor; [now right | exact IH].
Qed.

End KernelFacts.

Module KernelTrace.
Import CInt Wire Py Kernel KernelSpec KernelFacts.

(** On any script the loop calls nothing but its call and the signal
    check, and the reply it returns is one of the script. *)
Lemma retry_loop_any (c : call) (failed : reply -> bool) :
  forall (fuel : nat) (w : world),
    (exists more,
        trace (snd (retry_loop fuel c failed w)) = trace w ++ more /\
        Forall (fun x => x = c \/ x = c_PyErr_CheckSignals) more) /\
    (forall r a, fst (retry_loop fuel c failed w) = Done (r, a) ->
                 In r (script w)).
Proof.
  induction fuel as [|fuel IH]; intros w.
  - cbn. split; [|discriminate]. exists []. rewrite app_nil_r. auto.
  - cbn [retry_loop]. unfold mbind at 1 3, sys at 1 3.
    destruct (script w) as [|r s] eqn:Es.
    + cbn. split; [|discriminate]. exists [c]. split; auto.
    + destruct (failed r && (errno r =? EINTR)).
      * unfold mbind at 1 2, sys at 1 2. cbn [script trace].
        destruct s as [|x s].
        -- cbn. split; [|discriminate].
           exists [c; c_PyErr_CheckSignals]. rewrite <- app_assoc.
           split; [reflexivity|].
           constructor; [now left|]. constructor; [now right|constructor].
        -- destruct (ret x =? 0).
           ++ destruct (IH (mkWorld s ((trace w ++ [c]) ++ [c_PyErr_CheckSignals])))
                as [[more [Hm Hf]] Hin].
              split.
              ** exists (c :: c_PyErr_CheckSignals :: more).
                 rewrite Hm. cbn [trace]. rewrite <- !app_assoc.
                 split; [reflexivity|].
                 constructor; [now left|]. constructor; [now right|exact Hf].
              ** intros r' a H. right. right. exact (Hin r' a H).
           ++ cbn. split.
              ** exists [c; c_PyErr_CheckSignals]. rewrite <- app_assoc.
                 split; [reflexivity|].
                 constructor; [now left|]. constructor; [now right|constructor].
              ** intros r' a H. inversion H. now left.
      * cbn. split.
        -- exists [c]. split; [reflexivity|]. constructor; [now left|constructor].
        -- intros r' a H. inversion H. now left.
Qed.

Lemma retry_any (c : call) (failed : reply -> bool) (w : world) :
  (exists more,
      trace (snd (retry c failed w)) = trace w ++ more /\
      Forall (fun x => x = c \/ x = c_PyErr_CheckSignals) more) /\
  (forall r a, fst (retry c failed w) = Done (r, a) -> In r (script w)).
Proof. apply retry_loop_any. Qed.

End KernelTrace.

Module FhandleFacts.
Import CInt Wire Py Kernel KernelSpec KernelFacts KernelTrace Fhandle.

Lemma existsb_app_false {A} (f : A -> bool) (l1 l2 : list A) :
  existsb f l1 = false -> existsb f l2 = false ->
  existsb f (l1 ++ l2) = false.
Proof. intros H1 H2. rewrite existsb_app, H1, H2. reflexivity. Qed.

Lemma no_open_in (c : call) (l : list call) :
  is_open_by_handle_at c = false ->
  Forall (fun x => x = c \/ x = c_PyErr_CheckSignals) l ->
  existsb is_open_by_handle_at l = false.
Proof.
  intros Hc H. induction H as [|x l [->| ->] _ IH]; cbn [existsb].
  - reflexivity.
  - rewrite Hc. exact IH.
  - exact IH.
Qed.

(** [open_by_handle_at] is reached only past a [statx] reply that
    succeeded and carried the recorded mount id. *)
Lemma open_by_handle_at_guarded (self : py_fhandle_t) (mount_fd flags : Z)
  (s : list reply) :
  existsb is_open_by_handle_at
    (trace (snd (run (py_fhandle_open self mount_fd flags) s))) = true ->
  exists r, In r s /\ ret r = 0 /\ stx_mnt_id (stx r) = mount_id self.
Proof.
  unfold run, py_fhandle_open.
  destruct (mount_id self =? UINT64_MAX); [discriminate|].
  set (c := c_statx mount_fd "" AT_EMPTY_PATH _).
  unfold mbind at 1.
  destruct (retry_any c failed_nz (mkWorld s [])) as [[more [Ht Hf]] Hin].
  destruct (retry c failed_nz (mkWorld s [])) as [o w] eqn:E.
  cbn [fst snd trace script app] in *.
  assert (Hno : existsb is_open_by_handle_at (trace w) = false).
  { rewrite Ht. now apply (no_open_in c). }
  destruct o as [[r a]| | |]; cbn [snd]; try (rewrite Hno; discriminate).
  unfold failed_nz at 1.
  destruct (Z.eqb_spec (ret r) 0) as [Hr|]; cbn [negb].
  - destruct (Z.eqb_spec (stx_mnt_id (stx r)) (mount_id self)) as [Hm|];
      cbn [negb].
    + intros _. exists r. split; [|split]; auto. exact (Hin r a eq_refl).
    + unfold raise. cbn [snd]. rewrite Hno. discriminate.
  - destruct (a =? 0); unfold raise; cbn [snd]; rewrite Hno; discriminate.
Qed.

(** An initialised handle's [open] starts with the [statx] of the mount
    fd, whatever the kernel replies. *)
Lemma py_fhandle_open_begins (self : py_fhandle_t) (mount_fd flags : Z) :
  mount_id self <> UINT64_MAX ->
  begins_with
    (c_statx mount_fd "" AT_EMPTY_PATH
       (if unique_mount_id self then STATX_MNT_ID_UNIQUE else STATX_MNT_ID))
    (py_fhandle_open self mount_fd flags).
Proof.
  intros Hinit. unfold py_fhandle_open.
  destruct (Z.eqb_spec (mount_id self) UINT64_MAX) as [|_]; [contradiction|].
  apply begins_bind; [apply retry_begins|].
  intros [r a]. cbv beta iota.
  destruct (failed_nz r); [destruct (a =? 0); apply extends_raise|].
  destruct (negb _); [apply extends_raise|].
  apply extends_bind.
  - eapply begins_extends, retry_begins.
  - intros [r' a']. cbv beta iota.
    destruct (ret r' =? -1); [destruct (a' =? 0); apply extends_raise|].
    apply extends_ret.
Qed.

End FhandleFacts.

Module Claims9.
Import CInt Wire Py Kernel KernelSpec KernelFacts KernelTrace Fhandle
  FhandleFacts.

(** C9.  For an initialised file handle, [open(mount_fd)] begins, on
    every script of kernel replies, with a [statx] of [mount_fd] under
    [AT_EMPTY_PATH], with the mask
    [STATX_MNT_ID_UNIQUE] when the handle was created with the unique
    mount id and [STATX_MNT_ID] otherwise; when that [statx], possibly
    after interrupted attempts, succeeds with an [stx_mnt_id] different
    from the recorded mount id, the call raises ValueError, consumes no
    further reply, and its trace holds no [open_by_handle_at]; and on any
    script whatever, [open_by_handle_at] is invoked only after a
    successful [statx] reply carrying the recorded mount id. *)
Theorem fhandle_open_checks_mount
  (self : py_fhandle_t) (mount_fd flags : Z)
  (pre : list reply) (r : reply) (rest : list reply) :
  mount_id self <> UINT64_MAX ->
  restarts failed_nz pre = true ->
  ret r = 0 ->
  stx_mnt_id (stx r) <> mount_id self ->
  let out := run (py_fhandle_open self mount_fd flags) (pre ++ r :: rest) in
  (forall s, exists more,
      trace (snd (run (py_fhandle_open self mount_fd flags) s)) =
      c_statx mount_fd "" AT_EMPTY_PATH
        (if unique_mount_id self then STATX_MNT_ID_UNIQUE else STATX_MNT_ID)
      :: more) /\
  (exists msg, fst out = Exc (ValueError msg)) /\
  existsb is_open_by_handle_at (trace (snd out)) = false /\
  script (snd out) = rest /\
  (forall s,
      existsb is_open_by_handle_at
        (trace (snd (run (py_fhandle_open self mount_fd flags) s))) = true ->
      exists r', In r' s /\ ret r' = 0 /\
                 stx_mnt_id (stx r') = mount_id self).
Proof.
  intros Hinit Hpre Hr Hm out.
  assert (Hs : settles failed_nz r = true).
  { unfold settles, failed_nz. rewrite Hr. reflexivity. }
  assert (E : out =
              (Exc (ValueError
                 "Filesystem underlying `mount_fd` parameter does not match the filesystem under which the handle was opened."),
               mkWorld rest
                 (retry_calls
                    (c_statx mount_fd "" AT_EMPTY_PATH
                       (if unique_mount_id self then STATX_MNT_ID_UNIQUE
                        else STATX_MNT_ID)) pre))).
  { subst out. unfold run, py_fhandle_open.
    destruct (Z.eqb_spec (mount_id self) UINT64_MAX) as [|_]; [contradiction|].
    unfold mbind. rewrite retry_settles by assumption.
    unfold failed_nz at 1. rewrite Hr. cbn [Z.eqb negb].
    destruct (Z.eqb_spec (stx_mnt_id (stx r)) (mount_id self)) as [|_];
      [contradiction|].
    reflexivity. }
  rewrite E. cbn [fst snd trace script].
  split.
  { intros s.
    exact (py_fhandle_open_begins self mount_fd flags Hinit (mkWorld s [])). }
  split; [eauto|].
  split; [|split; [reflexivity|]].
  - eapply no_open_in; [|apply retry_calls_shape]. reflexivity.
  - intros s. apply open_by_handle_at_guarded.
Qed.

Lemma fhandle_open_checks_mount_witness :
  mount_id (mkFhandle 42 false true []) <> UINT64_MAX /\
  restarts failed_nz interrupted_once = true /\
  ret (r_statx (mkStatx 16877 2 0 0 43)) = 0 /\
  stx_mnt_id (stx (r_statx (mkStatx 16877 2 0 0 43))) <>
  mount_id (mkFhandle 42 false true []) /\
  (exists msg,
      fst (run (py_fhandle_open (mkFhandle 42 false true []) 7 0)
             (interrupted_once ++
              r_statx (mkStatx 16877 2 0 0 43) :: [r_ok 9])) =
      Exc (ValueError msg)) /\
  existsb is_open_by_handle_at
    (trace (snd (run (py_fhandle_open (mkFhandle 42 false true []) 7 0)
                   (interrupted_once ++
                    r_statx (mkStatx 16877 2 0 0 43) :: [r_ok 9])))) = false.
Proof.
  assert (H1 : mount_id (mkFhandle 42 false true []) <> UINT64_MAX)
    by (vm_compute; discriminate).
  assert (H2 : restarts failed_nz interrupted_once = true) by reflexivity.
  assert (H3 : ret (r_statx (mkStatx 16877 2 0 0 43)) = 0) by reflexivity.
  assert (H4 : stx_mnt_id (stx (r_statx (mkStatx 16877 2 0 0 43))) <>
               mount_id (mkFhandle 42 false true []))
    by (vm_compute; discriminate).
  split; [exact H1 | split; [exact H2 | split; [exact H3 | split; [exact H4|]]]].
  pose proof (fhandle_open_checks_mount (mkFhandle 42 false true []) 7 0
                interrupted_once (r_statx (mkStatx 16877 2 0 0 43)) [r_ok 9]
                H1 H2 H3 H4) as H.
  cbv zeta in H.
  exact (conj (proj1 (proj2 H)) (proj1 (proj2 (proj2 H)))).
Defined.

End Claims9.

Module AclXattrFacts.
Import CInt Wire Py Kernel KernelSpec KernelFacts KernelTrace AclXattr.

Lemma replies_cons (a : answer) (l : list answer) (rest : list reply) :
  replies (a :: l) ++ rest = fst a ++ snd a :: (replies l ++ rest).
Proof.
  unfold replies. cbn [flat_map]. rewrite <- !app_assoc. reflexivity.
Qed.

Lemma answered_inv (failed : reply -> bool) (a : answer) :
  answered failed a = true ->
  restarts failed (fst a) = true /\ settles failed (snd a) = true.
Proof. unfold answered. intros H. now apply andb_prop in H. Qed.

(** Reading an xattr whose size was probed: the settling reply decides. *)
Lemma read_xattr_raw_settles (fd : Z) (name : string) (sz : Z)
  (pre : list reply) (r : reply) (rest : list reply) (tr : list call) :
  restarts failed_m1 pre = true ->
  settles failed_m1 r = true ->
  read_xattr_raw fd name sz (mkWorld (pre ++ r :: rest) tr) =
  (if ret r =? -1 then Exc (OSErrorErrno (errno r))
   else Done (buf r, ret r),
   mkWorld rest (tr ++ retry_calls (c_fgetxattr fd name sz) pre)).
Proof.
  intros Hpre Hr. unfold read_xattr_raw, mbind.
  rewrite retry_settles by assumption.
  destruct (ret r =? -1); reflexivity.
Qed.

Lemma extends_read_xattr_raw (fd : Z) (name : string) (sz : Z) :
  extends (read_xattr_raw fd name sz).
Proof.
  unfold read_xattr_raw. apply extends_bind.
  - apply (begins_extends (c_fgetxattr fd name sz)), retry_begins.
  - intros [r a]. destruct (ret r =? -1); [destruct (a =? 0)|];
      (apply extends_raise || apply extends_ret).
Qed.

Ltac ext :=
  repeat first
    [ apply extends_ret
    | apply extends_raise
    | apply extends_read_xattr_raw
    | eapply begins_extends; apply retry_begins
    | apply extends_bind; [| intros [? ?]; cbv beta iota]
    | match goal with
      | |- extends (if ?b then _ else _) => destruct b
      end ].

(** Whatever the kernel replies, the first call is the zero-length probe
    of the NFS4 xattr. *)
Lemma do_fgetacl_begins (fd : Z) :
  begins_with (c_fgetxattr fd NFS4_ACL_XATTR 0) (do_fgetacl fd).
Proof.
  unfold do_fgetacl. apply begins_bind; [apply retry_begins|].
  intros [r a]. cbv beta iota. ext.
Qed.

Ltac zcase :=
  match goal with
  | |- context [?a =? ?b] => destruct (Z.eqb_spec a b); try lia
  | |- context [?a >? ?b] =>
      rewrite (Z.gtb_ltb a b); destruct (Z.ltb_spec b a); try lia
  | |- context [?a >=? ?b] =>
      rewrite (Z.geb_leb a b); destruct (Z.leb_spec b a); try lia
  end.

Ltac probe :=
  unfold mbind at 1; rewrite retry_settles by assumption;
  cbv beta iota; change (0 =? 0) with true; cbn [negb].

Ltac start :=
  unfold do_fgetacl, NFS4_ACL_XATTR, POSIX_ACCESS_XATTR, POSIX_DEFAULT_XATTR,
    ENODATA, EOPNOTSUPP;
  probe; cbn [app].

Ltac crunch :=
  repeat first
    [ progress cbn [andb orb negb app]
    | zcase
    | match goal with
      | |- context [mbind (mret _) _ _] =>
          unfold mbind at 1, mret at 1; cbv beta iota
      | |- context [mbind (retry _ _) _ _] =>
          unfold mbind at 1; rewrite retry_settles by assumption;
          cbv beta iota; change (0 =? 0) with true
      | |- context [mbind (read_xattr_raw _ _ _) _ _] =>
          unfold mbind at 1; rewrite read_xattr_raw_settles by assumption;
          cbv beta iota
      | |- context [mbind (mbind _ _) _ _] =>
          unfold mbind at 1
      | |- context [@mret ?A ?a ?w] =>
          change (@mret A a w) with (Done a, w); cbv beta iota
      end ].

Ltac read :=
  unfold mbind at 1; rewrite read_xattr_raw_settles by assumption;
  cbv beta iota.

End AclXattrFacts.

Module Claims6.
Import CInt Wire Py Kernel KernelSpec KernelFacts KernelTrace AclXattr
  AclXattrFacts.

(** C6.  [do_fgetacl(fd)] on a kernel that settles each call site
    (after any number of interrupted attempts) with the replies [r1],
    [r2], ... in turn.  The first call is a zero-length [fgetxattr] of
    [system.nfs4_acl_xdr].  If it returns 0, or fails with ENODATA, the
    result is the NFS4 variant with no data; if it returns a positive
    size the xattr is read and the result is the NFS4 variant holding the
    bytes read; if it fails with an errno other than ENODATA and
    EOPNOTSUPP the call raises OSError with that errno.  If it fails with
    EOPNOTSUPP the next call is a zero-length [fgetxattr] of
    [system.posix_acl_access]; when that fails with EOPNOTSUPP too the
    call raises OSError with EOPNOTSUPP; otherwise the result is the POSIX
    variant, whose access component is absent when the access probe
    returned 0 or ENODATA and holds the bytes read when it returned a
    positive size, and whose default component is absent when the probe
    of [system.posix_acl_default] returned 0 or ENODATA and holds the
    bytes read when it returned a positive size. *)
Theorem do_fgetacl_classification
  (fd : Z) (p1 p2 p3 p4 p5 : list reply) (r1 r2 r3 r4 r5 : reply)
  (rest : list reply) :
  forallb (answered failed_m1)
    [(p1, r1); (p2, r2); (p3, r3); (p4, r4); (p5, r5)] = true ->
  let out :=
    run (do_fgetacl fd)
      (replies [(p1, r1); (p2, r2); (p3, r3); (p4, r4); (p5, r5)] ++ rest) in
  (exists more,
      trace (snd out) = c_fgetxattr fd "system.nfs4_acl_xdr" 0 :: more) /\
  (ret r1 = 0 \/ (ret r1 = -1 /\ errno r1 = ENODATA) ->
   fst out = Done (ACLTYPE_NFS4 None 0)) /\
  (0 < ret r1 -> ret r2 <> -1 ->
   fst out = Done (ACLTYPE_NFS4 (Some (buf r2)) (ret r2)) /\
   trace (snd out) =
   retry_calls (c_fgetxattr fd "system.nfs4_acl_xdr" 0) p1 ++
   retry_calls (c_fgetxattr fd "system.nfs4_acl_xdr" (ret r1)) p2) /\
  (ret r1 = -1 -> errno r1 <> ENODATA -> errno r1 <> EOPNOTSUPP ->
   fst out = Exc (OSErrorErrno (errno r1))) /\
  (ret r1 = -1 -> errno r1 = EOPNOTSUPP ->
   (exists more,
       trace (snd out) =
       retry_calls (c_fgetxattr fd "system.nfs4_acl_xdr" 0) p1 ++
       c_fgetxattr fd "system.posix_acl_access" 0 :: more) /\
   (ret r2 = -1 -> errno r2 = EOPNOTSUPP ->
    fst out = Exc (OSErrorErrno EOPNOTSUPP)) /\
   (ret r2 = 0 \/ (ret r2 = -1 /\ errno r2 = ENODATA) ->
    (ret r3 = 0 \/ (ret r3 = -1 /\ errno r3 = ENODATA) ->
     fst out = Done (ACLTYPE_POSIX None 0 None 0)) /\
    (0 < ret r3 -> ret r4 <> -1 ->
     fst out = Done (ACLTYPE_POSIX None 0 (Some (buf r4)) (ret r4)))) /\
   (0 < ret r2 -> ret r3 <> -1 ->
    (ret r4 = 0 \/ (ret r4 = -1 /\ errno r4 = ENODATA) ->
     fst out = Done (ACLTYPE_POSIX (Some (buf r3)) (ret r3) None 0)) /\
    (0 < ret r4 -> ret r5 <> -1 ->
     fst out =
     Done (ACLTYPE_POSIX (Some (buf r3)) (ret r3)
             (Some (buf r5)) (ret r5))))).
Proof.
  intros H out.
  cbn [forallb] in H.
  apply andb_prop in H as [H1 H]. apply andb_prop in H as [H2 H].
  apply andb_prop in H as [H3 H]. apply andb_prop in H as [H4 H].
  apply andb_prop in H as [H5 _].
  apply answered_inv in H1 as [P1 S1]. apply answered_inv in H2 as [P2 S2].
  apply answered_inv in H3 as [P3 S3]. apply answered_inv in H4 as [P4 S4].
  apply answered_inv in H5 as [P5 S5].
  cbn [fst snd] in *.
  assert (Es : replies [(p1, r1); (p2, r2); (p3, r3); (p4, r4); (p5, r5)]
               ++ rest =
               p1 ++ r1 :: p2 ++ r2 :: p3 ++ r3 :: p4 ++ r4 :: p5 ++ r5 :: rest).
  { rewrite !replies_cons. reflexivity. }
  unfold ENODATA, EOPNOTSUPP in *.
  assert (Eo : out = do_fgetacl fd (mkWorld (p1 ++ r1 :: p2 ++ r2 :: p3 ++ r3 :: p4 ++ r4 :: p5 ++ r5 :: rest) [])).
  { subst out. unfold run. rewrite Es. reflexivity. }
  clearbody out. subst out. clear Es.
  split; [|split; [|split; [|split]]].
  - apply (do_fgetacl_begins fd (mkWorld _ [])).
  - intros Hr. start.
    destruct Hr as [Hr|[Hr He]]; repeat zcase; reflexivity.
  - intros Hr Hr2.
    match goal with
    | |- fst ?o = ?a /\ trace (snd ?o) = ?t =>
        enough (E : o = (a, mkWorld (p3 ++ r3 :: p4 ++ r4 :: p5 ++ r5 :: rest) t))
          by (rewrite E; split; reflexivity)
    end.
    start. repeat zcase; cbn [orb]; read; repeat zcase; reflexivity.
  - intros Hr He1 He2. start. repeat zcase. reflexivity.
  - intros Hr He.
    split; [|split; [|split]].
    + start. repeat zcase. cbn [orb negb].
      apply (begins_bind (c_fgetxattr fd "system.posix_acl_access" 0)
               _ _ (retry_begins _ _)).
      intros [r a]. cbv beta iota. ext.
    + intros Hr2 He2. start. repeat zcase. cbn [orb negb]. probe.
      repeat zcase. cbn [andb]. rewrite He2. reflexivity.
    + intros Hr2. split.
      * intros Hr3. start.
        destruct Hr2 as [Hr2|[Hr2 He2]]; destruct Hr3 as [Hr3|[Hr3 He3]];
          crunch; reflexivity.
      * intros Hr3 Hr4. start.
        destruct Hr2 as [Hr2|[Hr2 He2]]; crunch; reflexivity.
    + intros Hr2 Hr3. split.
      * intros Hr4. start.
        destruct Hr4 as [Hr4|[Hr4 He4]]; crunch; reflexivity.
      * intros Hr4 Hr5. start. crunch; reflexivity.
Qed.

Lemma do_fgetacl_classification_witness :
  forallb (answered failed_m1)
    [(interrupted_once, r_err EOPNOTSUPP); ([], r_ok 28);
     ([], r_data POSIXSpec.access_example); (interrupted_once, r_err ENODATA);
     ([], r_ok 0)] = true /\
  fst (run (do_fgetacl 3)
         (replies
            [(interrupted_once, r_err EOPNOTSUPP); ([], r_ok 28);
             ([], r_data POSIXSpec.access_example);
             (interrupted_once, r_err ENODATA); ([], r_ok 0)] ++ [])) =
  Done (ACLTYPE_POSIX (Some POSIXSpec.access_example) 28 None 0).
Proof.
  assert (H : forallb (answered failed_m1)
                [(interrupted_once, r_err EOPNOTSUPP); ([], r_ok 28);
                 ([], r_data POSIXSpec.access_example);
                 (interrupted_once, r_err ENODATA); ([], r_ok 0)] = true)
    by reflexivity.
  split; [exact H|].
  pose proof (do_fgetacl_classification 3
                interrupted_once [] [] interrupted_once []
                (r_err EOPNOTSUPP) (r_ok 28)
                (r_data POSIXSpec.access_example) (r_err ENODATA) (r_ok 0)
                [] H) as T.
  cbv zeta in T.
  destruct T as (_ & _ & _ & _ & T).
  destruct (T eq_refl eq_refl) as (_ & _ & _ & T4).
  assert (H2 : 0 < ret (r_ok 28)) by reflexivity.
  assert (H3 : ret (r_data POSIXSpec.access_example) <> -1)
    by (vm_compute; discriminate).
  destruct (T4 H2 H3) as (T5 & _).
  exact (T5 (or_intror (conj eq_refl eq_refl))).
Defined.

End Claims6.

Module FsIterFacts.
Import CInt Wire Py Stat Kernel KernelSpec FsIter FsIterSpec.



(** One cookie is recorded per snapshot entry: the entry's inode. *)
Lemma cookies_of_snapshot (entries : dir_stack_tuple) (c : list Z) :
  cookies_of entries = Ok c -> c = map snd entries.
Proof.
  revert c. induction entries as [|[p i] l IH]; intros c; cbn [cookies_of].
  - intros H. inversion H. reflexivity.
  - destruct ((0 <=? i) && (i <=? UINT64_MAX)); [|discriminate].
    destruct (cookies_of l) as [tl|e]; cbn [bind]; [|discriminate].
    intros H. inversion H. cbn [map snd]. f_equal. now apply IH.
Qed.

Lemma dir_stack_to_cookies_snapshot (entries : dir_stack_tuple)
  (c : option (list Z)) (sz : Z) :
  entries <> [] ->
  dir_stack_to_cookies (Some entries) = Ok (c, sz) ->
  c = Some (map snd entries) /\ sz = Z.of_nat (List.length entries).
Proof.
  intros Hne. unfold dir_stack_to_cookies.
  destruct (Z.eqb_spec (Z.of_nat (List.length entries)) 0) as [E|_].
  - destruct entries; [congruence|]. cbn in E. lia.
  - destruct (cookies_of entries) as [l|e] eqn:El; cbn [bind]; [|discriminate].
    intros H. inversion H. subst. apply cookies_of_snapshot in El.
    subst. auto.
Qed.

(** [string_take] and [snprintf]. *)
Lemma string_take_all (n : nat) (s : string) :
  (String.length s <= n)%nat -> string_take n s = s.
Proof.
  revert s. induction n as [|n IH]; intros [|c s] H; cbn in *;
    try reflexivity; [lia|].
  f_equal. apply IH. lia.
Qed.



Lemma snprintf_fits (size : Z) (text : string) :
  Z.of_nat (String.length text) < size -> snprintf size text = text.
Proof. intros H. unfold snprintf. apply string_take_all. lia. Qed.




(** Well-formed UTF-8 followed by well-formed UTF-8 is well formed. *)
Lemma utf8_scan_start (lo hi : Z) (s : string) :
  utf8_scan 0 lo hi s = utf8_valid s.
Proof. destruct s; reflexivity. Qed.

Lemma utf8_scan_app (a b : string) :
  forall (m : nat) (lo hi : Z),
    utf8_scan m lo hi a = true ->
    utf8_scan m lo hi (a ++ b)%string = utf8_valid b.
Proof.
  induction a as [|c a IH]; intros m lo hi H.
  - destruct m; [|discriminate H]. apply utf8_scan_start.
  - cbn [append utf8_scan] in *. cbv zeta in *.
    destruct m as [|m].
    + repeat match type of H with
             | (if ?c then _ else _) = true => destruct c
             end; try discriminate H; now apply IH.
    + apply andb_prop in H as [H1 H2]. rewrite H1. cbn [andb].
      now apply IH.
Qed.

Lemma utf8_valid_app (a b : string) :
  utf8_valid a = true -> utf8_valid b = true ->
  utf8_valid (a ++ b)%string = true.
Proof.
  intros Ha Hb. unfold utf8_valid at 1.
  rewrite (utf8_scan_app a b 0 _ _ Ha). exact Hb.
Qed.

(** [build_dir_stack_tuple] gives the path and the inode of every frame,
    or fails on the first path that is not UTF-8. *)
Lemma dir_stack_entries_spec (l : list iter_dir_t) :
  dir_stack_entries l =
  if forallb (fun d => utf8_valid (path d)) l
  then Ok (map (fun d => (path d, ino d)) l)
  else Raise UnicodeDecodeError.
Proof.
  induction l as [|d l IH]; [reflexivity|].
  cbn [dir_stack_entries forallb map]. unfold PyUnicode_FromString.
  destruct (utf8_valid (path d)); cbn [bind andb]; [|reflexivity].
  rewrite IH. destruct (forallb _ l); reflexivity.
Qed.

End FsIterFacts.

Module FsIterDepth.
Import CInt Wire Py Stat Kernel KernelSpec FsIter FsIterSpec FsIterFacts.
Local Open Scope string_scope.




(** With the assertion compiled out, the step on a full stack that finds
    a directory reports the depth error of [push_dir_stack]. *)
Lemma next_unchecked_reports_depth :
  exists self',
    fst (run (FilesystemIterator_next assert_off (deep_iterator 2048))
           walk_script) =
    Done (Raise (OSErrorMsg "max depth 2048 exceeded at /d/a"), self').
Proof. eexists. vm_compute. reflexivity. Qed.

End FsIterDepth.

Module FsIterRestore.
Import CInt Wire Py Stat Kernel KernelSpec FsIter FsIterSpec FsIterFacts.
Local Open Scope string_scope.

Section Step.
Variable A : assert_t.
Hypothesis A_passes : forall message, A true message = mret tt.

Variables (self : FilesystemIteratorObject) (cur_dir : iter_dir_t)
  (c : list Z).
Hypothesis top : List.last (map Some (dir_stack self)) None = Some cur_dir.
Hypothesis below_max : cur_depth self < MAX_DEPTH.
Hypothesis has_cookies : cookies self = Some c.
Hypothesis in_range : cur_depth self < cookie_sz self.
Hypothesis pending : cookie_at c (cur_depth self) <> 0.

(** While the cookie of the current depth is pending, an entry with
    another inode number is passed over: nothing is opened. *)
Lemma cookie_mismatch_skipped (fuel : nat) (d : dirent_t)
  (rest : list reply) (tr : list call) :
  d_ino d <> cookie_at c (cur_depth self) ->
  next_loop A (S fuel) self (mkWorld (r_dirent d :: rest) tr) =
  next_loop A fuel self (mkWorld rest (tr ++ [c_readdir (dirp cur_dir)])).
Proof.
  intros Hino. cbn [next_loop]. rewrite top.
  destruct (Z.ltb_spec (cur_depth self) MAX_DEPTH) as [_|]; [|lia].
  rewrite A_passes. unfold mbind at 1, mret at 1.
  unfold mbind at 1, sys at 1. cbn [script trace dirent r_dirent].
  destruct (ISDOT (d_name d) || ISDOTDOT (d_name d)); [reflexivity|].
  rewrite has_cookies.
  destruct (Z.ltb_spec (cur_depth self) (cookie_sz self)) as [_|]; [|lia].
  destruct (Z.eqb_spec (cookie_at c (cur_depth self)) 0) as [|_];
    [contradiction|].
  destruct (Z.eqb_spec (d_ino d) (cookie_at c (cur_depth self))) as [|_];
    [contradiction|].
  reflexivity.
Qed.

(** The directory ends while the cookie of the current depth is pending:
    the restore error, with the depth and the directory's path, or the
    decoding error of a path that is not UTF-8. *)
Lemma restore_failure (fuel : nat) (rest : list reply) (tr : list call) :
  next_loop A (S fuel) self (mkWorld (r_eof :: rest) tr) =
  (Done (Raise (set_iterator_restore_error (cur_depth self) (path cur_dir)),
         self),
   mkWorld rest (tr ++ [c_readdir (dirp cur_dir)])).
Proof.
  cbn [next_loop]. rewrite top.
  destruct (Z.ltb_spec (cur_depth self) MAX_DEPTH) as [_|]; [|lia].
  rewrite A_passes. unfold mbind at 1, mret at 1.
  unfold mbind at 1, sys at 1. cbn [script trace dirent r_eof errno].
  cbn [Z.eqb negb]. rewrite has_cookies.
  destruct (Z.ltb_spec (cur_depth self) (cookie_sz self)) as [_|]; [|lia].
  destruct (Z.eqb_spec (cookie_at c (cur_depth self)) 0) as [|_];
    [contradiction|].
  reflexivity.
Qed.

End Step.

(** A snapshot of two entries: [b] is passed over, [a] is entered
    without being yielded, [x] is yielded, and restore mode has cleared
    with two frames on the stack. *)
Lemma two_entry_snapshot_resumes :
  fst (run (create_filesystem_iterator "/mnt/t" None "tank/t" fresh_state 0
              None (Some nested_snapshot)) open_script) =
  Done (Ok nested_iterator) /\
  exists self',
    fst (run (FilesystemIterator_next assert_abort nested_iterator)
           nested_script) =
    Done (Ok (mkInst "/mnt/t/a" "x" 7 (file_statx 12 3) false), self') /\
    cur_depth self' = 2 /\
    restoring_from_cookie self' = false.
Proof.
  split; [vm_compute; reflexivity|].
  eexists. split; [vm_compute; reflexivity|]. split; reflexivity.
Qed.

(** On that iterator the first entry, of inode 13, does not match the
    cookie 11 of depth 1. *)
Lemma nested_first_entry_skipped (rest : list reply) :
  next_loop assert_abort 9 nested_iterator
    (mkWorld (r_dirent (mkDirent "b" 13 4) :: rest) []) =
  next_loop assert_abort 8 nested_iterator (mkWorld rest [c_readdir 3]).
Proof.
  apply (cookie_mismatch_skipped assert_abort (fun _ => eq_refl)
           nested_iterator (mkDir "/mnt/t" 3 10) [10; 11]);
    try reflexivity; vm_compute; discriminate.
Qed.

End FsIterRestore.

Module Claims4.
Import CInt Wire Py Stat Kernel KernelSpec FsIter FsIterSpec FsIterFacts
  FsIterRestore.
Local Open Scope string_scope.

(** C4.  The code on a snapshot of one entry, the one [dir_stack()]
    returns while the iterator is in its root directory.  The iterator is
    created with one cookie and in restore mode, although [cur_depth]
    already equals the number of cookies.  Its first [__next__], on a
    root that holds the directory [a] holding the file [x], enters [a]
    without yielding it and yields [x]; restore mode has cleared only
    then, at [cur_depth] 2.  The same call on the iterator created
    without a snapshot yields [a]. *)
Theorem single_entry_snapshot_skips_directory :
  fst (run (create_filesystem_iterator "/mnt/t" None "tank/t" fresh_state 0
              None (Some root_snapshot)) open_script) =
  Done (Ok resumed_iterator) /\
  cookies resumed_iterator = Some (map snd root_snapshot) /\
  cur_depth resumed_iterator = cookie_sz resumed_iterator /\
  restoring_from_cookie resumed_iterator = true /\
  (exists self',
      fst (run (FilesystemIterator_next assert_abort resumed_iterator)
             walk_script) =
      Done (Ok (mkInst "/mnt/t/a" "x" 7 (file_statx 12 3) false), self') /\
      cur_depth self' = 2 /\
      restoring_from_cookie self' = false) /\
  (exists self',
      fst (run (FilesystemIterator_next assert_abort root_iterator)
             walk_script) =
      Done (Ok (mkInst "/mnt/t" "a" 5 (dir_statx 11) true), self')).
Proof.
  split; [vm_compute; reflexivity|].
  split; [reflexivity|].
  split; [reflexivity|].
  split; [reflexivity|].
  split.
  - eexists. split; [vm_compute; reflexivity|]. split; reflexivity.
  - eexists. vm_compute. reflexivity.
Qed.

End Claims4.

Module FsIterSteps.
Import CInt Wire Py Stat Kernel KernelSpec FsIter FsIterSpec FsIterFacts
  FsIterInv.
Local Open Scope string_scope.
Local Open Scope Z_scope.

Lemma same_walk_refl a : same_walk a a.
Proof. unfold same_walk. tauto. Qed.

Lemma same_walk_trans a b c : same_walk a b -> same_walk b c -> same_walk a c.
Proof.
  unfold same_walk. intros (H1 & H2 & H3 & H4 & H5 & H6 & H7 & H8)
    (G1 & G2 & G3 & G4 & G5 & G6 & G7 & G8).
  repeat split; congruence.
Qed.

Lemma process_next_entry_filled (self : FilesystemIteratorObject)
  (cur_dir : iter_dir_t) (entry : dirent_t) (w : world) :
  match process_next_entry self cur_dir entry w with
  | (Done (action, err, self'), w') => entry_filled self entry action self'
  | _ => True
  end.
Proof.
  unfold process_next_entry, mbind, sys, emit, mret.
  destruct (script w) as [|r s]; [exact I|].
  cbn [script trace].
  destruct (Z.ltb_spec (ret r) 0) as [Hfd|Hfd].
  - destruct ((errno r =? ELOOP) || (errno r =? EXDEV));
      (split; [unfold same_walk; cbn; tauto|]);
      (split; [reflexivity|]); (split; [discriminate|]);
      intros [H|H]; discriminate H.
  - destruct s as [|r2 s]; [exact I|]. cbn [script trace].
    destruct (ret r2 <? 0).
    + split; [unfold same_walk; cbn; tauto|].
      split; [reflexivity|]. split; [discriminate|].
      intros [H|H]; discriminate H.
    + cbn [state set_last].
      destruct (S_ISDIR (stx_mode (stx r2))) eqn:Ed; cbn [negb andb].
      * split; [unfold same_walk; cbn; tauto|].
        split; [reflexivity|]. split; [discriminate|].
        intros _. cbn [last set_last fd is_dir st].
        repeat split; auto. intros H; discriminate H.
      * destruct (Z.eqb_spec (btime_cutoff (state self)) 0) as [E0|E0];
          cbn [negb andb].
        -- split; [unfold same_walk; cbn; tauto|].
           split; [reflexivity|]. split; [discriminate|].
           intros _. cbn [last set_last fd is_dir st].
           repeat split; auto. intros _ H. contradiction.
        -- destruct (stx_btime_sec (stx r2) >? btime_cutoff (state self))
             eqn:Eb.
           ++ split; [unfold same_walk; cbn; tauto|].
              split; [reflexivity|]. split; [discriminate|].
              intros [H|H]; discriminate H.
           ++ split; [unfold same_walk; cbn; tauto|].
              split; [reflexivity|]. split; [discriminate|].
              intros _. cbn [last set_last fd is_dir st].
              repeat split; auto. intros _ _.
              rewrite Z.gtb_ltb in Eb. apply Z.ltb_ge in Eb. exact Eb.
Qed.

Lemma entry_filled_again self entry a1 s1 a2 s2 :
  entry_filled self entry a1 s1 -> entry_filled s1 entry a2 s2 ->
  entry_filled self entry a2 s2.
Proof.
  intros (W1 & _) (W2 & N & P & Y).
  split; [eapply same_walk_trans; eauto|].
  split; [exact N|]. split; [exact P|].
  intros H. destruct (Y H) as (F & D1 & D2 & B).
  destruct W1 as (_ & S1 & _). rewrite S1 in B. auto.
Qed.

Lemma process_retry_loop_filled (cur_dir : iter_dir_t) (entry : dirent_t) :
  forall (fuel : nat) (self : FilesystemIteratorObject) (w : world),
    match process_retry_loop fuel self cur_dir entry w with
    | (Done (action, self'), w') => entry_filled self entry action self'
    | _ => True
    end.
Proof.
  induction fuel as [|fuel IH]; intros self w; [exact I|].
  cbn [process_retry_loop]. unfold mbind at 1.
  pose proof (process_next_entry_filled self cur_dir entry w) as H.
  destruct (process_next_entry self cur_dir entry w) as [[[[a e] s1]| | |] w1];
    try exact I.
  destruct a; try exact H.
  destruct (e =? EINTR); [|exact H].
  unfold mbind, sys. destruct (script w1) as [|r s]; [exact I|].
  destruct (ret r =? 0); [|exact H].
  specialize (IH s1 (mkWorld s (trace w1 ++ [c_PyErr_CheckSignals]))).
  destruct (process_retry_loop fuel s1 cur_dir entry _) as [[[a2 s2]| | |] w2];
    try exact I.
  eapply entry_filled_again; eauto.
Qed.

Lemma process_retry_filled (self : FilesystemIteratorObject)
  (cur_dir : iter_dir_t) (entry : dirent_t) (w : world) :
  match process_retry self cur_dir entry w with
  | (Done (action, self'), w') => entry_filled self entry action self'
  | _ => True
  end.
Proof. apply process_retry_loop_filled. Qed.

End FsIterSteps.

Module FsIterWalk.
Import CInt Wire Py Stat Kernel KernelSpec FsIter FsIterSpec FsIterFacts
  FsIterInv FsIterSteps.
Local Open Scope string_scope.
Local Open Scope Z_scope.

Lemma top_frame_split (l : list iter_dir_t) (d : iter_dir_t) :
  List.last (map Some l) None = Some d -> exists below, l = (below ++ [d])%list.
Proof.
  induction l as [|a l IH]; [discriminate|].
  destruct l as [|b l].
  - cbn. intros H. inversion H. exists []. reflexivity.
  - intros H. destruct IH as [below Hb]; [exact H|].
    exists (a :: below). cbn [app]. now rewrite <- Hb.
Qed.

Lemma push_dir_stack_spec (self : FilesystemIteratorObject)
  (cur_dir : iter_dir_t) (w : world) :
  match push_dir_stack self cur_dir w with
  | (Done (true, self'), w') =>
      cur_depth self < MAX_DEPTH /\
      exists dup_fd, 0 <= dup_fd /\
        self' = set_dir_stack self
                  (dir_stack self ++
                   [mkDir (snprintf PATH_MAX
                             (path cur_dir ++ "/" ++ name (last self)))
                      dup_fd (stx_ino (st (last self)))])%list
  | (Done (false, self'), w') => exists msg, self' = set_cerr self msg
  | _ => True
  end.
Proof.
  unfold push_dir_stack.
  destruct (Z.geb_spec (cur_depth self) MAX_DEPTH) as [|Hd];
    [unfold mret; eauto|].
  unfold mbind, sys, emit, mret.
  destruct (script w) as [|r s]; [exact I|]. cbn [script trace].
  destruct (Z.ltb_spec (ret r) 0) as [|Hfd]; [eauto|].
  destruct s as [|r2 s]; [exact I|]. cbn [script trace].
  destruct (ret r2 =? 0); [eauto|].
  split; [exact Hd|]. exists (ret r). split; [exact Hfd|reflexivity].
Qed.

Lemma create_iter_instance_ok (fd0 : Z) (st0 : statx_t) (parent n : string)
  (inst : IterInstance) :
  create_iter_instance fd0 st0 parent n = Ok inst ->
  inst = mkInst parent n fd0 st0 (S_ISDIR (stx_mode st0)) /\
  utf8_valid parent = true /\ utf8_valid n = true.
Proof.
  unfold create_iter_instance, PyUnicode_FromString.
  destruct (utf8_valid parent), (utf8_valid n); intros H; inversion H.
  auto.
Qed.

Lemma pop_dir_stack_spec (self : FilesystemIteratorObject) (w : world) :
  match pop_dir_stack self w with
  | (Done self', w') =>
      (self' = self \/
       self' = set_dir_stack self (removelast (dir_stack self))) /\
      cur_depth self' <= cur_depth self
  | _ => True
  end.
Proof.
  unfold pop_dir_stack.
  destruct (List.last (map Some (dir_stack self)) None) as [d|].
  - unfold mbind, emit, mret. split; [now right|].
    unfold cur_depth. cbn [dir_stack set_dir_stack].
    rewrite removelast_firstn_len, length_firstn. lia.
  - unfold mret. split; [now left|lia].
Qed.

Lemma stepped_from (self self1 : FilesystemIteratorObject)
  (res : result IterInstance) (self' : FilesystemIteratorObject) :
  (cur_depth self <= MAX_DEPTH -> cur_depth self1 <= MAX_DEPTH) ->
  state self1 = state self ->
  stepped self1 res self' -> stepped self res self'.
Proof.
  unfold stepped. intros Hd Hs (D & S & Y). rewrite Hs in *.
  split; [tauto|]. split; assumption.
Qed.

Lemma stepped_raise (self self' : FilesystemIteratorObject) (e : exc) :
  (cur_depth self <= MAX_DEPTH -> cur_depth self' <= MAX_DEPTH) ->
  same_settings (state self) (state self') ->
  stepped self (Raise e) self'.
Proof. unfold stepped. tauto. Qed.

Lemma same_settings_refl s : same_settings s s.
Proof. unfold same_settings. tauto. Qed.

Lemma not_dot (n : string) :
  ISDOT n || ISDOTDOT n = false -> n <> "." /\ n <> "..".
Proof.
  unfold ISDOT, ISDOTDOT. intros H. apply orb_false_elim in H as [H1 H2].
  split; now apply String.eqb_neq.
Qed.

Lemma yield_file_stepped (self self1 self2 : FilesystemIteratorObject)
  (cur_dir : iter_dir_t) (d : dirent_t) (below : list iter_dir_t) :
  dir_stack self = (below ++ [cur_dir])%list ->
  ISDOT (d_name d) || ISDOTDOT (d_name d) = false ->
  state self1 = state self -> dir_stack self1 = dir_stack self ->
  entry_filled self1 d FSITER_YIELD_FILE self2 ->
  utf8_valid (path cur_dir) = true -> utf8_valid (name (last self2)) = true ->
  stepped self
    (Ok (mkInst (path cur_dir) (name (last self2)) (fd (last self2))
           (st (last self2)) (S_ISDIR (stx_mode (st (last self2))))))
    (set_state self2 (add_cnt (state self2) (stx_size (st (last self2))))).
Proof.
  intros Hstack Hdot Hs1 Hd1 (W & Hn & _ & Y) Hup Hun.
  destruct (Y (or_introl eq_refl)) as (Hfd & Hdir & Hfile & Hb).
  destruct W as (Hd2 & Hs2 & _).
  assert (Hs : state self2 = state self) by congruence.
  assert (Hd : dir_stack self2 = dir_stack self) by congruence.
  rewrite Hs1 in Hb.
  unfold stepped. cbn [state set_state].
  split.
  { unfold cur_depth. cbn [dir_stack set_state]. now rewrite Hd. }
  split.
  { unfold same_settings, add_cnt. cbn. rewrite Hs. tauto. }
  unfold yielded.
  cbn [i_name i_fd i_statxinfo i_isdir i_parent last set_state state dir_stack].
  rewrite <- Hdir, Hfile.
  destruct (not_dot _ Hdot) as [D1 D2]. rewrite Hn in Hun |- *.
  split; [exact D1|]. split; [exact D2|]. split; [exact Hfd|].
  split.
  { remember (last self2) as l eqn:El. clear El.
    destruct l as [n s f b]. cbn in *. congruence. }
  split; [reflexivity|].
  split; [intros _; apply Hb; exact Hfile|].
  split.
  { unfold counted, add_cnt. cbn. rewrite Hs. tauto. }
  split; [|split; assumption].
  exists below, cur_dir. rewrite Hd. auto.
Qed.

Lemma yield_dir_stepped (self self1 self2 : FilesystemIteratorObject)
  (cur_dir : iter_dir_t) (d : dirent_t) (below : list iter_dir_t)
  (dup_fd : Z) :
  dir_stack self = (below ++ [cur_dir])%list ->
  ISDOT (d_name d) || ISDOTDOT (d_name d) = false ->
  state self1 = state self -> dir_stack self1 = dir_stack self ->
  entry_filled self1 d FSITER_YIELD_DIR self2 ->
  cur_depth self2 < MAX_DEPTH -> 0 <= dup_fd ->
  utf8_valid (path cur_dir) = true -> utf8_valid (name (last self2)) = true ->
  let self4 :=
    set_dir_stack self2
      (dir_stack self2 ++
       [mkDir (snprintf PATH_MAX (path cur_dir ++ "/" ++ name (last self2)))
          dup_fd (stx_ino (st (last self2)))])%list in
  stepped self
    (Ok (mkInst (path cur_dir) (name (last self2)) (fd (last self2))
           (st (last self2)) (S_ISDIR (stx_mode (st (last self2))))))
    (set_state self4 (add_cnt (state self4) 0)).
Proof.
  intros Hstack Hdot Hs1 Hd1 (W & Hn & _ & Y) Hdepth Hdup Hup Hun self4.
  destruct (Y (or_intror eq_refl)) as (Hfd & Hdir & Hisdir & Hb).
  destruct W as (Hd2 & Hs2 & _).
  assert (Hs : state self2 = state self) by congruence.
  assert (Hd : dir_stack self2 = dir_stack self) by congruence.
  unfold stepped. subst self4. cbn [state set_state set_dir_stack].
  split.
  { unfold cur_depth in *. cbn [dir_stack set_state set_dir_stack].
    rewrite length_app. cbn [List.length]. lia. }
  split.
  { unfold same_settings, add_cnt. cbn. rewrite Hs. tauto. }
  unfold yielded.
  cbn [i_name i_fd i_statxinfo i_isdir i_parent last set_state set_dir_stack
       state dir_stack].
  rewrite <- Hdir, Hisdir.
  destruct (not_dot _ Hdot) as [D1 D2]. rewrite Hn in Hun |- *.
  split; [exact D1|]. split; [exact D2|]. split; [exact Hfd|].
  split.
  { remember (last self2) as l eqn:El. clear El.
    destruct l as [n s f b]. cbn in *. congruence. }
  split; [reflexivity|].
  split; [intros H; discriminate H|].
  split.
  { unfold counted, add_cnt. cbn. rewrite Hs. tauto. }
  split; [|split; assumption].
  exists below, cur_dir, dup_fd. rewrite Hd, Hstack, <- app_assoc.
  cbn [app]. auto.
Qed.

Lemma stepped_popped (A : assert_t) (fuel : nat)
  (IH : forall self w,
      match next_loop A fuel self w with
      | (Done (res, self'), w') => stepped self res self'
      | _ => True
      end)
  (self : FilesystemIteratorObject) (w : world) :
  match mbind (pop_dir_stack self) (fun self => next_loop A fuel self) w with
  | (Done (res, self'), w') => stepped self res self'
  | _ => True
  end.
Proof.
  unfold mbind. pose proof (pop_dir_stack_spec self w) as HP.
  destruct (pop_dir_stack self w) as [[self1| | |] w1]; try exact I.
  destruct HP as [Hs Hd].
  specialize (IH self1 w1).
  destruct (next_loop A fuel self1 w1) as [[[res self']| | |] w2]; try exact I.
  eapply stepped_from; [| |exact IH]; [lia|].
  destruct Hs as [->| ->]; reflexivity.
Qed.

(** Every result of the main loop, on every script of kernel replies. *)
Lemma next_loop_stepped (A : assert_t) :
  forall (fuel : nat) (self : FilesystemIteratorObject) (w : world),
    match next_loop A fuel self w with
    | (Done (res, self'), w') => stepped self res self'
    | _ => True
    end.
Proof.
  induction fuel as [|fuel IH]; intros self w; [exact I|].
  cbn [next_loop].
  destruct (List.last (map Some (dir_stack self)) None) as [cur_dir|] eqn:Etop.
  2:{ unfold mret. apply stepped_raise; [tauto | apply same_settings_refl]. }
  destruct (top_frame_split _ _ Etop) as [below Hstack].
  unfold mbind at 1.
  destruct (A _ _ w) as [[[]| | |] w0]; try exact I.
  unfold mbind at 1, sys at 1.
  destruct (script w0) as [|r s]; [exact I|].
  match goal with |- context [mkWorld s ?t] => set (w1 := mkWorld s t) end.
  destruct (dirent r) as [d|].
  - destruct (ISDOT (d_name d) || ISDOTDOT (d_name d)) eqn:Hdot; [apply IH|].
    cbv zeta.
    match goal with
    | |- context [negb (?c =? 0) && negb (d_ino d =? ?c)] =>
        set (mycookie := c)
    end.
    destruct (negb (mycookie =? 0) && negb (d_ino d =? mycookie));
      [apply IH|].
    match goal with
    | |- context [process_retry ?x cur_dir d] => set (self1 := x)
    end.
    assert (Hs1 : state self1 = state self)
      by (subst self1; destruct (negb (mycookie =? 0)); reflexivity).
    assert (Hd1 : dir_stack self1 = dir_stack self)
      by (subst self1; destruct (negb (mycookie =? 0)); reflexivity).
    clearbody self1. clear mycookie.
    unfold mbind at 1.
    pose proof (process_retry_filled self1 cur_dir d w1) as HP.
    destruct (process_retry self1 cur_dir d w1) as [[[action self2]| | |] w2];
      try exact I.
    cbv beta iota.
    assert (Hs2 : state self2 = state self)
      by (destruct HP as ((_ & E & _) & _); congruence).
    assert (Hd2 : dir_stack self2 = dir_stack self)
      by (destruct HP as ((E & _) & _); congruence).
    destruct action.
    + destruct (create_iter_instance _ _ _ _) as [inst|e] eqn:Ec.
      2:{ unfold mret. apply stepped_raise.
          - unfold cur_depth. now rewrite Hd2.
          - rewrite Hs2. apply same_settings_refl. }
      apply create_iter_instance_ok in Ec as (-> & Hup & Hun).
      destruct (check_and_invoke_reporting_callback _ _); unfold mret.
      * apply (yield_file_stepped self self1 self2 cur_dir d below);
          assumption.
      * apply stepped_raise.
        -- unfold cur_depth. cbn [dir_stack set_state]. now rewrite Hd2.
        -- unfold same_settings, add_cnt. cbn. rewrite Hs2. tauto.
    + specialize (IH self2 w2).
      destruct (next_loop A fuel self2 w2) as [[[res self']| | |] w3];
        try exact I.
      eapply stepped_from; [| |exact IH]; [|exact Hs2].
      unfold cur_depth. now rewrite Hd2.
    + match goal with
      | |- context [if restoring_from_cookie self2 then ?a else ?b] =>
          assert (Hres : match (if restoring_from_cookie self2
                                then a else b) with
                         | Ok None => restoring_from_cookie self2 = true
                         | Ok (Some inst) =>
                             restoring_from_cookie self2 = false /\
                             inst = mkInst (path cur_dir) (name (last self2))
                                      (fd (last self2)) (st (last self2))
                                      (S_ISDIR (stx_mode (st (last self2)))) /\
                             utf8_valid (path cur_dir) = true /\
                             utf8_valid (name (last self2)) = true
                         | Raise _ => True
                         end);
          [|destruct (if restoring_from_cookie self2 then a else b)
              as [result|e]]
      end.
      { destruct (restoring_from_cookie self2); [reflexivity|].
        destruct (create_iter_instance _ _ _ _) as [inst|e] eqn:Ec;
          cbn [bind]; [|exact I].
        apply create_iter_instance_ok in Ec. tauto. }
      2:{ unfold mret. apply stepped_raise.
          - unfold cur_depth. now rewrite Hd2.
          - rewrite Hs2. apply same_settings_refl. }
      unfold mbind at 1.
      pose proof (push_dir_stack_spec self2 cur_dir w2) as HQ.
      destruct (push_dir_stack self2 cur_dir w2) as [[[ok self4]| | |] w3];
        try exact I.
      cbv beta iota. destruct ok; cbn [negb].
      * destruct HQ as (Hdepth & dup_fd & Hdup & ->).
        cbn [restoring_from_cookie set_dir_stack].
        destruct (restoring_from_cookie self2).
        -- match goal with
           | |- context [next_loop A fuel ?x w3] => set (self5 := x)
           end.
           assert (Hs5 : state self5 = state self).
           { subst self5. cbn [cur_depth].
             match goal with
             | |- context [if ?b then _ else _] => destruct b
             end; cbn; exact Hs2. }
           assert (Hd5 : cur_depth self5 <= MAX_DEPTH).
           { subst self5.
             match goal with
             | |- context [if ?b then _ else _] => destruct b
             end; unfold cur_depth in *; cbn [dir_stack set_cookies set_dir_stack];
               rewrite length_app; cbn [List.length]; lia. }
           clearbody self5. specialize (IH self5 w3).
           destruct (next_loop A fuel self5 w3) as [[[res self']| | |] w4];
             try exact I.
           eapply stepped_from; [| |exact IH]; [tauto|exact Hs5].
        -- destruct result as [inst|]; [|discriminate Hres].
           destruct Hres as (_ & -> & Hup & Hun).
           destruct (check_and_invoke_reporting_callback _ _); unfold mret.
           ++ apply (yield_dir_stepped self self1 self2 cur_dir d below
                       dup_fd); assumption.
           ++ apply stepped_raise.
              ** unfold cur_depth in *.
                 cbn [dir_stack set_state set_dir_stack].
                 rewrite length_app. cbn [List.length]. lia.
              ** unfold same_settings, add_cnt. cbn. rewrite Hs2. tauto.
      * destruct HQ as [msg ->]. unfold mret. apply stepped_raise.
        -- unfold cur_depth. cbn [dir_stack set_cerr]. now rewrite Hd2.
        -- cbn [state set_cerr]. rewrite Hs2. apply same_settings_refl.
    + pose proof (stepped_popped A fuel IH self2 w2) as HQ.
      destruct (mbind (pop_dir_stack self2) _ w2) as [[[res self']| | |] w3];
        try exact I.
      eapply stepped_from; [| |exact HQ]; [|exact Hs2].
      unfold cur_depth. now rewrite Hd2.
    + unfold mret. apply stepped_raise.
      * unfold cur_depth. now rewrite Hd2.
      * rewrite Hs2. apply same_settings_refl.
  - destruct (negb (errno r =? 0)).
    { unfold mret. apply stepped_raise; [tauto|apply same_settings_refl]. }
    destruct (cookies self) as [c|].
    + destruct ((cur_depth self <? cookie_sz self)
                && negb (cookie_at c (cur_depth self) =? 0)).
      * unfold mret. apply stepped_raise; [tauto|apply same_settings_refl].
      * apply (stepped_popped A fuel IH).
    + apply (stepped_popped A fuel IH).
Qed.

End FsIterWalk.

Module FsIterNext.
Import CInt Wire Py Stat Kernel KernelSpec FsIter FsIterSpec FsIterFacts
  FsIterInv FsIterSteps FsIterWalk.
Local Open Scope string_scope.
Local Open Scope Z_scope.

(** Every result of [__next__], on every script of kernel replies. *)
Lemma next_stepped (A : assert_t) (self : FilesystemIteratorObject)
  (w : world) :
  match FilesystemIterator_next A self w with
  | (Done (res, self'), w') => stepped self res self'
  | _ => True
  end.
Proof.
  unfold FilesystemIterator_next. unfold mbind at 1.
  set (m1 := if fd (last self) >=? 0 then _ else _).
  assert (H1 : exists sa wa, m1 w = (Done sa, wa) /\
                 state sa = state self /\ dir_stack sa = dir_stack self).
  { subst m1. destruct (fd (last self) >=? 0).
    - unfold mbind, emit, mret. eexists. eexists. split; [reflexivity|].
      split; reflexivity.
    - unfold mret. eauto. }
  destruct H1 as (sa & wa & -> & Hsa & Hda). clearbody m1. clear m1.
  unfold mbind at 1.
  set (m2 := if skip_next_recursion sa then _ else _).
  assert (H2 : match m2 wa with
               | (Done sb, wb) =>
                   state sb = state self /\ cur_depth sb <= cur_depth self
               | _ => True
               end).
  { subst m2. destruct (skip_next_recursion sa).
    - cbv zeta. destruct (cur_depth (set_skip sa false) >? 0).
      + pose proof (pop_dir_stack_spec (set_skip sa false) wa) as HP.
        destruct (pop_dir_stack (set_skip sa false) wa) as [[sb| | |] wb];
          try exact I.
        destruct HP as [Hs Hd]. unfold cur_depth in *. cbn in Hd.
        rewrite Hda in Hd. split; [|exact Hd].
        destruct Hs as [->| ->]; cbn; exact Hsa.
      + unfold mret. split; [exact Hsa|].
        unfold cur_depth. cbn. rewrite Hda. lia.
    - unfold mret. split; [exact Hsa|]. unfold cur_depth. rewrite Hda. lia. }
  clearbody m2. destruct (m2 wa) as [[sb| | |] wb]; try exact I.
  destruct H2 as [Hsb Hdb].
  pose proof (next_loop_stepped A (S (List.length (script wb))) sb wb) as H.
  destruct (next_loop A _ sb wb) as [[[res self']| | |] w']; try exact I.
  eapply stepped_from; [| |exact H]; [lia|exact Hsb].
Qed.


Lemma next_yielded (A : assert_t) (self : FilesystemIteratorObject)
  (w : world) (inst : IterInstance) (self' : FilesystemIteratorObject)
  (w' : world) :
  FilesystemIterator_next A self w = (Done (Ok inst, self'), w') ->
  yielded (state self) inst self'.
Proof.
  intros H. pose proof (next_stepped A self w) as S. rewrite H in S.
  exact (proj2 (proj2 S)).
Qed.

Lemma old_file_step :
  FilesystemIterator_next assert_abort cutoff_iterator
    (mkWorld old_file_script []) =
  (Done (Ok old_file, after_old_file), after_old_file_world).
Proof. vm_compute. reflexivity. Qed.

End FsIterNext.

Module IterYield.
Import CInt Wire Py Stat Kernel KernelSpec FsIter FsIterSpec FsIterFacts
  FsIterInv FsIterSteps FsIterWalk FsIterNext.
Local Open Scope string_scope.
Local Open Scope Z_scope.

(** X1.  Whatever the kernel replies, a regular file that [__next__]
    yields while a birth-time cutoff is set was born no later than the
    cutoff. *)
Theorem next_respects_btime_cutoff
  (A : assert_t) (self : FilesystemIteratorObject) (w : world)
  (inst : IterInstance) (self' : FilesystemIteratorObject) (w' : world) :
  FilesystemIterator_next A self w = (Done (Ok inst, self'), w') ->
  i_isdir inst = false ->
  btime_cutoff (state self) <> 0 ->
  stx_btime_sec (i_statxinfo inst) <= btime_cutoff (state self).
Proof.
  intros H Hf Hc.
  destruct (next_yielded A self w inst self' w' H)
    as (_ & _ & _ & _ & _ & Hb & _).
  exact (Hb Hf Hc).
Qed.

Lemma next_respects_btime_cutoff_witness :
  FilesystemIterator_next assert_abort cutoff_iterator
    (mkWorld old_file_script []) =
  (Done (Ok old_file, after_old_file), after_old_file_world) /\
  i_isdir old_file = false /\
  btime_cutoff (state cutoff_iterator) <> 0 /\
  stx_btime_sec (i_statxinfo old_file) <= btime_cutoff (state cutoff_iterator).
Proof.
  assert (H1 : FilesystemIterator_next assert_abort cutoff_iterator
                 (mkWorld old_file_script []) =
               (Done (Ok old_file, after_old_file), after_old_file_world))
    by (vm_compute; reflexivity).
  assert (H2 : i_isdir old_file = false) by reflexivity.
  assert (H3 : btime_cutoff (state cutoff_iterator) <> 0)
    by (vm_compute; discriminate).
  split; [exact H1 | split; [exact H2 | split; [exact H3|]]].
  exact (next_respects_btime_cutoff assert_abort cutoff_iterator
           (mkWorld old_file_script []) old_file after_old_file
           after_old_file_world H1 H2 H3).
Defined.

(** X2.  Whatever the kernel replies, an entry that [__next__] yields is
    never [.] or [..], its descriptor is not negative, its [isdir] field
    is [S_ISDIR] of its [statx] mode, and the object keeps the entry as
    [last]; the following [__next__] closes that descriptor before it does
    anything else. *)
Theorem next_yields_open_entry
  (A : assert_t) (self : FilesystemIteratorObject) (w : world)
  (inst : IterInstance) (self' : FilesystemIteratorObject) (w' : world) :
  FilesystemIterator_next A self w = (Done (Ok inst, self'), w') ->
  i_name inst <> "." /\ i_name inst <> ".." /\
  0 <= i_fd inst /\
  i_isdir inst = S_ISDIR (stx_mode (i_statxinfo inst)) /\
  last self' =
    mkEntry (i_name inst) (i_statxinfo inst) (i_fd inst) (i_isdir inst) /\
  forall w2,
    FilesystemIterator_next A self' w2 =
    FilesystemIterator_next A (fd_closed self')
      (mkWorld (script w2) (trace w2 ++ [c_close (i_fd inst)])).
Proof.
  intros H.
  destruct (next_yielded A self w inst self' w' H)
    as (D1 & D2 & Hfd & Hlast & Hdir & _).
  repeat (split; [assumption|]).
  intros w2. unfold FilesystemIterator_next, fd_closed.
  rewrite Hlast. cbn [fd last set_last name st is_dir].
  destruct (Z.geb_spec (i_fd inst) 0) as [_|]; [|lia].
  change (-1 >=? 0) with false. cbv iota.
  unfold mbind, emit, mret. cbn [script trace]. reflexivity.
Qed.

Lemma next_yields_open_entry_witness :
  FilesystemIterator_next assert_abort cutoff_iterator
    (mkWorld old_file_script []) =
  (Done (Ok old_file, after_old_file), after_old_file_world) /\
  i_name old_file <> "." /\ 0 <= i_fd old_file /\
  last after_old_file = mkEntry "x" old_file_statx 7 false.
Proof.
  assert (H1 : FilesystemIterator_next assert_abort cutoff_iterator
                 (mkWorld old_file_script []) =
               (Done (Ok old_file, after_old_file), after_old_file_world))
    by (vm_compute; reflexivity).
  pose proof (next_yields_open_entry assert_abort cutoff_iterator
                (mkWorld old_file_script []) old_file after_old_file
                after_old_file_world H1) as T.
  split; [exact H1|].
  exact (conj (proj1 T)
           (conj (proj1 (proj2 (proj2 T)))
                 (proj1 (proj2 (proj2 (proj2 (proj2 T))))))).
Defined.

(** X3.  Whatever the kernel replies, a call of [__next__] that yields
    adds one to [cnt] and the size of a yielded file (nothing for a
    directory) to [cnt_bytes], both modulo 2^64, and leaves the cutoff and
    the open flags as they were. *)
Theorem next_counts_yield
  (A : assert_t) (self : FilesystemIteratorObject) (w : world)
  (inst : IterInstance) (self' : FilesystemIteratorObject) (w' : world) :
  FilesystemIterator_next A self w = (Done (Ok inst, self'), w') ->
  cnt (state self') = u64 (cnt (state self) + 1) /\
  cnt_bytes (state self') =
    u64 (cnt_bytes (state self) +
         (if i_isdir inst then 0 else stx_size (i_statxinfo inst))) /\
  btime_cutoff (state self') = btime_cutoff (state self) /\
  file_open_flags (state self') = file_open_flags (state self).
Proof.
  intros H.
  destruct (next_yielded A self w inst self' w' H)
    as (_ & _ & _ & _ & _ & _ & C & _).
  exact C.
Qed.

Lemma next_counts_yield_witness :
  FilesystemIterator_next assert_abort cutoff_iterator
    (mkWorld old_file_script []) =
  (Done (Ok old_file, after_old_file), after_old_file_world) /\
  cnt (state after_old_file) = u64 (cnt (state cutoff_iterator) + 1) /\
  cnt_bytes (state after_old_file) =
    u64 (cnt_bytes (state cutoff_iterator) + 3).
Proof.
  assert (H1 : FilesystemIterator_next assert_abort cutoff_iterator
                 (mkWorld old_file_script []) =
               (Done (Ok old_file, after_old_file), after_old_file_world))
    by (vm_compute; reflexivity).
  pose proof (next_counts_yield assert_abort cutoff_iterator
                (mkWorld old_file_script []) old_file after_old_file
                after_old_file_world H1) as T.
  split; [exact H1|].
  exact (conj (proj1 T) (proj1 (proj2 T))).
Defined.

(** X4.  Whatever the kernel replies, [__next__] keeps the directory stack
    within its [MAX_DEPTH] slots: when it returns, with an entry or with
    an exception, on an object that held at most [MAX_DEPTH] frames, the
    object still holds at most [MAX_DEPTH]. *)
Theorem next_keeps_depth_bound
  (A : assert_t) (self : FilesystemIteratorObject) (w : world)
  (res : result IterInstance) (self' : FilesystemIteratorObject)
  (w' : world) :
  FilesystemIterator_next A self w = (Done (res, self'), w') ->
  cur_depth self <= MAX_DEPTH ->
  cur_depth self' <= MAX_DEPTH.
Proof.
  intros H Hd. pose proof (next_stepped A self w) as S. rewrite H in S.
  exact (proj1 S Hd).
Qed.

Lemma next_keeps_depth_bound_witness :
  FilesystemIterator_next assert_abort cutoff_iterator
    (mkWorld old_file_script []) =
  (Done (Ok old_file, after_old_file), after_old_file_world) /\
  cur_depth cutoff_iterator <= MAX_DEPTH /\
  cur_depth after_old_file <= MAX_DEPTH.
Proof.
  assert (H1 : FilesystemIterator_next assert_abort cutoff_iterator
                 (mkWorld old_file_script []) =
               (Done (Ok old_file, after_old_file), after_old_file_world))
    by (vm_compute; reflexivity).
  assert (H2 : cur_depth cutoff_iterator <= MAX_DEPTH)
    by (vm_compute; discriminate).
  split; [exact H1 | split; [exact H2|]].
  exact (next_keeps_depth_bound assert_abort cutoff_iterator
           (mkWorld old_file_script []) (Ok old_file) after_old_file
           after_old_file_world H1 H2).
Defined.

Lemma last_app_one {X} (l : list X) (x d : X) : List.last (l ++ [x]) d = x.
Proof. apply last_last. Qed.

(** X5.  Whatever the kernel replies, when [__next__] yields a directory
    that directory is the new top of the stack: its frame holds the first
    [PATH_MAX - 1] bytes of [parent/name], all of it when that is shorter
    than [PATH_MAX], with the directory's inode.  [get_stats()] then
    reports that path as the current directory, or raises
    UnicodeDecodeError when the cut has left bytes that are not UTF-8;
    [dir_stack()], when it returns, ends with that path and inode.  When
    [__next__] yields a file, [get_stats()] reports the file's parent as
    the current directory. *)
Theorem next_yield_position
  (A : assert_t) (self : FilesystemIteratorObject) (w : world)
  (inst : IterInstance) (self' : FilesystemIteratorObject) (w' : world) :
  FilesystemIterator_next A self w = (Done (Ok inst, self'), w') ->
  (i_isdir inst = false ->
   FilesystemIterator_get_stats self' =
   Ok (mkIterState (cnt (state self')) (cnt_bytes (state self'))
         (i_parent inst))) /\
  (i_isdir inst = true ->
   (exists dup_fd,
       List.last (map Some (dir_stack self')) None =
       Some (mkDir (snprintf PATH_MAX (i_parent inst ++ "/" ++ i_name inst))
               dup_fd (stx_ino (i_statxinfo inst)))) /\
   FilesystemIterator_get_stats self' =
   (if utf8_valid (snprintf PATH_MAX (i_parent inst ++ "/" ++ i_name inst))
    then Ok (mkIterState (cnt (state self')) (cnt_bytes (state self'))
               (snprintf PATH_MAX (i_parent inst ++ "/" ++ i_name inst)))
    else Raise UnicodeDecodeError) /\
   (forall t,
       FilesystemIterator_dir_stack self' = Ok t ->
       List.last t ("", 0) =
       (snprintf PATH_MAX (i_parent inst ++ "/" ++ i_name inst),
        stx_ino (i_statxinfo inst))) /\
   (Z.of_nat (String.length (i_parent inst ++ "/" ++ i_name inst))
    < PATH_MAX ->
    snprintf PATH_MAX (i_parent inst ++ "/" ++ i_name inst) =
    i_parent inst ++ "/" ++ i_name inst /\
    utf8_valid (snprintf PATH_MAX (i_parent inst ++ "/" ++ i_name inst))
    = true)).
Proof.
  intros H.
  destruct (next_yielded A self w inst self' w' H)
    as (_ & _ & _ & _ & _ & _ & _ & P & Hup & Hun).
  unfold FilesystemIterator_get_stats, FilesystemIterator_dir_stack,
    build_dir_stack_tuple, py_fsiter_state_from_struct, PyUnicode_FromString.
  destruct (i_isdir inst).
  - split; [intros X; discriminate X|]. intros _.
    destruct P as (below & parent & dup_fd & -> & _ & _).
    set (top := snprintf PATH_MAX (i_parent inst ++ "/" ++ i_name inst)).
    replace (below ++ [parent; mkDir top dup_fd
                                 (stx_ino (i_statxinfo inst))])%list
      with ((below ++ [parent]) ++
            [mkDir top dup_fd (stx_ino (i_statxinfo inst))])%list
      by (rewrite <- app_assoc; reflexivity).
    rewrite map_app. cbn [map]. rewrite last_app_one. cbn [path].
    split; [eauto|]. split.
    { destruct (utf8_valid top); reflexivity. }
    split.
    { intros t Ht. rewrite dir_stack_entries_spec in Ht.
      destruct (forallb _ _); [|discriminate Ht].
      injection Ht as <-. rewrite map_app. cbn [map].
      now rewrite last_app_one. }
    intros Hlen. subst top. rewrite (snprintf_fits _ _ Hlen).
    split; [reflexivity|].
    apply utf8_valid_app; [exact Hup|].
    apply utf8_valid_app; [reflexivity|exact Hun].
  - split; [|intros X; discriminate X]. intros _.
    destruct P as (below & parent & -> & Hp).
    rewrite map_app. cbn [map]. rewrite last_app_one, Hp, Hup.
    reflexivity.
Qed.

Lemma next_yield_position_witness :
  FilesystemIterator_next assert_abort root_iterator
    (mkWorld dir_a_script []) =
  (Done (Ok dir_a, after_dir_a), after_dir_a_world) /\
  i_isdir dir_a = true /\
  FilesystemIterator_get_stats after_dir_a =
  Ok (mkIterState 1 0 "/mnt/t/a") /\
  forall t,
    FilesystemIterator_dir_stack after_dir_a = Ok t ->
    List.last t ("", 0) = ("/mnt/t/a", 11).
Proof.
  assert (H1 : FilesystemIterator_next assert_abort root_iterator
                 (mkWorld dir_a_script []) =
               (Done (Ok dir_a, after_dir_a), after_dir_a_world))
    by (vm_compute; reflexivity).
  assert (H2 : i_isdir dir_a = true) by reflexivity.
  split; [exact H1 | split; [exact H2|]].
  pose proof (proj2 (next_yield_position assert_abort root_iterator
                       (mkWorld dir_a_script []) dir_a after_dir_a
                       after_dir_a_world H1) H2) as T.
  exact (conj (proj1 (proj2 T)) (proj1 (proj2 (proj2 T)))).
Defined.

End IterYield.

Module IterControl.
Import CInt Wire Py Stat Kernel KernelSpec FsIter FsIterSpec FsIterFacts
  FsIterInv FsIterSteps FsIterWalk FsIterNext.
Local Open Scope string_scope.
Local Open Scope Z_scope.

Lemma last_some_app (l : list iter_dir_t) (d : iter_dir_t) :
  List.last (map Some (l ++ [d])) None = Some d.
Proof. rewrite map_app. cbn [map]. apply last_last. Qed.

(** The prologue of [__next__] when a descriptor is out and [skip()] has
    been called. *)
Lemma next_after_skip (A : assert_t) (self : FilesystemIteratorObject)
  (w : world) (below : list iter_dir_t) (top : iter_dir_t) :
  0 <= fd (last self) ->
  skip_next_recursion self = true ->
  dir_stack self = (below ++ [top])%list ->
  FilesystemIterator_next A self w =
  FilesystemIterator_next A (skipped self)
    (mkWorld (script w)
       (trace w ++ [c_close (fd (last self)); c_closedir (dirp top)])).
Proof.
  intros Hfd Hskip Hstack.
  unfold FilesystemIterator_next, skipped, fd_closed, pop_dir_stack,
    cur_depth, mbind, emit, mret.
  cbn [last set_skip set_last set_dir_stack fd skip_next_recursion dir_stack
       name st is_dir script trace].
  destruct (Z.geb_spec (fd (last self)) 0) as [_|]; [|lia].
  change (-1 >=? 0) with false. cbv iota.
  cbn [last set_skip set_last set_dir_stack fd skip_next_recursion dir_stack
       name st is_dir script trace].
  rewrite Hskip. cbn [dir_stack set_skip set_last].
  rewrite Hstack, length_app. cbn [List.length].
  replace (Z.of_nat (List.length below + 1) >? 0) with true
    by (symmetry; rewrite Z.gtb_ltb; apply Z.ltb_lt; lia).
  rewrite last_some_app, removelast_last.
  cbn [script trace dirp set_dir_stack set_skip set_last skip_next_recursion].
  rewrite <- app_assoc. reflexivity.
Qed.

(** X6.  [skip()] is refused with ValueError unless the entry last yielded
    is a directory.  After a directory has been yielded and [skip()]
    called, the following [__next__] closes the descriptor handed out and
    the directory stream just pushed, and goes on as on the stack without
    that directory: nothing is read from the skipped directory. *)
Theorem skip_leaves_directory
  (A : assert_t) (self : FilesystemIteratorObject) (w : world)
  (inst : IterInstance) (self' : FilesystemIteratorObject) (w' : world) :
  FilesystemIterator_next A self w = (Done (Ok inst, self'), w') ->
  (i_isdir inst = false ->
   exists msg, FilesystemIterator_skip self' = Raise (ValueError msg)) /\
  (i_isdir inst = true ->
   FilesystemIterator_skip self' = Ok (set_skip self' true) /\
   exists dup_fd,
     List.last (map dirp (dir_stack self')) 0 = dup_fd /\
     forall w2,
       FilesystemIterator_next A (set_skip self' true) w2 =
       FilesystemIterator_next A (skipped self')
         (mkWorld (script w2)
            (trace w2 ++ [c_close (i_fd inst); c_closedir dup_fd]))).
Proof.
  intros H.
  destruct (next_yielded A self w inst self' w' H)
    as (_ & _ & Hfd & Hlast & _ & _ & _ & P & _).
  unfold FilesystemIterator_skip. rewrite Hlast. cbn [is_dir].
  split.
  - intros ->. cbn [negb]. eauto.
  - intros E. rewrite E in *. cbn [negb]. split; [reflexivity|].
    destruct P as (below & parent & dup_fd & Hstack & _ & _).
    assert (Hfdl : fd (last (set_skip self' true)) = i_fd inst)
      by (cbn; rewrite Hlast; reflexivity).
    set (top := snprintf PATH_MAX (i_parent inst ++ "/" ++ i_name inst))
      in Hstack.
    exists dup_fd. split.
    { rewrite Hstack.
      replace (below ++ [parent; mkDir top dup_fd
                                   (stx_ino (i_statxinfo inst))])%list
        with ((below ++ [parent]) ++
              [mkDir top dup_fd (stx_ino (i_statxinfo inst))])%list
        by (rewrite <- app_assoc; reflexivity).
      rewrite map_app. cbn [map]. apply last_last. }
    intros w2. rewrite <- Hfdl.
    apply (next_after_skip A (set_skip self' true) w2 (below ++ [parent])
             (mkDir top dup_fd (stx_ino (i_statxinfo inst)))).
    + cbn. rewrite Hlast. exact Hfd.
    + reflexivity.
    + cbn. rewrite Hstack, <- app_assoc. reflexivity.
Qed.

Lemma skip_leaves_directory_witness :
  FilesystemIterator_next assert_abort root_iterator
    (mkWorld dir_a_script []) =
  (Done (Ok dir_a, after_dir_a), after_dir_a_world) /\
  FilesystemIterator_skip after_dir_a = Ok (set_skip after_dir_a true).
Proof.
  assert (H1 : FilesystemIterator_next assert_abort root_iterator
                 (mkWorld dir_a_script []) =
               (Done (Ok dir_a, after_dir_a), after_dir_a_world))
    by (vm_compute; reflexivity).
  split; [exact H1|].
  exact (proj1 (proj2 (skip_leaves_directory assert_abort root_iterator
                         (mkWorld dir_a_script []) dir_a after_dir_a
                         after_dir_a_world H1) eq_refl)).
Defined.

End IterControl.

Module FsIterFuel.
Import CInt Wire Py Stat Kernel KernelSpec FsIter FsIterSpec FsIterFacts
  FsIterInv FsIterSteps FsIterWalk FsIterNext.
Local Open Scope string_scope.
Local Open Scope Z_scope.

Lemma assert_abort_sound : assert_sound assert_abort.
Proof.
  split; [reflexivity|].
  intros [] m w; unfold assert_abort, mret, fatal; [now left|].
  right. eauto.
Qed.

Lemma assert_off_sound : assert_sound assert_off.
Proof. split; [reflexivity|]. intros t m w. now left. Qed.

(** The steps of the iterator only ever consume replies. *)
Lemma process_next_entry_shrinks self cur_dir entry w :
  (List.length (script (snd (process_next_entry self cur_dir entry w)))
   <= List.length (script w))%nat.
Proof.
  unfold process_next_entry, mbind, sys, emit, mret.
  destruct (script w) as [|r s] eqn:E; cbn [snd script]; [cbn; lia|].
  destruct (ret r <? 0).
  - destruct (_ || _); cbn; lia.
  - cbn [script trace]. destruct s as [|r2 s]; cbn [snd script]; [cbn; lia|].
    destruct (ret r2 <? 0); [cbn; lia|].
    destruct (_ && _); cbn; lia.
Qed.

Lemma process_retry_loop_shrinks cur_dir entry :
  forall fuel self w,
    (List.length (script (snd (process_retry_loop fuel self cur_dir entry w)))
     <= List.length (script w))%nat.
Proof.
  induction fuel as [|fuel IH]; intros self w; [cbn; lia|].
  cbn [process_retry_loop]. unfold mbind at 1.
  pose proof (process_next_entry_shrinks self cur_dir entry w) as H.
  destruct (process_next_entry self cur_dir entry w)
    as [[[[a e] s1]| | |] w1]; cbn [snd] in *; try exact H.
  destruct a; try exact H.
  destruct (e =? EINTR); [|exact H].
  unfold mbind, sys. destruct (script w1) as [|r s] eqn:E;
    cbn [snd script]; [cbn; lia|].
  destruct (ret r =? 0); [|cbn in *; lia].
  specialize (IH s1 (mkWorld s (trace w1 ++ [c_PyErr_CheckSignals]))).
  cbn [script] in IH. cbn [List.length] in H. lia.
Qed.

Lemma process_retry_shrinks self cur_dir entry w :
  (List.length (script (snd (process_retry self cur_dir entry w)))
   <= List.length (script w))%nat.
Proof. apply process_retry_loop_shrinks. Qed.

Lemma push_dir_stack_shrinks self cur_dir w :
  (List.length (script (snd (push_dir_stack self cur_dir w)))
   <= List.length (script w))%nat.
Proof.
  unfold push_dir_stack, mbind, sys, emit, mret.
  destruct (cur_depth self >=? MAX_DEPTH); [cbn; lia|].
  destruct (script w) as [|r s] eqn:E; cbn [snd script]; [cbn; lia|].
  destruct (ret r <? 0); [cbn; lia|].
  cbn [script trace]. destruct s as [|r2 s]; cbn [snd script]; [cbn; lia|].
  destruct (ret r2 =? 0); cbn; lia.
Qed.

Lemma pop_dir_stack_keeps self w :
  script (snd (pop_dir_stack self w)) = script w.
Proof.
  unfold pop_dir_stack, mbind, emit, mret.
  destruct (List.last _ _); reflexivity.
Qed.

Lemma mbind_ext {X Y} (m : M X) (k1 k2 : X -> M Y) (w : world) :
  (forall x w', m w = (Done x, w') -> k1 x w' = k2 x w') ->
  mbind m k1 w = mbind m k2 w.
Proof.
  intros H. unfold mbind. destruct (m w) as [[x| | |] w']; auto.
Qed.

Lemma sys_shrinks (c : call) (w : world) (r : reply) (w' : world) :
  sys c w = (Done r, w') ->
  (List.length (script w') < List.length (script w))%nat.
Proof.
  unfold sys. destruct (script w) as [|x s]; intros H; inversion H.
  cbn. lia.
Qed.

Lemma assert_keeps (A : assert_t) (HA : assert_sound A) test message w x w' :
  A test message w = (Done x, w') -> script w' = script w.
Proof.
  intros H. destruct (proj2 HA test message w) as [E|[m E]]; rewrite E in H;
    inversion H. reflexivity.
Qed.

Ltac shrink_by L E :=
  let H := fresh "L" in
  pose proof L as H; rewrite E in H; cbn [snd] in H.

(** Beyond the length of the script, fuel makes no difference: every turn
    of the loop takes a reply. *)
Lemma next_loop_fuel (A : assert_t) (HA : assert_sound A) :
  forall (f1 f2 : nat) (self : FilesystemIteratorObject) (w : world),
    (List.length (script w) < f1)%nat ->
    (List.length (script w) < f2)%nat ->
    next_loop A f1 self w = next_loop A f2 self w.
Proof.
  induction f1 as [|f1 IH]; intros f2 self w H1 H2; [lia|].
  destruct f2 as [|f2]; [lia|].
  cbn [next_loop].
  destruct (List.last (map Some (dir_stack self)) None) as [cur_dir|];
    [|reflexivity].
  apply mbind_ext. intros [] w0 E0.
  apply (assert_keeps A HA) in E0.
  apply (f_equal (@List.length reply)) in E0.
  apply mbind_ext. intros r w1 E1. apply sys_shrinks in E1.
  assert (pop_case : forall s w2,
             (List.length (script w2) <= List.length (script w1))%nat ->
             mbind (pop_dir_stack s) (fun s => next_loop A f1 s) w2 =
             mbind (pop_dir_stack s) (fun s => next_loop A f2 s) w2).
  { intros s w2 Hw. apply mbind_ext. intros s' w3 E3.
    shrink_by (pop_dir_stack_keeps s w2) E3. apply IH; rewrite L; lia. }
  destruct (dirent r) as [d|].
  - destruct (ISDOT (d_name d) || ISDOTDOT (d_name d)); [apply IH; lia|].
    cbv zeta.
    match goal with
    | |- context [negb (?c =? 0) && negb (d_ino d =? ?c)] =>
        destruct (negb (c =? 0) && negb (d_ino d =? c)); [apply IH; lia|]
    end.
    apply mbind_ext. intros [action self2] w2 E2.
    match type of E2 with
    | process_retry ?s ?c ?e ?w = _ =>
        shrink_by (process_retry_shrinks s c e w) E2
    end.
    destruct action; try reflexivity.
    + apply IH; lia.
    + match goal with
      | |- context [if restoring_from_cookie self2 then ?a else ?b] =>
          destruct (if restoring_from_cookie self2 then a else b)
            as [result|e]; [|reflexivity]
      end.
      apply mbind_ext. intros [ok self4] w3 E3.
      shrink_by (push_dir_stack_shrinks self2 cur_dir w2) E3.
      destruct ok; cbn [negb]; [|reflexivity].
      destruct (restoring_from_cookie self4); [|reflexivity].
      apply IH; lia.
    + apply pop_case. lia.
  - destruct (negb (errno r =? 0)); [reflexivity|].
    destruct (cookies self) as [c|].
    + destruct (_ && _); [reflexivity|]. apply pop_case. lia.
    + apply pop_case. lia.
Qed.

(** With no descriptor out and no [skip()] pending, [__next__] is its
    main loop. *)
Lemma next_plain (A : assert_t) (self : FilesystemIteratorObject) (w : world) :
  fd (last self) < 0 -> skip_next_recursion self = false ->
  FilesystemIterator_next A self w =
  next_loop A (S (List.length (script w))) self w.
Proof.
  intros Hfd Hskip. unfold FilesystemIterator_next.
  destruct (Z.geb_spec (fd (last self)) 0) as [|_]; [lia|].
  unfold mbind, mret. rewrite Hskip. reflexivity.
Qed.

(** One turn of the loop that goes on with [self'] in [w']. *)
Lemma next_turn (A : assert_t) (HA : assert_sound A)
  (self self' : FilesystemIteratorObject) (w w' : world) :
  fd (last self) < 0 -> skip_next_recursion self = false ->
  fd (last self') < 0 -> skip_next_recursion self' = false ->
  (List.length (script w') < List.length (script w))%nat ->
  (forall fuel, next_loop A (S fuel) self w = next_loop A fuel self' w') ->
  FilesystemIterator_next A self w = FilesystemIterator_next A self' w'.
Proof.
  intros F1 S1 F2 S2 Hlen Hturn.
  rewrite (next_plain A self w F1 S1), (next_plain A self' w' F2 S2).
  rewrite Hturn. apply (next_loop_fuel A HA); lia.
Qed.

End FsIterFuel.

Module IterTurns.
Import CInt Wire Py Stat Kernel KernelSpec FsIter FsIterSpec FsIterFacts
  FsIterInv FsIterSteps FsIterWalk FsIterNext FsIterFuel.
Local Open Scope string_scope.
Local Open Scope Z_scope.






(** X8.  While the cookie of the current depth is pending, an entry with
    another inode number is passed over without being opened: [__next__]
    returns what it returns on the directory stream without that entry,
    having made only the [readdir].  When the directory ends with the
    cookie still pending, [__next__] leaves the stack as it was and
    raises the restore error carrying the depth and the path of the
    directory, or UnicodeDecodeError when that path is not UTF-8 and the
    [path] attribute cannot be built. *)
Theorem resume_seeks_cookie
  (A : assert_t) (self : FilesystemIteratorObject) (cur_dir : iter_dir_t)
  (c : list Z) (rest : list reply) (tr : list call) :
  assert_sound A ->
  fd (last self) < 0 -> skip_next_recursion self = false ->
  List.last (map Some (dir_stack self)) None = Some cur_dir ->
  cur_depth self < MAX_DEPTH ->
  cookies self = Some c ->
  cur_depth self < cookie_sz self ->
  cookie_at c (cur_depth self) <> 0 ->
  (forall d, d_ino d <> cookie_at c (cur_depth self) ->
     FilesystemIterator_next A self (mkWorld (r_dirent d :: rest) tr) =
     FilesystemIterator_next A self
       (mkWorld rest (tr ++ [c_readdir (dirp cur_dir)]))) /\
  FilesystemIterator_next A self (mkWorld (r_eof :: rest) tr) =
  (Done (Raise (if utf8_valid (path cur_dir)
                then IteratorRestoreError (cur_depth self) (path cur_dir)
                else UnicodeDecodeError), self),
   mkWorld rest (tr ++ [c_readdir (dirp cur_dir)])).
Proof.
  intros HA Hfd Hskip Htop Hdepth Hck Hsz Hpend. split.
  - intros d Hino.
    apply (next_turn A HA); try assumption.
    { cbn. lia. }
    intros fuel. cbn [next_loop]. rewrite Htop.
    destruct (Z.ltb_spec (cur_depth self) MAX_DEPTH) as [_|]; [|lia].
    unfold mbind at 1. rewrite (proj1 HA).
    unfold mbind at 1, sys at 1. cbn [script trace dirent r_dirent].
    destruct (ISDOT (d_name d) || ISDOTDOT (d_name d)); [reflexivity|].
    rewrite Hck.
    destruct (Z.ltb_spec (cur_depth self) (cookie_sz self)) as [_|]; [|lia].
    destruct (Z.eqb_spec (cookie_at c (cur_depth self)) 0) as [|_];
      [contradiction|].
    destruct (Z.eqb_spec (d_ino d) (cookie_at c (cur_depth self))) as [|_];
      [contradiction|].
    reflexivity.
  - rewrite (next_plain A self _ Hfd Hskip). cbn [next_loop]. rewrite Htop.
    destruct (Z.ltb_spec (cur_depth self) MAX_DEPTH) as [_|]; [|lia].
    unfold mbind at 1. rewrite (proj1 HA).
    unfold mbind at 1, sys at 1. cbn [script trace dirent r_eof errno].
    cbn [Z.eqb negb]. rewrite Hck.
    destruct (Z.ltb_spec (cur_depth self) (cookie_sz self)) as [_|]; [|lia].
    destruct (Z.eqb_spec (cookie_at c (cur_depth self)) 0) as [|_];
      [contradiction|].
    unfold set_iterator_restore_error, PyUnicode_FromString.
    destruct (utf8_valid (path cur_dir)); reflexivity.
Qed.

Lemma resume_seeks_cookie_witness :
  FilesystemIterator_next assert_abort nested_iterator
    (mkWorld (r_eof :: []) []) =
  (Done (Raise (IteratorRestoreError 1 "/mnt/t"), nested_iterator),
   mkWorld [] [c_readdir 3]).
Proof.
  assert (H : cookie_at [10; 11] (cur_depth nested_iterator) <> 0)
    by (vm_compute; discriminate).
  exact (proj2 (resume_seeks_cookie assert_abort nested_iterator
                  (mkDir "/mnt/t" 3 10) [10; 11] [] [] assert_abort_sound
                  eq_refl eq_refl eq_refl eq_refl eq_refl eq_refl H)).
Defined.

(** X9.  When the current directory ends and no cookie is pending at its
    depth (there is no cookie array, or the depth lies beyond it, or the
    cookie of the depth is already cleared), [__next__] closes its
    stream, drops its frame and goes on with the parent.  When that
    directory was the only frame the iteration is over: [__next__] raises
    StopIteration, and on the emptied stack every later call raises
    StopIteration again without making a call. *)
Theorem end_of_directory
  (A : assert_t) (self : FilesystemIteratorObject) (cur_dir : iter_dir_t)
  (rest : list reply) (tr : list call) :
  assert_sound A ->
  fd (last self) < 0 -> skip_next_recursion self = false ->
  List.last (map Some (dir_stack self)) None = Some cur_dir ->
  cur_depth self < MAX_DEPTH ->
  pending_cookie self = 0 ->
  FilesystemIterator_next A self (mkWorld (r_eof :: rest) tr) =
  FilesystemIterator_next A (popped self)
    (mkWorld rest
       (tr ++ [c_readdir (dirp cur_dir); c_closedir (dirp cur_dir)])) /\
  (dir_stack self = [cur_dir] ->
   FilesystemIterator_next A self (mkWorld (r_eof :: rest) tr) =
   (Done (Raise StopIteration, popped self),
    mkWorld rest
      (tr ++ [c_readdir (dirp cur_dir); c_closedir (dirp cur_dir)])) /\
   forall w,
     FilesystemIterator_next A (popped self) w =
     (Done (Raise StopIteration, popped self), w)).
Proof.
  intros HA Hfd Hskip Htop Hdepth Hpc.
  assert (E : FilesystemIterator_next A self (mkWorld (r_eof :: rest) tr) =
              FilesystemIterator_next A (popped self)
                (mkWorld rest
                   (tr ++ [c_readdir (dirp cur_dir);
                           c_closedir (dirp cur_dir)]))).
  { apply (next_turn A HA); try assumption.
    { cbn. lia. }
    intros fuel. cbn [next_loop]. rewrite Htop.
    destruct (Z.ltb_spec (cur_depth self) MAX_DEPTH) as [_|]; [|lia].
    unfold mbind at 1. rewrite (proj1 HA).
    unfold mbind at 1, sys at 1. cbn [script trace dirent r_eof errno].
    cbn [Z.eqb negb].
    assert (Hpop : mbind (pop_dir_stack self)
                     (fun self => next_loop A fuel self)
                     (mkWorld rest (tr ++ [c_readdir (dirp cur_dir)])) =
                   next_loop A fuel (popped self)
                     (mkWorld rest
                        (tr ++ [c_readdir (dirp cur_dir);
                                c_closedir (dirp cur_dir)]))).
    { unfold mbind at 1, pop_dir_stack. rewrite Htop.
      unfold mbind, emit, mret. cbn [script trace].
      rewrite <- app_assoc. reflexivity. }
    unfold pending_cookie in Hpc.
    destruct (cookies self) as [c|]; [|exact Hpop].
    destruct (cur_depth self <? cookie_sz self); cbn [andb];
      [|exact Hpop].
    rewrite Hpc. cbn [Z.eqb negb]. exact Hpop. }
  split; [exact E|]. intros Hone.
  assert (X : forall w,
             FilesystemIterator_next A (popped self) w =
             (Done (Raise StopIteration, popped self), w)).
  { intros w. rewrite (next_plain A (popped self) w Hfd Hskip).
    cbn [next_loop]. unfold popped. cbn [dir_stack set_dir_stack].
    rewrite Hone. reflexivity. }
  split; [|exact X]. rewrite E. apply X.
Qed.

Lemma end_of_directory_witness :
  pending_cookie resumed_iterator = 0 /\
  cookies resumed_iterator = Some [10] /\
  FilesystemIterator_next assert_abort resumed_iterator
    (mkWorld (r_eof :: []) []) =
  (Done (Raise StopIteration, popped resumed_iterator),
   mkWorld [] [c_readdir 3; c_closedir 3]).
Proof.
  assert (H1 : cur_depth resumed_iterator < MAX_DEPTH) by reflexivity.
  assert (H2 : pending_cookie resumed_iterator = 0) by reflexivity.
  split; [exact H2 | split; [reflexivity|]].
  exact (proj1 (proj2 (end_of_directory assert_abort resumed_iterator
                         (mkDir "/mnt/t" 3 10) [] [] assert_abort_sound
                         eq_refl eq_refl eq_refl H1 H2)
                  eq_refl)).
Defined.

End IterTurns.

Module IterSetup.
Import CInt Wire Py Stat Kernel KernelSpec FsIter FsIterSpec FsIterFacts
  FsIterInv FsIterSteps FsIterWalk FsIterNext FsIterFuel.
Local Open Scope string_scope.
Local Open Scope Z_scope.

Lemma cookies_of_frames (l : list iter_dir_t) :
  Forall (fun d => 0 <= ino d <= UINT64_MAX) l ->
  cookies_of (map (fun d => (path d, ino d)) l) = Ok (map ino l).
Proof.
  induction 1 as [|d l Hd _ IH]; [reflexivity|].
  cbn [map cookies_of].
  destruct (Z.leb_spec 0 (ino d)); [|lia].
  destruct (Z.leb_spec (ino d) UINT64_MAX); [|lia].
  cbn [andb]. rewrite IH. reflexivity.
Qed.

(** X10.  [dir_stack()] returns the path and the inode of every frame,
    root first, when the path of every frame is UTF-8, and raises
    UnicodeDecodeError when one is not.  A snapshot it returns turns back
    into the inode chain of the stack it was taken from:
    [dir_stack_to_cookies] on it gives one cookie per frame, the frame's
    inode, in order, and as many cookies as [cur_depth]; on the snapshot
    of an exhausted iterator it gives no cookies at all. *)
Theorem snapshot_gives_inode_chain (self : FilesystemIteratorObject) :
  inodes_fit self ->
  match FilesystemIterator_dir_stack self with
  | Ok t =>
      paths_decodable self = true /\
      t = map (fun d => (path d, ino d)) (dir_stack self) /\
      dir_stack_to_cookies (Some t) =
      Ok (match dir_stack self with
          | [] => (None, 0)
          | _ :: _ => (Some (map ino (dir_stack self)), cur_depth self)
          end)
  | Raise e => paths_decodable self = false /\ e = UnicodeDecodeError
  end.
Proof.
  unfold inodes_fit, FilesystemIterator_dir_stack, build_dir_stack_tuple,
    paths_decodable.
  intros H. rewrite dir_stack_entries_spec.
  destruct (forallb _ (dir_stack self)); [|split; reflexivity].
  split; [reflexivity|]. split; [reflexivity|].
  unfold dir_stack_to_cookies, cur_depth. rewrite length_map.
  destruct (dir_stack self) as [|d l] eqn:E; [reflexivity|].
  destruct (Z.eqb_spec (Z.of_nat (List.length (d :: l))) 0) as [X|_];
    [cbn in X; lia|].
  rewrite (cookies_of_frames (d :: l) H). reflexivity.
Qed.

Lemma snapshot_gives_inode_chain_witness :
  inodes_fit after_dir_a /\
  FilesystemIterator_dir_stack after_dir_a =
  Ok [("/mnt/t", 10); ("/mnt/t/a", 11)] /\
  dir_stack_to_cookies (Some [("/mnt/t", 10); ("/mnt/t/a", 11)]) =
  Ok (Some [10; 11], 2).
Proof.
  assert (H : inodes_fit after_dir_a).
  { repeat constructor; cbn; discriminate. }
  split; [exact H|].
  pose proof (snapshot_gives_inode_chain after_dir_a H) as T.
  split; [reflexivity|].
  exact (proj2 (proj2 T)).
Defined.

(** X11.  [create_filesystem_iterator] on any script of kernel replies.
    When it fails, either nothing was opened (a bad snapshot or a path of
    [PATH_MAX] characters or more: no call at all; a failed [openat2]: that
    call only), or the last call made is the [close] of the root
    descriptor that [openat2] returned.  When it succeeds the root
    descriptor is not closed: it is the stream of the single frame of the
    new iterator, which has no entry descriptor out and no [skip()]
    pending. *)
Theorem create_releases_root_fd
  (mountpoint : string) (relative_path : option string)
  (filesystem_name : string) (st0 : iter_state_t) (increment : Z)
  (cb : option reporting_cb_t) (snapshot : option dir_stack_tuple)
  (s : list reply) :
  match run (create_filesystem_iterator mountpoint relative_path
               filesystem_name st0 increment cb snapshot) s with
  | (Done (Raise e), w') =>
      (trace w' = [] /\ script w' = s) \/
      (exists r rest p,
          s = r :: rest /\
          ((ret r < 0 /\
            trace w' = [c_openat2 AT_FDCWD p OFLAGS_DIR_ITER
                          RESOLVE_NO_SYMLINKS]) \/
           (0 <= ret r /\
            List.last (trace w') c_PyErr_CheckSignals = c_close (ret r))))
  | (Done (Ok it), w') =>
      exists r rest p inode,
        s = r :: rest /\ 0 <= ret r /\
        dir_stack it = [mkDir p (ret r) inode] /\
        existsb is_close (trace w') = false /\
        state it = st0 /\
        fd (last it) = -1 /\ skip_next_recursion it = false
  | _ => True
  end.
Proof.
  unfold run, create_filesystem_iterator.
  destruct (dir_stack_to_cookies snapshot) as [[ck sz]|e];
    [|unfold mret; left; split; reflexivity].
  set (p := match relative_path with
            | Some rp => if String.eqb rp "" then mountpoint
                         else mountpoint ++ "/" ++ rp
            | None => mountpoint
            end).
  destruct (Z.of_nat (String.length p) >=? PATH_MAX);
    [unfold mret; left; split; reflexivity|].
  unfold mbind, sys, emit, mret. cbn [script trace app].
  destruct s as [|r s]; [exact I|].
  destruct (Z.ltb_spec (ret r) 0) as [Hr|Hr].
  { right. exists r, s, p. split; [reflexivity|]. left. auto. }
  cbn [script trace].
  destruct s as [|r2 s]; [exact I|].
  destruct (ret r2 <? 0).
  { right. exists r, (r2 :: s), p. split; [reflexivity|]. right. auto. }
  destruct (S_ISDIR (stx_mode (stx r2))); cbn [negb].
  2:{ right. exists r, (r2 :: s), p. split; [reflexivity|]. right. auto. }
  cbn [script trace].
  destruct s as [|r3 s]; [exact I|].
  destruct (ret r3 <? 0).
  { right. exists r, (r2 :: r3 :: s), p. split; [reflexivity|]. right. auto. }
  destruct (String.eqb (text r3) filesystem_name); cbn [negb].
  2:{ right. exists r, (r2 :: r3 :: s), p. split; [reflexivity|].
      right. auto. }
  cbn [script trace].
  destruct s as [|r4 s]; [exact I|].
  destruct (ret r4 =? 0).
  { right. exists r, (r2 :: r3 :: r4 :: s), p. split; [reflexivity|].
    right. auto. }
  exists r, (r2 :: r3 :: r4 :: s), p, (stx_ino (stx r2)).
  repeat split; auto.
Qed.

End IterSetup.

Module POSIXExact.
Import CInt Wire Py Stat POSIX POSIXSpec POSIXForm WireFacts BitFacts
  POSIXFacts POSIXValid.

Ltac eval_eqb :=
  repeat match goal with
         | |- context [?a =? ?b] =>
             let v := eval vm_compute in (a =? b) in
             match v with
             | true => change (a =? b) with true
             | false => change (a =? b) with false
             end
         end.

Lemma tags_known_cons e es :
  tags_known (e :: es) = tag_known e && tags_known es.
Proof. reflexivity. Qed.

Lemma tag_known_cases e :
  tag_known e =
  (e_tag e =? POSIX_TAG_USER_OBJ) || (e_tag e =? POSIX_TAG_USER)
  || (e_tag e =? POSIX_TAG_GROUP_OBJ) || (e_tag e =? POSIX_TAG_GROUP)
  || (e_tag e =? POSIX_TAG_MASK) || (e_tag e =? POSIX_TAG_OTHER).
Proof.
  unfold tag_known, posix_tag_table. cbn [existsb].
  rewrite orb_false_r, !orb_assoc. reflexivity.
Qed.

(** The entry loop of the validator: it succeeds exactly on known tags
    and concrete ids, and then holds the counts. *)
Lemma count_tags_exact (d : bytes) (label : string) :
  forall (n : nat) (i : Z) (c : tag_counts),
    fits c n ->
    match count_tags d n i label c with
    | Ok c' =>
        let es := entries_from d i n in
        n_user_obj c' = n_user_obj c + count_tag POSIX_TAG_USER_OBJ es /\
        n_group_obj c' = n_group_obj c + count_tag POSIX_TAG_GROUP_OBJ es /\
        n_other c' = n_other c + count_tag POSIX_TAG_OTHER es /\
        n_mask c' = n_mask c + count_tag POSIX_TAG_MASK es /\
        n_named c' = n_named c + count_named es /\
        ids_concrete es /\ tags_known es = true
    | Raise e =>
        (exists msg, e = ValueError msg) /\
        ~ (tags_known (entries_from d i n) = true /\
           ids_concrete (entries_from d i n))
    end.
Proof.
  induction n as [|n IH]; intros i c Hc.
  - cbn. repeat split; try lia. constructor.
  - cbn [count_tags]. rewrite entries_from_S.
    set (e := entry_at d i).
    change (read_le16 d (POSIX_HDR_SZ + i * POSIX_ACE_SZ + 0)) with (e_tag e).
    change (read_le32 d (POSIX_HDR_SZ + i * POSIX_ACE_SZ + 4)) with (e_id e).
    set (es := entries_from d (i + 1) n).
    cbv zeta.
    rewrite !count_tag_cons, count_named_cons, tags_known_cons,
      tag_known_cases.
    unfold ids_concrete, is_named at 1.
    unfold fits in Hc. rewrite Nat2Z.inj_succ in Hc.
    destruct Hc as (U0 & U1 & G0 & G1 & O0 & O1 & M0 & M1 & N0 & N1).
    rewrite (s32_small (n_user_obj c + 1)) by lia.
    rewrite (s32_small (n_group_obj c + 1)) by lia.
    rewrite (s32_small (n_other c + 1)) by lia.
    rewrite (s32_small (n_mask c + 1)) by lia.
    rewrite (s32_small (n_named c + 1)) by lia.
    assert (step : forall c1,
               fits c1 n ->
               match count_tags d n (i + 1) label c1 with
               | Ok c' =>
                   n_user_obj c' = n_user_obj c1 + count_tag POSIX_TAG_USER_OBJ es /\
                   n_group_obj c' = n_group_obj c1 + count_tag POSIX_TAG_GROUP_OBJ es /\
                   n_other c' = n_other c1 + count_tag POSIX_TAG_OTHER es /\
                   n_mask c' = n_mask c1 + count_tag POSIX_TAG_MASK es /\
                   n_named c' = n_named c1 + count_named es /\
                   ids_concrete es /\ tags_known es = true
               | Raise x =>
                   (exists msg, x = ValueError msg) /\
                   ~ (tags_known es = true /\ ids_concrete es)
               end) by (intros c1 H1; exact (IH (i + 1) c1 H1)).
    clear IH.
    assert (named_ok : forall k,
               e_tag e = k ->
               (k =? POSIX_TAG_USER) || (k =? POSIX_TAG_GROUP) = false ->
               is_named e = true -> e_id e <> POSIX_SPECIAL_ID).
    { intros k Ek Hk Hn. unfold is_named in Hn. rewrite Ek, Hk in Hn.
      discriminate Hn. }
    destruct (Z.eqb_spec (e_tag e) POSIX_TAG_USER_OBJ) as [E|T1];
      [|destruct (Z.eqb_spec (e_tag e) POSIX_TAG_USER) as [E|T2];
        [|destruct (Z.eqb_spec (e_tag e) POSIX_TAG_GROUP_OBJ) as [E|T3];
          [|destruct (Z.eqb_spec (e_tag e) POSIX_TAG_GROUP) as [E|T4];
            [|destruct (Z.eqb_spec (e_tag e) POSIX_TAG_MASK) as [E|T5];
              [|destruct (Z.eqb_spec (e_tag e) POSIX_TAG_OTHER)
                  as [E|T6]]]]]];
      try rewrite E; eval_eqb; cbn [orb].
    all: try (destruct (Z.eqb_spec (e_id e) POSIX_SPECIAL_ID) as [Ei|Ei];
              [split; [eauto|];
               intros [_ HF]; inversion HF as [|? ? Hh _]; subst;
               apply Hh; [unfold is_named; rewrite E; reflexivity|exact Ei]
              |]).
    all: try match goal with
         | |- context [count_tags ?d0 ?n0 ?i0 ?l0 ?c1] =>
             let S := fresh "S" in
             assert (S := step c1);
             destruct (count_tags d0 n0 i0 l0 c1) as [c2|x];
             [destruct S as (H1 & H2 & H3 & H4 & H5 & H6 & H7);
              [unfold fits; cbn [n_user_obj n_group_obj n_other n_mask
                                   n_named]; lia|];
              cbn [n_user_obj n_group_obj n_other n_mask n_named] in *;
              rewrite H7;
              repeat (split; [lia|]); split; [|reflexivity];
              constructor; [|exact H6];
              first [ intros _; exact Ei
                    | apply (named_ok _ E); reflexivity ]
             |destruct S as [Sm Sn];
              [unfold fits; cbn [n_user_obj n_group_obj n_other n_mask
                                   n_named]; lia|];
              split; [exact Sm|];
              intros [HT HF]; apply Sn; split;
              [apply andb_prop in HT; tauto
              |inversion HF; assumption]]
         end.
    (* unknown tag *)
    cbn [orb andb]. split; [eauto|]. intros [HT _]. discriminate HT.
Qed.

Lemma validate_posix_blob_exact (d : bytes) (label : string) :
  n_entries d <= INT_MAX ->
  match validate_posix_blob d label with
  | Ok _ => blob_wellformed d
  | Raise e => (exists msg, e = ValueError msg) /\ ~ blob_wellformed d
  end.
Proof.
  unfold validate_posix_blob, blob_wellformed. intros Hfit.
  destruct (Z.ltb_spec (blen d) POSIX_HDR_SZ) as [Hl|Hl].
  { split; [eauto|]. intros (H & _). lia. }
  destruct (Z.eqb_spec (read_le32 d 0) POSIX_ACL_VERSION) as [Hv|Hv];
    cbn [negb].
  2:{ split; [eauto|]. intros (_ & H & _). contradiction. }
  pose proof (count_tags_exact d label
                (Z.to_nat ((blen d - POSIX_HDR_SZ) / POSIX_ACE_SZ)) 0
                (mkCounts 0 0 0 0 0)) as Hs.
  assert (Hf : fits (mkCounts 0 0 0 0 0)
                 (Z.to_nat ((blen d - POSIX_HDR_SZ) / POSIX_ACE_SZ))).
  { unfold fits, n_entries in *.
    cbn [n_user_obj n_group_obj n_other n_mask n_named].
    assert (0 <= (blen d - POSIX_HDR_SZ) / POSIX_ACE_SZ).
    { apply Z.div_pos; unfold POSIX_HDR_SZ, POSIX_ACE_SZ in *; lia. }
    rewrite Z2Nat.id by assumption. unfold INT_MAX in *. lia. }
  specialize (Hs Hf). clear Hf.
  fold (n_entries d) in Hs. fold (entries d) in Hs.
  fold (n_entries d).
  destruct (count_tags d (Z.to_nat (n_entries d)) 0 label _) as [c|e];
    cbn [bind].
  2:{ destruct Hs as [Hm Hn]. split; [exact Hm|].
      intros (_ & _ & HT & HC). apply Hn. split; [exact HT|].
      unfold blob_conforms in HC. cbv zeta in HC. unfold ids_concrete.
      tauto. }
  cbv zeta in Hs. destruct Hs as (H1 & H2 & H3 & H4 & H5 & H6 & H7).
  cbn [n_user_obj n_group_obj n_other n_mask n_named] in *.
  unfold blob_conforms. cbv zeta.
  assert (Hnamed : existsb is_named (entries d) = true <->
                   count_named (entries d) > 0).
  { split; [apply existsb_named_count|].
    unfold count_named. generalize (entries d). intros l Hc.
    induction l as [|x l IHl]; [cbn in Hc; lia|].
    cbn [existsb filter] in *. destruct (is_named x); [reflexivity|].
    cbn [orb]. apply IHl. exact Hc. }
  assert (Hnn : 0 <= count_named (entries d))
    by (unfold count_named; lia).
  assert (Hmm : 0 <= count_tag POSIX_TAG_MASK (entries d))
    by (unfold count_tag; lia).
  destruct (Z.eqb_spec (n_user_obj c) 1) as [U|U]; cbn [negb].
  2:{ split; [eauto|]. intros (_ & _ & _ & X & _). lia. }
  destruct (Z.eqb_spec (n_group_obj c) 1) as [G|G]; cbn [negb].
  2:{ split; [eauto|]. intros (_ & _ & _ & _ & X & _). lia. }
  destruct (Z.eqb_spec (n_other c) 1) as [O|O]; cbn [negb].
  2:{ split; [eauto|]. intros (_ & _ & _ & _ & _ & X & _). lia. }
  destruct (Z.gtb_spec (n_named c) 0) as [Nn|Nn];
    destruct (Z.eqb_spec (n_mask c) 1) as [Mk|Mk]; cbn [negb andb].
  - destruct (Z.gtb_spec (n_mask c) 1); [lia|].
    split; [exact Hl|]. split; [exact Hv|]. split; [exact H7|].
    split; [lia|]. split; [lia|]. split; [lia|]. split; [exact H6|].
    split; [intros _; lia | lia].
  - split; [eauto|]. intros (_ & _ & _ & _ & _ & _ & _ & X & _).
    assert (existsb is_named (entries d) = true) by (apply Hnamed; lia).
    specialize (X H). lia.
  - destruct (Z.gtb_spec (n_mask c) 1); [lia|].
    split; [exact Hl|]. split; [exact Hv|]. split; [exact H7|].
    split; [lia|]. split; [lia|]. split; [lia|]. split; [exact H6|].
    split; [intros _; lia | lia].
  - destruct (Z.gtb_spec (n_mask c) 1) as [Mg|Mg].
    + split; [eauto|]. intros (_ & _ & _ & _ & _ & _ & _ & _ & X). lia.
    + split; [exact Hl|]. split; [exact Hv|]. split; [exact H7|].
      split; [lia|]. split; [lia|]. split; [lia|]. split; [exact H6|].
      split; [|lia]. intros X. apply Hnamed in X. lia.
Qed.

Lemma posixacl_valid_ok_iff
  (fstat : Z -> fstat_result) (fd : Z) (access : bytes)
  (default : option bytes) :
  n_entries access <= INT_MAX ->
  (forall dd, default = Some dd -> n_entries dd <= INT_MAX) ->
  (posixacl_valid fstat fd access default = Ok tt <->
   blob_wellformed access /\
   match default with
   | None => True
   | Some dd =>
       (exists st_mode, fstat fd = StatOk st_mode /\
                        S_ISDIR st_mode = true) /\
       blob_wellformed dd
   end).
Proof.
  intros Ha Hd. unfold posixacl_valid.
  pose proof (validate_posix_blob_exact access "access" Ha) as VA.
  destruct (validate_posix_blob access "access") as [[]|ea]; cbn [bind].
  2:{ destruct VA as [_ Hn]. split; [discriminate|].
      intros [X _]. contradiction. }
  destruct default as [dd|]; [|tauto].
  destruct (fstat fd) as [m|errno].
  2:{ split; [discriminate|].
      intros (_ & (m & X & _) & _). discriminate X. }
  destruct (S_ISDIR m) eqn:Em; cbn [negb].
  2:{ split; [discriminate|].
      intros (_ & (m' & X & Y) & _). inversion X. subst. congruence. }
  pose proof (validate_posix_blob_exact dd "default" (Hd dd eq_refl)) as VD.
  destruct (validate_posix_blob dd "default") as [[]|ed].
  - split; [|reflexivity].
    intros _. split; [exact VA|]. split; [eauto|exact VD].
  - destruct VD as [_ Hn]. split; [discriminate|].
    intros (_ & _ & X). contradiction.
Qed.

(** X12.  For blobs whose number of records fits an [int],
    [posixacl_valid] accepts exactly the well-formed input: an access blob
    with a header of version 2, tags of the enum only, exactly one
    USER_OBJ, GROUP_OBJ and OTHER, concrete ids on USER and GROUP, and the
    MASK rules; and, when a default blob is given, a target whose [fstat]
    succeeds and shows a directory and a default blob that is well-formed
    in the same way.  When it refuses, the exception is ValueError, except
    that a failing [fstat] of the target raises OSError with its errno;
    that happens only when a default blob is given and the access blob is
    well-formed. *)
Theorem posixacl_valid_exact
  (fstat : Z -> fstat_result) (fd : Z) (access : bytes)
  (default : option bytes) :
  n_entries access <= INT_MAX ->
  (forall dd, default = Some dd -> n_entries dd <= INT_MAX) ->
  (posixacl_valid fstat fd access default = Ok tt <->
   blob_wellformed access /\
   match default with
   | None => True
   | Some dd =>
       (exists st_mode, fstat fd = StatOk st_mode /\
                        S_ISDIR st_mode = true) /\
       blob_wellformed dd
   end) /\
  (forall e,
      posixacl_valid fstat fd access default = Raise e ->
      (exists msg, e = ValueError msg) \/
      (exists dd errno,
          default = Some dd /\ blob_wellformed access /\
          fstat fd = StatErr errno /\ e = OSErrorErrno errno)).
Proof.
  intros Ha Hd. split; [now apply posixacl_valid_ok_iff|].
  unfold posixacl_valid.
  pose proof (validate_posix_blob_exact access "access" Ha) as VA.
  destruct (validate_posix_blob access "access") as [[]|ea]; cbn [bind].
  2:{ destruct VA as [[msg ->] _]. intros e X. inversion X. left. eauto. }
  destruct default as [dd|]; [|discriminate].
  destruct (fstat fd) as [m|errno].
  2:{ intros e X. inversion X. right. exists dd, errno. auto. }
  destruct (S_ISDIR m) eqn:Em; cbn [negb].
  2:{ intros e X. inversion X. left. eauto. }
  pose proof (validate_posix_blob_exact dd "default" (Hd dd eq_refl)) as VD.
  destruct (validate_posix_blob dd "default") as [[]|ed]; [discriminate|].
  destruct VD as [[msg ->] _]. intros e X. inversion X. left. eauto.
Qed.

Lemma posixacl_valid_exact_witness :
  n_entries access_example <= INT_MAX /\
  (forall dd, Some default_example = Some dd -> n_entries dd <= INT_MAX) /\
  (posixacl_valid (fun _ => StatOk 33188) 3 access_example
     (Some default_example) = Ok tt <->
   blob_wellformed access_example /\
   ((exists st_mode, (fun _ : Z => StatOk 33188) 3 = StatOk st_mode /\
                     S_ISDIR st_mode = true) /\
    blob_wellformed default_example)).
Proof.
  assert (H1 : n_entries access_example <= INT_MAX)
    by (vm_compute; discriminate).
  assert (H2 : forall dd, Some default_example = Some dd ->
                          n_entries dd <= INT_MAX).
  { intros dd E. injection E as <-. vm_compute. discriminate. }
  split; [exact H1 | split; [exact H2|]].
  exact (proj1 (posixacl_valid_exact (fun _ => StatOk 33188) 3
                  access_example (Some default_example) H1 H2)).
Defined.

End POSIXExact.

Module POSIXCompose.
Import CInt Wire Py Stat POSIX POSIXSpec POSIXForm WireFacts BitFacts
  POSIXFacts POSIXFromAces POSIXValid POSIXExact.

Lemma normal_tag_u16 a : ace_normal a -> u16 (tag a) = tag a.
Proof.
  intros (Ht & _). apply u16_small.
  unfold posix_tag_table in Ht. cbn in Ht. lia.
Qed.

Lemma count_tag_wire t s :
  Forall ace_normal s -> count_tag t (map wire_of_ace s) = count_aces t s.
Proof.
  unfold count_tag, count_aces. intros Hn. apply f_equal.
  induction Hn as [|a s Ha _ IH]; [reflexivity|].
  cbn [map filter]. unfold wire_of_ace at 1. cbn [e_tag].
  rewrite (normal_tag_u16 a Ha).
  destruct (tag a =? t); cbn [List.length]; now rewrite IH.
Qed.

Lemma is_named_wire a :
  ace_normal a -> is_named (wire_of_ace a) = ace_named a.
Proof.
  intros Ha. unfold is_named, ace_named, wire_of_ace. cbn [e_tag].
  now rewrite (normal_tag_u16 a Ha).
Qed.

Lemma existsb_named_wire s :
  Forall ace_normal s ->
  existsb is_named (map wire_of_ace s) = existsb ace_named s.
Proof.
  induction 1 as [|a s Ha _ IH]; [reflexivity|].
  cbn [map existsb]. now rewrite IH, is_named_wire.
Qed.

Lemma named_id_wire a :
  ace_normal a -> ace_named a = true ->
  (e_id (wire_of_ace a) = POSIX_SPECIAL_ID <-> id a = -1).
Proof.
  intros (Ht & Hp & Hi) Hn. unfold wire_of_ace. cbn [e_id].
  assert (Hs : is_special_tag (tag a) = false).
  { unfold ace_named in Hn. apply orb_true_iff in Hn.
    destruct Hn as [E|E]; apply Z.eqb_eq in E; rewrite E; reflexivity. }
  rewrite Hs in *. unfold POSIX_SPECIAL_ID in *.
  destruct (Z.eq_dec (id a) (-1)) as [E|E].
  - rewrite E. split; [reflexivity|]. intros _. reflexivity.
  - rewrite u32_small by lia. lia.
Qed.

Lemma ids_concrete_wire s :
  Forall ace_normal s ->
  (ids_concrete (map wire_of_ace s) <->
   Forall (fun a => ace_named a = true -> id a <> -1) s).
Proof.
  unfold ids_concrete. induction 1 as [|a s Ha Hs IH].
  - split; constructor.
  - cbn [map]. split; intros H; inversion H as [|? ? H1 H2]; subst;
      constructor; try (apply IH; assumption).
    + intros Hn E. apply H1; [now rewrite is_named_wire|].
      now apply named_id_wire.
    + rewrite is_named_wire by assumption. intros Hn E.
      apply (H1 Hn). now apply named_id_wire.
Qed.

Lemma tags_known_wire s :
  Forall ace_normal s -> tags_known (map wire_of_ace s) = true.
Proof.
  intros Hn. unfold tags_known. apply forallb_forall. intros e He.
  apply in_map_iff in He as (a & <- & Ha).
  rewrite Forall_forall in Hn. apply normal_tag_known. auto.
Qed.

Lemma entries_blob_of s : entries (blob_of s) = map wire_of_ace s.
Proof.
  unfold blob_of. apply entries_encoded.
  apply Forall_forall. intros e He.
  apply in_map_iff in He as (a & <- & _). apply wire_of_ace_in_range.
Qed.

Lemma blob_of_length s :
  blen (blob_of s) = 4 + 8 * Z.of_nat (List.length s).
Proof.
  unfold blob_of. now rewrite encode_entries_length, length_map.
Qed.

Lemma n_entries_blob_of s : n_entries (blob_of s) = Z.of_nat (List.length s).
Proof.
  unfold n_entries. rewrite blob_of_length.
  unfold POSIX_HDR_SZ, POSIX_ACE_SZ.
  replace (4 + 8 * Z.of_nat (List.length s) - 4)
    with (Z.of_nat (List.length s) * 8) by lia.
  now rewrite Z.div_mul.
Qed.

(** The blob built from normal entries is well-formed exactly when the
    entries satisfy the count rules. *)
Lemma wellformed_blob_of s :
  Forall ace_normal s -> (blob_wellformed (blob_of s) <-> aces_conform s).
Proof.
  intros Hn. unfold blob_wellformed, blob_conforms, aces_conform.
  cbv zeta. rewrite entries_blob_of, blob_of_length.
  rewrite !count_tag_wire, existsb_named_wire by assumption.
  rewrite (tags_known_wire s Hn).
  pose proof (ids_concrete_wire s Hn) as Hi. unfold ids_concrete in Hi.
  assert (Hv : read_le32 (blob_of s) 0 = POSIX_ACL_VERSION).
  { unfold blob_of.
    rewrite <- (app_nil_r (encode_entries _ _)), encode_entries_version.
    reflexivity. }
  unfold POSIX_HDR_SZ. split.
  - intros (_ & _ & _ & H1 & H2 & H3 & H4 & H5 & H6).
    repeat (split; [assumption|]). split; [now apply Hi|]. tauto.
  - intros (H1 & H2 & H3 & H4 & H5 & H6).
    split; [lia|]. split; [exact Hv|]. split; [reflexivity|].
    repeat (split; [assumption|]). split; [now apply Hi|]. tauto.
Qed.

Lemma filter_perm {A} (f : A -> bool) (l s : list A) :
  Permutation l s -> Permutation (filter f l) (filter f s).
Proof.
  induction 1 as [|x l s _ IH|x y l|l s u _ IH1 _ IH2].
  - constructor.
  - cbn [filter]. destruct (f x); [now constructor | exact IH].
  - cbn [filter]. destruct (f x), (f y); try reflexivity. constructor.
  - now transitivity (filter f s).
Qed.

Lemma count_aces_perm t l s :
  Permutation l s -> count_aces t l = count_aces t s.
Proof.
  intros Hp. unfold count_aces. f_equal.
  apply Permutation_length. now apply filter_perm.
Qed.

Lemma existsb_perm {A} (f : A -> bool) (l s : list A) :
  Permutation l s -> existsb f l = existsb f s.
Proof.
  intros Hp.
  destruct (existsb f l) eqn:E1, (existsb f s) eqn:E2; try reflexivity.
  - apply existsb_exists in E1 as (x & Hx & Hf).
    assert (existsb f s = true).
    { apply existsb_exists. exists x. split; [|exact Hf].
      eapply Permutation_in; eauto. }
    congruence.
  - apply existsb_exists in E2 as (x & Hx & Hf).
    assert (existsb f l = true).
    { apply existsb_exists. exists x. split; [|exact Hf].
      eapply Permutation_in; [symmetry|]; eauto. }
    congruence.
Qed.

Lemma aces_conform_perm l s :
  Permutation l s -> (aces_conform l <-> aces_conform s).
Proof.
  intros Hp. unfold aces_conform.
  rewrite !(count_aces_perm _ l s Hp), (existsb_perm ace_named l s Hp).
  split; intros (H1 & H2 & H3 & H4 & H5); repeat (split; [assumption|]);
    (split; [|assumption]).
  - eapply Forall_perm; eauto.
  - eapply Forall_perm; [symmetry|]; eauto.
Qed.

(** X13.  [from_aces] followed by validation.  From entries that satisfy
    the data-model invariant (at most [INT_MAX] of them), [from_aces]
    always builds an ACL, never a trivial one, and [posixacl_valid]
    accepts that ACL exactly when the access entries satisfy the count
    rules and either there is no default entry, or the target is a
    directory and the default entries satisfy the count rules as well; the
    order of the entries given to [from_aces] does not matter. *)
Theorem from_aces_validates
  (fstat : Z -> fstat_result) (fd : Z) (l : list POSIXAce_t) :
  Forall ace_normal l ->
  Z.of_nat (List.length l) <= INT_MAX ->
  exists acl,
    POSIXACL_from_aces l = Ok acl /\
    POSIXACL_get_trivial acl = false /\
    (posixacl_valid fstat fd (access_data acl) (default_data acl) = Ok tt <->
     aces_conform (access_part l) /\
     (default_part l = [] \/
      (exists st_mode, fstat fd = StatOk st_mode /\
                       S_ISDIR st_mode = true) /\
      aces_conform (default_part l))).
Proof.
  intros Hn Hlen.
  destruct (from_aces_spec l) as (sa & sd & (Pa & _) & (Pd & _) & E).
  { eapply Forall_impl; [|exact Hn]. apply normal_in_range. }
  eexists. split; [exact E|]. cbn [access_data default_data].
  assert (Na : Forall ace_normal sa).
  { eapply Forall_perm; [exact Pa|]. now apply Forall_filter. }
  assert (Nd : Forall ace_normal sd).
  { eapply Forall_perm; [exact Pd|]. now apply Forall_filter. }
  assert (La : Z.of_nat (List.length sa) <= INT_MAX).
  { rewrite <- (Permutation_length Pa). unfold access_part.
    pose proof (filter_length_le (fun a => negb (default_ a)) l). lia. }
  assert (Ld : Z.of_nat (List.length sd) <= INT_MAX).
  { rewrite <- (Permutation_length Pd). unfold default_part.
    pose proof (filter_length_le default_ l). lia. }
  split.
  { unfold POSIXACL_get_trivial. cbn [access_data].
    rewrite blob_of_length.
    replace (4 + 8 * Z.of_nat (List.length sa) =? 0) with false
      by (symmetry; apply Z.eqb_neq; lia).
    reflexivity. }
  rewrite posixacl_valid_ok_iff.
  - rewrite (wellformed_blob_of sa Na), <- (aces_conform_perm _ _ Pa).
    destruct sd as [|a sd].
    + apply Permutation_sym, Permutation_nil in Pd. rewrite Pd. tauto.
    + rewrite (wellformed_blob_of (a :: sd) Nd),
        <- (aces_conform_perm _ _ Pd).
      assert (default_part l <> []).
      { intros X. rewrite X in Pd. apply Permutation_nil in Pd.
        discriminate. }
      tauto.
  - now rewrite n_entries_blob_of.
  - intros dd Hdd. destruct sd as [|a sd]; [discriminate|].
    injection Hdd as <-. now rewrite n_entries_blob_of.
Qed.

Lemma from_aces_validates_witness :
  Forall ace_normal conforming_aces /\
  Z.of_nat (List.length conforming_aces) <= INT_MAX /\
  exists acl,
    POSIXACL_from_aces conforming_aces = Ok acl /\
    POSIXACL_get_trivial acl = false /\
    (posixacl_valid (fun _ => StatOk 33188) 3
       (access_data acl) (default_data acl) = Ok tt <->
     aces_conform (access_part conforming_aces) /\
     (default_part conforming_aces = [] \/
      (exists st_mode, (fun _ : Z => StatOk 33188) 3 = StatOk st_mode /\
                       S_ISDIR st_mode = true) /\
      aces_conform (default_part conforming_aces))).
Proof.
  assert (H1 : Forall ace_normal conforming_aces).
  { unfold conforming_aces, ace_normal.
    repeat constructor; cbn; auto 10; lia. }
  assert (H2 : Z.of_nat (List.length conforming_aces) <= INT_MAX)
    by (vm_compute; discriminate).
  split; [exact H1 | split; [exact H2|]].
  exact (from_aces_validates (fun _ => StatOk 33188) 3 conforming_aces H1 H2).
Defined.

End POSIXCompose.

Module POSIXInherit.
Import CInt Wire Py Stat POSIX POSIXSpec POSIXForm WireFacts BitFacts
  POSIXFacts POSIXFromAces POSIXValid POSIXExact POSIXCompose.

(** The label only words the messages. *)
Lemma count_tags_label d n i l1 l2 c c' :
  count_tags d n i l1 c = Ok c' -> count_tags d n i l2 c = Ok c'.
Proof.
  revert i c. induction n as [|n IH]; intros i c; cbn [count_tags];
    [auto|].
  cbv zeta.
  repeat match goal with
         | |- context [if ?b then _ else _] =>
             destruct b; try discriminate; try apply IH
         end.
Qed.

Lemma validate_posix_blob_label d l1 l2 :
  validate_posix_blob d l1 = Ok tt -> validate_posix_blob d l2 = Ok tt.
Proof.
  unfold validate_posix_blob. cbv zeta.
  destruct (blen d <? POSIX_HDR_SZ); [discriminate|].
  destruct (negb (read_le32 d 0 =? POSIX_ACL_VERSION)); [discriminate|].
  destruct (count_tags d _ 0 l1 _) as [c|e] eqn:E; [|discriminate].
  rewrite (count_tags_label _ _ _ l1 l2 _ _ E). cbn [bind].
  repeat match goal with
         | |- context [if ?b then _ else _] =>
             destruct b; try discriminate
         end.
  reflexivity.
Qed.

(** X14.  Inheritance from a validated ACL.  When [posixacl_valid] has
    accepted an ACL on its directory, [generate_inherited_acl] fails with
    ValueError if the ACL has no default part; otherwise the ACL it
    returns has the parent's default blob as its access blob, is accepted
    by [posixacl_valid] on the child (a directory child must be a
    directory), passes the same ACL on to its own children when the child
    is a directory, and passes nothing on (ValueError) when the child is a
    file. *)
Theorem inherited_acl_validates
  (fstat : Z -> fstat_result) (fd : Z)
  (fstat_child : Z -> fstat_result) (fd_child : Z)
  (self : POSIXACL_t) (is_dir : bool) :
  posixacl_valid fstat fd (access_data self) (default_data self) = Ok tt ->
  (is_dir = true ->
   exists st_mode, fstat_child fd_child = StatOk st_mode /\
                   S_ISDIR st_mode = true) ->
  match default_data self with
  | None =>
      exists msg,
        POSIXACL_generate_inherited_acl self is_dir = Raise (ValueError msg)
  | Some dd =>
      exists child,
        POSIXACL_generate_inherited_acl self is_dir = Ok child /\
        access_data child = dd /\
        posixacl_valid fstat_child fd_child
          (access_data child) (default_data child) = Ok tt /\
        forall grandchild_is_dir,
          if is_dir then
            POSIXACL_generate_inherited_acl child grandchild_is_dir =
            POSIXACL_generate_inherited_acl self grandchild_is_dir
          else
            exists msg,
              POSIXACL_generate_inherited_acl child grandchild_is_dir =
              Raise (ValueError msg)
  end.
Proof.
  intros Hv Hc. unfold POSIXACL_generate_inherited_acl.
  destruct (default_data self) as [dd|] eqn:Ed.
  2:{ destruct (blen (access_data self) =? 0); eauto. }
  eexists. split; [reflexivity|]. cbn [access_data default_data].
  split; [reflexivity|].
  assert (Hd : validate_posix_blob dd "default" = Ok tt).
  { unfold posixacl_valid in Hv.
    destruct (validate_posix_blob (access_data self) "access") as [[]|];
      [|discriminate].
    cbn [bind] in Hv. destruct (fstat fd) as [m|]; [|discriminate].
    destruct (negb (S_ISDIR m)); [discriminate|]. exact Hv. }
  split.
  - unfold posixacl_valid.
    rewrite (validate_posix_blob_label dd "default" "access" Hd).
    cbn [bind]. destruct is_dir; [|reflexivity].
    destruct (Hc eq_refl) as (m & -> & ->). cbn [negb]. exact Hd.
  - intros g. destruct is_dir; [reflexivity|].
    assert (Hl : POSIX_HDR_SZ <= blen dd).
    { unfold validate_posix_blob in Hd. cbv zeta in Hd.
      destruct (Z.ltb_spec (blen dd) POSIX_HDR_SZ); [discriminate|].
      assumption. }
    replace (blen dd =? 0) with false
      by (symmetry; apply Z.eqb_neq; unfold POSIX_HDR_SZ in Hl; lia).
    eauto.
Qed.

Lemma inherited_acl_validates_witness :
  posixacl_valid (fun _ => StatOk 16877) 3
    access_example (Some default_example) = Ok tt /\
  match default_data (mkACL access_example (Some default_example)) with
  | None => True
  | Some dd =>
      exists child,
        POSIXACL_generate_inherited_acl
          (mkACL access_example (Some default_example)) false = Ok child /\
        access_data child = dd /\
        posixacl_valid (fun _ => StatOk 33188) 4
          (access_data child) (default_data child) = Ok tt /\
        forall grandchild_is_dir,
          exists msg,
            POSIXACL_generate_inherited_acl child grandchild_is_dir =
            Raise (ValueError msg)
  end.
Proof.
  assert (H1 : posixacl_valid (fun _ => StatOk 16877) 3
                 access_example (Some default_example) = Ok tt)
    by (vm_compute; reflexivity).
  split; [exact H1|].
  apply (inherited_acl_validates (fun _ => StatOk 16877) 3
           (fun _ => StatOk 33188) 4
           (mkACL access_example (Some default_example)) false H1).
  discriminate.
Defined.

Lemma count_aces_of_wire df t es :
  count_aces t (map (ace_of_wire df) es) = count_tag t es.
Proof.
  unfold count_aces, count_tag. apply f_equal.
  induction es as [|e es IH]; [reflexivity|].
  cbn [map filter]. unfold ace_of_wire at 1. cbn [tag].
  destruct (e_tag e =? t); cbn [List.length]; now rewrite IH.
Qed.

Lemma existsb_named_of_wire df es :
  existsb ace_named (map (ace_of_wire df) es) = existsb is_named es.
Proof.
  induction es as [|e es IH]; [reflexivity|].
  cbn [map existsb]. now rewrite IH.
Qed.

Lemma decoded_conform df d :
  blob_conforms d -> aces_conform (map (ace_of_wire df) (entries d)).
Proof.
  unfold blob_conforms, aces_conform. cbv zeta.
  rewrite !count_aces_of_wire, existsb_named_of_wire.
  intros (H1 & H2 & H3 & H4 & H5 & H6).
  repeat (split; [assumption|]). split; [|tauto].
  apply Forall_forall. intros a Ha.
  apply in_map_iff in Ha as (e & <- & He).
  rewrite Forall_forall in H4. specialize (H4 e He).
  unfold ace_of_wire, ace_named. cbn [tag id]. intros Hn.
  specialize (H4 Hn). apply Z.eqb_neq in H4. rewrite H4.
  intros X. subst. pose proof (read_le32_range d 0). clear - He X.
  unfold entries, entries_from in He.
  apply in_map_iff in He as (j & <- & _).
  unfold entry_at in X. cbn [e_id] in X.
  match type of X with read_le32 ?b ?o = _ =>
    pose proof (read_le32_range b o) end.
  lia.
Qed.

Lemma decoded_default_flag df es :
  Forall (fun a => default_ a = df) (map (ace_of_wire df) es).
Proof.
  apply Forall_forall. intros a Ha.
  apply in_map_iff in Ha as (e & <- & _). reflexivity.
Qed.

Lemma wellformed_decodes d df :
  blob_wellformed d ->
  parse_posix_aces d df = Ok (map (ace_of_wire df) (entries d)).
Proof.
  intros (Hl & _ & Ht & _). rewrite parse_posix_aces_spec by assumption.
  now rewrite Ht.
Qed.

(** X15.  Validation followed by decoding.  An ACL that [posixacl_valid]
    has accepted (blobs whose number of records fits an [int]) always
    decodes: [aces] returns one entry per record of the access blob, none
    marked default, [default_aces] returns the entries of the default blob,
    all marked default (the empty list when there is no default blob), and
    both lists satisfy the count rules: exactly one USER_OBJ, GROUP_OBJ and
    OTHER, no USER or GROUP with id -1, at most one MASK and exactly one
    when a USER or GROUP entry is present. *)
Theorem validated_acl_decodes
  (fstat : Z -> fstat_result) (fd : Z) (self : POSIXACL_t) :
  n_entries (access_data self) <= INT_MAX ->
  (forall dd, default_data self = Some dd -> n_entries dd <= INT_MAX) ->
  posixacl_valid fstat fd (access_data self) (default_data self) = Ok tt ->
  exists la ld,
    POSIXACL_get_aces self = Ok la /\
    POSIXACL_get_default_aces self = Ok ld /\
    Z.of_nat (List.length la) = n_entries (access_data self) /\
    Forall (fun a => default_ a = false) la /\
    aces_conform la /\
    Forall (fun a => default_ a = true) ld /\
    match default_data self with
    | None => ld = []
    | Some dd =>
        Z.of_nat (List.length ld) = n_entries dd /\ aces_conform ld
    end.
Proof.
  intros Ha Hd Hv.
  apply posixacl_valid_ok_iff in Hv; [|assumption|assumption].
  destruct Hv as [Wa Wd].
  assert (Hlen : forall d df, POSIX_HDR_SZ <= blen d ->
            Z.of_nat (List.length (map (ace_of_wire df) (entries d))) =
            n_entries d).
  { intros d df Hl. rewrite length_map. unfold entries, entries_from.
    rewrite length_map, length_seq. apply Z2Nat.id. unfold n_entries.
    apply Z.div_pos; unfold POSIX_HDR_SZ, POSIX_ACE_SZ in *; lia. }
  exists (map (ace_of_wire false) (entries (access_data self))).
  unfold POSIXACL_get_aces, POSIXACL_get_default_aces.
  rewrite (wellformed_decodes _ false Wa).
  destruct (default_data self) as [dd|].
  - destruct Wd as [_ Wd].
    exists (map (ace_of_wire true) (entries dd)).
    rewrite (wellformed_decodes _ true Wd).
    split; [reflexivity|]. split; [reflexivity|].
    split; [apply Hlen, Wa|]. split; [apply decoded_default_flag|].
    split; [apply decoded_conform, Wa|].
    split; [apply decoded_default_flag|].
    split; [apply Hlen, Wd | apply decoded_conform, Wd].
  - exists []. split; [reflexivity|]. split; [reflexivity|].
    split; [apply Hlen, Wa|]. split; [apply decoded_default_flag|].
    split; [apply decoded_conform, Wa|]. split; [constructor|reflexivity].
Qed.

Lemma validated_acl_decodes_witness :
  posixacl_valid (fun _ => StatOk 16877) 3
    access_example (Some default_example) = Ok tt /\
  exists la ld,
    POSIXACL_get_aces (mkACL access_example (Some default_example)) = Ok la /\
    POSIXACL_get_default_aces (mkACL access_example (Some default_example))
      = Ok ld /\
    Z.of_nat (List.length la) = n_entries access_example /\
    Forall (fun a => default_ a = false) la /\
    aces_conform la /\
    Forall (fun a => default_ a = true) ld /\
    Z.of_nat (List.length ld) = n_entries default_example /\
    aces_conform ld.
Proof.
  assert (H1 : posixacl_valid (fun _ => StatOk 16877) 3
                 access_example (Some default_example) = Ok tt)
    by (vm_compute; reflexivity).
  assert (H2 : n_entries access_example <= INT_MAX)
    by (vm_compute; discriminate).
  assert (H3 : forall dd, Some default_example = Some dd ->
                          n_entries dd <= INT_MAX).
  { intros dd E. injection E as <-. vm_compute. discriminate. }
  split; [exact H1|].
  exact (validated_acl_decodes (fun _ => StatOk 16877) 3
           (mkACL access_example (Some default_example)) H2 H3 H1).
Defined.

Lemma entries_encoded_tail v es post :
  Forall entry_in_range es -> (List.length post < 8)%nat ->
  entries (encode_entries v es ++ post) = es.
Proof.
  intros Hr Hp. unfold entries, n_entries.
  assert (Hb : blen (encode_entries v es ++ post) =
               4 + 8 * Z.of_nat (List.length es) +
               Z.of_nat (List.length post)).
  { unfold blen at 1. rewrite length_app, Nat2Z.inj_add.
    fold (blen (encode_entries v es)). now rewrite encode_entries_length. }
  rewrite Hb. unfold POSIX_HDR_SZ, POSIX_ACE_SZ.
  replace ((4 + 8 * Z.of_nat (List.length es) +
            Z.of_nat (List.length post) - 4) / 8)
    with (Z.of_nat (List.length es)).
  2:{ apply Z.div_unique with (r := Z.of_nat (List.length post)); lia. }
  rewrite Nat2Z.id. unfold entries_from.
  apply nth_error_ext. intros i. rewrite nth_error_map.
  destruct (nth_error es i) as [e|] eqn:E.
  - assert (i < List.length es)%nat by (apply nth_error_Some; congruence).
    rewrite nth_error_seq.
    replace (i <? List.length es)%nat with true
      by (symmetry; now apply Nat.ltb_lt).
    cbv [option_map]. f_equal.
    replace (0 + Z.of_nat (0 + i)) with (Z.of_nat i) by lia.
    rewrite (encode_entries_entry v es post i e E).
    apply entry_norm_id. rewrite Forall_forall in Hr. apply Hr.
    eapply nth_error_In; eauto.
  - apply nth_error_None in E.
    rewrite (proj2 (nth_error_None _ _)); [reflexivity|].
    rewrite length_seq. lia.
Qed.

(** X16.  What decoding does not check.  [parse_posix_aces] returns the
    entries of a blob whatever its version word is and ignores up to seven
    bytes after the last whole record, although [validate_posix_blob]
    refuses every version but 2; an empty blob decodes to the empty list,
    and a blob of one to three bytes is refused with ValueError. *)
Theorem decoding_ignores_version_and_tail
  (v : Z) (es : list wire_entry) (post : bytes) (is_default : bool) :
  Forall entry_in_range es ->
  tags_known es = true ->
  (List.length post < 8)%nat ->
  parse_posix_aces (encode_entries v es ++ post) is_default =
    Ok (map (ace_of_wire is_default) es) /\
  (u32 v <> POSIX_ACL_VERSION ->
   exists msg,
     validate_posix_blob (encode_entries v es ++ post) "access" =
     Raise (ValueError msg)) /\
  parse_posix_aces [] is_default = Ok [] /\
  (forall d, 0 < blen d < POSIX_HDR_SZ ->
     exists msg, parse_posix_aces d is_default = Raise (ValueError msg)).
Proof.
  intros Hr Ht Hp.
  assert (Hl : POSIX_HDR_SZ <= blen (encode_entries v es ++ post)).
  { unfold blen. rewrite length_app, Nat2Z.inj_add.
    fold (blen (encode_entries v es)). rewrite encode_entries_length.
    unfold POSIX_HDR_SZ. lia. }
  split; [|split; [|split]].
  - rewrite parse_posix_aces_spec by exact Hl.
    now rewrite (entries_encoded_tail v es post Hr Hp), Ht.
  - intros Hv. unfold validate_posix_blob. cbv zeta.
    replace (blen (encode_entries v es ++ post) <? POSIX_HDR_SZ) with false
      by (symmetry; apply Z.ltb_ge; exact Hl).
    rewrite encode_entries_version.
    replace (u32 v =? POSIX_ACL_VERSION) with false
      by (symmetry; apply Z.eqb_neq; exact Hv).
    cbn [negb]. eauto.
  - reflexivity.
  - intros d Hd. unfold parse_posix_aces. cbv zeta.
    replace (blen d =? 0) with false by (symmetry; apply Z.eqb_neq; lia).
    replace (blen d <? POSIX_HDR_SZ) with true
      by (symmetry; apply Z.ltb_lt; lia).
    eauto.
Qed.

Lemma decoding_ignores_version_and_tail_witness :
  parse_posix_aces
    (encode_entries 7 [mkEntry 1 6 0xFFFFFFFF; mkEntry 2 4 1000]
       ++ [x00; x01; x02]%byte) true =
  Ok (map (ace_of_wire true) [mkEntry 1 6 0xFFFFFFFF; mkEntry 2 4 1000]).
Proof.
  refine (proj1 (decoding_ignores_version_and_tail 7
                   [mkEntry 1 6 0xFFFFFFFF; mkEntry 2 4 1000]
                   [x00; x01; x02]%byte true _ _ _)).
  - repeat constructor.
  - reflexivity.
  - cbn. lia.
Defined.

End POSIXInherit.

Module NFS4Compose.
Import CInt Wire Py Stat NFS4 NFS4Spec NFS4Form WireFacts BitFacts NFS4Facts
  NFS4Loops NFS4Valid.

Lemma present_in_range d : Forall xdr_in_range (aces_present d).
Proof. apply present_from_in_range. Qed.

(** The ACL [generate_inherited_acl] returns. *)
Lemma generate_inherited_acl_shape (self : NFS4ACL_t) (is_dir : bool) out :
  NFS4ACL_generate_inherited_acl self is_dir = Ok out ->
  NFS4_HDR_SZ <= blen (data self) /\
  NFS4_HDR_SZ <= blen (data out) /\
  aces_present (data out) =
  map (inherit_xdr is_dir)
    (filter (passed_on is_dir) (aces_present (data self))).
Proof.
  set (kept := filter (passed_on is_dir) (aces_present (data self))).
  unfold NFS4ACL_generate_inherited_acl.
  destruct (Z.ltb_spec (blen (data self)) NFS4_HDR_SZ) as [Hs|Hl];
    [discriminate|].
  pose proof (n_present_range (data self)) as (Hn0 & Hn1 & Hn2).
  assert (Hfuel : (Z.to_nat (n_present (data self))
                   <= List.length (data self))%nat)
    by (unfold blen in Hn1; lia).
  rewrite (count_inheritable_spec (data self) is_dir Hl
             (Z.to_nat (n_present (data self)))) by lia.
  rewrite (write_inherited_spec (data self) is_dir Hl
             (Z.to_nat (n_present (data self)))) by lia.
  fold (aces_present (data self)). fold kept.
  assert (Hk : Z.of_nat (List.length kept) < 4294967296).
  { assert (List.length kept <= List.length (aces_present (data self)))%nat
      by apply filter_length_le.
    unfold aces_present, present_from in H.
    rewrite length_map, length_seq in H. lia. }
  assert (Hkr : Forall xdr_in_range kept).
  { apply Forall_forall. intros x Hx. unfold kept in Hx.
    apply filter_In in Hx as [Hx _].
    pose proof (present_in_range (data self)) as Hp.
    rewrite Forall_forall in Hp. now apply Hp. }
  rewrite Z.add_0_l.
  destruct (Z.eqb_spec (Z.of_nat (List.length kept)) 0) as [E|E];
    [discriminate|].
  fold (encode_blob (if is_dir then NFS4_ACL_IS_DIR else 0)
          (Z.of_nat (List.length kept)) (map (inherit_xdr is_dir) kept)).
  intros H. injection H as <-. cbn [data].
  split; [exact Hl|]. split.
  - rewrite encode_blob_length. unfold NFS4_HDR_SZ. lia.
  - apply aces_present_encoded.
    + apply Forall_forall. intros x Hx.
      apply in_map_iff in Hx as (a & <- & Ha).
      apply inherit_xdr_in_range. rewrite Forall_forall in Hkr. auto.
    + rewrite length_map. apply u32_small. lia.
Qed.

Lemma scan_whole (d : bytes) :
  NFS4_HDR_SZ <= blen d ->
  match scan_aces (List.length d) d (blen d) (word d 1) 0
          (mkScan false false) with
  | Raise e =>
      (exists msg, e = ValueError msg) /\
      existsb offending (aces_present d) = true
  | Ok st' =>
      existsb offending (aces_present d) = false /\
      has_propagate st' = existsb has_propagation_bit (aces_present d) /\
      has_inheritable st' = existsb is_inheritable (aces_present d)
  end.
Proof.
  intros Hl. pose proof (n_present_range d) as (Hn0 & Hn1 & Hn2).
  exact (scan_aces_spec d Hl (Z.to_nat (n_present d)) (List.length d) 0
           (mkScan false false) ltac:(lia) ltac:(lia)
           ltac:(unfold blen in Hn1; lia)).
Qed.

Lemma target_known fstat fd is_dir :
  target_is_dir fstat fd = Some is_dir ->
  (if fd =? -1 then Ok true
   else match fstat fd with
        | StatErr e => Raise (OSErrorErrno e)
        | StatOk st_mode => Ok (S_ISDIR st_mode)
        end) = Ok is_dir.
Proof.
  unfold target_is_dir. destruct (fd =? -1).
  - now intros [= <-].
  - destruct (fstat fd); [now intros [= <-] | discriminate].
Qed.

Lemma nfs4acl_valid_ok_iff
  (fstat : Z -> fstat_result) (fd : Z) (d : bytes) (is_dir : bool) :
  NFS4_HDR_SZ <= blen d ->
  target_is_dir fstat fd = Some is_dir ->
  (nfs4acl_valid fstat fd d = Ok tt <->
   existsb offending (aces_present d) = false /\
   (existsb has_propagation_bit (aces_present d) = true -> is_dir = true) /\
   (is_dir = true -> existsb is_inheritable (aces_present d) = true)).
Proof.
  intros Hl Ht. unfold nfs4acl_valid.
  replace (blen d <? NFS4_HDR_SZ) with false by (symmetry; now apply Z.ltb_ge).
  pose proof (scan_whole d Hl) as Hs.
  destruct (scan_aces _ d (blen d) (word d 1) 0 _) as [st|e].
  - destruct Hs as (Ho & Hp & Hi). cbn [bind].
    rewrite (target_known _ _ _ Ht). cbn [bind]. rewrite Hp, Hi, Ho.
    destruct (existsb has_propagation_bit (aces_present d)),
      (existsb is_inheritable (aces_present d)), is_dir; cbn;
      split; try discriminate; try tauto; try (intros (_ & H1 & H2));
      try (specialize (H1 eq_refl)); try (specialize (H2 eq_refl));
      try discriminate; auto.
  - destruct Hs as (_ & Ho). cbn [bind]. rewrite Ho.
    split; [discriminate|]. intros (X & _). discriminate X.
Qed.

Lemma nfs4acl_valid_no_offending
  (fstat : Z -> fstat_result) (fd : Z) (d : bytes) :
  NFS4_HDR_SZ <= blen d ->
  nfs4acl_valid fstat fd d = Ok tt ->
  existsb offending (aces_present d) = false.
Proof.
  intros Hl. unfold nfs4acl_valid.
  replace (blen d <? NFS4_HDR_SZ) with false by (symmetry; now apply Z.ltb_ge).
  pose proof (scan_whole d Hl) as Hs.
  destruct (scan_aces _ d (blen d) (word d 1) 0 _) as [st|e];
    [tauto | discriminate].
Qed.

(** What the inherited ACE looks like to the validator. *)
Lemma inherit_xdr_view is_dir a :
  xdr_in_range a ->
  deny_on_special (inherit_xdr is_dir a) = deny_on_special a /\
  inherit_only_alone (inherit_xdr is_dir a) = false /\
  is_inheritable (inherit_xdr is_dir a) =
    is_dir && negb (flag_no_propagate (x_flags a)) && is_inheritable a /\
  (is_dir = false -> has_propagation_bit (inherit_xdr is_dir a) = false).
Proof.
  intros (_ & H2 & _). apply is_u32_range in H2.
  unfold deny_on_special, inherit_only_alone, is_inheritable,
    has_propagation_bit, flag_inherit_only, flag_file_inherit,
    flag_dir_inherit, flag_no_propagate, inherit_xdr.
  cbn [x_type x_flags x_iflag x_mask x_who].
  rewrite !(inherited_flags_bits (x_flags a) is_dir) by (assumption || lia).
  split; [reflexivity|].
  destruct is_dir, (Z.testbit (x_flags a) 2); cbn; repeat split;
    try reflexivity; try discriminate;
    try (now rewrite ?andb_false_r).
Qed.

Lemma existsb_map {A B} (f : B -> bool) (g : A -> B) (l : list A) :
  existsb f (map g l) = existsb (fun a => f (g a)) l.
Proof.
  induction l as [|a l IH]; [reflexivity|]. cbn. now rewrite IH.
Qed.

Lemma existsb_filter {A} (f g : A -> bool) (l : list A) :
  existsb f (filter g l) = existsb (fun a => g a && f a) l.
Proof.
  induction l as [|a l IH]; [reflexivity|]. cbn [filter existsb].
  destruct (g a); cbn [existsb andb]; now rewrite IH.
Qed.

Lemma existsb_false_in {A} (f g : A -> bool) (l : list A) :
  (forall a, In a l -> f a = true -> g a = true) ->
  existsb g l = false -> existsb f l = false.
Proof.
  intros H Hg. destruct (existsb f l) eqn:E; [|reflexivity].
  apply existsb_exists in E as (a & Ha & Hf).
  assert (existsb g l = true) by (apply existsb_exists; eauto).
  congruence.
Qed.

Lemma existsb_ext_in {A} (f g : A -> bool) (l : list A) :
  (forall a, In a l -> f a = g a) -> existsb f l = existsb g l.
Proof.
  induction l as [|a l IH]; [reflexivity|]. intros H. cbn [existsb].
  rewrite (H a (or_introl eq_refl)), IH; [reflexivity|].
  intros b Hb. apply H. now right.
Qed.

(** X17.  Inheritance followed by validation.  Let [nfs4acl_valid] have
    accepted an ACL and [generate_inherited_acl(is_dir)] return an ACL for
    a child.  On a file child [nfs4acl_valid] always accepts the inherited
    ACL.  On a directory child it accepts the inherited ACL exactly when
    some ACE of the parent has FILE_INHERIT or DIRECTORY_INHERIT without
    NO_PROPAGATE_INHERIT: when every inheritable ACE of the parent carries
    NO_PROPAGATE_INHERIT, the ACL generated for a subdirectory is one that
    the validator refuses. *)
Theorem inherited_acl_validity
  (fstat_parent : Z -> fstat_result) (fd_parent : Z)
  (fstat : Z -> fstat_result) (fd : Z)
  (self : NFS4ACL_t) (is_dir : bool) (out : NFS4ACL_t) :
  nfs4acl_valid fstat_parent fd_parent (data self) = Ok tt ->
  NFS4ACL_generate_inherited_acl self is_dir = Ok out ->
  target_is_dir fstat fd = Some is_dir ->
  (nfs4acl_valid fstat fd (data out) = Ok tt <->
   (is_dir = true ->
    existsb propagates (aces_present (data self)) = true)).
Proof.
  intros Hv Hg Ht.
  destruct (generate_inherited_acl_shape self is_dir out Hg)
    as (Hl & Hlo & Hap).
  pose proof (nfs4acl_valid_no_offending _ _ _ Hl Hv) as Hoff.
  pose proof (present_in_range (data self)) as Hr.
  rewrite Forall_forall in Hr.
  rewrite (nfs4acl_valid_ok_iff fstat fd (data out) is_dir Hlo Ht), Hap.
  rewrite !existsb_map, !existsb_filter.
  assert (H1 : existsb
                 (fun a => passed_on is_dir a &&
                           offending (inherit_xdr is_dir a))
                 (aces_present (data self)) = false).
  { eapply existsb_false_in; [|exact Hoff].
    intros a Ha H. apply andb_prop in H as [_ H].
    destruct (inherit_xdr_view is_dir a (Hr a Ha)) as (E1 & E2 & _).
    unfold offending in *. rewrite E1, E2, orb_false_r in H.
    now rewrite H. }
  assert (H2 : existsb
                 (fun a => passed_on is_dir a &&
                           is_inheritable (inherit_xdr is_dir a))
                 (aces_present (data self)) =
               is_dir && existsb propagates (aces_present (data self))).
  { destruct is_dir.
    - cbn [andb]. apply existsb_ext_in. intros a Ha.
      destruct (inherit_xdr_view true a (Hr a Ha)) as (_ & _ & E3 & _).
      rewrite E3. unfold propagates, passed_on, is_inheritable. cbn [andb].
      destruct (flag_file_inherit (x_flags a) || flag_dir_inherit (x_flags a)),
        (flag_no_propagate (x_flags a)); reflexivity.
    - cbn [andb]. eapply existsb_false_in with (g := fun _ => false).
      + intros a Ha H. apply andb_prop in H as [_ H].
        destruct (inherit_xdr_view false a (Hr a Ha)) as (_ & _ & E3 & _).
        rewrite E3 in H. discriminate H.
      + clear. induction (aces_present (data self)) as [|x l IH];
          [reflexivity | exact IH]. }
  assert (H3 : is_dir = false ->
               existsb
                 (fun a => passed_on is_dir a &&
                           has_propagation_bit (inherit_xdr is_dir a))
                 (aces_present (data self)) = false).
  { intros ->. eapply existsb_false_in with (g := fun _ => false).
    - intros a Ha H. apply andb_prop in H as [_ H].
      destruct (inherit_xdr_view false a (Hr a Ha)) as (_ & _ & _ & E4).
      rewrite (E4 eq_refl) in H. discriminate H.
    - clear. induction (aces_present (data self)) as [|x l IH];
        [reflexivity | exact IH]. }
  rewrite H1, H2. destruct is_dir.
  - cbn [andb]. split; [tauto|]. intros H. repeat split; auto.
  - rewrite (H3 eq_refl). cbn [andb]. split; [discriminate|].
    intros _. repeat split; discriminate.
Qed.

Lemma inherited_acl_validity_witness :
  nfs4acl_valid (fun _ => StatOk 16877) 3 (data no_propagate_example)
    = Ok tt /\
  exists out,
    NFS4ACL_generate_inherited_acl no_propagate_example true = Ok out /\
    nfs4acl_valid (fun _ => StatOk 16877) 4 (data out) <> Ok tt.
Proof.
  assert (H1 : nfs4acl_valid (fun _ => StatOk 16877) 3
                 (data no_propagate_example) = Ok tt)
    by (vm_compute; reflexivity).
  split; [exact H1|].
  destruct (NFS4ACL_generate_inherited_acl no_propagate_example true)
    as [out|e] eqn:E; [|vm_compute in E; discriminate E].
  exists out. split; [reflexivity|]. intros H.
  assert (H3 : target_is_dir (fun _ => StatOk 16877) 4 = Some true)
    by reflexivity.
  pose proof (proj1 (inherited_acl_validity (fun _ => StatOk 16877) 3
                       (fun _ => StatOk 16877) 4
                       no_propagate_example true out H1 E H3) H eq_refl)
    as X.
  vm_compute in X. discriminate X.
Defined.

Lemma has_bit_single (x k : Z) :
  0 <= k -> has_bits x (2 ^ k) = Z.testbit x k.
Proof.
  intros Hk. unfold has_bits. destruct (Z.testbit x k) eqn:E.
  - apply negb_true_iff, Z.eqb_neq. intros H0.
    assert (X : Z.testbit (Z.land x (2 ^ k)) k = true)
      by (rewrite Z.land_spec, E, Z.pow2_bits_true by lia; reflexivity).
    rewrite H0, Z.bits_0 in X. discriminate X.
  - apply negb_false_iff, Z.eqb_eq. apply Z.bits_inj'. intros n Hn.
    rewrite Z.bits_0, Z.land_spec, Z.pow2_bits_eqb by lia.
    destruct (Z.eqb_spec k n) as [<-|]; [now rewrite E|apply andb_false_r].
Qed.

Lemma canonical_idem (l : list NFS4Ace_t) : canonical (canonical l) = canonical l.
Proof.
  symmetry. apply ascending_canonical.
  destruct (canonical_stable l) as (_ & Ha & _). exact Ha.
Qed.

Lemma wellformed_canonical l :
  Forall ace_wellformed l -> Forall ace_wellformed (canonical l).
Proof.
  intros H. apply Forall_forall. intros a Ha.
  rewrite Forall_forall in H. apply H.
  eapply Permutation_in; [symmetry; apply canonical_permutation | exact Ha].
Qed.

(** X18.  The header of an ACL built by [from_aces].  For entries whose
    fields convert to a C [long] (fewer than 2^32 of them) and flags that
    convert, [from_aces(aces, flags)] returns an ACL whose [acl_flags] is
    the flags word reduced to 32 bits, whose [len()] is the number of
    entries given and whose [trivial] is bit 16 (ACL_IS_TRIVIAL) of the
    flags; with the flags omitted, [acl_flags] is 0 and [trivial] is
    False.  When the entries satisfy the data-model invariant, building an
    ACL again from the entries [aces] returns gives the same ACL, byte for
    byte. *)
Theorem from_aces_header (aces : list NFS4Ace_t) (f : Z) :
  Forall ace_in_range aces ->
  is_long f = true ->
  Z.of_nat (List.length aces) < 4294967296 ->
  exists acl,
    NFS4ACL_from_aces aces (Some f) = Ok acl /\
    NFS4ACL_get_acl_flags acl = Ok (u32 f) /\
    NFS4ACL_len acl = Z.of_nat (List.length aces) /\
    NFS4ACL_get_trivial acl = Z.testbit f 16 /\
    (exists acl0,
        NFS4ACL_from_aces aces None = Ok acl0 /\
        NFS4ACL_get_acl_flags acl0 = Ok 0 /\
        NFS4ACL_len acl0 = Z.of_nat (List.length aces) /\
        NFS4ACL_get_trivial acl0 = false) /\
    (Forall ace_wellformed aces ->
     exists l',
       NFS4ACL_get_aces acl = Ok l' /\
       NFS4ACL_from_aces l' (Some f) = Ok acl).
Proof.
  intros Hr Hf Hl.
  assert (Hhdr : forall fl,
            let b := encode_blob fl (u32 (Z.of_nat (List.length aces)))
                       (map xdr_of_ace (canonical aces)) in
            (blen b <? NFS4_HDR_SZ) = false /\
            word b 0 = u32 fl /\ word b 1 = Z.of_nat (List.length aces)).
  { intros fl b. subst b. rewrite encode_blob_length.
    rewrite length_map, canonical_length.
    destruct (encode_blob_header fl (u32 (Z.of_nat (List.length aces)))
                (map xdr_of_ace (canonical aces)) []) as [H0 H1].
    rewrite app_nil_r in H0, H1. rewrite H0, H1.
    split; [apply Z.ltb_ge; unfold NFS4_HDR_SZ; lia|].
    split; [reflexivity|].
    assert (Hn : u32 (Z.of_nat (List.length aces)) =
                 Z.of_nat (List.length aces)) by (apply u32_small; lia).
    now rewrite !Hn. }
  eexists. split; [apply from_aces_blob; [exact Hr | exact Hf]|].
  destruct (Hhdr (u32 f)) as (Hb & H0 & H1). cbv zeta in *.
  unfold NFS4ACL_get_acl_flags, NFS4ACL_len, NFS4ACL_get_trivial,
    IntFlag_call.
  cbn [data]. rewrite Hb, H0, H1.
  assert (Hu : u32 (u32 f) = u32 f)
    by (apply u32_small, u32_range).
  rewrite Hu. split; [reflexivity|]. split; [reflexivity|]. split.
  { change NFS4_ACL_IS_TRIVIAL with (2 ^ 16).
    rewrite has_bit_single by lia. unfold u32.
    change 4294967296 with (2 ^ 32). apply Z.mod_pow2_bits_low. lia. }
  split.
  { eexists. split; [apply from_aces_blob; [exact Hr | exact I]|].
    destruct (Hhdr 0) as (Hb0 & H00 & H10). cbv zeta in *.
    cbn [data]. rewrite Hb0, H00, H10. repeat split. }
  intros Hw. exists (canonical aces). split.
  - apply (from_aces_get_aces aces (Some f)); try assumption.
    apply from_aces_blob; assumption.
  - rewrite from_aces_blob;
      [|apply Forall_in_range_canonical; exact Hr | exact Hf].
    now rewrite canonical_idem, canonical_length.
Qed.

Lemma from_aces_header_witness :
  exists acl,
    NFS4ACL_from_aces scenario_input (Some 0x10000) = Ok acl /\
    NFS4ACL_get_acl_flags acl = Ok (u32 0x10000) /\
    NFS4ACL_len acl = Z.of_nat (List.length scenario_input) /\
    NFS4ACL_get_trivial acl = Z.testbit 0x10000 16.
Proof.
  assert (H1 : Forall ace_in_range scenario_input)
    by (repeat constructor).
  assert (H2 : is_long 0x10000 = true) by reflexivity.
  assert (H3 : Z.of_nat (List.length scenario_input) < 4294967296)
    by (vm_compute; reflexivity).
  destruct (from_aces_header scenario_input 0x10000 H1 H2 H3)
    as (acl & E1 & E2 & E3 & E4 & _).
  exists acl. repeat split; assumption.
Defined.

(** X19.  Validation when the target cannot be examined.  On a blob of at
    least the 8 header bytes and a descriptor whose [fstat] fails,
    [nfs4acl_valid] never accepts: it raises ValueError when some ACE
    present is a DENY for a special principal or has INHERIT_ONLY without
    FILE_INHERIT or DIRECTORY_INHERIT (the ACEs are examined first), and
    OSError with the errno of [fstat] otherwise.  With the descriptor -1
    the answer does not depend on [fstat] at all. *)
Theorem nfs4acl_valid_fstat_failure
  (fstat : Z -> fstat_result) (fd : Z) (d : bytes) (errno : Z) :
  NFS4_HDR_SZ <= blen d ->
  fd <> -1 ->
  fstat fd = StatErr errno ->
  (if existsb offending (aces_present d)
   then exists msg, nfs4acl_valid fstat fd d = Raise (ValueError msg)
   else nfs4acl_valid fstat fd d = Raise (OSErrorErrno errno)) /\
  (forall fstat', nfs4acl_valid fstat (-1) d = nfs4acl_valid fstat' (-1) d).
Proof.
  intros Hl Hfd Hs. split; [|reflexivity].
  unfold nfs4acl_valid.
  replace (blen d <? NFS4_HDR_SZ) with false by (symmetry; now apply Z.ltb_ge).
  pose proof (scan_whole d Hl) as Hsc.
  destruct (scan_aces _ d (blen d) (word d 1) 0 _) as [st|e].
  - destruct Hsc as (-> & _). cbn [bind].
    replace (fd =? -1) with false by (symmetry; now apply Z.eqb_neq).
    now rewrite Hs.
  - destruct Hsc as ((msg & ->) & ->). cbn [bind]. eauto.
Qed.

Lemma nfs4acl_valid_fstat_failure_witness :
  nfs4acl_valid (fun _ => StatErr 9) 5 valid_example = Raise (OSErrorErrno 9).
Proof.
  assert (H1 : NFS4_HDR_SZ <= blen valid_example)
    by (vm_compute; discriminate).
  assert (H2 : 5 <> -1) by discriminate.
  exact (proj1 (nfs4acl_valid_fstat_failure (fun _ => StatErr 9) 5
                  valid_example 9 H1 H2 eq_refl)).
Defined.

Lemma decode_slot_spec (d : bytes) (i : Z) :
  match nfs4ace_decode d (NFS4_HDR_WORDS + i * NFS4_ACE_WORDS) with
  | Ok a => decodes (xdr_ace_at d i) a /\ decodable (xdr_ace_at d i) = true
  | Raise e =>
      e = slot_error (xdr_ace_at d i) /\ decodable (xdr_ace_at d i) = false
  end.
Proof.
  unfold nfs4ace_decode, decodes, decodable, slot_error, xdr_ace_at,
    IntEnum_call, IntFlag_call.
  cbn [x_type x_flags x_iflag x_mask x_who].
  set (p := NFS4_HDR_WORDS + i * NFS4_ACE_WORDS).
  destruct (existsb (Z.eqb (word d p)) nfs4_ace_type_table);
    cbn [after]; [|split; reflexivity].
  cbn [andb]. destruct (word d (p + 2) =? 0) eqn:Ei.
  - cbn [orb]. change (existsb (Z.eqb NFS4_ACL_WHO_NAMED) nfs4_who_table)
      with true.
    cbn [ace_type ace_flags access_mask who_type who_id]. repeat split.
  - cbn [orb]. destruct (existsb (Z.eqb (word d (p + 4))) nfs4_who_table);
      [|split; reflexivity].
    cbn [ace_type ace_flags access_mask who_type who_id]. repeat split.
Qed.

Lemma decode_slots_spec (d : bytes) (n : nat) (i : Z) :
  match decode_slots d n i with
  | Ok l =>
      Forall2 decodes (present_from d i n) l /\
      first_undecodable (present_from d i n) = None
  | Raise e =>
      exists x,
        first_undecodable (present_from d i n) = Some x /\ e = slot_error x
  end.
Proof.
  revert i. induction n as [|n IH]; intros i.
  - cbn. split; [constructor|reflexivity].
  - cbn [decode_slots]. rewrite present_from_S.
    unfold first_undecodable. cbn [find].
    pose proof (decode_slot_spec d i) as Hs.
    destruct (nfs4ace_decode d _) as [a|e]; cbn [bind].
    + destruct Hs as [Hd ->]. cbn [negb]. specialize (IH (i + 1)).
      destruct (decode_slots d n (i + 1)) as [l|e]; cbn [bind].
      * destruct IH as [IH1 IH2]. split; [now constructor|exact IH2].
      * exact IH.
    + destruct Hs as [-> ->]. cbn [negb]. eauto.
Qed.

(** X20.  [aces] gives all the entries or none.  On any blob, [aces]
    either returns exactly [len()] entries, the decoding of each slot the
    blob holds, in order, every slot carrying an ACE type and a principal
    of the enums; or it raises and returns no list.  It raises ValueError
    on a blob shorter than its 8 header bytes and on a header that
    declares more entries than the data holds.  Otherwise the exception
    comes from the first slot that an enum refuses: the ValueError of the
    principal enum when the slot's ACE type is a member of its enum, and
    SystemError when the ACE type is not, because the three later enum
    calls are then made with the ValueError of the first still set. *)
Theorem get_aces_all_or_nothing (self : NFS4ACL_t) :
  match NFS4ACL_get_aces self with
  | Ok l =>
      Z.of_nat (List.length l) = NFS4ACL_len self /\
      n_present (data self) = NFS4ACL_len self /\
      Forall2 decodes (aces_present (data self)) l /\
      first_undecodable (aces_present (data self)) = None
  | Raise e =>
      (blen (data self) < NFS4_HDR_SZ /\
       e = ValueError "NFS4ACL data too short") \/
      (NFS4_HDR_SZ <= blen (data self) /\
       n_present (data self) < NFS4ACL_len self /\
       e = ValueError "NFS4ACL data truncated") \/
      (NFS4_HDR_SZ <= blen (data self) /\
       n_present (data self) = NFS4ACL_len self /\
       exists x,
         first_undecodable (aces_present (data self)) = Some x /\
         e = slot_error x)
  end.
Proof.
  unfold NFS4ACL_get_aces, NFS4ACL_len. cbv zeta.
  destruct (Z.ltb_spec (blen (data self)) NFS4_HDR_SZ) as [Hs|Hl].
  { left. split; [exact Hs|reflexivity]. }
  pose proof (read_be32_range (data self) (4 * 1)) as Hw.
  fold (word (data self) 1) in Hw.
  assert (Hq : 0 <= (blen (data self) - 8) / 20 /\
               20 * ((blen (data self) - 8) / 20) <= blen (data self) - 8 /\
               blen (data self) - 8 < 20 * ((blen (data self) - 8) / 20) + 20).
  { unfold NFS4_HDR_SZ in Hl.
    pose proof (Z.div_mod (blen (data self) - 8) 20 ltac:(lia)).
    pose proof (Z.mod_pos_bound (blen (data self) - 8) 20 ltac:(lia)).
    split; [apply Z.div_pos; lia | lia]. }
  assert (Hn : n_present (data self) =
               Z.min (word (data self) 1) ((blen (data self) - 8) / 20)).
  { unfold n_present.
    replace (blen (data self) <? NFS4_HDR_SZ) with false
      by (symmetry; now apply Z.ltb_ge).
    reflexivity. }
  destruct (Z.gtb_spec (NFS4_HDR_SZ + word (data self) 1 * NFS4_ACE_SZ)
              (blen (data self))) as [Ht|Ht].
  { right. left. split; [exact Hl|]. split; [|reflexivity].
    unfold NFS4_HDR_SZ, NFS4_ACE_SZ in *. lia. }
  assert (Hp : n_present (data self) = word (data self) 1)
    by (unfold NFS4_HDR_SZ, NFS4_ACE_SZ in *; lia).
  pose proof (decode_slots_spec (data self)
                (Z.to_nat (word (data self) 1)) 0) as Hd.
  unfold aces_present. rewrite Hp.
  destruct (decode_slots (data self) _ 0) as [l|e].
  - destruct Hd as [Hd Hu].
    split; [|split; [reflexivity|split; [exact Hd|exact Hu]]].
    apply Forall2_length in Hd. rewrite <- Hd.
    unfold present_from. rewrite length_map, length_seq. lia.
  - right. right. split; [exact Hl|]. split; [reflexivity|exact Hd].
Qed.

End NFS4Compose.

Module KernelOrder.
Import CInt Wire Py Kernel KernelSpec KernelForm KernelFacts KernelTrace.

Lemma ends_checked_snoc (tr : list call) (c : call) :
  ends_checked (tr ++ [c]) <-> c = c_PyErr_CheckSignals.
Proof.
  unfold ends_checked. split.
  - intros (b & E). apply app_inj_tail in E as [_ E]. exact E.
  - intros ->. eauto.
Qed.

Lemma ends_checked_app (tr more : list call) (c : call) :
  ends_checked (tr ++ more ++ [c]) <-> c = c_PyErr_CheckSignals.
Proof. rewrite app_assoc. apply ends_checked_snoc. Qed.

(** What the signal-safe loop leaves behind, on any script. *)
Lemma retry_loop_cases (c : call) (failed : reply -> bool) :
  c <> c_PyErr_CheckSignals ->
  forall (fuel : nat) (w : world),
    exists more,
      trace (snd (retry_loop fuel c failed w)) = trace w ++ more /\
      Forall (fun x => x = c \/ x = c_PyErr_CheckSignals) more /\
      match fst (retry_loop fuel c failed w) with
      | Done (r, a) =>
          if a =? 0
          then exists before, more = before ++ [c]
          else failed r = true /\
               exists before, more = before ++ [c_PyErr_CheckSignals]
      | Exc _ => False
      | Fatal _ => False
      | Starved => True
      end.
Proof.
  intros Hc. induction fuel as [|fuel IH]; intros w.
  - cbn. exists []. rewrite app_nil_r. auto.
  - cbn [retry_loop]. unfold mbind, sys, mret.
    destruct (script w) as [|r s] eqn:Es; cbn [fst snd trace script].
    { exists [c]. repeat split; auto. }
    destruct (failed r && (errno r =? EINTR)) eqn:Ef;
      cbn [fst snd trace script].
    2:{ exists [c]. split; [reflexivity|]. split; [auto|].
        exists []. reflexivity. }
    destruct s as [|x s]; cbn [fst snd trace script].
    { exists [c; c_PyErr_CheckSignals]. rewrite <- app_assoc.
      repeat split; auto. }
    destruct (ret x =? 0) eqn:Ex; cbn [fst snd trace script].
    + set (w1 := mkWorld s ((trace w ++ [c]) ++ [c_PyErr_CheckSignals])).
      destruct (IH w1) as (more & Hm & Hf & Hr).
      exists (c :: c_PyErr_CheckSignals :: more).
      split.
      { rewrite Hm. unfold w1. cbn [trace]. now rewrite <- !app_assoc. }
      split; [auto|].
      destruct (fst (retry_loop fuel c failed w1)) as [[r' a]| | |];
        try exact Hr.
      destruct (a =? 0).
      * destruct Hr as (b & ->).
        exists (c :: c_PyErr_CheckSignals :: b). reflexivity.
      * destruct Hr as (Hfr & b & ->). split; [exact Hfr|].
        exists (c :: c_PyErr_CheckSignals :: b). reflexivity.
    + exists [c; c_PyErr_CheckSignals]. rewrite <- app_assoc.
      split; [reflexivity|]. split; [auto|]. rewrite Ex.
      apply andb_prop in Ef as [Ef _]. split; [exact Ef|].
      exists [c]. reflexivity.
Qed.

Lemma retry_cases (c : call) (failed : reply -> bool) (w : world) :
  c <> c_PyErr_CheckSignals ->
  exists more,
    trace (snd (retry c failed w)) = trace w ++ more /\
    Forall (fun x => x = c \/ x = c_PyErr_CheckSignals) more /\
    match fst (retry c failed w) with
    | Done (r, a) =>
        if a =? 0
        then exists before, more = before ++ [c]
        else failed r = true /\
             exists before, more = before ++ [c_PyErr_CheckSignals]
    | Exc _ => False
    | Fatal _ => False
    | Starved => True
    end.
Proof. intros Hc. now apply retry_loop_cases. Qed.

Lemma orderly_ret {A} (P : call -> Prop) (a : A) : orderly P (mret a).
Proof.
  intros w Hw. cbn. split; [|exact Hw].
  exists []. now rewrite app_nil_r.
Qed.

Lemma orderly_raise {A} (P : call -> Prop) (e : exc) :
  e <> Interrupted -> orderly P (@raise A e).
Proof.
  intros He w Hw. cbn. split; [exists []; now rewrite app_nil_r|].
  split; [contradiction | intros X; contradiction].
Qed.

Lemma orderly_bind {A B} (P : call -> Prop) (m : M A) (k : A -> M B) :
  orderly P m -> (forall a, orderly P (k a)) -> orderly P (mbind m k).
Proof.
  intros Hm Hk w Hw. unfold mbind.
  destruct (Hm w Hw) as [(m1 & H1 & F1) R1].
  destruct (m w) as [[a| | |] w1] eqn:Em; cbn [fst snd] in *.
  - destruct (Hk a w1 R1) as [(m2 & H2 & F2) R2].
    split; [|exact R2].
    exists (m1 ++ m2). rewrite H2, H1, <- app_assoc.
    split; [reflexivity | now apply Forall_app].
  - split; [eauto | exact R1].
  - contradiction.
  - split; [eauto | exact I].
Qed.

(** The loop followed by the test of [async_err] that the callers make
    before they look at the reply. *)
Lemma orderly_retry_then {B} (P : call -> Prop) (c : call)
  (failed : reply -> bool) (k : reply -> M B) :
  c <> c_PyErr_CheckSignals -> P c -> P c_PyErr_CheckSignals ->
  (forall r, orderly P (k r)) ->
  orderly P
    (mbind (retry c failed) (fun x =>
       let '(r, async_err) := x in
       if negb (async_err =? 0) then raise Interrupted else k r)).
Proof.
  intros Hc Pc Ps Hk w Hw. unfold mbind.
  destruct (retry_cases c failed w Hc) as (more & Hm & Hf & Hr).
  assert (HP : Forall P more).
  { eapply Forall_impl; [|exact Hf]. intros x [->| ->]; assumption. }
  destruct (retry c failed w) as [[[r a]| | |] w1] eqn:Er;
    cbn [fst snd] in *; try contradiction.
  - destruct (a =? 0); cbn [negb].
    + destruct Hr as (b & ->).
      assert (Hw1 : ~ ends_checked (trace w1)).
      { rewrite Hm. intros X. apply ends_checked_app in X. contradiction. }
      destruct (Hk r w1 Hw1) as [(m2 & H2 & F2) R2].
      split; [|exact R2].
      exists ((b ++ [c]) ++ m2). split.
      { rewrite H2, Hm, <- !app_assoc. reflexivity. }
      now apply Forall_app.
    + destruct Hr as (_ & b & ->). cbn [raise fst snd].
      split; [eauto|]. split; [|reflexivity].
      intros _. rewrite Hm. apply ends_checked_app. reflexivity.
  - split; [eauto | exact I].
Qed.

(** The loop followed by the test of the reply first and of [async_err]
    second. *)
Lemma orderly_retry_failed {B} (P : call -> Prop) (c : call)
  (failed : reply -> bool) (k : reply -> M B) (err : reply -> exc) :
  c <> c_PyErr_CheckSignals -> P c -> P c_PyErr_CheckSignals ->
  (forall r, err r <> Interrupted) ->
  (forall r, orderly P (k r)) ->
  orderly P
    (mbind (retry c failed) (fun x =>
       let '(r, async_err) := x in
       if failed r then
         if async_err =? 0 then raise (err r) else raise Interrupted
       else k r)).
Proof.
  intros Hc Pc Ps He Hk w Hw. unfold mbind.
  destruct (retry_cases c failed w Hc) as (more & Hm & Hf & Hr).
  assert (HP : Forall P more).
  { eapply Forall_impl; [|exact Hf]. intros x [->| ->]; assumption. }
  destruct (retry c failed w) as [[[r a]| | |] w1] eqn:Er;
    cbn [fst snd] in *; try contradiction.
  - destruct (a =? 0).
    + destruct Hr as (b & ->).
      assert (Hw1 : ~ ends_checked (trace w1)).
      { rewrite Hm. intros X. apply ends_checked_app in X. contradiction. }
      destruct (failed r).
      * cbn [raise fst snd]. split; [eauto|].
        split; [intros X; now apply He in X | intros X; contradiction].
      * destruct (Hk r w1 Hw1) as [(m2 & H2 & F2) R2].
        split; [|exact R2].
        exists ((b ++ [c]) ++ m2). split.
        { rewrite H2, Hm, <- !app_assoc. reflexivity. }
        now apply Forall_app.
    + destruct Hr as (Hfr & b & ->). rewrite Hfr. cbn [raise fst snd].
      split; [eauto|]. split; [|reflexivity].
      intros _. rewrite Hm. apply ends_checked_app. reflexivity.
  - split; [eauto | exact I].
Qed.

Lemma orderly_ext {A} (P : call -> Prop) (m m' : M A) :
  (forall w, m w = m' w) -> orderly P m -> orderly P m'.
Proof. intros E H w Hw. rewrite <- E. now apply H. Qed.

Lemma not_checked_nil : ~ ends_checked [].
Proof. intros (b & E). destruct b; discriminate E. Qed.

End KernelOrder.

Module AclRead.
Import CInt Wire Py Kernel AclXattr KernelSpec KernelForm KernelFacts
  KernelTrace KernelOrder.
Local Open Scope kernel_scope.

Lemma probe_ok (fd : Z) (name : string) (sz : Z) :
  In name [NFS4_ACL_XATTR; POSIX_ACCESS_XATTR; POSIX_DEFAULT_XATTR] ->
  acl_probe fd (c_fgetxattr fd name sz).
Proof. intros H. right. eauto. Qed.

Lemma check_ok (fd : Z) : acl_probe fd c_PyErr_CheckSignals.
Proof. now left. Qed.

Lemma orderly_read_xattr_raw (fd : Z) (name : string) (sz : Z) :
  In name [NFS4_ACL_XATTR; POSIX_ACCESS_XATTR; POSIX_DEFAULT_XATTR] ->
  orderly (acl_probe fd) (read_xattr_raw fd name sz).
Proof.
  intros Hn. unfold read_xattr_raw.
  apply (orderly_retry_failed (acl_probe fd) (c_fgetxattr fd name sz)
           failed_m1 (fun r => mret (buf r, ret r))
           (fun r => OSErrorErrno (errno r))).
  - discriminate.
  - now apply probe_ok.
  - apply check_ok.
  - discriminate.
  - intros r. apply orderly_ret.
Qed.

Lemma orderly_do_fgetacl (fd : Z) : orderly (acl_probe fd) (do_fgetacl fd).
Proof.
  assert (N1 : In NFS4_ACL_XATTR
                 [NFS4_ACL_XATTR; POSIX_ACCESS_XATTR; POSIX_DEFAULT_XATTR])
    by (cbn; auto).
  assert (N2 : In POSIX_ACCESS_XATTR
                 [NFS4_ACL_XATTR; POSIX_ACCESS_XATTR; POSIX_DEFAULT_XATTR])
    by (cbn; auto).
  assert (N3 : In POSIX_DEFAULT_XATTR
                 [NFS4_ACL_XATTR; POSIX_ACCESS_XATTR; POSIX_DEFAULT_XATTR])
    by (cbn; auto).
  assert (R : forall name sz B (k : bytes * Z -> M B),
             In name [NFS4_ACL_XATTR; POSIX_ACCESS_XATTR;
                      POSIX_DEFAULT_XATTR] ->
             (forall x, orderly (acl_probe fd) (k x)) ->
             orderly (acl_probe fd) (mbind (read_xattr_raw fd name sz) k)).
  { intros name sz B k Hn Hk. apply orderly_bind; [|exact Hk].
    now apply orderly_read_xattr_raw. }
  unfold do_fgetacl.
  apply orderly_retry_then;
    [discriminate | now apply probe_ok | apply check_ok |].
  intros r1.
  destruct ((ret r1 >=? 0) || (errno r1 =? ENODATA)).
  { destruct (ret r1 >? 0); [|apply orderly_ret].
    apply R; [exact N1|]. intros [d len]. apply orderly_ret. }
  destruct (negb (errno r1 =? EOPNOTSUPP)); [now apply orderly_raise|].
  apply orderly_retry_then;
    [discriminate | now apply probe_ok | apply check_ok |].
  intros r2.
  destruct ((ret r2 =? -1) && (errno r2 =? EOPNOTSUPP));
    [now apply orderly_raise|].
  apply orderly_bind.
  { destruct (ret r2 >? 0); [|apply orderly_ret].
    apply R; [exact N2|]. intros [d len]. apply orderly_ret. }
  intros [access_data access_len].
  apply orderly_retry_then;
    [discriminate | now apply probe_ok | apply check_ok |].
  intros r3.
  destruct ((ret r3 =? -1) && (errno r3 =? ENODATA)); [apply orderly_ret|].
  destruct (ret r3 =? -1); [now apply orderly_raise|].
  destruct (ret r3 >? 0); [|apply orderly_ret].
  apply R; [exact N3|]. intros [d len]. apply orderly_ret.
Qed.

(** X21.  [do_fgetacl] on any script of kernel replies.  Every call it
    makes is an [fgetxattr] on the descriptor it was given, for one of the
    three ACL xattrs, or a signal check: it writes nothing and touches no
    other descriptor.  It raises the pending signal's exception exactly
    when the last call it made is a signal check that was answered (so
    after an interruption it makes no further call), and it never aborts
    the process. *)
Theorem do_fgetacl_only_probes (fd : Z) (s : list reply) :
  let out := run (do_fgetacl fd) s in
  Forall (acl_probe fd) (trace (snd out)) /\
  (fst out = Exc Interrupted <->
   ends_checked (trace (snd out)) /\ fst out <> Starved) /\
  (forall msg, fst out <> Fatal msg).
Proof.
  intros out. subst out. unfold run.
  destruct (orderly_do_fgetacl fd (mkWorld s []) not_checked_nil)
    as [(more & Hm & Hf) Hr].
  cbn [trace app] in Hm. rewrite Hm. split; [exact Hf|].
  rewrite Hm in Hr.
  destruct (fst (do_fgetacl fd (mkWorld s []))) as [a|e|msg|].
  - split; [|discriminate]. split; [discriminate|]. intros [X _].
    contradiction.
  - split; [|discriminate]. split.
    + intros [= ->]. split; [now apply Hr | discriminate].
    + intros [X _]. f_equal. now apply Hr.
  - contradiction.
  - split; [|discriminate]. split; [discriminate|]. intros [_ X].
    now contradiction X.
Qed.

End AclRead.

Module FhandleOpen.
Import CInt Wire Py Kernel Fhandle KernelSpec KernelForm KernelFacts
  KernelTrace KernelOrder.
Local Open Scope kernel_scope.

Lemma orderly_py_fhandle_open (self : py_fhandle_t) (mount_fd flags : Z) :
  orderly (handle_call self mount_fd flags)
    (py_fhandle_open self mount_fd flags).
Proof.
  unfold py_fhandle_open.
  destruct (mount_id self =? UINT64_MAX); [now apply orderly_raise|].
  apply (orderly_retry_failed (handle_call self mount_fd flags) _ failed_nz
           _ (fun r => OSErrorErrno (errno r)));
    [discriminate | right; now left | now left | discriminate |].
  intros r.
  destruct (negb (stx_mnt_id (stx r) =? mount_id self));
    [now apply orderly_raise|].
  apply (orderly_retry_failed (handle_call self mount_fd flags) _ failed_m1
           (fun r => mret (ret r)) (fun r => OSErrorErrno (errno r)));
    [discriminate | right; now right | now left | discriminate |].
  intros r2. apply orderly_ret.
Qed.

(** X22.  [Fhandle.open] on a mount that matches.  When the [statx] of
    [mount_fd] succeeds (after any number of interrupted attempts) and
    reports the mount id recorded in the handle, [open] calls
    [open_by_handle_at] with [mount_fd], the stored handle and the flags
    it was given, and returns the descriptor the kernel returns, or raises
    OSError with the kernel's errno.  On any script of replies, [open]
    makes no call but that [statx], that [open_by_handle_at] and signal
    checks, and raises the pending signal's exception exactly when the
    last call it made is a signal check that was answered. *)
Theorem fhandle_open_matching_mount
  (self : py_fhandle_t) (mount_fd flags : Z)
  (pre : list reply) (r : reply) (pre2 : list reply) (r2 : reply)
  (rest : list reply) :
  mount_id self <> UINT64_MAX ->
  restarts failed_nz pre = true ->
  ret r = 0 ->
  stx_mnt_id (stx r) = mount_id self ->
  restarts failed_m1 pre2 = true ->
  settles failed_m1 r2 = true ->
  let out :=
    run (py_fhandle_open self mount_fd flags)
      (pre ++ r :: pre2 ++ r2 :: rest) in
  fst out = (if ret r2 =? -1 then Exc (OSErrorErrno (errno r2))
             else Done (ret r2)) /\
  trace (snd out) =
    retry_calls
      (c_statx mount_fd "" AT_EMPTY_PATH
         (if unique_mount_id self then STATX_MNT_ID_UNIQUE
          else STATX_MNT_ID)) pre ++
    retry_calls (c_open_by_handle_at mount_fd (fhandle self) flags) pre2 /\
  script (snd out) = rest /\
  forall s,
    let any := run (py_fhandle_open self mount_fd flags) s in
    Forall (handle_call self mount_fd flags) (trace (snd any)) /\
    (fst any = Exc Interrupted <->
     ends_checked (trace (snd any)) /\ fst any <> Starved).
Proof.
  intros Hid Hpre Hr Hmnt Hpre2 Hr2 out. subst out.
  split; [|split; [|split]].
  1-3: unfold run, py_fhandle_open;
    replace (mount_id self =? UINT64_MAX) with false
      by (symmetry; now apply Z.eqb_neq);
    unfold mbind at 1;
    rewrite retry_settles
      by (try assumption; unfold settles, failed_nz; rewrite Hr; reflexivity);
    unfold failed_nz at 1; rewrite Hr; cbn [negb Z.eqb];
    replace (stx_mnt_id (stx r) =? mount_id self) with true
      by (symmetry; now apply Z.eqb_eq);
    cbn [negb]; unfold mbind at 1;
    rewrite retry_settles by assumption;
    destruct (ret r2 =? -1) eqn:E2.
  - unfold settles, failed_m1 in Hr2. rewrite E2 in Hr2. cbn [andb] in Hr2.
    reflexivity.
  - reflexivity.
  - unfold settles, failed_m1 in Hr2. rewrite E2 in Hr2.
    cbn [raise snd trace app]. reflexivity.
  - cbn [mret snd trace app]. reflexivity.
  - reflexivity.
  - reflexivity.
  - intros s any. subst any. unfold run.
    destruct (orderly_py_fhandle_open self mount_fd flags (mkWorld s [])
                not_checked_nil) as [(more & Hm & Hf) Hx].
    cbn [trace app] in Hm. rewrite Hm. split; [exact Hf|].
    rewrite Hm in Hx.
    destruct (fst (py_fhandle_open self mount_fd flags (mkWorld s [])))
      as [a|e|msg|].
    + split; [discriminate|]. intros [X _]. contradiction.
    + split.
      * intros [= ->]. split; [now apply Hx | discriminate].
      * intros [X _]. f_equal. now apply Hx.
    + contradiction.
    + split; [discriminate|]. intros [_ X]. now contradiction X.
Qed.

Lemma fhandle_open_matching_mount_witness :
  let out :=
    run (py_fhandle_open handle_example 7 0)
      (interrupted_once ++ mount_statx :: [] ++ r_ok 9 :: []) in
  fst out = Done 9 /\ script (snd out) = [].
Proof.
  assert (H1 : mount_id handle_example <> UINT64_MAX) by discriminate.
  assert (H2 : restarts failed_nz interrupted_once = true) by reflexivity.
  assert (H3 : ret mount_statx = 0) by reflexivity.
  assert (H4 : stx_mnt_id (stx mount_statx) = mount_id handle_example)
    by reflexivity.
  assert (H5 : restarts failed_m1 [] = true) by reflexivity.
  assert (H6 : settles failed_m1 (r_ok 9) = true) by reflexivity.
  destruct (fhandle_open_matching_mount handle_example 7 0
              interrupted_once mount_statx [] (r_ok 9) [] H1 H2 H3 H4 H5 H6)
    as (E1 & _ & E3 & _).
  split; [exact E1 | exact E3].
Defined.

End FhandleOpen.

Module AclWriteFacts.
Import CInt Wire Py Kernel AclXattr KernelSpec AclWrite KernelFacts
  AclXattrFacts.

Lemma xretry_loop_settles (c : xcall) (failed : reply -> bool) (r : reply)
  (rest : list reply) :
  settles failed r = true ->
  forall (pre : list reply) (fuel : nat) (tr : list xcall),
    restarts failed pre = true ->
    (List.length pre < fuel)%nat ->
    xretry_loop fuel c failed (mkXWorld (pre ++ r :: rest) tr) =
    (Done (r, 0), mkXWorld rest (tr ++ xretry_calls c pre)).
Proof.
  intros Hr pre. induction pre as [| a | a b l IH] using pair_ind;
    intros fuel tr Hpre Hfuel.
  - destruct fuel as [|fuel]; [cbn in Hfuel; lia|].
    cbn [xretry_loop app]. unfold xbind, xsys. cbn [xscript xtrace].
    unfold settles in Hr. apply negb_true_iff in Hr. rewrite Hr.
    reflexivity.
  - discriminate Hpre.
  - cbn [restarts] in Hpre.
    apply andb_prop in Hpre as [Hpre Hl].
    apply andb_prop in Hpre as [Hpre Hb].
    destruct fuel as [|fuel]; [cbn in Hfuel; lia|].
    cbn [List.length] in Hfuel.
    cbn [xretry_loop app]. unfold xbind at 1, xsys at 1.
    cbn [xscript xtrace].
    rewrite Hpre. unfold xbind at 1, xsys at 1. cbn [xscript xtrace].
    rewrite Hb. rewrite IH by (assumption || lia).
    cbn [xretry_calls]. rewrite <- !app_assoc. reflexivity.
Qed.

Lemma xretry_settles (c : xcall) (failed : reply -> bool) (pre : list reply)
  (r : reply) (rest : list reply) (tr : list xcall) :
  restarts failed pre = true ->
  settles failed r = true ->
  xretry c failed (mkXWorld (pre ++ r :: rest) tr) =
  (Done (r, 0), mkXWorld rest (tr ++ xretry_calls c pre)).
Proof.
  intros Hpre Hr. unfold xretry. cbn [xscript].
  apply xretry_loop_settles; try assumption.
  rewrite length_app. cbn [List.length]. lia.
Qed.

(** The loop on interrupted attempts followed by an attempt that is
    interrupted while a signal's exception is pending. *)
Lemma xretry_loop_interrupted (c : xcall) (failed : reply -> bool)
  (ri s : reply) (rest : list reply) :
  failed ri = true -> errno ri = EINTR -> ret s <> 0 ->
  forall (pre : list reply) (fuel : nat) (tr : list xcall),
    restarts failed pre = true ->
    (List.length pre < fuel)%nat ->
    xretry_loop fuel c failed (mkXWorld (pre ++ ri :: s :: rest) tr) =
    (Done (ri, ret s),
     mkXWorld rest (tr ++ xretry_calls c pre ++ [x_PyErr_CheckSignals])).
Proof.
  intros Hf He Hs pre. induction pre as [| a | a b l IH] using pair_ind;
    intros fuel tr Hpre Hfuel.
  - destruct fuel as [|fuel]; [cbn in Hfuel; lia|].
    cbn [xretry_loop app]. unfold xbind, xsys, xret. cbn [xscript xtrace].
    rewrite Hf, He, Z.eqb_refl. cbn [andb xscript xtrace].
    replace (ret s =? 0) with false by (symmetry; now apply Z.eqb_neq).
    cbn [xretry_calls app]. rewrite <- ?app_assoc. reflexivity.
  - discriminate Hpre.
  - cbn [restarts] in Hpre.
    apply andb_prop in Hpre as [Hpre Hl].
    apply andb_prop in Hpre as [Hpre Hb].
    destruct fuel as [|fuel]; [cbn in Hfuel; lia|].
    cbn [List.length] in Hfuel.
    cbn [xretry_loop app]. unfold xbind at 1, xsys at 1.
    cbn [xscript xtrace].
    rewrite Hpre. unfold xbind at 1, xsys at 1. cbn [xscript xtrace].
    rewrite Hb. rewrite IH by (assumption || lia).
    cbn [xretry_calls app]. rewrite <- !app_assoc. reflexivity.
Qed.

Lemma xretry_interrupted (c : xcall) (failed : reply -> bool)
  (pre : list reply) (ri s : reply) (rest : list reply) (tr : list xcall) :
  restarts failed pre = true ->
  failed ri = true -> errno ri = EINTR -> ret s <> 0 ->
  xretry c failed (mkXWorld (pre ++ ri :: s :: rest) tr) =
  (Done (ri, ret s),
   mkXWorld rest (tr ++ xretry_calls c pre ++ [x_PyErr_CheckSignals])).
Proof.
  intros Hpre Hf He Hs. unfold xretry. cbn [xscript].
  apply xretry_loop_interrupted; try assumption.
  rewrite length_app. cbn [List.length]. lia.
Qed.

Lemma xretry_calls_shape (c : xcall) (pre : list reply) :
  Forall (fun x => x = c \/ x = x_PyErr_CheckSignals) (xretry_calls c pre).
Proof.
  induction pre as [| a | a b l IH] using pair_ind; cbn [xretry_calls].
  - constructor; [now left | constructor].
  - constructor; [now left | constructor].
  - constructor; [now left|]. constructor; [now right | exact IH].
Qed.

Lemma untouched_in (name : string) (c : xcall) (pre : list reply) :
  touches name c = false ->
  existsb (touches name) (xretry_calls c pre) = false.
Proof.
  intros Hc. pose proof (xretry_calls_shape c pre) as Hs.
  induction Hs as [|x l [-> | ->] _ IH]; [reflexivity| |];
    cbn [existsb]; rewrite ?Hc; exact IH.
Qed.

(** A site on the reply that settles it. *)
Lemma fail_unless_settled (ignored : Z -> bool) (r : reply) (k : X unit)
  (w : xworld) :
  fail_unless ignored r 0 k w =
  match site_result ignored r with
  | Done _ => k w
  | o => (o, w)
  end.
Proof.
  unfold fail_unless, site_result.
  destruct ((ret r =? -1) && negb (ignored (errno r))); reflexivity.
Qed.

Lemma fail_unless_last (ignored : Z -> bool) (r : reply) (w : xworld) :
  fail_unless ignored r 0 (xret tt) w = (site_result ignored r, w).
Proof.
  unfold fail_unless, site_result.
  destruct ((ret r =? -1) && negb (ignored (errno r))); reflexivity.
Qed.

End AclWriteFacts.

Module AclSet.
Import CInt Wire Py Kernel AclXattr KernelSpec AclWrite KernelFacts
  AclXattrFacts AclWriteFacts.

(** X23.  Setting the POSIX ACL.  [do_fsetacl_posix] writes the access
    xattr first.  When that write fails, it raises OSError with the
    kernel's errno and neither writes nor removes the default xattr.  When
    it succeeds, the default xattr is written when a default blob is
    given and removed when none is; a failure there raises OSError with the
    access xattr already replaced (nothing is rolled back), except that
    ENODATA on the removal counts as success.  A signal whose handler
    raises while the access xattr is being written ends the call with
    that exception before the default xattr is touched.
    [do_fsetacl_nfs4] makes the one [fsetxattr] on the NFSv4 xattr,
    repeated after each interruption, and raises OSError when it fails. *)
Theorem fsetacl_posix_steps
  (fd : Z) (access_data : bytes) (default_data : option bytes)
  (p1 : list reply) (r1 : reply) (p2 : list reply) (r2 : reply)
  (rest : list reply) :
  answered failed_m1 (p1, r1) = true ->
  answered failed_m1 (p2, r2) = true ->
  let set_access :=
    x_fsetxattr fd POSIX_ACCESS_XATTR access_data (blen access_data) 0 in
  let second :=
    match default_data with
    | Some d => x_fsetxattr fd POSIX_DEFAULT_XATTR d (blen d) 0
    | None => x_fremovexattr fd POSIX_DEFAULT_XATTR
    end in
  let out :=
    xrun (do_fsetacl_posix fd access_data default_data)
      (replies [(p1, r1); (p2, r2)] ++ rest) in
  (ret r1 = -1 ->
   fst out = Exc (OSErrorErrno (errno r1)) /\
   xtrace (snd out) = xretry_calls set_access p1 /\
   existsb (touches POSIX_DEFAULT_XATTR) (xtrace (snd out)) = false) /\
  (ret r1 <> -1 ->
   xtrace (snd out) = xretry_calls set_access p1 ++ xretry_calls second p2 /\
   fst out =
     site_result
       (match default_data with Some _ => no_errno | None => is_ENODATA end)
       r2) /\
  (forall ri s,
      failed_m1 ri = true -> errno ri = EINTR -> ret s <> 0 ->
      let cut :=
        xrun (do_fsetacl_posix fd access_data default_data)
          (p1 ++ ri :: s :: rest) in
      fst cut = Exc Interrupted /\
      existsb (touches POSIX_DEFAULT_XATTR) (xtrace (snd cut)) = false) /\
  (let nfs4 :=
     xrun (do_fsetacl_nfs4 fd access_data) (replies [(p1, r1)] ++ rest) in
   fst nfs4 = site_result no_errno r1 /\
   xtrace (snd nfs4) =
     xretry_calls
       (x_fsetxattr fd NFS4_ACL_XATTR access_data (blen access_data) 0) p1).
Proof.
  intros H1 H2 set_access second out.
  apply answered_inv in H1 as [Hp1 Hs1].
  apply answered_inv in H2 as [Hp2 Hs2].
  cbn [fst snd] in Hp1, Hs1, Hp2, Hs2.
  assert (Hacc : touches POSIX_DEFAULT_XATTR set_access = false)
    by reflexivity.
  assert (E0 : out =
    fail_unless no_errno r1 0
      match default_data with
      | Some d =>
          xbind (xretry (x_fsetxattr fd POSIX_DEFAULT_XATTR d (blen d) 0)
                   failed_m1)
            (fun x => let '(r, async_err) := x in
             fail_unless no_errno r async_err (xret tt))
      | None =>
          xbind (xretry (x_fremovexattr fd POSIX_DEFAULT_XATTR) failed_m1)
            (fun x => let '(r, async_err) := x in
             fail_unless is_ENODATA r async_err (xret tt))
      end
      (mkXWorld (p2 ++ r2 :: rest) (xretry_calls set_access p1))).
  { subst out. unfold xrun, do_fsetacl_posix.
    cbn [replies flat_map fst snd]. rewrite <- !app_assoc. cbn [app].
    unfold xbind at 1. rewrite xretry_settles by assumption.
    reflexivity. }
  rewrite fail_unless_settled in E0. unfold site_result in E0.
  split; [|split; [|split]].
  - intros Hr1. rewrite E0, Hr1, Z.eqb_refl.
    cbn [andb negb no_errno fst snd xtrace].
    split; [reflexivity|]. split; [reflexivity|].
    now apply untouched_in.
  - intros Hr1. rewrite E0.
    replace (ret r1 =? -1) with false by (symmetry; now apply Z.eqb_neq).
    cbn [andb]. subst second.
    destruct default_data as [d|]; unfold xbind at 1 2;
      rewrite xretry_settles by assumption;
      rewrite fail_unless_last; cbn [fst snd xtrace];
      split; reflexivity.
  - intros ri s Hf He Hs cut.
    assert (E : cut =
      (Exc Interrupted,
       mkXWorld rest
         (xretry_calls set_access p1 ++ [x_PyErr_CheckSignals]))).
    { subst cut. unfold xrun, do_fsetacl_posix.
      unfold xbind at 1. rewrite xretry_interrupted by assumption.
      unfold fail_unless. unfold failed_m1 in Hf. rewrite Hf.
      cbn [andb negb no_errno].
      replace (ret s =? 0) with false by (symmetry; now apply Z.eqb_neq).
      reflexivity. }
    rewrite E. cbn [fst snd xtrace]. split; [reflexivity|].
    rewrite existsb_app, untouched_in by exact Hacc. reflexivity.
  - intros nfs4.
    assert (E : nfs4 =
      (site_result no_errno r1,
       mkXWorld rest
         (xretry_calls
            (x_fsetxattr fd NFS4_ACL_XATTR access_data (blen access_data) 0)
            p1))).
    { subst nfs4. unfold xrun, do_fsetacl_nfs4.
      cbn [replies flat_map fst snd]. rewrite <- !app_assoc. cbn [app].
      unfold xbind at 1. rewrite xretry_settles by assumption.
      now rewrite fail_unless_last. }
    rewrite E. split; reflexivity.
Qed.

Lemma fsetacl_posix_steps_witness :
  let out :=
    xrun (do_fsetacl_posix 3 POSIXSpec.access_example None)
      (replies [(interrupted_once, r_ok 0); ([], r_err ENODATA)] ++ []) in
  fst out = Done tt /\
  xtrace (snd out) =
    xretry_calls
      (x_fsetxattr 3 POSIX_ACCESS_XATTR POSIXSpec.access_example
         (blen POSIXSpec.access_example) 0) interrupted_once ++
    [x_fremovexattr 3 POSIX_DEFAULT_XATTR].
Proof.
  assert (H1 : answered failed_m1 (interrupted_once, r_ok 0) = true)
    by reflexivity.
  assert (H2 : answered failed_m1 ([], r_err ENODATA) = true)
    by reflexivity.
  assert (H3 : ret (r_ok 0) <> -1) by discriminate.
  destruct (fsetacl_posix_steps 3 POSIXSpec.access_example None
              interrupted_once (r_ok 0) [] (r_err ENODATA) [] H1 H2)
    as (_ & E & _).
  destruct (E H3) as [E1 E2]. split; [exact E2 | exact E1].
Defined.

(** X24.  Removing the ACL.  [do_fremoveacl] probes the NFSv4 xattr with
    a zero-size [fgetxattr].  When the probe succeeds it removes the
    NFSv4 xattr.  When the probe fails with ENODATA it succeeds without
    removing anything; with an errno other than ENODATA and EOPNOTSUPP it
    raises OSError without removing anything.  With EOPNOTSUPP it removes
    the POSIX access xattr and, unless that fails, the POSIX default
    xattr.  On every removal ENODATA counts as success; any other failure
    raises OSError with the kernel's errno, and a failure on the access
    xattr leaves the default xattr untouched. *)
Theorem fremoveacl_steps
  (fd : Z) (p1 : list reply) (r1 : reply) (p2 : list reply) (r2 : reply)
  (p3 : list reply) (r3 : reply) (rest : list reply) :
  forallb (answered failed_m1) [(p1, r1); (p2, r2); (p3, r3)] = true ->
  let out :=
    xrun (do_fremoveacl fd)
      (replies [(p1, r1); (p2, r2); (p3, r3)] ++ rest) in
  let probe := xretry_calls (x_fgetxattr fd NFS4_ACL_XATTR 0) p1 in
  (0 <= ret r1 ->
   fst out = site_result is_ENODATA r2 /\
   xtrace (snd out) =
     probe ++ xretry_calls (x_fremovexattr fd NFS4_ACL_XATTR) p2) /\
  (ret r1 < 0 -> errno r1 = ENODATA ->
   fst out = Done tt /\ xtrace (snd out) = probe) /\
  (ret r1 < 0 -> errno r1 <> ENODATA -> errno r1 <> EOPNOTSUPP ->
   fst out = Exc (OSErrorErrno (errno r1)) /\ xtrace (snd out) = probe) /\
  (ret r1 < 0 -> errno r1 = EOPNOTSUPP ->
   (site_result is_ENODATA r2 <> Done tt ->
    fst out = site_result is_ENODATA r2 /\
    xtrace (snd out) =
      probe ++ xretry_calls (x_fremovexattr fd POSIX_ACCESS_XATTR) p2 /\
    existsb (touches POSIX_DEFAULT_XATTR) (xtrace (snd out)) = false) /\
   (site_result is_ENODATA r2 = Done tt ->
    fst out = site_result is_ENODATA r3 /\
    xtrace (snd out) =
      probe ++ xretry_calls (x_fremovexattr fd POSIX_ACCESS_XATTR) p2
            ++ xretry_calls (x_fremovexattr fd POSIX_DEFAULT_XATTR) p3)).
Proof.
  intros H out probe. cbn [forallb] in H.
  apply andb_prop in H as [H1 H].
  apply andb_prop in H as [H2 H].
  apply andb_prop in H as [H3 _].
  apply answered_inv in H1 as [Hp1 Hs1].
  apply answered_inv in H2 as [Hp2 Hs2].
  apply answered_inv in H3 as [Hp3 Hs3].
  cbn [fst snd] in Hp1, Hs1, Hp2, Hs2, Hp3, Hs3.
  assert (E0 : out =
    (let sz := ret r1 in
     if sz >=? 0 then
       xbind (xretry (x_fremovexattr fd NFS4_ACL_XATTR) failed_m1)
         (fun x => let '(r, async_err) := x in
          fail_unless is_ENODATA r async_err (xret tt))
     else if errno r1 =? ENODATA then xret tt
     else if negb (errno r1 =? EOPNOTSUPP) then
       xraise (OSErrorErrno (errno r1))
     else
       xbind (xretry (x_fremovexattr fd POSIX_ACCESS_XATTR) failed_m1)
         (fun x => let '(r, async_err) := x in
          fail_unless is_ENODATA r async_err
            (xbind (xretry (x_fremovexattr fd POSIX_DEFAULT_XATTR) failed_m1)
               (fun x => let '(r, async_err) := x in
                fail_unless is_ENODATA r async_err (xret tt)))))
      (mkXWorld (p2 ++ r2 :: p3 ++ r3 :: rest) probe)).
  { subst out probe. unfold xrun, do_fremoveacl.
    cbn [replies flat_map fst snd]. rewrite <- !app_assoc. cbn [app].
    unfold xbind at 1. rewrite xretry_settles by assumption.
    reflexivity. }
  cbv zeta in E0.
  split; [|split; [|split]].
  - intros Hr. rewrite E0.
    replace (ret r1 >=? 0) with true
      by (symmetry; rewrite Z.geb_leb; now apply Z.leb_le).
    unfold xbind at 1 2. rewrite xretry_settles by assumption.
    rewrite fail_unless_last. split; reflexivity.
  - intros Hr He. rewrite E0.
    replace (ret r1 >=? 0) with false
      by (symmetry; rewrite Z.geb_leb; apply Z.leb_gt; lia).
    rewrite He, Z.eqb_refl. cbn [xret fst snd xtrace]. split; reflexivity.
  - intros Hr He Ho. rewrite E0.
    replace (ret r1 >=? 0) with false
      by (symmetry; rewrite Z.geb_leb; apply Z.leb_gt; lia).
    replace (errno r1 =? ENODATA) with false
      by (symmetry; now apply Z.eqb_neq).
    replace (errno r1 =? EOPNOTSUPP) with false
      by (symmetry; now apply Z.eqb_neq).
    cbn [negb xraise fst snd xtrace]. split; reflexivity.
  - intros Hr He.
    assert (E1 : out =
      fail_unless is_ENODATA r2 0
        (xbind (xretry (x_fremovexattr fd POSIX_DEFAULT_XATTR) failed_m1)
           (fun x => let '(r, async_err) := x in
            fail_unless is_ENODATA r async_err (xret tt)))
        (mkXWorld (p3 ++ r3 :: rest)
           (probe ++ xretry_calls (x_fremovexattr fd POSIX_ACCESS_XATTR) p2))).
    { rewrite E0.
      replace (ret r1 >=? 0) with false
        by (symmetry; rewrite Z.geb_leb; apply Z.leb_gt; lia).
      rewrite He. change (EOPNOTSUPP =? ENODATA) with false.
      rewrite Z.eqb_refl. cbn [negb].
      unfold xbind at 1. rewrite xretry_settles by assumption.
      reflexivity. }
    rewrite fail_unless_settled in E1. split.
    + intros Hn. rewrite E1.
      destruct (site_result is_ENODATA r2) as [[]| | |];
        try (now contradiction Hn); cbn [fst snd xtrace];
        (split; [reflexivity|]); (split; [reflexivity|]);
        rewrite existsb_app; subst probe;
        rewrite !untouched_in by reflexivity; reflexivity.
    + intros Hd. rewrite E1, Hd.
      unfold xbind at 1 2. rewrite xretry_settles by assumption.
      rewrite fail_unless_last. cbn [fst snd xtrace].
      rewrite <- ?app_assoc. split; reflexivity.
Qed.

Lemma fremoveacl_steps_witness :
  let out :=
    xrun (do_fremoveacl 3)
      (replies [([], r_err EOPNOTSUPP); ([], r_err ENODATA);
                (interrupted_once, r_ok 0)] ++ []) in
  fst out = Done tt /\
  xtrace (snd out) =
    [x_fgetxattr 3 NFS4_ACL_XATTR 0;
     x_fremovexattr 3 POSIX_ACCESS_XATTR;
     x_fremovexattr 3 POSIX_DEFAULT_XATTR; x_PyErr_CheckSignals;
     x_fremovexattr 3 POSIX_DEFAULT_XATTR].
Proof.
  assert (H : forallb (answered failed_m1)
                [([], r_err EOPNOTSUPP); ([], r_err ENODATA);
                 (interrupted_once, r_ok 0)] = true) by reflexivity.
  destruct (fremoveacl_steps 3 [] (r_err EOPNOTSUPP) [] (r_err ENODATA)
              interrupted_once (r_ok 0) [] H) as (_ & _ & _ & E).
  destruct (E ltac:(cbn; lia) eq_refl) as [_ E2].
  destruct (E2 eq_refl) as [E3 E4]. split; [exact E3 | exact E4].
Defined.

End AclSet.

Module FhandleBytesFacts.
Import CInt Wire Py Fhandle FhandleBytes WireFacts BitFacts.

Lemma handle_bytes_prefix (b rest : bytes) :
  4 <= blen b -> handle_bytes (b ++ rest) = handle_bytes b.
Proof.
  intros H. unfold handle_bytes. apply read_le32_slice.
  apply slice_app_l; [lia|]. cbn. lia.
Qed.

Lemma handle_bytes_range (b : bytes) : 0 <= handle_bytes b < 4294967296.
Proof. apply read_le32_range. Qed.

Lemma firstn_memcpy (dst b : bytes) (n : nat) :
  (n <= List.length b)%nat -> firstn n (memcpy dst b) = firstn n b.
Proof.
  intros H. unfold memcpy. rewrite firstn_app.
  replace (n - List.length b)%nat with 0%nat by lia.
  cbn [firstn]. apply app_nil_r.
Qed.

Lemma from_bytes_cases (self : py_fhandle_t) (b : bytes) (mount : Z)
  (unique : bool) :
  match do_fhandle_from_bytes self b mount unique with
  | Ok self' =>
      FH_HEADER_SZ <= blen b <= MAX_HANDLE_SZ /\
      handle_bytes b <= blen b - FH_HEADER_SZ /\
      self' = mkFhandle mount (is_handle_fd self) unique
                (memcpy (fhandle self) b)
  | Raise e =>
      (exists msg, e = ValueError msg) /\
      (blen b < FH_HEADER_SZ \/ MAX_HANDLE_SZ < blen b \/
       blen b - FH_HEADER_SZ < handle_bytes b)
  end.
Proof.
  unfold do_fhandle_from_bytes. cbv zeta.
  destruct (Z.ltb_spec (blen b) FH_HEADER_SZ); [split; eauto|].
  destruct (Z.gtb_spec (blen b) MAX_HANDLE_SZ); [split; eauto|].
  destruct (Z.gtb_spec (handle_bytes b) (blen b - FH_HEADER_SZ));
    [split; eauto 6|].
  repeat split; lia.
Qed.

Lemma bytes_after_from_bytes (self : py_fhandle_t) (b : bytes) (mount : Z)
  (unique : bool) :
  mount <> UINT64_MAX ->
  FH_HEADER_SZ <= blen b ->
  handle_bytes b <= blen b - FH_HEADER_SZ ->
  py_fhandle_bytes
    (mkFhandle mount (is_handle_fd self) unique (memcpy (fhandle self) b)) =
  Ok (firstn (Z.to_nat (FH_HEADER_SZ + handle_bytes b)) b).
Proof.
  intros Hm Hl Hh. unfold py_fhandle_bytes. cbn [mount_id fhandle].
  replace (mount =? UINT64_MAX) with false by (symmetry; now apply Z.eqb_neq).
  cbv zeta. unfold memcpy at 1.
  rewrite handle_bytes_prefix by (unfold FH_HEADER_SZ in Hl; lia).
  f_equal. apply firstn_memcpy.
  pose proof (handle_bytes_range b). unfold blen, FH_HEADER_SZ in *. lia.
Qed.

End FhandleBytesFacts.

Module FhandleRoundTrip.
Import CInt Wire Py Fhandle FhandleBytes WireFacts BitFacts
  FhandleBytesFacts.

(** X25.  A handle built from bytes and serialised again.  When
    [Fhandle(handle_bytes=b, mount_id=m)] succeeds, [b] has between 8 and
    128 bytes and declares a payload that fits in it, the kernel is not
    asked anything, [mount_id] reads back as [m] modulo 2^64 (which is not
    the sentinel 2^64-1), and [bytes()] returns the header and the
    declared payload of [b]: [b] itself when the declared length is exact,
    and [b] without its surplus bytes otherwise.  When it fails the
    exception is ValueError.  A serialised handle of more than 128 bytes,
    which [bytes()] returns for every handle whose payload exceeds 120
    bytes, is refused. *)
Theorem from_bytes_then_bytes
  (do_name_to_handle_at :
     py_fhandle_t -> string -> Z -> Z -> result py_fhandle_t)
  (self : py_fhandle_t) (dir_fd flags : Z) (b : bytes) (m : Z)
  (unique_mount_id_arg : Z) :
  match py_fhandle_init do_name_to_handle_at self None dir_fd flags
          (Some b) (Some m) unique_mount_id_arg with
  | Ok self' =>
      FH_HEADER_SZ <= blen b <= MAX_HANDLE_SZ /\
      handle_bytes b <= blen b - FH_HEADER_SZ /\
      py_fhandle_bytes self' =
        Ok (firstn (Z.to_nat (FH_HEADER_SZ + handle_bytes b)) b) /\
      (handle_bytes b = blen b - FH_HEADER_SZ ->
       py_fhandle_bytes self' = Ok b) /\
      py_fhandle_mount_id self' = Some (u64 m) /\
      u64 m <> UINT64_MAX /\
      unique_mount_id self' = negb (unique_mount_id_arg =? 0)
  | Raise e => exists msg, e = ValueError msg
  end /\
  (forall other,
      py_fhandle_init other self None dir_fd flags (Some b) (Some m)
        unique_mount_id_arg =
      py_fhandle_init do_name_to_handle_at self None dir_fd flags (Some b)
        (Some m) unique_mount_id_arg) /\
  (forall held out,
      MAX_HANDLE_SZ - FH_HEADER_SZ < handle_bytes (fhandle held) ->
      FH_HEADER_SZ + handle_bytes (fhandle held) <= blen (fhandle held) ->
      py_fhandle_bytes held = Ok out ->
      exists msg,
        py_fhandle_init do_name_to_handle_at self None dir_fd flags
          (Some out) (Some m) unique_mount_id_arg =
        Raise (ValueError msg)).
Proof.
  split; [|split].
  - unfold py_fhandle_init. cbv zeta.
    destruct (Z.eqb_spec (u64 m) UINT64_MAX) as [E|E]; [eauto|].
    pose proof (from_bytes_cases self b (u64 m)
                  (negb (unique_mount_id_arg =? 0))) as Hc.
    destruct (do_fhandle_from_bytes self b (u64 m) _) as [self'|e].
    + destruct Hc as (Hl & Hh & ->).
      split; [exact Hl|]. split; [exact Hh|].
      assert (Hb : py_fhandle_bytes
                (mkFhandle (u64 m) (is_handle_fd self)
                   (negb (unique_mount_id_arg =? 0))
                   (memcpy (fhandle self) b)) =
              Ok (firstn (Z.to_nat (FH_HEADER_SZ + handle_bytes b)) b))
        by (apply bytes_after_from_bytes; [exact E | lia | exact Hh]).
      split; [exact Hb|]. split.
      { intros Hx. rewrite Hb, Hx. f_equal.
        replace (Z.to_nat (FH_HEADER_SZ + (blen b - FH_HEADER_SZ)))
          with (List.length b) by (unfold blen; lia).
        apply firstn_all. }
      split.
      { unfold py_fhandle_mount_id. cbn [mount_id].
        replace (u64 m =? UINT64_MAX) with false
          by (symmetry; now apply Z.eqb_neq).
        reflexivity. }
      split; [exact E | reflexivity].
    + destruct Hc as [Hm _]. exact Hm.
  - reflexivity.
  - intros held out Hbig Hfit Hout.
    unfold py_fhandle_bytes in Hout. cbv zeta in Hout.
    destruct (mount_id held =? UINT64_MAX); [discriminate|].
    assert (Eo : out =
              firstn (Z.to_nat (FH_HEADER_SZ + handle_bytes (fhandle held)))
                (fhandle held)) by congruence.
    subst out. clear Hout.
    unfold py_fhandle_init. cbv zeta.
    destruct (u64 m =? UINT64_MAX); [eauto|].
    unfold do_fhandle_from_bytes. cbv zeta.
    pose proof (handle_bytes_range (fhandle held)) as Hr.
    assert (Hlen : blen (firstn
                     (Z.to_nat (FH_HEADER_SZ + handle_bytes (fhandle held)))
                     (fhandle held)) =
                   FH_HEADER_SZ + handle_bytes (fhandle held)).
    { unfold blen in *. rewrite length_firstn.
      unfold FH_HEADER_SZ in *. lia. }
    rewrite Hlen.
    replace (FH_HEADER_SZ + handle_bytes (fhandle held) <? FH_HEADER_SZ)
      with false by (symmetry; apply Z.ltb_ge; lia).
    replace (FH_HEADER_SZ + handle_bytes (fhandle held) >? MAX_HANDLE_SZ)
      with true
      by (symmetry; rewrite Z.gtb_ltb; apply Z.ltb_lt; lia).
    eauto.
Qed.

Lemma from_bytes_then_bytes_witness :
  exists msg,
    py_fhandle_init (fun _ _ _ _ => Raise StopIteration) fresh_handle None
      AT_FDCWD 0
      (Some (firstn (Z.to_nat (FH_HEADER_SZ
                                 + handle_bytes (fhandle large_handle)))
               (fhandle large_handle)))
      (Some 42) 0 =
    Raise (ValueError msg).
Proof.
  assert (H1 : MAX_HANDLE_SZ - FH_HEADER_SZ
               < handle_bytes (fhandle large_handle))
    by (vm_compute; reflexivity).
  assert (H2 : FH_HEADER_SZ + handle_bytes (fhandle large_handle)
               <= blen (fhandle large_handle))
    by (vm_compute; discriminate).
  assert (H3 : py_fhandle_bytes large_handle =
               Ok (firstn (Z.to_nat (FH_HEADER_SZ
                                       + handle_bytes (fhandle large_handle)))
                     (fhandle large_handle)))
    by reflexivity.
  exact (proj2 (proj2 (from_bytes_then_bytes
                         (fun _ _ _ _ => Raise StopIteration) fresh_handle
                         AT_FDCWD 0 small_handle 42 0))
           large_handle _ H1 H2 H3).
Defined.

Lemma supported_bits (flags : Z) :
  Z.land flags (Z.lnot SUPPORTED_FLAGS) = 0 <->
  forall n, 0 <= n -> Z.testbit flags n = true ->
            n = 0 \/ n = 1 \/ n = 9 \/ n = 10 \/ n = 12.
Proof.
  assert (Hs : forall n, 0 <= n ->
            Z.testbit SUPPORTED_FLAGS n =
            (n =? 0) || (n =? 1) || (n =? 9) || (n =? 10) || (n =? 12)).
  { intros n Hn. change SUPPORTED_FLAGS with 5635.
    destruct (Z.ltb_spec n 13) as [Hlt|Hge].
    - assert (E : n = Z.of_nat (Z.to_nat n)) by lia. rewrite E.
      assert (Hk : (Z.to_nat n < 13)%nat) by lia. clear E.
      generalize dependent (Z.to_nat n). intros k Hk.
      do 13 (destruct k as [|k]; [reflexivity|]). lia.
    - rewrite (testbit_small 5635 n 13) by (try lia; cbn; lia).
      symmetry. repeat (apply orb_false_intro); apply Z.eqb_neq; lia. }
  split.
  - intros H n Hn Hb.
    assert (X : Z.testbit (Z.land flags (Z.lnot SUPPORTED_FLAGS)) n = false)
      by (rewrite H; apply Z.bits_0).
    rewrite Z.land_spec, Z.lnot_spec, Hb, Hs in X by assumption.
    cbn [andb] in X. apply negb_false_iff in X.
    repeat (apply orb_prop in X as [X|X]); apply Z.eqb_eq in X; auto 6.
  - intros H. apply Z.bits_inj'. intros n Hn.
    rewrite Z.bits_0, Z.land_spec, Z.lnot_spec, Hs by assumption.
    destruct (Z.testbit flags n) eqn:Hb; [|reflexivity].
    destruct (H n Hn Hb) as [->|[->|[->|[->| ->]]]]; reflexivity.
Qed.

(** X26.  What reaches [name_to_handle_at].  [Fhandle(path, dir_fd,
    flags)] either raises ValueError whatever the kernel would answer, or
    hands the path, [dir_fd] and the flags unchanged to
    [name_to_handle_at] and returns what it returns; in that case every
    bit set in [flags] is one of AT_HANDLE_MNT_ID_UNIQUE (bit 0),
    AT_HANDLE_CONNECTABLE (1), AT_HANDLE_FID (9), AT_SYMLINK_FOLLOW (10)
    and AT_EMPTY_PATH (12), an absolute path comes with [AT_FDCWD], and an
    empty path comes with AT_EMPTY_PATH and a [dir_fd] other than
    [AT_FDCWD].  With neither a path nor handle bytes, with both, or with
    handle bytes and no mount id, the exception is ValueError. *)
Theorem init_guards_name_to_handle_at
  (do_name_to_handle_at :
     py_fhandle_t -> string -> Z -> Z -> result py_fhandle_t)
  (self : py_fhandle_t) (p : string) (dir_fd flags : Z) (m : option Z)
  (unique_mount_id_arg : Z) :
  ((exists msg,
       forall other,
         py_fhandle_init other self (Some p) dir_fd flags None m
           unique_mount_id_arg = Raise (ValueError msg)) \/
   (py_fhandle_init do_name_to_handle_at self (Some p) dir_fd flags None m
      unique_mount_id_arg = do_name_to_handle_at self p dir_fd flags /\
    (forall n, 0 <= n -> Z.testbit flags n = true ->
               n = 0 \/ n = 1 \/ n = 9 \/ n = 10 \/ n = 12) /\
    (starts_with_slash p = true -> dir_fd = AT_FDCWD) /\
    (p = EmptyString ->
     Z.testbit flags 12 = true /\ dir_fd <> AT_FDCWD))) /\
  (exists msg,
      py_fhandle_init do_name_to_handle_at self None dir_fd flags None m
        unique_mount_id_arg = Raise (ValueError msg)) /\
  (forall b, exists msg,
      py_fhandle_init do_name_to_handle_at self (Some p) dir_fd flags
        (Some b) m unique_mount_id_arg = Raise (ValueError msg)) /\
  (forall b, exists msg,
      py_fhandle_init do_name_to_handle_at self None dir_fd flags
        (Some b) None unique_mount_id_arg = Raise (ValueError msg)).
Proof.
  split; [|split; [|split]].
  - unfold py_fhandle_init. cbv zeta.
    destruct (starts_with_slash p && negb (dir_fd =? AT_FDCWD)) eqn:E1;
      [left; eauto|].
    destruct (is_empty p && (negb (has_bits flags AT_EMPTY_PATH)
                             || (dir_fd =? AT_FDCWD))) eqn:E2;
      [left; eauto|].
    destruct (Z.eqb_spec (Z.land flags (Z.lnot SUPPORTED_FLAGS)) 0)
      as [E3|E3]; cbn [negb]; [|left; eauto].
    right. split; [reflexivity|]. split; [now apply supported_bits|]. split.
    + intros Hs. rewrite Hs in E1. cbn [andb] in E1.
      apply negb_false_iff, Z.eqb_eq in E1. exact E1.
    + intros ->. cbn [is_empty andb] in E2.
      apply orb_false_elim in E2 as [Ea Eb].
      apply negb_false_iff in Ea. apply Z.eqb_neq in Eb.
      split; [|exact Eb].
      change AT_EMPTY_PATH with (2 ^ 12) in Ea.
      unfold has_bits in Ea. apply negb_true_iff, Z.eqb_neq in Ea.
      destruct (Z.testbit flags 12) eqn:Hb; [reflexivity|].
      exfalso. apply Ea. apply Z.bits_inj'. intros n Hn.
      rewrite Z.bits_0, Z.land_spec, Z.pow2_bits_eqb by lia.
      destruct (Z.eqb_spec 12 n) as [<-|]; [now rewrite Hb|].
      apply andb_false_r.
  - unfold py_fhandle_init. eauto.
  - intros b. unfold py_fhandle_init. eauto.
  - intros b. unfold py_fhandle_init. cbv zeta.
    rewrite Z.eqb_refl. eauto.
Qed.

End FhandleRoundTrip.

Module POSIXOrder.
Import CInt Wire Py Stat POSIX POSIXSpec POSIXForm OrderForm WireFacts
  BitFacts POSIXFacts POSIXFromAces POSIXCompose.

Lemma keyed_perm l s : Permutation l s -> keyed l -> keyed s.
Proof.
  intros Hp Hk a b Ha Hb. apply Hk;
    (eapply Permutation_in; [symmetry; exact Hp | assumption]).
Qed.

Lemma keyed_filter (f : POSIXAce_t -> bool) l : keyed l -> keyed (filter f l).
Proof.
  intros Hk a b Ha Hb. apply filter_In in Ha as [Ha _].
  apply filter_In in Hb as [Hb _]. now apply Hk.
Qed.

Lemma tied_same_key a b :
  key_ltb a b = false -> key_ltb b a = false ->
  tag a = tag b /\ id a = id b.
Proof. unfold key_ltb. intros H1 H2. order_cases. Qed.

(** Two ascending arrangements of the same keyed entries are the same
    list. *)
Lemma ascending_unique (s s' : list POSIXAce_t) :
  keyed s -> Permutation s s' ->
  SortSpec.ascending key_ltb s -> SortSpec.ascending key_ltb s' -> s = s'.
Proof.
  unfold SortSpec.ascending. revert s'.
  induction s as [|x t IH]; intros s' Hk Hp Hs Hs'.
  - apply Permutation_nil in Hp. now subst.
  - destruct s' as [|y t'].
    { apply Permutation_sym, Permutation_nil in Hp. discriminate. }
    inversion Hs as [|? ? Ht Hx]; subst.
    inversion Hs' as [|? ? Ht' Hy]; subst.
    assert (Exy : x = y).
    { assert (Hxin : In x (y :: t'))
        by (eapply Permutation_in; [exact Hp | now left]).
      assert (Hyin : In y (x :: t))
        by (eapply Permutation_in; [symmetry; exact Hp | now left]).
      destruct Hxin as [E|Hxin]; [now symmetry|].
      destruct Hyin as [E|Hyin]; [exact E|].
      rewrite Forall_forall in Hx, Hy.
      destruct (tied_same_key x y (Hy x Hxin) (Hx y Hyin)) as [E1 E2].
      apply Hk; [now left | now right | exact E1 | exact E2]. }
    subst y. f_equal. apply IH.
    + intros a b Ha Hb. apply Hk; now right.
    + eapply Permutation_cons_inv. exact Hp.
    + exact Ht.
    + exact Ht'.
Qed.

(** X27.  The order of the entries given to [from_aces] does not matter.
    For entries whose fields convert to a C [long] and among which no two
    distinct entries of the same part share tag and id,
    [POSIXACL.from_aces] returns the same ACL, byte for byte, for every
    reordering of the list. *)
Theorem from_aces_order_independent (l l' : list POSIXAce_t) :
  Forall ace_in_range l ->
  keyed (access_part l) -> keyed (default_part l) ->
  Permutation l l' ->
  exists acl,
    POSIXACL_from_aces l = Ok acl /\ POSIXACL_from_aces l' = Ok acl.
Proof.
  intros Hr Ka Kd Hp.
  assert (Hr' : Forall ace_in_range l')
    by (eapply Forall_perm; eauto).
  destruct (from_aces_spec l Hr) as (sa & sd & (Pa & Aa & _) & (Pd & Ad & _) & E).
  destruct (from_aces_spec l' Hr')
    as (sa' & sd' & (Pa' & Aa' & _) & (Pd' & Ad' & _) & E').
  assert (Ea : sa = sa').
  { apply ascending_unique; try assumption.
    - eapply keyed_perm; eauto.
    - transitivity (access_part l); [now symmetry|].
      transitivity (access_part l'); [|exact Pa'].
      now apply filter_perm. }
  assert (Ed : sd = sd').
  { apply ascending_unique; try assumption.
    - eapply keyed_perm; eauto.
    - transitivity (default_part l); [now symmetry|].
      transitivity (default_part l'); [|exact Pd'].
      now apply filter_perm. }
  subst sa' sd'. eexists. split; [exact E | exact E'].
Qed.

Lemma from_aces_order_independent_witness :
  exists acl,
    POSIXACL_from_aces with_default = Ok acl /\
    POSIXACL_from_aces with_default_reordered = Ok acl.
Proof.
  assert (H1 : Forall ace_in_range with_default) by (repeat constructor).
  assert (K : forall l : list POSIXAce_t,
             NoDup (map (fun a => (tag a, id a)) l) -> keyed l).
  { intros l. induction l as [|x t IH]; intros Hn a b Ha Hb Et Ei.
    - destruct Ha.
    - cbn [map] in Hn. inversion Hn as [|? ? Hx Ht]; subst.
      destruct Ha as [<-|Ha], Hb as [<-|Hb].
      + reflexivity.
      + exfalso. apply Hx. rewrite Et, Ei.
        apply (in_map (fun a => (tag a, id a))). exact Hb.
      + exfalso. apply Hx. rewrite <- Et, <- Ei.
        apply (in_map (fun a => (tag a, id a))). exact Ha.
      + now apply IH. }
  assert (H2 : keyed (access_part with_default)).
  { apply K. cbn. repeat constructor; cbn; intuition discriminate. }
  assert (H3 : keyed (default_part with_default)).
  { apply K. cbn. repeat constructor; cbn; intuition discriminate. }
  assert (H4 : Permutation with_default with_default_reordered)
    by apply Permutation_rev.
  exact (from_aces_order_independent with_default with_default_reordered
           H1 H2 H3 H4).
Defined.

End POSIXOrder.

Module AceCompare.
Import CInt Wire Py Stat NFS4 NFS4Spec OrderForm WireFacts BitFacts NFS4Facts.

Lemma nfs4_compare (a b : NFS4Ace_t) (op : cmpop) :
  ace_in_range a -> ace_in_range b ->
  NFS4Ace_richcompare a b op =
  Ok (cmp_to_bool op (if ace_key a <? ace_key b then -1
                      else if ace_key a >? ace_key b then 1 else 0)).
Proof.
  intros (Ha1 & Ha2 & _) (Hb1 & Hb2 & _).
  unfold NFS4Ace_richcompare, PyLong_AsLong. rewrite Ha1, Ha2, Hb1, Hb2.
  now rewrite !sort_key_ace_key.
Qed.

Lemma posix_compare (a b : POSIX.POSIXAce_t) (op : cmpop) :
  POSIXSpec.ace_in_range a -> POSIXSpec.ace_in_range b ->
  POSIX.POSIXAce_richcompare a b op =
  Ok (cmp_to_bool op
        (if negb (POSIX.tag a =? POSIX.tag b)
         then (if POSIX.tag a <? POSIX.tag b then -1 else 1)
         else if negb (POSIX.id a =? POSIX.id b)
              then (if POSIX.id a <? POSIX.id b then -1 else 1)
              else 0)).
Proof.
  intros (Ha1 & _ & Ha3) (Hb1 & _ & Hb3).
  unfold POSIX.POSIXAce_richcompare, PyLong_AsLong.
  now rewrite Ha1, Ha3, Hb1, Hb3.
Qed.

Ltac cmp_cases :=
  unfold cmp_to_bool, one_of;
  repeat match goal with
         | |- context [?a <? ?b] => destruct (Z.ltb_spec a b)
         | |- context [?a >? ?b] => destruct (Z.gtb_spec a b)
         | |- context [?a =? ?b] => destruct (Z.eqb_spec a b)
         | |- context [?a <=? ?b] => destruct (Z.leb_spec a b)
         | |- context [?a >=? ?b] =>
             rewrite (Z.geb_leb a b); destruct (Z.leb_spec b a)
         end; cbn [negb andb orb]; try lia.

(** X28.  What the comparison operators of the entries look at.  Two
    NFSv4 ACEs compare equal exactly when they fall in the same bucket of
    the canonical order (same INHERITED bit, both ALLOW or both not),
    whatever their principals and access masks; two POSIX entries compare
    equal exactly when tag and id agree, whatever their permissions and
    default flag.  In both types exactly one of [<], [==] and [>] holds,
    and [<=], [!=] and [>=] are the negations of [>], [==] and [<]. *)
Theorem ace_comparison_by_key :
  (forall a b : NFS4Ace_t,
      ace_in_range a -> ace_in_range b ->
      exists lt eq gt,
        NFS4Ace_richcompare a b Py_LT = Ok lt /\
        NFS4Ace_richcompare a b Py_EQ = Ok eq /\
        NFS4Ace_richcompare a b Py_GT = Ok gt /\
        one_of lt eq gt /\
        NFS4Ace_richcompare a b Py_LE = Ok (negb gt) /\
        NFS4Ace_richcompare a b Py_NE = Ok (negb eq) /\
        NFS4Ace_richcompare a b Py_GE = Ok (negb lt) /\
        (eq = true <->
         is_inherited a = is_inherited b /\ is_allow a = is_allow b)) /\
  (forall a b : POSIX.POSIXAce_t,
      POSIXSpec.ace_in_range a -> POSIXSpec.ace_in_range b ->
      exists lt eq gt,
        POSIX.POSIXAce_richcompare a b Py_LT = Ok lt /\
        POSIX.POSIXAce_richcompare a b Py_EQ = Ok eq /\
        POSIX.POSIXAce_richcompare a b Py_GT = Ok gt /\
        one_of lt eq gt /\
        POSIX.POSIXAce_richcompare a b Py_LE = Ok (negb gt) /\
        POSIX.POSIXAce_richcompare a b Py_NE = Ok (negb eq) /\
        POSIX.POSIXAce_richcompare a b Py_GE = Ok (negb lt) /\
        (eq = true <-> POSIX.tag a = POSIX.tag b /\ POSIX.id a = POSIX.id b)).
Proof.
  split.
  - intros a b Ha Hb. rewrite !(nfs4_compare a b) by assumption.
    do 3 eexists. repeat (split; [reflexivity|]).
    assert (Hk : ace_key a = ace_key b <->
                 is_inherited a = is_inherited b /\ is_allow a = is_allow b).
    { unfold ace_key.
      destruct (is_inherited a), (is_inherited b), (is_allow a),
        (is_allow b); cbn; intuition (try discriminate; try lia). }
    split; [cmp_cases; tauto|].
    split; [f_equal; cmp_cases; reflexivity|].
    split; [reflexivity|].
    split; [f_equal; cmp_cases; reflexivity|].
    rewrite <- Hk. cmp_cases; intuition (try discriminate; try lia).
  - intros a b Ha Hb. rewrite !(posix_compare a b) by assumption.
    do 3 eexists. repeat (split; [reflexivity|]).
    split; [cmp_cases; tauto|].
    split; [f_equal; cmp_cases; reflexivity|].
    split; [reflexivity|].
    split; [f_equal; cmp_cases; reflexivity|].
    unfold cmp_to_bool.
    destruct (Z.eqb_spec (POSIX.tag a) (POSIX.tag b)) as [Et|Et];
      cbn [negb];
      [destruct (Z.eqb_spec (POSIX.id a) (POSIX.id b)) as [Ei|Ei];
       cbn [negb]|];
      repeat match goal with
             | |- context [if ?x <? ?y then _ else _] => destruct (x <? y)
             end;
      cbn; intuition (try discriminate; try congruence).
Qed.

Lemma ace_comparison_by_key_witness :
  NFS4Ace_richcompare (mkAce 0 0 1 1 (-1)) (mkAce 0 0 2 0 1000) Py_EQ =
  Ok true.
Proof.
  assert (Ha : ace_in_range (mkAce 0 0 1 1 (-1))) by (repeat split).
  assert (Hb : ace_in_range (mkAce 0 0 2 0 1000)) by (repeat split).
  destruct (proj1 ace_comparison_by_key _ _ Ha Hb)
    as (lt & eq & gt & _ & E & _ & _ & _ & _ & _ & Hiff).
  rewrite E. f_equal. apply Hiff. split; reflexivity.
Defined.

End AceCompare.

Module NFS4Generations.
Import CInt Wire Py Stat NFS4 NFS4Spec NFS4Form WireFacts BitFacts NFS4Facts
  NFS4Loops NFS4Valid NFS4Compose.

(** The blob [generate_inherited_acl] returns. *)
Lemma generate_inherited_acl_blob (self : NFS4ACL_t) (is_dir : bool) out :
  NFS4ACL_generate_inherited_acl self is_dir = Ok out ->
  let kept := filter (passed_on is_dir) (aces_present (data self)) in
  out = mkACL (encode_blob (if is_dir then NFS4_ACL_IS_DIR else 0)
                 (Z.of_nat (List.length kept))
                 (map (inherit_xdr is_dir) kept)) /\
  kept <> [] /\ Z.of_nat (List.length kept) < 4294967296.
Proof.
  intros H kept. revert H. unfold NFS4ACL_generate_inherited_acl.
  destruct (Z.ltb_spec (blen (data self)) NFS4_HDR_SZ) as [Hs|Hl];
    [discriminate|].
  pose proof (n_present_range (data self)) as (Hn0 & Hn1 & Hn2).
  rewrite (count_inheritable_spec (data self) is_dir Hl
             (Z.to_nat (n_present (data self))))
    by (unfold blen in Hn1; lia).
  rewrite (write_inherited_spec (data self) is_dir Hl
             (Z.to_nat (n_present (data self))))
    by (unfold blen in Hn1; lia).
  fold (aces_present (data self)). fold kept. rewrite Z.add_0_l.
  assert (Hk : Z.of_nat (List.length kept) < 4294967296).
  { assert (List.length kept <= List.length (aces_present (data self)))%nat
      by apply filter_length_le.
    unfold aces_present, present_from in H.
    rewrite length_map, length_seq in H. lia. }
  destruct (Z.eqb_spec (Z.of_nat (List.length kept)) 0) as [E|E];
    [discriminate|].
  intros H. injection H as <-. split; [reflexivity|]. split; [|exact Hk].
  intros X. rewrite X in E. now apply E.
Qed.

(** An ACE that a directory child received and passes on is handed down
    as it is. *)
Lemma inherited_ace_settles (a : xdr_ace) :
  xdr_in_range a ->
  passed_on true (inherit_xdr true a) = true ->
  inherit_xdr true (inherit_xdr true a) = inherit_xdr true a.
Proof.
  intros Hr Hp. pose proof Hr as (_ & H2 & _). apply is_u32_range in H2.
  pose proof (inherited_flags_range (x_flags a) true H2) as H2'.
  unfold passed_on, flag_file_inherit, flag_dir_inherit, inherit_xdr in Hp.
  cbn [x_flags] in Hp.
  rewrite !(inherited_flags_bits (x_flags a) true) in Hp by lia.
  unfold inherit_xdr. cbn [x_type x_flags x_iflag x_mask x_who].
  assert (Ef : inherited_flags (inherited_flags (x_flags a) true) true =
               inherited_flags (x_flags a) true); [|now rewrite Ef].
  apply Z.bits_inj'. intros n Hn.
  rewrite (inherited_flags_bits (inherited_flags (x_flags a) true) true n)
    by assumption.
  rewrite !(inherited_flags_bits (x_flags a) true) by lia.
  destruct (Z.testbit (x_flags a) 2); cbn [andb negb] in *.
  - cbn in Hp. discriminate Hp.
  - cbn [Z.eqb Pos.eqb]. cbn.
    destruct (Z.eqb_spec n 3); [reflexivity|].
    destruct (Z.eqb_spec n 7); reflexivity.
Qed.

Lemma map_id_in {A} (f : A -> A) (l : list A) :
  (forall x, In x l -> f x = x) -> map f l = l.
Proof.
  induction l as [|x l IH]; intros H; [reflexivity|]. cbn [map].
  rewrite (H x (or_introl eq_refl)), IH; [reflexivity|].
  intros y Hy. apply H. now right.
Qed.

Lemma filter_all {A} (f : A -> bool) (l : list A) :
  (forall x, In x l -> f x = true) -> filter f l = l.
Proof.
  induction l as [|x l IH]; intros H; [reflexivity|]. cbn [filter].
  rewrite (H x (or_introl eq_refl)), IH; [reflexivity|].
  intros y Hy. apply H. now right.
Qed.

(** X29.  Inheritance settles after two generations of directories.  The
    ACL that a directory receives from a directory that itself received
    its ACL by inheritance is handed down unchanged, byte for byte, to
    every further generation of directories: ACEs with
    NO_PROPAGATE_INHERIT stop at the first child, and the others keep
    their flags from then on. *)
Theorem inheritance_settles (self child grandchild : NFS4ACL_t) :
  NFS4ACL_generate_inherited_acl self true = Ok child ->
  NFS4ACL_generate_inherited_acl child true = Ok grandchild ->
  NFS4ACL_generate_inherited_acl grandchild true = Ok grandchild.
Proof.
  intros Hc Hg.
  destruct (generate_inherited_acl_shape self true child Hc)
    as (_ & _ & Hpc).
  destruct (generate_inherited_acl_blob child true grandchild Hg)
    as (Eg & Hne & Hlen). cbv zeta in *.
  set (kept := filter (passed_on true) (aces_present (data child))) in *.
  assert (Hin : forall x, In x kept ->
            xdr_in_range x /\ passed_on true x = true /\
            inherit_xdr true x = x).
  { intros x Hx. unfold kept in Hx. apply filter_In in Hx as [Hx Hp].
    rewrite Hpc in Hx. apply in_map_iff in Hx as (a & <- & Ha).
    apply filter_In in Ha as [Ha _].
    assert (Hr : xdr_in_range a).
    { pose proof (present_in_range (data self)) as F.
      rewrite Forall_forall in F. now apply F. }
    split; [now apply inherit_xdr_in_range|]. split; [exact Hp|].
    now apply inherited_ace_settles. }
  assert (Hmap : map (inherit_xdr true) kept = kept).
  { apply map_id_in. intros x Hx. now apply Hin. }
  rewrite Hmap in Eg.
  assert (Hap : aces_present (data grandchild) = kept).
  { rewrite Eg. cbn [data]. apply aces_present_encoded.
    - apply Forall_forall. intros x Hx. now apply Hin.
    - apply u32_small. lia. }
  assert (Hl : NFS4_HDR_SZ <= blen (data grandchild)).
  { rewrite Eg. cbn [data]. rewrite encode_blob_length.
    unfold NFS4_HDR_SZ. lia. }
  destruct (NFS4ACL_generate_inherited_acl grandchild true) as [g2|e] eqn:E2.
  - destruct (generate_inherited_acl_blob grandchild true g2 E2)
      as (E & _ & _). cbv zeta in E. rewrite Hap in E.
    rewrite (filter_all (passed_on true) kept) in E
      by (intros x Hx; now apply Hin).
    rewrite Hmap in E. rewrite E, Eg. reflexivity.
  - exfalso. revert E2. unfold NFS4ACL_generate_inherited_acl.
    replace (blen (data grandchild) <? NFS4_HDR_SZ) with false
      by (symmetry; now apply Z.ltb_ge).
    pose proof (n_present_range (data grandchild)) as (Hn0 & Hn1 & Hn2).
    rewrite (count_inheritable_spec (data grandchild) true Hl
               (Z.to_nat (n_present (data grandchild))))
      by (unfold blen in Hn1; lia).
    fold (aces_present (data grandchild)). rewrite Hap.
    rewrite (filter_all (passed_on true) kept)
      by (intros x Hx; now apply Hin).
    rewrite Z.add_0_l.
    destruct (Z.eqb_spec (Z.of_nat (List.length kept)) 0) as [E0|E0];
      [|discriminate].
    destruct kept; [now contradiction Hne | discriminate E0].
Qed.

Lemma inheritance_settles_witness :
  exists child grandchild,
    NFS4ACL_generate_inherited_acl parent_example true = Ok child /\
    NFS4ACL_generate_inherited_acl child true = Ok grandchild /\
    child <> grandchild /\
    NFS4ACL_generate_inherited_acl grandchild true = Ok grandchild.
Proof.
  destruct (NFS4ACL_generate_inherited_acl parent_example true)
    as [child|e] eqn:Ec; [|vm_compute in Ec; discriminate Ec].
  destruct (NFS4ACL_generate_inherited_acl child true)
    as [grandchild|e] eqn:Eg.
  2:{ vm_compute in Ec. injection Ec as <-. vm_compute in Eg.
      discriminate Eg. }
  exists child, grandchild. split; [reflexivity|]. split; [exact Eg|].
  split.
  - intros X. subst grandchild.
    vm_compute in Ec. injection Ec as <-. vm_compute in Eg.
    discriminate Eg.
  - exact (inheritance_settles parent_example child grandchild Ec Eg).
Defined.

Lemma offending_split (l : list xdr_ace) :
  existsb offending l =
  existsb deny_on_special l || existsb inherit_only_alone l.
Proof.
  induction l as [|x l IH]; [reflexivity|].
  cbn [existsb]. rewrite IH. unfold offending.
  destruct (deny_on_special x), (inherit_only_alone x),
    (existsb deny_on_special l); reflexivity.
Qed.

(** X30.  [NFS4ACL.from_aces] followed by validation.  For entries whose
    fields convert (fewer than 2^32 of them) and a target that is absent
    or whose [fstat] succeeds, [from_aces] builds an ACL and
    [nfs4acl_valid] accepts it exactly when the entries as given, in
    whatever order, contain no DENY for a special principal and no
    INHERIT_ONLY without FILE_INHERIT or DIRECTORY_INHERIT, carry no
    propagation bit unless the target is a directory, and contain an ACE
    with FILE_INHERIT or DIRECTORY_INHERIT when the target is a
    directory.  An ACL built from no entry at all is accepted on a file
    and refused on a directory. *)
Theorem nfs4_from_aces_validates
  (fstat : Z -> fstat_result) (fd : Z) (aces : list NFS4Ace_t)
  (acl_flags : option Z) (is_dir : bool) :
  Forall ace_in_range aces ->
  flags_in_range acl_flags ->
  Z.of_nat (List.length aces) < 4294967296 ->
  target_is_dir fstat fd = Some is_dir ->
  exists acl,
    NFS4ACL_from_aces aces acl_flags = Ok acl /\
    (nfs4acl_valid fstat fd (data acl) = Ok tt <->
     must_reject is_dir (map xdr_of_ace aces) = false) /\
    (aces = [] ->
     (nfs4acl_valid fstat fd (data acl) = Ok tt <-> is_dir = false)).
Proof.
  intros Hr Hf Hl Ht.
  eexists. split; [apply from_aces_blob; assumption|].
  set (acl := mkACL _).
  assert (Ea : NFS4ACL_from_aces aces acl_flags = Ok acl)
    by (apply from_aces_blob; assumption).
  pose proof (from_aces_wire aces acl_flags acl Hr Hf Hl Ea) as Hw.
  assert (Hlen : NFS4_HDR_SZ <= blen (data acl)).
  { unfold acl. cbn [data]. rewrite encode_blob_length.
    unfold NFS4_HDR_SZ. lia. }
  assert (Hp : Permutation (map xdr_of_ace aces)
                 (map xdr_of_ace (canonical aces)))
    by (apply Permutation_map, canonical_permutation).
  assert (Hiff : nfs4acl_valid fstat fd (data acl) = Ok tt <->
                 must_reject is_dir (map xdr_of_ace aces) = false).
  { rewrite (nfs4acl_valid_ok_iff fstat fd (data acl) is_dir Hlen Ht), Hw.
    unfold must_reject.
    rewrite <- !(POSIXCompose.existsb_perm _ _ _ Hp).
    rewrite offending_split.
    destruct (existsb deny_on_special (map xdr_of_ace aces)),
      (existsb inherit_only_alone (map xdr_of_ace aces)),
      (existsb has_propagation_bit (map xdr_of_ace aces)),
      (existsb is_inheritable (map xdr_of_ace aces)), is_dir; cbn;
      intuition discriminate. }
  split; [exact Hiff|].
  intros ->. rewrite Hiff. cbn. destruct is_dir; cbn; intuition discriminate.
Qed.

Lemma nfs4_from_aces_validates_witness :
  exists acl,
    NFS4ACL_from_aces [] None = Ok acl /\
    nfs4acl_valid (fun _ => StatOk 33188) 5 (data acl) = Ok tt.
Proof.
  assert (H1 : Forall ace_in_range []) by constructor.
  assert (H2 : flags_in_range None) by exact I.
  assert (H3 : Z.of_nat (List.length (@nil NFS4Ace_t)) < 4294967296)
    by (cbn; lia).
  assert (H4 : target_is_dir (fun _ => StatOk 33188) 5 = Some false)
    by reflexivity.
  destruct (nfs4_from_aces_validates (fun _ => StatOk 33188) 5 [] None false
              H1 H2 H3 H4) as (acl & E & _ & Hempty).
  exists acl. split; [exact E | exact (proj2 (Hempty eq_refl) eq_refl)].
Defined.

End NFS4Generations.

Module FsIterCeiling.
Import CInt Wire Py Stat Kernel KernelSpec FsIter FsIterSpec FsIterFacts
  FsIterDepth FsIterInv FsIterSteps FsIterWalk FsIterNext FsIterFuel
  IterTurns.
Local Open Scope string_scope.
Local Open Scope Z_scope.










End FsIterCeiling.

Module Claims5.
Import CInt Wire Py Stat Kernel KernelSpec FsIter FsIterSpec FsIterFacts
  FsIterDepth FsIterInv FsIterSteps FsIterWalk FsIterNext FsIterFuel
  IterTurns FsIterCeiling.
Local Open Scope string_scope.
Local Open Scope Z_scope.




End Claims5.
